(** * Construction Check: the progressive-estimate generator (generate_data_v2.py)

    A shallow embedding of the synthetic data generator: the AACE class
    table, the regional pricing table, the budget computation of
    [generate_projects], [generate_progressive_estimates] and
    [generate_estimates]; then the generators of the other tables
    ([generate_businesses], [generate_estimators], [generate_expertise],
    [generate_reviews]) and [main], which runs them all.

    Numbers.  Python floats are idealised as exact rationals ([Q]); Python
    ints are [Z].  [round(x, 2)] is rounding to the nearest hundredth, ties
    to even.  Statements about rationals use [==], [<=] and [<] of [Q].
    A double differs from the rational it stands for by a relative error
    of 2^-53, which can move a stored amount to the neighbouring cent when
    the exact value sits on a rounding tie.  So what is stated of a
    stored amount is its order against other stored amounts, or its
    distance, at most a cent, from the exact quantity it was computed
    from.

    Randomness.  The script draws from four sources: the global [random]
    module, [np.random], the [Faker] instance and [uuid.uuid4] (operating
    system entropy).  Each is a tape of raw words that the generator code
    consumes from the front, threaded through a state-and-error monad.
    [datetime.now()] reads a fifth tape, the successive clock readings.

    Database.  [cursor.execute("INSERT ...")] appends a row to a table, or
    raises when the row breaks a constraint of the schema (primary keys,
    UNIQUE e-mails, CHECKs on ratings).  Each generator function is
    modelled twice: as the rows its loop builds, in insertion order, and,
    under the name of the function followed by [_conn], with the INSERT
    inside the loop.  The second is the first followed by the INSERTs of
    its rows ([generate_projects_conn_spec] and the like), and [main],
    which hands the rows of each generator to the database, is the run
    with every INSERT at its place ([main_conn_spec]).

    The file has two parts: the model (definitions translated from the
    source, the notions the statements use, a small data set), then the
    proofs. *)

From Stdlib Require Import ZArith QArith Qround Qabs List String Bool Lia Lqa.
From Stdlib Require Import Permutation.
Import ListNotations.

Local Open Scope string_scope.
Local Open Scope Z_scope.

(* ================================================================== *)
(** ** Rounding: Python's [round(x, 2)] *)

Module Round.

(** Nearest integer, ties to the even neighbour. *)
Definition round_half_even (q : Q) : Z :=
  let f := Qfloor q in
  match Qcompare (q - inject_Z f) (1 # 2) with
  | Lt => f
  | Gt => f + 1
  | Eq => if Z.even f then f else f + 1
  end.

(** [round(x, 2)] *)
Definition round2 (x : Q) : Q := Qmake (round_half_even (x * 100)) 100.

End Round.
Export Round.

(* ================================================================== *)
(** ** Configuration constants and static tables *)

Definition NUM_PROJECTS : nat := 800.
Definition PROGRESSIVE_ESTIMATE_RATE : Q := 0.40%Q.
Definition MAX_PROGRESSIVE_ESTIMATES : Z := 5.

(** A Python dict with string keys, as the list of its items in insertion
    order (the order [list(d.keys())] returns). *)
Definition dict (V : Type) : Type := list (string * V).

Fixpoint dict_lookup {V : Type} (d : dict V) (k : string) : option V :=
  match d with
  | [] => None
  | (k', v) :: rest => if String.eqb k k' then Some v else dict_lookup rest k
  end.

Definition dict_keys {V : Type} (d : dict V) : list string := map fst d.

(** [d.get(k, default)] *)
Definition dict_get {V : Type} (d : dict V) (k : string) (default : V) : V :=
  match dict_lookup d k with
  | Some v => v
  | None => default
  end.

Record ClassInfo : Type := mkClassInfo {
  name : string;
  confidence_low : Z;
  confidence_high : Z;
  typical_contingency : Q;
  engineering_completion : Z;
  preparation_effort : string;
  end_use : string
}.

Definition AACE_CLASSES : dict ClassInfo :=
  [ ("class_5", mkClassInfo "Class 5 - Conceptual" (-50) 100 20.0%Q 2
                  "minimal" "Screening/Feasibility");
    ("class_4", mkClassInfo "Class 4 - Study/Feasibility" (-30) 50 15.0%Q 10
                  "low" "Concept Study/Feasibility");
    ("class_3", mkClassInfo "Class 3 - Budget/Authorization" (-20) 30 12.0%Q 30
                  "medium" "Budget/Authorization/Control");
    ("class_2", mkClassInfo "Class 2 - Control/Bid" (-15) 20 8.0%Q 65
                  "high" "Control/Bid/Tender");
    ("class_1", mkClassInfo "Class 1 - Check/Bid" (-10) 15 5.0%Q 95
                  "very_high" "Check Estimate/Bid/Control") ].

Definition REGIONAL_COST_MULTIPLIERS : dict Q :=
  [ ("NY", 1.35%Q); ("CA", 1.30%Q); ("MA", 1.25%Q); ("WA", 1.20%Q);
    ("HI", 2.00%Q);
    ("IL", 1.15%Q); ("CO", 1.12%Q); ("OR", 1.10%Q); ("PA", 1.08%Q);
    ("MN", 1.50%Q);
    ("TX", 1.00%Q); ("FL", 1.00%Q); ("NC", 0.98%Q); ("GA", 0.97%Q);
    ("AZ", 0.96%Q);
    ("TN", 0.92%Q); ("OH", 0.90%Q); ("IN", 0.88%Q); ("NV", 0.95%Q);
    ("MI", 0.93%Q) ].

Definition PROJECT_TYPES : list string :=
  [ "new_construction"; "renovation"; "addition";
    "infrastructure"; "demolition"; "tenant_improvement" ].

Definition PROJECT_SUBTYPES : dict (list string) :=
  [ ("commercial",
       ["office_building"; "retail"; "restaurant"; "warehouse"; "hotel"]);
    ("residential",
       ["single_family"; "multi_family"; "townhome"; "condo"; "apartment"]);
    ("infrastructure", ["road"; "bridge"; "utility"; "parking"; "site_work"]);
    ("industrial", ["manufacturing"; "distribution"; "processing"; "research"]);
    ("institutional",
       ["school"; "hospital"; "government"; "religious"; "civic"]) ].

Definition ESTIMATION_METHODS : list string :=
  [ "parametric"; "analogical"; "engineering"; "detailed_takeoff" ].

Definition MAJOR_CITIES : list (string * string) :=
  [ ("New York", "NY"); ("Los Angeles", "CA"); ("Chicago", "IL");
    ("Houston", "TX"); ("Phoenix", "AZ"); ("Philadelphia", "PA");
    ("San Antonio", "TX"); ("San Diego", "CA"); ("Dallas", "TX");
    ("Austin", "TX"); ("Jacksonville", "FL"); ("San Jose", "CA");
    ("Fort Worth", "TX"); ("Columbus", "OH"); ("Charlotte", "NC");
    ("Indianapolis", "IN"); ("Seattle", "WA"); ("Denver", "CO");
    ("Boston", "MA"); ("Portland", "OR"); ("Atlanta", "GA");
    ("Miami", "FL"); ("Las Vegas", "NV"); ("Detroit", "MI");
    ("Nashville", "TN"); ("Minneapolis", "MN"); ("Tampa", "FL") ].

(** Get regional cost multiplier for state *)
Definition get_regional_multiplier (state : string) : Q :=
  dict_get REGIONAL_COST_MULTIPLIERS state 1.0%Q.

(* ================================================================== *)
(** ** Dates

    A naive [datetime] is the number of seconds since 1970-01-01T00:00:00
    (every datetime the generator handles has whole seconds); a [timedelta]
    is a number of seconds as well. *)

Module Datetime.

Definition datetime : Type := Z.
Definition timedelta : Type := Z.

Definition SECONDS_PER_DAY : Z := 86400.

(** Days from 1970-01-01 to the given proleptic Gregorian date. *)
Definition days_from_civil (y m d : Z) : Z :=
  let y' := if m <=? 2 then y - 1 else y in
  let era := y' / 400 in
  let yoe := y' - era * 400 in
  let mp := (m + 9) mod 12 in
  let doy := (153 * mp + 2) / 5 + d - 1 in
  let doe := yoe * 365 + yoe / 4 - yoe / 100 + doy in
  era * 146097 + doe - 719468.

(** [datetime(y, m, d)] *)
Definition mk_datetime (y m d : Z) : datetime :=
  days_from_civil y m d * SECONDS_PER_DAY.

(** [timedelta(days=n)] *)
Definition timedelta_days (n : Z) : timedelta := n * SECONDS_PER_DAY.

(** [td.days] *)
Definition days (td : timedelta) : Z := td / SECONDS_PER_DAY.

(** [dt.date()], as a day number *)
Definition date (dt : datetime) : Z := dt / SECONDS_PER_DAY.

End Datetime.
Import Datetime.

Definition START_DATE : datetime := mk_datetime 2023 12 1.
Definition END_DATE : datetime := mk_datetime 2025 11 30.

(* ================================================================== *)
(** ** Sources of randomness and the generator monad *)

(** A tape of raw words, read from position 0. *)
Definition Tape : Type := nat -> N.

(** The four sources the script draws from.
    - [py_random]: the state of the global [random] module;
    - [np_random]: the state of [np.random]; the only numpy sampler the
      modelled functions call is [lognormal], so the tape holds the sampled
      values themselves, each a positive rational numerator/denominator;
    - [faker]: the state of the [Faker] instance [fake];
    - [os_urandom]: operating-system entropy, read by [uuid.uuid4]. *)
Record Generators : Type := mkGenerators {
  py_random : Tape;
  np_random : nat -> positive * positive;
  faker : Tape;
  os_urandom : Tape
}.

Definition tl_tape {A : Type} (t : nat -> A) : nat -> A := fun n => t (S n).

(** A computation that reads the generators and either raises (None) or
    returns a value and the generators it leaves behind. *)
Definition Gen (A : Type) : Type := Generators -> option (A * Generators).

Definition ret {A : Type} (a : A) : Gen A := fun g => Some (a, g).

Definition raise {A : Type} : Gen A := fun _ => None.

Definition bind {A B : Type} (m : Gen A) (k : A -> Gen B) : Gen B :=
  fun g => match m g with
           | Some (a, g') => k a g'
           | None => None
           end.

Notation "x <- m ;; k" := (bind m (fun x => k))
  (at level 61, m at next level, right associativity).
Notation "' pat <- m ;; k" := (bind m (fun x => match x with pat => k end))
  (at level 61, pat pattern, m at next level, right associativity).

(** [for x in xs: ys.append(f(x))] *)
Fixpoint for_each {A B : Type} (f : A -> Gen B) (xs : list A) : Gen (list B) :=
  match xs with
  | [] => ret []
  | x :: rest => y <- f x ;; ys <- for_each f rest ;; ret (y :: ys)
  end.

(** [range(n)] *)
Definition range (n : Z) : list Z := map Z.of_nat (seq 0 (Z.to_nat n)).

(** *** The [random] module

    Every call reads one raw word of the tape.  (The Mersenne Twister may
    read more than one word per call; no statement below depends on how
    many.) *)

Definition getrandword : Gen N := fun g =>
  Some (py_random g 0%nat,
        mkGenerators (tl_tape (py_random g)) (np_random g) (faker g)
                     (os_urandom g)).

(** [random.random()]: 53 random bits over 2^53, in [0, 1). *)
Definition random_random : Gen Q :=
  w <- getrandword ;;
  ret (Qmake (Z.of_N w mod 2 ^ 53) (2 ^ 53)).

(** [_randbelow(n)] for n > 0 *)
Definition randbelow (n : Z) : Gen Z :=
  w <- getrandword ;; ret (Z.of_N w mod n).

(** [random.randint(a, b)]: ValueError on an empty range. *)
Definition random_randint (a b : Z) : Gen Z :=
  if b <? a then raise else r <- randbelow (b - a + 1) ;; ret (a + r).

(** [random.uniform(a, b)] is [a + (b - a) * random()]. *)
Definition random_uniform (a b : Q) : Gen Q :=
  u <- random_random ;; ret (a + (b - a) * u)%Q.

(** [random.choice(seq)]: IndexError on an empty sequence. *)
Definition random_choice {A : Type} (xs : list A) : Gen A :=
  match xs with
  | [] => raise
  | _ => i <- randbelow (Z.of_nat (List.length xs)) ;;
         match nth_error xs (Z.to_nat i) with
         | Some x => ret x
         | None => raise
         end
  end.

(** [itertools.accumulate(weights)] *)
Fixpoint accumulate (acc : Q) (ws : list Q) : list Q :=
  match ws with
  | [] => []
  | w :: rest => (acc + w)%Q :: accumulate (acc + w)%Q rest
  end.

(** [bisect(cum, x, 0, hi)] on an ascending list: how many of the first
    [hi] entries are [<= x]. *)
Fixpoint bisect (cum : list Q) (x : Q) (hi : nat) : nat :=
  match cum, hi with
  | c :: rest, S hi' => if Qle_bool c x then S (bisect rest x hi') else O
  | _, _ => O
  end.

(** [random.choices(population, weights=ws)[0]] *)
Definition random_choices {A : Type} (population : list A) (ws : list Q)
  : Gen A :=
  let cum_weights := accumulate 0%Q ws in
  match rev cum_weights with
  | [] => raise
  | total :: _ =>
      u <- random_random ;;
      match nth_error population
              (bisect cum_weights (u * total)%Q (List.length population - 1)) with
      | Some x => ret x
      | None => raise
      end
  end.

(** [pool[j] = v] *)
Fixpoint list_set {A : Type} (xs : list A) (j : nat) (v : A) : list A :=
  match xs, j with
  | [] , _ => []
  | _ :: rest, O => v :: rest
  | x :: rest, S j' => x :: list_set rest j' v
  end.

(** The selection loop of [random.sample] over a copied pool:
    [j = randbelow(n - i); result[i] = pool[j]; pool[j] = pool[n - i - 1]]. *)
Fixpoint sample_loop {A : Type} (pool : list A) (n : nat) (k : nat)
  : Gen (list A) :=
  match k with
  | O => ret []
  | S k' =>
      j <- randbelow (Z.of_nat n) ;;
      match nth_error pool (Z.to_nat j), nth_error pool (n - 1) with
      | Some x, Some last =>
          rest <- sample_loop (list_set pool (Z.to_nat j) last) (n - 1) k' ;;
          ret (x :: rest)
      | _, _ => raise
      end
  end.

(** [random.sample(population, k)]: ValueError when [k] exceeds the
    population or is negative; otherwise [k] elements at distinct
    positions.  The library selects them with the loop above on small
    populations and by redrawing repeated indices on large ones; the loop
    stands for both. *)
Definition random_sample {A : Type} (population : list A) (k : Z)
  : Gen (list A) :=
  if (k <? 0) || (Z.of_nat (List.length population) <? k) then raise
  else sample_loop population (List.length population) (Z.to_nat k).

(** *** numpy, Faker, uuid *)

(** [np.random.lognormal(mean, sigma)]: a positive value, the next of the
    numpy tape.  The tape holds what the sampler makes of its stream for
    the [mean] and [sigma] of the call; which values that can be is said
    where a statement depends on it ([lognormal_in_range]). *)
Definition np_random_lognormal (mean sigma : Q) : Gen Q := fun g =>
  let '(n, d) := np_random g 0%nat in
  Some (Qmake (Zpos n) d,
        mkGenerators (py_random g) (tl_tape (np_random g)) (faker g)
                     (os_urandom g)).

Definition fake_word : Gen N := fun g =>
  Some (faker g 0%nat,
        mkGenerators (py_random g) (np_random g) (tl_tape (faker g))
                     (os_urandom g)).

(** [fake.date_time_between(start_date, end_date)]: a whole-second
    datetime between the two, both included. *)
Definition fake_date_time_between (start_date end_date : datetime)
  : Gen datetime :=
  if end_date <? start_date then raise
  else w <- fake_word ;;
       ret (start_date + Z.of_N w mod (end_date - start_date + 1)).

(** Text produced by Faker ([fake.text], [fake.zipcode]): stands for the
    string Faker renders from the word it drew. *)
Definition FakeText : Type := N.
Definition fake_text (max_nb_chars : Z) : Gen FakeText := fake_word.
Definition fake_zipcode : Gen FakeText := fake_word.

(** [str(uuid.uuid4())]: 128 bits of operating-system entropy. *)
Definition UUID : Type := N.
Definition uuid4 : Gen UUID := fun g =>
  Some ((os_urandom g 0%nat mod 2 ^ 128)%N,
        mkGenerators (py_random g) (np_random g) (faker g)
                     (tl_tape (os_urandom g))).

(* ================================================================== *)
(** ** Records

    Rows are the dicts the generator builds and INSERTs.  A business and an
    estimator are read by the modelled functions through their id only. *)

Module Business.
Record t : Type := mk { business_id : UUID }.
End Business.

Module Estimator.
Record t : Type := mk { estimator_id : UUID }.
End Estimator.

Module Project.
Record t : Type := mk {
  project_id : UUID;
  business_id : UUID;
  (** the adjective drawn for the title; the title string is formatted from
      it, the sector and the subtype *)
  project_title : string;
  project_description : FakeText;
  project_type : string;
  project_subtype : string;
  project_city : string;
  project_state : string;
  project_zip : FakeText;
  regional_cost_multiplier : Q;
  square_footage : Z;
  estimated_budget_min : Q;
  estimated_budget_max : Q;
  (** a date, as a day number *)
  estimate_needed_by : Z;
  status : string;
  (** stored with [isoformat()] and read back with [fromisoformat] *)
  posted_date : datetime;
  urgency_level : string
}.
End Project.

Module Estimate.
Record t : Type := mk {
  estimate_id : UUID;
  project_id : UUID;
  estimator_id : UUID;
  estimate_sequence : Z;
  aace_class : string;
  engineering_completion_percent : Z;
  estimated_total_cost : Q;
  confidence_interval_low : Q;
  confidence_interval_high : Q;
  labor_cost : Q;
  materials_cost : Q;
  equipment_cost : Q;
  subcontractor_cost : Q;
  overhead_cost : Q;
  profit_margin : Q;
  contingency_percent : Q;
  estimated_duration_days : Z;
  estimation_method : string;
  status : string;
  submitted_date : datetime
}.
End Estimate.

(** [xs[i]] with Python's negative indices; IndexError out of range. *)
Definition list_index {A : Type} (xs : list A) (i : Z) : Gen A :=
  let n := Z.of_nat (List.length xs) in
  if (i <? - n) || (n <=? i) then raise
  else match nth_error xs (Z.to_nat (if i <? 0 then n + i else i)) with
       | Some x => ret x
       | None => raise
       end.

(** [d[k]]; KeyError when absent. *)
Definition dict_getitem {V : Type} (d : dict V) (k : string) : Gen V :=
  match dict_lookup d k with
  | Some v => ret v
  | None => raise
  end.

Definition Qlt_bool (x y : Q) : bool := negb (Qle_bool y x).

(* ================================================================== *)
(** ** generate_projects *)

(** Lines 653-659: the budget interval from the log-normal draw. *)
Definition project_budget (base_budget : Q) (state : string) : Q * Q * Q :=
  let regional_multiplier := get_regional_multiplier state in
  let adjusted_budget := (base_budget * regional_multiplier)%Q in
  let budget_min := round2 (adjusted_budget * 0.8) in
  let budget_max := round2 (adjusted_budget * 1.2) in
  (regional_multiplier, budget_min, budget_max).

(** The status policy keyed on elapsed days since posting. *)
Definition project_status (days_since_posted : Z) : Gen string :=
  if 300 <? days_since_posted then
    random_choices ["completed"; "cancelled"; "in_progress"]
                   [0.6; 0.1; 0.3]%Q
  else if 150 <? days_since_posted then
    random_choices ["in_progress"; "estimate_delivered"; "completed"]
                   [0.5; 0.3; 0.2]%Q
  else if 60 <? days_since_posted then
    random_choices ["matched"; "estimate_in_progress"; "in_progress"]
                   [0.3; 0.4; 0.3]%Q
  else
    random_choices ["posted"; "in_bidding"; "matched"] [0.3; 0.5; 0.2]%Q.

(** One iteration of the loop of [generate_projects]. *)
Definition generate_project (businesses : list Business.t) : Gen Project.t :=
  business <- random_choice businesses ;;
  '(city, state) <- random_choice MAJOR_CITIES ;;
  posted_date <- fake_date_time_between START_DATE END_DATE ;;
  sector <- random_choice (dict_keys PROJECT_SUBTYPES) ;;
  subtypes <- dict_getitem PROJECT_SUBTYPES sector ;;
  subtype <- random_choice subtypes ;;
  base_budget <- np_random_lognormal 13 1.2 ;;
  let '(regional_multiplier, budget_min, budget_max) :=
    project_budget base_budget state in
  let days_since_posted := days (END_DATE - posted_date) in
  status <- project_status days_since_posted ;;
  project_id <- uuid4 ;;
  title <- random_choice ["New"; "Modern"; "Premium"] ;;
  description <- fake_text 300 ;;
  project_type <- random_choice PROJECT_TYPES ;;
  zip <- fake_zipcode ;;
  square_footage <- random_randint 1000 500000 ;;
  needed_days <- random_randint 7 30 ;;
  urgency <- random_choices ["low"; "normal"; "high"; "urgent"]
                            [0.2; 0.5; 0.2; 0.1]%Q ;;
  ret (Project.mk project_id (Business.business_id business) title
         description project_type subtype city state zip
         regional_multiplier square_footage budget_min budget_max
         (date (posted_date + timedelta_days needed_days)) status
         posted_date urgency).

(** The rows inserted into [projects], which is also the list returned. *)
Definition generate_projects_n (n : nat) (businesses : list Business.t)
  : Gen (list Project.t) :=
  for_each (fun _ => generate_project businesses) (seq 0 n).

Definition generate_projects (businesses : list Business.t)
  : Gen (list Project.t) :=
  generate_projects_n NUM_PROJECTS businesses.

(* ================================================================== *)
(** ** generate_progressive_estimates and generate_estimates *)

Definition class_progression : list string :=
  ["class_5"; "class_4"; "class_3"; "class_2"; "class_1"].

(** Base cost (true value): the midpoint of the budget interval. *)
Definition base_cost_of (project : Project.t) : Q :=
  ((Project.estimated_budget_min project
    + Project.estimated_budget_max project) / 2)%Q.

(** The body of the loop [for seq in range(num_estimates)]. *)
Definition progressive_estimate (project : Project.t)
    (estimator : Estimator.t) (num_estimates : Z) (base_cost : Q)
    (posted_date : datetime) (seq : Z) : Gen Estimate.t :=
  let class_index := Z.min seq (Z.of_nat (List.length class_progression) - 1) in
  aace_class <- list_index class_progression class_index ;;
  class_info <- dict_getitem AACE_CLASSES aace_class ;;
  let variance_low := (inject_Z (confidence_low class_info) / 100)%Q in
  let variance_high := (inject_Z (confidence_high class_info) / 100)%Q in
  variance <- random_uniform variance_low variance_high ;;
  let estimated_cost := (base_cost * (1 + variance))%Q in
  step_days <- random_randint 7 21 ;;
  let days_offset := seq * step_days in
  let submitted_date := posted_date + timedelta_days days_offset in
  jitter <- random_randint (-5) 10 ;;
  let engineering_pct :=
    Z.max 0 (Z.min 100 (engineering_completion class_info + jitter)) in
  contingency_jitter <- random_uniform (-2) 2 ;;
  let contingency_pct :=
    (typical_contingency class_info + contingency_jitter)%Q in
  labor_f <- random_uniform 0.3 0.45 ;;
  materials_f <- random_uniform 0.25 0.40 ;;
  equipment_f <- random_uniform 0.05 0.15 ;;
  subcontractor_f <- random_uniform 0.10 0.25 ;;
  overhead_f <- random_uniform 0.08 0.15 ;;
  profit_f <- random_uniform 0.05 0.12 ;;
  estimate_id <- uuid4 ;;
  duration <- random_randint 30 720 ;;
  ret (Estimate.mk estimate_id (Project.project_id project)
         (Estimator.estimator_id estimator) (seq + 1) aace_class
         engineering_pct
         (round2 estimated_cost)
         (round2 (base_cost * (1 + variance_low)))
         (round2 (base_cost * (1 + variance_high)))
         (round2 (estimated_cost * labor_f))
         (round2 (estimated_cost * materials_f))
         (round2 (estimated_cost * equipment_f))
         (round2 (estimated_cost * subcontractor_f))
         (round2 (estimated_cost * overhead_f))
         (round2 (estimated_cost * profit_f))
         (round2 contingency_pct)
         duration
         (if class_index <? Z.of_nat (List.length ESTIMATION_METHODS)
          then nth (Z.to_nat class_index) ESTIMATION_METHODS "detailed_takeoff"
          else "detailed_takeoff")
         (if seq =? num_estimates - 1 then "accepted" else "superseded")
         submitted_date)%Q.

(** Generate progressive estimate refinement for a single project.  The
    result is the rows inserted into [estimates], in insertion order, and
    the returned count [num_estimates]. *)
Definition generate_progressive_estimates (project : Project.t)
    (estimators : list Estimator.t) : Gen (list Estimate.t * Z) :=
  estimator <- random_choice estimators ;;
  num_estimates <- random_randint 2 MAX_PROGRESSIVE_ESTIMATES ;;
  let base_cost := base_cost_of project in
  let posted_date := Project.posted_date project in
  rows <- for_each
            (progressive_estimate project estimator num_estimates base_cost
                                  posted_date)
            (range num_estimates) ;;
  ret (rows, num_estimates).

(** The body of [for estimator in selected_estimators] (independent bids). *)
Definition single_estimate (project : Project.t) (estimator : Estimator.t)
  : Gen Estimate.t :=
  aace_class <- random_choice (dict_keys AACE_CLASSES) ;;
  class_info <- dict_getitem AACE_CLASSES aace_class ;;
  let base_cost := base_cost_of project in
  let variance_low := (inject_Z (confidence_low class_info) / 100)%Q in
  let variance_high := (inject_Z (confidence_high class_info) / 100)%Q in
  variance <- random_uniform variance_low variance_high ;;
  let estimated_cost := (base_cost * (1 + variance))%Q in
  jitter <- random_randint (-5) 10 ;;
  let engineering_pct :=
    Z.max 0 (Z.min 100 (engineering_completion class_info + jitter)) in
  contingency_jitter <- random_uniform (-2) 2 ;;
  let contingency_pct :=
    (typical_contingency class_info + contingency_jitter)%Q in
  labor_f <- random_uniform 0.3 0.45 ;;
  materials_f <- random_uniform 0.25 0.40 ;;
  equipment_f <- random_uniform 0.05 0.15 ;;
  subcontractor_f <- random_uniform 0.10 0.25 ;;
  overhead_f <- random_uniform 0.08 0.15 ;;
  profit_f <- random_uniform 0.05 0.12 ;;
  submit_days <- random_randint 1 14 ;;
  let submitted_date :=
    Project.posted_date project + timedelta_days submit_days in
  estimate_id <- uuid4 ;;
  duration <- random_randint 30 720 ;;
  method <- random_choice ESTIMATION_METHODS ;;
  accept <- random_random ;;
  ret (Estimate.mk estimate_id (Project.project_id project)
         (Estimator.estimator_id estimator) 1 aace_class
         engineering_pct
         (round2 estimated_cost)
         (round2 (base_cost * (1 + variance_low)))
         (round2 (base_cost * (1 + variance_high)))
         (round2 (estimated_cost * labor_f))
         (round2 (estimated_cost * materials_f))
         (round2 (estimated_cost * equipment_f))
         (round2 (estimated_cost * subcontractor_f))
         (round2 (estimated_cost * overhead_f))
         (round2 (estimated_cost * profit_f))
         (round2 contingency_pct)
         duration method
         (if Qlt_bool 0.7 accept then "accepted" else "pending")
         submitted_date)%Q.

(** The body of [for project in projects]: the rows inserted for one
    project, by either mode. *)
Definition project_estimates (estimators : list Estimator.t)
    (project : Project.t) : Gen (list Estimate.t) :=
  mode <- random_random ;;
  if Qlt_bool mode PROGRESSIVE_ESTIMATE_RATE then
    '(rows, _) <- generate_progressive_estimates project estimators ;;
    ret rows
  else
    num_estimates <- random_randint 1 3 ;;
    selected_estimators <-
      random_sample estimators
        (Z.min num_estimates (Z.of_nat (List.length estimators))) ;;
    for_each (single_estimate project) selected_estimators.

(** Generate estimates (mix of progressive and single estimates): all rows
    inserted into [estimates], in insertion order. *)
Definition generate_estimates (projects : list Project.t)
    (estimators : list Estimator.t) : Gen (list Estimate.t) :=
  per_project <- for_each (project_estimates estimators) projects ;;
  ret (List.concat per_project).

(* ================================================================== *)
(** ** Module initialisation and reproducibility *)

(** What seeding fixes: [np.random.seed(s)] and [Faker.seed(s)] each
    determine the whole stream of their generator from [s]. *)
Record SeededStreams : Type := mkSeededStreams {
  numpy_stream : Z -> nat -> positive * positive;
  faker_stream : Z -> Tape
}.

(** What the operating system hands to a run: the initial state of the
    global [random] module, which the interpreter seeds from system
    entropy when it is imported and the script never seeds itself, and the
    bytes [uuid.uuid4] reads. *)
Record Entropy : Type := mkEntropy {
  random_module_state : Tape;
  urandom : Tape
}.

Definition SEED : Z := 42.

(** Lines 21-24: [fake = Faker('en_US'); Faker.seed(seed);
    np.random.seed(seed)].  Nothing seeds [random]. *)
Definition module_init (streams : SeededStreams) (seed : Z) (os : Entropy)
  : Generators :=
  mkGenerators (random_module_state os)
               (numpy_stream streams seed)
               (faker_stream streams seed)
               (urandom os).

(* ================================================================== *)
(** ** Notions used to state the properties *)

Section Notions.
Local Open Scope Q_scope.

(** Percent offset of a class as a ratio: [class_info[...] / 100.0]. *)
Definition ratio (pct : Z) : Q := inject_Z pct / 100.

(** The pricing part of a row, common to both modes: the class entry, the
    sampled variance and the sampled fractions it was computed from. *)
Inductive priced_row (base_cost : Q) (e : Estimate.t) : Prop :=
| PricedRow (class_info : ClassInfo)
    (variance contingency_jitter : Q)
    (labor_f materials_f equipment_f subcontractor_f overhead_f profit_f : Q)
    (Hclass : dict_lookup AACE_CLASSES (Estimate.aace_class e)
              = Some class_info)
    (Hvariance : ratio (confidence_low class_info) <= variance
                 /\ variance <= ratio (confidence_high class_info))
    (Htotal : Estimate.estimated_total_cost e
              = round2 (base_cost * (1 + variance)))
    (Hlow : Estimate.confidence_interval_low e
            = round2 (base_cost * (1 + ratio (confidence_low class_info))))
    (Hhigh : Estimate.confidence_interval_high e
             = round2 (base_cost * (1 + ratio (confidence_high class_info))))
    (Hjitter : -2 <= contingency_jitter /\ contingency_jitter <= 2)
    (Hcontingency : Estimate.contingency_percent e
        = round2 (typical_contingency class_info + contingency_jitter))
    (Hlabor_f : 0.3 <= labor_f /\ labor_f <= 0.45)
    (Hlabor : Estimate.labor_cost e
              = round2 (base_cost * (1 + variance) * labor_f))
    (Hmaterials_f : 0.25 <= materials_f /\ materials_f <= 0.40)
    (Hmaterials : Estimate.materials_cost e
                  = round2 (base_cost * (1 + variance) * materials_f))
    (Hequipment_f : 0.05 <= equipment_f /\ equipment_f <= 0.15)
    (Hequipment : Estimate.equipment_cost e
                  = round2 (base_cost * (1 + variance) * equipment_f))
    (Hsubcontractor_f : 0.10 <= subcontractor_f /\ subcontractor_f <= 0.25)
    (Hsubcontractor : Estimate.subcontractor_cost e
                      = round2 (base_cost * (1 + variance) * subcontractor_f))
    (Hoverhead_f : 0.08 <= overhead_f /\ overhead_f <= 0.15)
    (Hoverhead : Estimate.overhead_cost e
                 = round2 (base_cost * (1 + variance) * overhead_f))
    (Hprofit_f : 0.05 <= profit_f /\ profit_f <= 0.12)
    (Hprofit : Estimate.profit_margin e
               = round2 (base_cost * (1 + variance) * profit_f)).

(** The part of a row that is specific to step [seq] of a progressive
    sequence of [num_estimates] estimates. *)
Inductive progressive_row (project : Project.t) (estimator : Estimator.t)
    (num_estimates : Z) (seq : Z) (e : Estimate.t) : Prop :=
| ProgressiveRow (step_days : Z)
    (Hproject : Estimate.project_id e = Project.project_id project)
    (Hestimator : Estimate.estimator_id e = Estimator.estimator_id estimator)
    (Hsequence : Estimate.estimate_sequence e = (seq + 1)%Z)
    (Haace : nth_error class_progression (Z.to_nat (Z.min seq 4))
             = Some (Estimate.aace_class e))
    (Hstep : (7 <= step_days <= 21)%Z)
    (Hsubmitted : Estimate.submitted_date e
        = (Project.posted_date project + timedelta_days (seq * step_days))%Z)
    (Hstatus : Estimate.status e
        = if (seq =? num_estimates - 1)%Z then "accepted" else "superseded").

(** [confidence_interval_high - confidence_interval_low] *)
Definition interval_width (e : Estimate.t) : Q :=
  Estimate.confidence_interval_high e - Estimate.confidence_interval_low e.

(** The budget interval of [p] is the one lines 653-659 compute from the
    log-normal draw [b]. *)
Definition drawn_from (b : Q) (p : Project.t) : Prop :=
  (Project.regional_cost_multiplier p, Project.estimated_budget_min p,
   Project.estimated_budget_max p)
  = project_budget b (Project.project_state p).

End Notions.

(** "class k" of the class order 5 > 4 > 3 > 2 > 1. *)
Definition aace_class_name (k : Z) : string :=
  match k with
  | 1 => "class_1"
  | 2 => "class_2"
  | 3 => "class_3"
  | 4 => "class_4"
  | 5 => "class_5"
  | _ => ""
  end.

(** The bands of the class walk, as (low, high) percent offsets. *)
Definition progression_bands : list (Z * Z) :=
  [(-50, 100); (-30, 50); (-20, 30); (-15, 20); (-10, 15)]%Z.

Definition is_accepted (e : Estimate.t) : bool :=
  String.eqb (Estimate.status e) "accepted".

(** Whole days between two datetimes. *)
Definition days_between (earlier later : datetime) : Z :=
  days (later - earlier).

(* ================================================================== *)
(** ** A small data set to run the generators on *)

Module Fixture.

(** A tape that starts with the given words and continues with zeros. *)
Definition tape_of (ws : list N) : Tape := fun n => nth n ws 0%N.

Definition estimators : list Estimator.t :=
  [Estimator.mk 901%N; Estimator.mk 902%N; Estimator.mk 903%N].

Definition businesses : list Business.t := [Business.mk 501%N].

(** A project in New York whose log-normal draw was 1,000,000. *)
Definition project : Project.t :=
  Project.mk 7001%N 501%N "Modern" 0%N "renovation" "retail" "New York" "NY"
    0%N 1.35%Q 25000 1080000%Q 1620000%Q 19700 "in_progress"
    (mk_datetime 2024 3 15) "normal".

(** [random] words: the estimator choice, then [num_estimates] = 2 + 1,
    then eleven words per step; the second word of a step is the one
    [random.randint(7, 21)] reads: 7 + 14 at step 1, 7 + 0 at step 2. *)
Definition generators : Generators :=
  mkGenerators
    (tape_of [ 1; 1;
               0; 3; 5; 0; 0; 0; 0; 0; 0; 0; 100;
               0; 14; 5; 0; 0; 0; 0; 0; 0; 0; 100;
               0; 0; 5; 0; 0; 0; 0; 0; 0; 0; 100 ])%N
    (fun _ => (1000000%positive, 1%positive))
    (tape_of [86400%N])
    (tape_of [11; 12; 13; 14; 15; 16; 17; 18]%N).


(** A project in Texas with budgets 800,000 and 1,200,000: base cost
    1,000,000. *)
Definition million_project : Project.t :=
  Project.mk 7002%N 501%N "New" 0%N "addition" "hotel" "Houston" "TX"
    0%N 1.00%Q 40000 800000%Q 1200000%Q 19800 "matched"
    (mk_datetime 2025 1 10) "high".

(** [random] words giving [num_estimates] = 2 + 3. *)
Definition five_step_generators : Generators :=
  mkGenerators (tape_of [0; 3]%N) (fun _ => (1%positive, 1%positive))
               (tape_of []) (tape_of [41; 42; 43; 44; 45]%N).

(** Two runs on the same machine: the interpreter seeded [random]
    differently and [os.urandom] returned different bytes. *)
Definition first_run : Entropy :=
  mkEntropy (tape_of [0; 0; 0]%N) (tape_of [11; 12; 13]%N).

Definition second_run : Entropy :=
  mkEntropy (tape_of [0; 0; 1]%N) (tape_of [21; 22; 23]%N).

End Fixture.

(* ================================================================== *)
(** ** Further notions and data for the estimates *)

(** The sum of the six stored cost components. *)
Definition breakdown_sum (e : Estimate.t) : Q :=
  (Estimate.labor_cost e + Estimate.materials_cost e
   + Estimate.equipment_cost e + Estimate.subcontractor_cost e
   + Estimate.overhead_cost e + Estimate.profit_margin e)%Q.

Module FixtureBids.

(** [random] words for the independent-bids mode: [random()] = 0.5, then
    a bid count of 1 + 2. *)
Definition generators : Generators :=
  mkGenerators (Fixture.tape_of [4503599627370496; 2; 1; 0; 0]%N)
               (fun _ => (1%positive, 1%positive))
               (Fixture.tape_of []) (Fixture.tape_of [51; 52; 53]%N).

End FixtureBids.

(* ================================================================== *)
(** ** The other tables: businesses, estimators, expertise, reviews *)

Definition NUM_BUSINESSES : nat := 150.
Definition NUM_CONSULTANTS : nat := 100.
Definition NUM_FREELANCERS : nat := 250.
Definition REVIEW_RATE : Q := 0.5%Q.

Definition INDUSTRY_SECTORS : list string :=
  [ "commercial"; "residential"; "infrastructure";
    "industrial"; "mixed_use"; "institutional" ].

Definition BUSINESS_TYPES : list string :=
  [ "general_contractor"; "developer"; "owner";
    "architect"; "engineer"; "property_manager" ].

Definition COMPANY_SIZES : list string :=
  [ "small"; "medium"; "large"; "enterprise" ].

Definition SPECIALIZATIONS : list string :=
  [ "cost_estimating"; "quantity_surveying"; "value_engineering";
    "forensic_estimating"; "conceptual_estimating"; "detailed_estimating" ].

Definition CERTIFICATIONS : list (string * string * string) :=
  [ ("CCP", "Certified Cost Professional", "AACE International");
    ("PSP", "Planning and Scheduling Professional", "AACE International");
    ("CPE", "Certified Professional Estimator", "ASPE");
    ("MRICS", "Member Royal Institution of Chartered Surveyors", "RICS");
    ("PMP", "Project Management Professional", "PMI");
    ("LEED AP", "Leadership in Energy and Environmental Design", "USGBC") ].

Definition DIVERSITY_CLASSIFICATIONS : list (option string) :=
  [ Some "minority_owned"; Some "women_owned"; Some "veteran_owned";
    Some "lgbtq_owned"; Some "disabled_owned"; None ].

Definition SOFTWARE : list string :=
  [ "Sage Estimating"; "Bluebeam"; "PlanSwift"; "CostX"; "ProEst" ].

(** [round(x, 1)] *)
Definition round1 (x : Q) : Q := Qmake (round_half_even (x * 10)) 10.

(** [np.random.beta(a, b)]: a value strictly between 0 and 1; the pair
    (n, d) on the numpy tape stands for n / (n + d). *)
Definition np_random_beta (a b : Q) : Gen Q := fun g =>
  let '(n, d) := np_random g 0%nat in
  Some (Qmake (Zpos n) (n + d),
        mkGenerators (py_random g) (tl_tape (np_random g)) (faker g)
                     (os_urandom g)).

(** [fake.date_between(start_date, end_date)]: a date, as a day number,
    between the dates of the two datetimes, both included. *)
Definition fake_date_between (start_date end_date : datetime) : Gen Z :=
  if date end_date <? date start_date then raise
  else w <- fake_word ;;
       ret (date start_date
            + Z.of_N w mod (date end_date - date start_date + 1)).

(** The other Faker providers the script calls, each rendering a string
    from the word it draws. *)
Definition fake_company : Gen FakeText := fake_word.
Definition fake_street_address : Gen FakeText := fake_word.
Definition fake_name : Gen FakeText := fake_word.
Definition fake_first_name : Gen FakeText := fake_word.
Definition fake_last_name : Gen FakeText := fake_word.
Definition fake_company_email : Gen FakeText := fake_word.
Definition fake_email : Gen FakeText := fake_word.
Definition fake_phone_number : Gen FakeText := fake_word.

(** *** The clock

    [datetime.now()] reads the system clock.  A [World] is the generators
    together with the tape of the successive clock readings, each in
    microseconds since 1970-01-01T00:00:00. *)

Record World : Type := mkWorld {
  gens : Generators;
  clock : nat -> Z
}.

Definition Run (A : Type) : Type := World -> option (A * World).

Definition run_ret {A : Type} (a : A) : Run A := fun w => Some (a, w).

Definition run_bind {A B : Type} (m : Run A) (k : A -> Run B) : Run B :=
  fun w => match m w with
           | Some (a, w') => k a w'
           | None => None
           end.

(** A computation that only draws from the generators. *)
Definition lift {A : Type} (m : Gen A) : Run A :=
  fun w => match m (gens w) with
           | Some (a, g') => Some (a, mkWorld g' (clock w))
           | None => None
           end.

(** [datetime.now()] *)
Definition datetime_now : Run Z :=
  fun w => Some (clock w 0%nat, mkWorld (gens w) (tl_tape (clock w))).

Fixpoint run_for_each {A B : Type} (f : A -> Run B) (xs : list A)
  : Run (list B) :=
  match xs with
  | [] => run_ret []
  | x :: rest =>
      run_bind (f x) (fun y =>
      run_bind (run_for_each f rest) (fun ys => run_ret (y :: ys)))
  end.

Definition MICROSECONDS_PER_DAY : Z := 86400 * 1000000.
Definition MICROSECONDS_PER_HOUR : Z := 3600 * 1000000.

Module BusinessRow.
Record t : Type := mk {
  business_id : UUID;
  company_name : FakeText;
  industry_sector : string;
  business_type : string;
  street_address : FakeText;
  city : string;
  state : string;
  zip_code : FakeText;
  company_size : string;
  annual_revenue : Q;
  years_in_business : Z;
  (** a date, as a day number *)
  registration_date : Z;
  verification_status : string;
  subscription_tier : string;
  primary_contact : FakeText;
  email : FakeText;
  phone : FakeText;
  reputation_score : Q;
  (** microseconds since 1970-01-01T00:00:00 *)
  last_login : Z
}.
End BusinessRow.

Module EstimatorRow.
Record t : Type := mk {
  estimator_id : UUID;
  first_name : FakeText;
  last_name : FakeText;
  (** the two names the display name is formatted from *)
  display_name : FakeText * FakeText;
  profile_headline : string;
  bio : FakeText;
  estimator_type : string;
  city : string;
  state : string;
  zip_code : FakeText;
  willing_to_travel : Z;
  remote_available : Z;
  years_experience : Z;
  education_level : string;
  hourly_rate : Q;
  minimum_project_fee : Q;
  (** a date, as a day number *)
  registration_date : Z;
  verification_status : string;
  background_check : Z;
  insurance_verified : Z;
  email : FakeText;
  phone : FakeText;
  (** the two names the URL is formatted from *)
  linkedin_url : FakeText * FakeText;
  average_turnaround_hours : Q;
  average_response_hours : Q;
  estimate_accuracy_rate : Q;
  client_satisfaction_score : Q;
  diversity_classification : option string;
  (** microseconds since 1970-01-01T00:00:00 *)
  last_login : Z;
  last_active : Z
}.
End EstimatorRow.

Module Expertise.
Record t : Type := mk {
  expertise_id : UUID;
  estimator_id : UUID;
  specialization_type : string;
  (** the list that [json.dumps] serialises *)
  project_types : list string;
  certification_name : option string;
  issuing_organization : option string;
  (** dates, as day numbers *)
  issue_date : option Z;
  expiry_date : option Z;
  software_proficiency : list string;
  years_in_specialty : Z;
  verified : Z
}.
End Expertise.

Module Review.
Record t : Type := mk {
  review_id : UUID;
  project_id : UUID;
  reviewer_id : UUID;
  reviewer_type : string;
  reviewee_id : UUID;
  reviewee_type : string;
  overall_rating : Q;
  communication_rating : Q;
  professionalism_rating : Q;
  accuracy_rating : Q;
  timeliness_rating : Q;
  value_rating : Q;
  review_title : string;
  review_text : FakeText;
  would_recommend : Z;
  would_work_again : Z;
  verified_review : Z
}.
End Review.

(** What [generate_projects] and [generate_reviews] read of a business,
    and what the estimate and review generators read of an estimator. *)
Definition business_of_row (b : BusinessRow.t) : Business.t :=
  Business.mk (BusinessRow.business_id b).

Definition estimator_of_row (e : EstimatorRow.t) : Estimator.t :=
  Estimator.mk (EstimatorRow.estimator_id e).

Section RunDefinitions.

Declare Scope run_scope.
Notation "x <- m ;; k" := (run_bind m (fun x => k))
  (at level 61, m at next level, right associativity) : run_scope.
Notation "' pat <- m ;; k" :=
  (run_bind m (fun x => match x with pat => k end))
  (at level 61, pat pattern, m at next level, right associativity)
  : run_scope.
Local Open Scope run_scope.

(** One iteration of the loop of [generate_businesses]. *)
Definition generate_business : Run BusinessRow.t :=
  '(city, state) <- lift (random_choice MAJOR_CITIES) ;;
  reg_date <- lift (fake_date_between START_DATE
                      (END_DATE - timedelta_days 180)) ;;
  business_id <- lift uuid4 ;;
  company_name <- lift fake_company ;;
  industry_sector <- lift (random_choice INDUSTRY_SECTORS) ;;
  business_type <- lift (random_choice BUSINESS_TYPES) ;;
  street_address <- lift fake_street_address ;;
  zip_code <- lift fake_zipcode ;;
  company_size <- lift (random_choice COMPANY_SIZES) ;;
  revenue <- lift (np_random_lognormal 15 1.5) ;;
  years_in_business <- lift (random_randint 1 50) ;;
  verification_status <-
    lift (random_choices ["verified"; "pending"] [0.85; 0.15]%Q) ;;
  subscription_tier <-
    lift (random_choices ["basic"; "professional"; "enterprise"]
                         [0.5; 0.35; 0.15]%Q) ;;
  primary_contact <- lift fake_name ;;
  email <- lift fake_company_email ;;
  phone <- lift fake_phone_number ;;
  reputation <- lift (np_random_beta 8 2) ;;
  now <- datetime_now ;;
  login_days <- lift (random_randint 0 30) ;;
  run_ret (BusinessRow.mk business_id company_name industry_sector
             business_type street_address city state zip_code company_size
             (round2 revenue) years_in_business reg_date
             verification_status subscription_tier primary_contact email
             phone (round2 (reputation * 4 + 1))
             (now - login_days * MICROSECONDS_PER_DAY)).

(** Generate business user data: the rows inserted into [businesses],
    which is also the list returned. *)
Definition generate_businesses : Run (list BusinessRow.t) :=
  run_for_each (fun _ => generate_business) (seq 0 NUM_BUSINESSES).

(** One iteration of the loop of [generate_estimators], for index [i]. *)
Definition generate_estimator (i : nat) : Run EstimatorRow.t :=
  let estimator_type :=
    if (i <? NUM_CONSULTANTS)%nat then "consultant" else "freelance_expert" in
  '(city, state) <- lift (random_choice MAJOR_CITIES) ;;
  reg_date <- lift (fake_date_between START_DATE
                      (END_DATE - timedelta_days 90)) ;;
  first_name <- lift fake_first_name ;;
  last_name <- lift fake_last_name ;;
  '(years_exp, hourly, min_fee) <-
    (if String.eqb estimator_type "consultant" then
       years_exp <- lift (random_randint 8 35) ;;
       hourly <- lift (random_uniform 125 350) ;;
       min_fee <- lift (random_uniform 5000 25000) ;;
       run_ret (years_exp, round2 hourly, round2 min_fee)
     else
       years_exp <- lift (random_randint 3 25) ;;
       hourly <- lift (random_uniform 75 200) ;;
       min_fee <- lift (random_uniform 2000 10000) ;;
       run_ret (years_exp, round2 hourly, round2 min_fee)) ;;
  estimator_id <- lift uuid4 ;;
  headline <-
    lift (random_choice ["Senior"; "Professional"; "Expert"; "Certified"]) ;;
  bio <- lift (fake_text 200) ;;
  zip_code <- lift fake_zipcode ;;
  willing_to_travel <- lift (random_choice [0; 1]) ;;
  education_level <-
    lift (random_choice ["bachelors"; "masters"; "professional"]) ;;
  verification_status <-
    lift (random_choices ["verified"; "pending"] [0.9; 0.1]%Q) ;;
  background_check <- lift (random_choice [0; 1]) ;;
  insurance_verified <- lift (random_choice [0; 1]) ;;
  email <- lift fake_email ;;
  phone <- lift fake_phone_number ;;
  turnaround <- lift (random_uniform 24 120) ;;
  response <- lift (random_uniform 1 24) ;;
  accuracy <- lift (np_random_beta 9 2) ;;
  satisfaction <- lift (np_random_beta 8 2) ;;
  diversity <- lift (random_choice DIVERSITY_CLASSIFICATIONS) ;;
  now1 <- datetime_now ;;
  login_days <- lift (random_randint 0 14) ;;
  now2 <- datetime_now ;;
  active_hours <- lift (random_randint 1 168) ;;
  run_ret (EstimatorRow.mk estimator_id first_name last_name
             (first_name, last_name)
             (headline ++ " Cost Estimator") bio estimator_type city state
             zip_code willing_to_travel 1 years_exp education_level
             hourly min_fee reg_date verification_status background_check
             insurance_verified email phone (first_name, last_name)
             (round2 turnaround) (round2 response)
             (round2 (accuracy * 100)) (round2 (satisfaction * 4 + 1))
             diversity
             (now1 - login_days * MICROSECONDS_PER_DAY)
             (now2 - active_hours * MICROSECONDS_PER_HOUR)).

(** Generate estimator user data: the rows inserted into [estimators],
    which is also the list returned. *)
Definition generate_estimators : Run (list EstimatorRow.t) :=
  run_for_each generate_estimator
               (seq 0 (NUM_CONSULTANTS + NUM_FREELANCERS)).

(** The body of the inner loop of [generate_expertise]. *)
Definition generate_expertise_row (estimator : EstimatorRow.t)
  : Run Expertise.t :=
  coin <- lift random_random ;;
  cert <- (if Qlt_bool 0.5 coin
           then c <- lift (random_choice CERTIFICATIONS) ;; run_ret (Some c)
           else run_ret None) ;;
  expertise_id <- lift uuid4 ;;
  specialization <- lift (random_choice SPECIALIZATIONS) ;;
  n_types <- lift (random_randint 2 4) ;;
  project_types <- lift (random_sample INDUSTRY_SECTORS n_types) ;;
  issue_date <-
    (match cert with
     | Some _ =>
         now <- datetime_now ;;
         issue_days <- lift (random_randint 365 3650) ;;
         run_ret (Some ((now - issue_days * MICROSECONDS_PER_DAY)
                        / MICROSECONDS_PER_DAY))
     | None => run_ret None
     end) ;;
  expiry_date <-
    (match cert with
     | Some _ =>
         now <- datetime_now ;;
         expiry_days <- lift (random_randint 365 1825) ;;
         run_ret (Some ((now + expiry_days * MICROSECONDS_PER_DAY)
                        / MICROSECONDS_PER_DAY))
     | None => run_ret None
     end) ;;
  n_software <- lift (random_randint 2 4) ;;
  software <- lift (random_sample SOFTWARE n_software) ;;
  years <- lift (random_randint 2 (EstimatorRow.years_experience estimator)) ;;
  run_ret (Expertise.mk expertise_id (EstimatorRow.estimator_id estimator)
             specialization project_types
             (match cert with
              | Some (short_name, _, _) => Some short_name
              | None => None
              end)
             (match cert with
              | Some (_, _, organization) => Some organization
              | None => None
              end)
             issue_date expiry_date software years
             (match cert with Some _ => 1 | None => 0 end)).

(** The body of the outer loop of [generate_expertise]: the rows of one
    estimator. *)
Definition estimator_expertise (estimator : EstimatorRow.t)
  : Run (list Expertise.t) :=
  num_specializations <- lift (random_randint 1 3) ;;
  run_for_each (fun _ => generate_expertise_row estimator)
               (range num_specializations).

(** Generate expertise and certifications: the rows inserted into
    [expertise]. *)
Definition generate_expertise (estimators : list EstimatorRow.t)
  : Run (list Expertise.t) :=
  per_estimator <- run_for_each estimator_expertise estimators ;;
  run_ret (List.concat per_estimator).

End RunDefinitions.

(** [next(b for b in businesses if b['business_id'] == business_id)]:
    the first match; StopIteration when there is none. *)
Definition next_business (businesses : list Business.t) (business_id : UUID)
  : Gen Business.t :=
  match find (fun b => N.eqb (Business.business_id b) business_id)
             businesses with
  | Some b => ret b
  | None => raise
  end.

(** Python's [max(a, b)] and [min(a, b)] on numbers: the first argument
    unless the second is strictly larger (smaller). *)
Definition py_max (a b : Q) : Q := if Qlt_bool a b then b else a.
Definition py_min (a b : Q) : Q := if Qlt_bool b a then b else a.

(** [min(5.0, max(1.0, x))] *)
Definition clamp_rating (x : Q) : Q := py_min 5 (py_max 1 x).

(** The body of the loop of [generate_reviews]: no row when the review
    draw exceeds REVIEW_RATE ([continue]), one row otherwise. *)
Definition project_review (businesses : list Business.t)
    (estimators : list Estimator.t) (project : Project.t)
  : Gen (list Review.t) :=
  skip <- random_random ;;
  if Qlt_bool REVIEW_RATE skip then ret []
  else
    estimator <- random_choice estimators ;;
    business <- next_business businesses (Project.business_id project) ;;
    beta <- np_random_beta 8 2 ;;
    let overall_rating := round1 (beta * 4 + 1) in
    review_id <- uuid4 ;;
    communication <- random_uniform (-0.5) 0.5 ;;
    professionalism <- random_uniform (-0.5) 0.5 ;;
    accuracy <- random_uniform (-0.5) 0.5 ;;
    timeliness <- random_uniform (-0.5) 0.5 ;;
    value <- random_uniform (-0.5) 0.5 ;;
    title <- random_choice
               [ "Excellent work"; "Great experience";
                 "Professional service"; "Highly recommend";
                 "Outstanding estimator"; "Will work with again" ] ;;
    text <- fake_text 200 ;;
    ret [ Review.mk review_id (Project.project_id project)
            (Business.business_id business) "business"
            (Estimator.estimator_id estimator) "estimator"
            overall_rating
            (round1 (clamp_rating (overall_rating + communication)))
            (round1 (clamp_rating (overall_rating + professionalism)))
            (round1 (clamp_rating (overall_rating + accuracy)))
            (round1 (clamp_rating (overall_rating + timeliness)))
            (round1 (clamp_rating (overall_rating + value)))
            title text
            (if Qle_bool 4.0 overall_rating then 1 else 0)
            (if Qle_bool 4.5 overall_rating then 1 else 0)
            1 ]%Q.

(** Generate reviews for completed projects: the rows inserted into
    [reviews]. *)
Definition generate_reviews (projects : list Project.t)
    (businesses : list Business.t) (estimators : list Estimator.t)
  : Gen (list Review.t) :=
  let completed_projects :=
    filter (fun p => String.eqb (Project.status p) "completed") projects in
  per_project <- for_each (project_review businesses estimators)
                          completed_projects ;;
  ret (List.concat per_project).

(** The five detail ratings of a review. *)
Definition sub_ratings (r : Review.t) : list Q :=
  [ Review.communication_rating r; Review.professionalism_rating r;
    Review.accuracy_rating r; Review.timeliness_rating r;
    Review.value_rating r ].

Module FixtureReviews.

(** A project posted in January 2024 and completed since, owned by the
    business of the fixture. *)
Definition completed_project : Project.t :=
  Project.mk 7003%N 501%N "Premium" 0%N "new_construction" "school"
    "Denver" "CO" 0%N 1.05%Q 60000 840000%Q 1260000%Q 19760 "completed"
    (mk_datetime 2024 1 20) "normal".

Definition projects : list Project.t :=
  [Fixture.project; completed_project].

(** A beta draw of 4/5: an overall rating of 4.2. *)
Definition generators : Generators :=
  mkGenerators (Fixture.tape_of [0; 1]%N)
               (fun _ => (4%positive, 1%positive))
               (Fixture.tape_of []) (Fixture.tape_of [61; 62]%N).

End FixtureReviews.

(** The system clock never runs backwards. *)
Definition clock_monotone (w : World) : Prop :=
  forall n, clock w n <= clock w (S n).

Module FixtureExpertise.

(** A consultant with twelve years of experience; the fields the
    expertise generator does not read are blank. *)
Definition estimator : EstimatorRow.t :=
  EstimatorRow.mk 901%N 0%N 0%N (0%N, 0%N) "Senior Cost Estimator" 0%N
    "consultant" "Denver" "CO" 0%N 1 1 12 "masters" 150%Q 6000%Q 19800
    "verified" 1 1 0%N 0%N (0%N, 0%N) 48%Q 4%Q 90%Q 4.5%Q None 0 0.

(** An estimator row whose experience is below the two years that
    [random.randint(2, years_experience)] needs. *)
Definition novice : EstimatorRow.t :=
  EstimatorRow.mk 902%N 0%N 0%N (0%N, 0%N) "Certified Cost Estimator" 0%N
    "freelance_expert" "Austin" "TX" 0%N 0 1 1 "bachelors" 80%Q 2500%Q 19800
    "pending" 0 0 0%N 0%N (0%N, 0%N) 48%Q 4%Q 90%Q 4.5%Q None 0 0.

(** A clock that stands at 2025-12-01T00:00:00. *)
Definition world : World :=
  mkWorld Fixture.generators
          (fun _ => mk_datetime 2025 12 1 * 1000000).

End FixtureExpertise.

(** *** The database

    [create_database] drops the six tables and creates them empty.  Every
    table has its uuid as PRIMARY KEY; [businesses] and [estimators] also
    declare [email] UNIQUE; [reviews] declares CHECKs on its six ratings.
    An INSERT that repeats a primary key or a UNIQUE value, or breaks a
    CHECK, raises sqlite3.IntegrityError, which nothing catches: the run
    stops there.  The FOREIGN KEY clauses are declared but not enforced
    (the connections never set [PRAGMA foreign_keys]).

    The generator functions above build the rows they INSERT; below, the
    rows of each generator are handed to the database, which keeps them or
    raises.  The INSERTs at their place inside the loops come after, with
    the functions named [_conn]. *)

(** No value occurs twice. *)
Fixpoint distinct (keys : list N) : bool :=
  match keys with
  | [] => true
  | k :: rest => negb (existsb (N.eqb k) rest) && distinct rest
  end.

(** [x BETWEEN 1.0 AND 5.0] *)
Definition between_1_and_5 (x : Q) : bool :=
  Qle_bool 1 x && Qle_bool x 5.

Definition businesses_accepted (rows : list BusinessRow.t) : bool :=
  distinct (map BusinessRow.business_id rows)
  && distinct (map BusinessRow.email rows).

Definition estimators_accepted (rows : list EstimatorRow.t) : bool :=
  distinct (map EstimatorRow.estimator_id rows)
  && distinct (map EstimatorRow.email rows).

Definition expertise_accepted (rows : list Expertise.t) : bool :=
  distinct (map Expertise.expertise_id rows).

Definition projects_accepted (rows : list Project.t) : bool :=
  distinct (map Project.project_id rows).

Definition estimates_accepted (rows : list Estimate.t) : bool :=
  distinct (map Estimate.estimate_id rows).

Definition reviews_accepted (rows : list Review.t) : bool :=
  distinct (map Review.review_id rows)
  && forallb (fun r => between_1_and_5 (Review.overall_rating r)
                       && forallb between_1_and_5 (sub_ratings r)) rows.

(** The INSERTs of one generator into its (empty) table. *)
Definition insert_rows {A : Type} (accepted : list A -> bool)
    (rows : list A) : Run (list A) :=
  fun w => if accepted rows then Some (rows, w) else None.

(** The six tables after a run. *)
Record Database : Type := mkDatabase {
  businesses_table : list BusinessRow.t;
  estimators_table : list EstimatorRow.t;
  expertise_table : list Expertise.t;
  projects_table : list Project.t;
  estimates_table : list Estimate.t;
  reviews_table : list Review.t
}.

(** Main execution: [create_database] leaves six empty tables, then the
    six generators fill them in dependency order; the lists that
    [generate_businesses], [generate_estimators] and [generate_projects]
    return are passed on. *)
Definition main : Run Database :=
  run_bind generate_businesses (fun businesses =>
  run_bind (insert_rows businesses_accepted businesses) (fun _ =>
  run_bind generate_estimators (fun estimators =>
  run_bind (insert_rows estimators_accepted estimators) (fun _ =>
  run_bind (generate_expertise estimators) (fun expertise =>
  run_bind (insert_rows expertise_accepted expertise) (fun _ =>
  run_bind (lift (generate_projects (map business_of_row businesses)))
    (fun projects =>
  run_bind (insert_rows projects_accepted projects) (fun _ =>
  run_bind (lift (generate_estimates projects
                    (map estimator_of_row estimators)))
    (fun estimates =>
  run_bind (insert_rows estimates_accepted estimates) (fun _ =>
  run_bind (lift (generate_reviews projects
                    (map business_of_row businesses)
                    (map estimator_of_row estimators)))
    (fun reviews =>
  run_bind (insert_rows reviews_accepted reviews) (fun _ =>
  run_ret (mkDatabase businesses estimators expertise projects estimates
                      reviews))))))))))))).

(** The first [n] uuids read from the tape [t] are pairwise different. *)
Definition never_repeats (n : nat) (t : Tape) : Prop :=
  forall i j : nat, (i < n)%nat -> (j < n)%nat ->
    (t i mod 2 ^ 128 = t j mod 2 ^ 128)%N -> i = j.

(** A run draws one uuid per row: 150 businesses, 350 estimators, up to
    three expertise rows per estimator, 800 projects, up to five estimates
    per project and up to one review per project. *)
Definition MAX_UUIDS : nat :=
  (150 + 350 + 3 * 350 + 800 + 5 * 800 + 800)%nat.

(** [uuid.uuid4] never returns the same uuid twice during a run. *)
Definition uuids_never_repeat (g : Generators) : Prop :=
  never_repeats MAX_UUIDS (os_urandom g).

(** The Faker draw that renders the e-mail of the i-th business and of
    the i-th estimator: a business and an estimator each take seven Faker
    draws, the sixth of which is the e-mail, and the businesses come
    first. *)
Definition business_email_draw (i : nat) : nat := (7 * i + 5)%nat.
Definition estimator_email_draw (i : nat) : nat :=
  (7 * NUM_BUSINESSES + (7 * i + 5))%nat.

(** No two businesses and no two estimators get the same e-mail. *)
Definition emails_never_repeat (g : Generators) : Prop :=
  (forall i j, (i < NUM_BUSINESSES)%nat -> (j < NUM_BUSINESSES)%nat ->
     faker g (business_email_draw i) = faker g (business_email_draw j) ->
     i = j)
  /\ (forall i j, (i < NUM_CONSULTANTS + NUM_FREELANCERS)%nat ->
        (j < NUM_CONSULTANTS + NUM_FREELANCERS)%nat ->
        faker g (estimator_email_draw i) = faker g (estimator_email_draw j) ->
        i = j).

(** The generators leave the uuid source and Faker as they were. *)
Definition quiet (g g' : Generators) : Prop :=
  os_urandom g' = os_urandom g /\ faker g' = faker g.

(** The uuids [ids] are distinct and none of them is among the next [n]
    uuids of the tape [t], which are distinct too. *)
Definition fresh_ids (n : nat) (ids : list N) (t : Tape) : Prop :=
  NoDup ids
  /\ never_repeats n t
  /\ forall id k, (k < n)%nat -> In id ids -> (t k mod 2 ^ 128)%N <> id.

(** Reading the tape from [t] to [t'] gave the rows [ys] their keys, one
    uuid each. *)
Definition minted {B : Type} (key : B -> N) (t : Tape) (ys : list B)
    (t' : Tape) : Prop :=
  forall n ids, fresh_ids (List.length ys + n) ids t ->
                fresh_ids n (rev (map key ys) ++ ids) t'.

(** The tape [t'] is [t] without its first [k] words. *)
Definition shifted (k : nat) (t t' : Tape) : Prop :=
  forall n, t' n = t (k + n)%nat.

(** Reading the tape from [t] to [t'] gave the rows [ys] the next uuids
    of the tape, one each and in order. *)
Definition reads_uuids {B : Type} (key : B -> N) (t : Tape) (ys : list B)
    (t' : Tape) : Prop :=
  map key ys
  = map (fun i : nat => (t i mod 2 ^ 128)%N) (seq 0 (List.length ys))
  /\ shifted (List.length ys) t t'.

Module FixtureRun.

(** Entropy and a Faker that never repeat themselves; the clock stands at
    2025-12-01T00:00:00. *)
Definition world : World :=
  mkWorld (mkGenerators (fun _ => 0%N) (fun _ => (1%positive, 1%positive))
                        N.of_nat N.of_nat)
          (fun _ => mk_datetime 2025 12 1 * 1000000).

(** A Faker that renders the same e-mail for the first two businesses. *)
Definition same_email_world : World :=
  mkWorld (mkGenerators (fun _ => 0%N) (fun _ => (1%positive, 1%positive))
                        (fun n => if (n =? 12)%nat then 5%N else N.of_nat n)
                        N.of_nat)
          (fun _ => mk_datetime 2025 12 1 * 1000000).

(** The same generators, started one day later. *)
Definition next_day_world : World :=
  mkWorld (gens world) (fun _ => mk_datetime 2025 12 2 * 1000000).

(** Entropy that hands out the first uuid a second time. *)
Definition same_uuid_world : World :=
  mkWorld (mkGenerators (fun _ => 0%N) (fun _ => (1%positive, 1%positive))
                        N.of_nat
                        (fun n => if (n =? 1)%nat then 0%N else N.of_nat n))
          (fun _ => mk_datetime 2025 12 1 * 1000000).

End FixtureRun.

(* ================================================================== *)
(** ** The generators with their INSERTs

    Every generator function holds its INSERT inside its loop: a row is
    built and written to the table before the next one is drawn, and a
    rejected INSERT raises on the spot.  The definitions below follow
    that order, on the table as [create_database] left it, empty.  Their
    result is the table after the last INSERT, which is the list of rows
    inserted. *)

(** [cursor.execute("INSERT INTO ... VALUES (...)", row)] on a table
    that holds [table]: the row is added, or sqlite3.IntegrityError.  The
    statement touches neither the generators nor the clock. *)
Definition execute_insert {A S : Type} (accepted : list A -> bool)
    (row : A) (table : list A) : S -> option (list A * S) :=
  fun s => if accepted (table ++ [row])%list
           then Some ((table ++ [row])%list, s)
           else None.

(** [for x in xs: body(x)], with a body that writes to the table. *)
Fixpoint for_each_insert {A B : Type} (body : A -> list B -> Gen (list B))
    (xs : list A) (table : list B) : Gen (list B) :=
  match xs with
  | [] => ret table
  | x :: rest =>
      table' <- body x table ;; for_each_insert body rest table'
  end.

(** The same loop for a body that reads the clock. *)
Fixpoint run_for_each_insert {A B : Type}
    (body : A -> list B -> Run (list B)) (xs : list A) (table : list B)
  : Run (list B) :=
  match xs with
  | [] => run_ret table
  | x :: rest =>
      run_bind (body x table) (fun table' =>
      run_for_each_insert body rest table')
  end.

(** [generate_businesses(conn)] *)
Definition generate_businesses_conn : Run (list BusinessRow.t) :=
  run_for_each_insert
    (fun _ table =>
       run_bind generate_business (fun business =>
       execute_insert businesses_accepted business table))
    (seq 0 NUM_BUSINESSES) [].

(** [generate_estimators(conn)] *)
Definition generate_estimators_conn : Run (list EstimatorRow.t) :=
  run_for_each_insert
    (fun i table =>
       run_bind (generate_estimator i) (fun estimator =>
       execute_insert estimators_accepted estimator table))
    (seq 0 (NUM_CONSULTANTS + NUM_FREELANCERS)) [].

(** The body of the outer loop of [generate_expertise(conn, estimators)]:
    the rows of one estimator, each inserted as it is built. *)
Definition estimator_expertise_conn (estimator : EstimatorRow.t)
    (table : list Expertise.t) : Run (list Expertise.t) :=
  run_bind (lift (random_randint 1 3)) (fun num_specializations =>
  run_for_each_insert
    (fun _ table' =>
       run_bind (generate_expertise_row estimator) (fun row =>
       execute_insert expertise_accepted row table'))
    (range num_specializations) table).

(** [generate_expertise(conn, estimators)] *)
Definition generate_expertise_conn (estimators : list EstimatorRow.t)
  : Run (list Expertise.t) :=
  run_for_each_insert estimator_expertise_conn estimators [].

(** [generate_projects(conn, businesses)] *)
Definition generate_projects_conn (businesses : list Business.t)
  : Gen (list Project.t) :=
  for_each_insert
    (fun _ table =>
       project <- generate_project businesses ;;
       execute_insert projects_accepted project table)
    (seq 0 NUM_PROJECTS) [].

(** [generate_progressive_estimates(conn, project, estimators)]: the
    table after the sequence, and the returned count. *)
Definition generate_progressive_estimates_conn (project : Project.t)
    (estimators : list Estimator.t) (table : list Estimate.t)
  : Gen (list Estimate.t * Z) :=
  estimator <- random_choice estimators ;;
  num_estimates <- random_randint 2 MAX_PROGRESSIVE_ESTIMATES ;;
  let base_cost := base_cost_of project in
  let posted_date := Project.posted_date project in
  table' <- for_each_insert
              (fun seq table' =>
                 estimate <- progressive_estimate project estimator
                               num_estimates base_cost posted_date seq ;;
                 execute_insert estimates_accepted estimate table')
              (range num_estimates) table ;;
  ret (table', num_estimates).

(** The body of [for project in projects] of [generate_estimates]. *)
Definition project_estimates_conn (estimators : list Estimator.t)
    (project : Project.t) (table : list Estimate.t)
  : Gen (list Estimate.t) :=
  mode <- random_random ;;
  if Qlt_bool mode PROGRESSIVE_ESTIMATE_RATE then
    '(table', _) <-
      generate_progressive_estimates_conn project estimators table ;;
    ret table'
  else
    num_estimates <- random_randint 1 3 ;;
    selected_estimators <-
      random_sample estimators
        (Z.min num_estimates (Z.of_nat (List.length estimators))) ;;
    for_each_insert
      (fun estimator table' =>
         estimate <- single_estimate project estimator ;;
         execute_insert estimates_accepted estimate table')
      selected_estimators table.

(** [generate_estimates(conn, projects, estimators)] *)
Definition generate_estimates_conn (projects : list Project.t)
    (estimators : list Estimator.t) : Gen (list Estimate.t) :=
  for_each_insert (project_estimates_conn estimators) projects [].

(** The body of the loop of [generate_reviews(conn, ...)]: the row of the
    pass, when there is one, is inserted. *)
Definition project_review_conn (businesses : list Business.t)
    (estimators : list Estimator.t) (project : Project.t)
    (table : list Review.t) : Gen (list Review.t) :=
  rows <- project_review businesses estimators project ;;
  for_each_insert
    (fun review table' => execute_insert reviews_accepted review table')
    rows table.

(** [generate_reviews(conn, projects, businesses, estimators)] *)
Definition generate_reviews_conn (projects : list Project.t)
    (businesses : list Business.t) (estimators : list Estimator.t)
  : Gen (list Review.t) :=
  let completed_projects :=
    filter (fun p => String.eqb (Project.status p) "completed") projects in
  for_each_insert (project_review_conn businesses estimators)
                  completed_projects [].

(** Main execution, with every INSERT at its place inside the loops. *)
Definition main_conn : Run Database :=
  run_bind generate_businesses_conn (fun businesses =>
  run_bind generate_estimators_conn (fun estimators =>
  run_bind (generate_expertise_conn estimators) (fun expertise =>
  run_bind (lift (generate_projects_conn (map business_of_row businesses)))
    (fun projects =>
  run_bind (lift (generate_estimates_conn projects
                    (map estimator_of_row estimators)))
    (fun estimates =>
  run_bind (lift (generate_reviews_conn projects
                    (map business_of_row businesses)
                    (map estimator_of_row estimators)))
    (fun reviews =>
  run_ret (mkDatabase businesses estimators expertise projects estimates
                      reviews))))))).

(** A constraint that a table satisfies is satisfied by the rows
    inserted first. *)
Definition prefix_closed {A : Type} (accepted : list A -> bool) : Prop :=
  forall rows more : list A,
    accepted (rows ++ more)%list = true -> accepted rows = true.

(** What inserting the rows of [r], one after the other, leaves of an
    accepted table: the table with the rows, or nothing when one of the
    INSERTs raised or the rows were never built. *)
Definition inserted {A S : Type} (accepted : list A -> bool)
    (table : list A) (r : option (list A * S)) : option (list A * S) :=
  match r with
  | Some (rows, s) =>
      if accepted (table ++ rows)%list
      then Some ((table ++ rows)%list, s)
      else None
  | None => None
  end.

(** The first [n] rows of a generator of businesses or estimators get
    different e-mails: a row takes seven Faker draws, the sixth of which
    renders its e-mail. *)
Definition emails_differ (n : nat) (t : Tape) : Prop :=
  forall i j : nat, (i < n)%nat -> (j < n)%nat ->
    t (7 * i + 5)%nat = t (7 * j + 5)%nat -> i = j.

(* ================================================================== *)
(** ** The log-normal draws *)

(** The value that call number [i] of [np.random.lognormal] returns on
    the generators [g]. *)
Definition lognormal_draw (g : Generators) (i : nat) : Q :=
  let '(n, d) := np_random g i in Qmake (Zpos n) d.

(** A lower bound of what [np.random.lognormal(13, 1.2)] returns.  The
    sampler computes exp(13 + 1.2 z) from a normal variate z that the
    polar method derives from 53-bit uniforms; such a variate stays under
    sqrt(2 x 104 x ln 2) < 12.01 in absolute value, and
    exp(13 - 1.2 x 12.01) > 0.24. *)
Definition LOGNORMAL_FLOOR : Q := 0.24.

(** The log-normal draws of the [NUM_PROJECTS] passes of
    [generate_projects] are values the sampler can return. *)
Definition lognormal_in_range (g : Generators) : Prop :=
  forall i : nat, (i < NUM_PROJECTS)%nat ->
    (LOGNORMAL_FLOOR <= lognormal_draw g i)%Q.

(* ================================================================== *)
(** * Proofs *)

(* ================================================================== *)
(** ** Lemmas on rounding *)

Section RoundFacts.
Local Open Scope Q_scope.

Lemma floor_bounds (q : Q) :
  inject_Z (Qfloor q) <= q /\ q < inject_Z (Qfloor q) + 1.
Proof.
  split; [apply Qfloor_le|].
  pose proof (Qlt_floor q) as H.
  rewrite inject_Z_plus in H. exact H.
Qed.

Lemma inject_Z_succ_le (a b : Z) : (a < b)%Z -> inject_Z a + 1 <= inject_Z b.
Proof.
  intros H. change 1 with (inject_Z 1). rewrite <- inject_Z_plus.
  rewrite <- Zle_Qle. lia.
Qed.

(** The rounded value is within one half of the argument. *)
Lemma round_half_even_near (q : Q) :
  inject_Z (round_half_even q) - (1 # 2) <= q /\
  q <= inject_Z (round_half_even q) + (1 # 2).
Proof.
  unfold round_half_even.
  destruct (floor_bounds q) as [Hlo Hhi].
  destruct (Qcompare (q - inject_Z (Qfloor q)) (1 # 2)) eqn:E.
  - apply Qeq_alt in E.
    destruct (Z.even (Qfloor q)).
    + split; lra.
    + rewrite inject_Z_plus. change (inject_Z 1) with 1. split; lra.
  - apply Qlt_alt in E. split; lra.
  - apply Qgt_alt in E. rewrite inject_Z_plus. change (inject_Z 1) with 1.
    split; lra.
Qed.

(** At an exact tie the even neighbour is returned. *)
Lemma round_half_even_tie (q : Q) :
  q == inject_Z (round_half_even q) + (1 # 2) \/
  q == inject_Z (round_half_even q) - (1 # 2) ->
  Z.even (round_half_even q) = true.
Proof.
  unfold round_half_even.
  destruct (floor_bounds q) as [Hlo Hhi].
  destruct (Qcompare (q - inject_Z (Qfloor q)) (1 # 2)) eqn:E.
  - apply Qeq_alt in E.
    destruct (Z.even (Qfloor q)) eqn:Ev; [intros _; exact Ev|].
    intros _. rewrite Z.even_add, Ev. reflexivity.
  - apply Qlt_alt in E. intros [H|H]; exfalso; lra.
  - apply Qgt_alt in E. rewrite inject_Z_plus. change (inject_Z 1) with 1.
    intros [H|H]; exfalso; lra.
Qed.

Lemma round_half_even_mono (x y : Q) :
  x <= y -> (round_half_even x <= round_half_even y)%Z.
Proof.
  intros Hxy.
  destruct (Z_le_gt_dec (round_half_even x) (round_half_even y)) as [H|H];
    [exact H|exfalso].
  destruct (round_half_even_near x) as [Hx1 Hx2].
  destruct (round_half_even_near y) as [Hy1 Hy2].
  assert (Hs : inject_Z (round_half_even y) + 1 <= inject_Z (round_half_even x))
    by (apply inject_Z_succ_le; lia).
  assert (Ex : x == inject_Z (round_half_even x) - (1 # 2)) by lra.
  assert (Ey : y == inject_Z (round_half_even y) + (1 # 2)) by lra.
  assert (Hrx : Z.even (round_half_even x) = true)
    by (apply round_half_even_tie; right; exact Ex).
  assert (Hry : Z.even (round_half_even y) = true)
    by (apply round_half_even_tie; left; exact Ey).
  assert (Heq : round_half_even x = (round_half_even y + 1)%Z).
  { assert (inject_Z (round_half_even x) <= inject_Z (round_half_even y) + 1)
      by lra.
    change 1 with (inject_Z 1) in H0. rewrite <- inject_Z_plus in H0.
    rewrite <- Zle_Qle in H0. lia. }
  rewrite Heq, Z.even_add, Hry in Hrx. discriminate.
Qed.

Lemma round_half_even_inject (k : Z) : round_half_even (inject_Z k) = k.
Proof.
  pose proof (round_half_even_near (inject_Z k)) as [H1 H2].
  destruct (Z.lt_trichotomy (round_half_even (inject_Z k)) k) as [H|[H|H]];
    [exfalso|exact H|exfalso].
  - apply inject_Z_succ_le in H. lra.
  - apply inject_Z_succ_le in H. lra.
Qed.

Lemma Qmake_100 (z : Z) : Qmake z 100 == inject_Z z * (1 # 100).
Proof. unfold Qeq, Qmult, inject_Z; simpl. lia. Qed.

Lemma round2_unfold (x : Q) :
  round2 x == inject_Z (round_half_even (x * 100)) * (1 # 100).
Proof. unfold round2. apply Qmake_100. Qed.

Lemma round2_mono (x y : Q) : x <= y -> round2 x <= round2 y.
Proof.
  intros H. rewrite (round2_unfold x), (round2_unfold y).
  assert (Hm : (round_half_even (x * 100) <= round_half_even (y * 100))%Z)
    by (apply round_half_even_mono; lra).
  rewrite Zle_Qle in Hm. lra.
Qed.

(** Rounding to cents moves a value by at most half a cent. *)
Lemma round2_near (x : Q) :
  round2 x - (1 # 200) <= x /\ x <= round2 x + (1 # 200).
Proof.
  rewrite (round2_unfold x).
  destruct (round_half_even_near (x * 100)) as [H1 H2]. split; lra.
Qed.

Lemma round2_nonneg (x : Q) : 0 <= x -> 0 <= round2 x.
Proof.
  intros H. rewrite (round2_unfold x).
  assert (Hm : (round_half_even 0 <= round_half_even (x * 100))%Z)
    by (apply round_half_even_mono; lra).
  change 0 with (inject_Z 0) in Hm at 1.
  rewrite round_half_even_inject in Hm.
  rewrite Zle_Qle in Hm. change (inject_Z 0) with 0 in Hm. lra.
Qed.

(** Any amount above half a cent rounds to at least one cent. *)
Lemma round2_pos (x : Q) : (1 # 200) < x -> (1 # 100) <= round2 x.
Proof.
  intros H. rewrite (round2_unfold x).
  destruct (round_half_even_near (x * 100)) as [H1 H2].
  assert (Hz : (1 <= round_half_even (x * 100))%Z).
  { destruct (Z_le_gt_dec 1 (round_half_even (x * 100))) as [Hc|Hc];
      [exact Hc|exfalso].
    assert (Hc' : (round_half_even (x * 100) <= 0)%Z) by lia.
    rewrite Zle_Qle in Hc'. change (inject_Z 0) with 0 in Hc'. lra. }
  rewrite Zle_Qle in Hz. change (inject_Z 1) with 1 in Hz. lra.
Qed.

(** A value that already is a whole number of cents is left as it is. *)
Lemma round2_cents (k : Z) : round2 (Qmake k 100) == Qmake k 100.
Proof.
  assert (E : round_half_even (Qmake k 100 * 100) = k).
  { pose proof (round_half_even_near (Qmake k 100 * 100)) as [H1 H2].
    pose proof (Qmake_100 k) as Hk.
    destruct (Z.lt_trichotomy (round_half_even (Qmake k 100 * 100)) k)
      as [H|[H|H]]; [exfalso|exact H|exfalso];
      apply inject_Z_succ_le in H; lra. }
  unfold round2. rewrite E. reflexivity.
Qed.

End RoundFacts.

(* ================================================================== *)
(** ** Reasoning about generator computations *)

Lemma bind_Some {A B : Type} (m : Gen A) (k : A -> Gen B) g r :
  bind m k g = Some r ->
  exists a g1, m g = Some (a, g1) /\ k a g1 = Some r.
Proof.
  unfold bind. destruct (m g) as [[a g1]|]; [|discriminate].
  intros H. exists a, g1. split; [reflexivity|exact H].
Qed.

Lemma ret_Some {A : Type} (a : A) g r : ret a g = Some r -> r = (a, g).
Proof. unfold ret. intros H. injection H as <-. reflexivity. Qed.

(** Peel the leading binds of a successful computation. *)
Ltac gen_step H :=
  let a := fresh "v" in
  let g := fresh "g" in
  let Hm := fresh "Hdraw" in
  apply bind_Some in H; destruct H as (a & g & Hm & H).

Lemma for_each_length {A B : Type} (f : A -> Gen B) xs :
  forall g ys g', for_each f xs g = Some (ys, g') ->
  List.length ys = List.length xs.
Proof.
  induction xs as [|x rest IH]; intros g ys g' H; simpl in H.
  - apply ret_Some in H. injection H as -> _. reflexivity.
  - gen_step H. gen_step H. apply ret_Some in H. injection H as -> _.
    simpl. f_equal. eapply IH; eassumption.
Qed.

(** Every output of a successful loop is the result of the loop body on
    the input at the same position. *)
Lemma for_each_nth {A B : Type} (f : A -> Gen B) xs :
  forall g ys g', for_each f xs g = Some (ys, g') ->
  forall i y, nth_error ys i = Some y ->
  exists x gi gi', nth_error xs i = Some x /\ f x gi = Some (y, gi').
Proof.
  induction xs as [|x rest IH]; intros g ys g' H i y Hy; simpl in H.
  - apply ret_Some in H. injection H as -> _. destruct i; discriminate.
  - gen_step H. gen_step H. apply ret_Some in H. injection H as -> _.
    destruct i as [|i]; simpl in Hy.
    + injection Hy as <-. exists x, g, g0. split; [reflexivity|assumption].
    + eapply IH in Hdraw0; [|exact Hy]. exact Hdraw0.
Qed.

Lemma for_each_In {A B : Type} (f : A -> Gen B) xs g ys g' y :
  for_each f xs g = Some (ys, g') -> In y ys ->
  exists x gi gi', In x xs /\ f x gi = Some (y, gi').
Proof.
  intros H Hy. apply In_nth_error in Hy. destruct Hy as [i Hi].
  destruct (for_each_nth f xs g ys g' H i y Hi) as (x & gi & gi' & Hx & Hf).
  exists x, gi, gi'. split; [eapply nth_error_In; exact Hx|exact Hf].
Qed.

(** A loop whose body never raises does not raise. *)
Lemma for_each_total {A B : Type} (f : A -> Gen B) xs :
  (forall x g, In x xs -> exists r, f x g = Some r) ->
  forall g, exists r, for_each f xs g = Some r.
Proof.
  induction xs as [|x rest IH]; intros Hf g; simpl.
  - eexists. reflexivity.
  - destruct (Hf x g (or_introl eq_refl)) as [[y g1] Hy].
    destruct (IH (fun x' g' Hin => Hf x' g' (or_intror Hin)) g1)
      as [[ys g2] Hys].
    unfold bind. rewrite Hy, Hys. eexists. reflexivity.
Qed.

Lemma range_length (n : Z) : List.length (range n) = Z.to_nat n.
Proof. unfold range. rewrite length_map, length_seq. reflexivity. Qed.

Lemma range_nth (n : Z) (i : nat) (x : Z) :
  nth_error (range n) i = Some x -> x = Z.of_nat i /\ (Z.of_nat i < n).
Proof.
  unfold range. intros H.
  assert (Hlt : (i < Z.to_nat n)%nat).
  { assert (Hs : nth_error (map Z.of_nat (seq 0 (Z.to_nat n))) i <> None)
      by (rewrite H; discriminate).
    apply nth_error_Some in Hs. rewrite length_map, length_seq in Hs.
    exact Hs. }
  rewrite nth_error_map, nth_error_seq in H.
  destruct (Nat.ltb_spec i (Z.to_nat n)) as [_|Hge]; [|lia].
  simpl in H. injection H as <-. split; lia.
Qed.

(** *** What the primitives return *)

Section Primitives.
Local Open Scope Q_scope.

Lemma random_random_spec g u g' :
  random_random g = Some (u, g') -> 0 <= u /\ u < 1.
Proof.
  unfold random_random. intros H. gen_step H. apply ret_Some in H.
  injection H as -> _.
  pose proof (Z.mod_pos_bound (Z.of_N v) (2 ^ 53) ltac:(reflexivity)) as [H0 H1].
  unfold Qle, Qlt. simpl Qnum. simpl Qden.
  change (Z.pos (2 ^ 53)) with (2 ^ 53)%Z. lia.
Qed.

Lemma random_random_total g : exists r, random_random g = Some r.
Proof. eexists. reflexivity. Qed.

Lemma scale_unit (w u : Q) : 0 <= w -> 0 <= u -> u <= 1 ->
  0 <= w * u /\ w * u <= w.
Proof.
  intros Hw Hu1 Hu2. split.
  - apply Qmult_le_0_compat; assumption.
  - assert (H : u * w <= 1 * w) by (apply Qmult_le_compat_r; assumption).
    lra.
Qed.

Lemma random_uniform_spec a b g v g' :
  a <= b -> random_uniform a b g = Some (v, g') -> a <= v /\ v <= b.
Proof.
  unfold random_uniform. intros Hab H. gen_step H. apply ret_Some in H.
  injection H as -> _.
  apply random_random_spec in Hdraw. destruct Hdraw as [H0 H1].
  destruct (scale_unit (b - a) v0) as [Ha Hb]; try lra.
Qed.

Lemma random_uniform_total a b g : exists r, random_uniform a b g = Some r.
Proof. eexists. reflexivity. Qed.

End Primitives.

Lemma randbelow_spec n g v g' :
  0 < n -> randbelow n g = Some (v, g') -> 0 <= v < n.
Proof.
  unfold randbelow, bind, getrandword, ret. intros Hn H.
  injection H as <- _. apply Z.mod_pos_bound. exact Hn.
Qed.

Lemma random_randint_spec a b g v g' :
  random_randint a b g = Some (v, g') -> a <= v <= b.
Proof.
  unfold random_randint. destruct (Z.ltb_spec b a) as [Hlt|Hle];
    [discriminate|].
  intros H. gen_step H. apply ret_Some in H. injection H as -> _.
  apply randbelow_spec in Hdraw; lia.
Qed.

Lemma random_randint_total a b g :
  a <= b -> exists r, random_randint a b g = Some r.
Proof.
  intros H. unfold random_randint.
  destruct (Z.ltb_spec b a) as [Hlt|_]; [lia|]. eexists. reflexivity.
Qed.

Lemma random_choice_spec {A : Type} (xs : list A) g x g' :
  random_choice xs g = Some (x, g') -> In x xs.
Proof.
  unfold random_choice. destruct xs as [|x0 rest]; [discriminate|].
  intros H. gen_step H.
  destruct (nth_error (x0 :: rest) (Z.to_nat v)) as [y|] eqn:E;
    [|discriminate].
  apply ret_Some in H. injection H as -> _.
  eapply nth_error_In. exact E.
Qed.

Lemma random_choice_total {A : Type} (xs : list A) g :
  xs <> [] -> exists r, random_choice xs g = Some r.
Proof.
  intros Hne. unfold random_choice. destruct xs as [|x0 rest]; [congruence|].
  unfold randbelow, getrandword, bind, ret. cbv beta iota.
  set (n := Z.of_nat (List.length (x0 :: rest))).
  assert (Hn : 0 < n) by (unfold n; simpl List.length; lia).
  pose proof (Z.mod_pos_bound (Z.of_N (py_random g 0%nat)) n Hn) as Hb.
  destruct (nth_error (x0 :: rest)
              (Z.to_nat (Z.of_N (py_random g 0%nat) mod n))) eqn:E.
  - eexists. reflexivity.
  - apply nth_error_None in E. subst n. simpl List.length in *. lia.
Qed.

Lemma uuid4_total g : exists r, uuid4 g = Some r.
Proof. eexists. reflexivity. Qed.

Lemma dict_lookup_In {V : Type} (d : dict V) k v :
  dict_lookup d k = Some v -> In (k, v) d.
Proof.
  induction d as [|[k' v'] rest IH]; simpl; [discriminate|].
  destruct (String.eqb_spec k k') as [->|_].
  - intros H. injection H as ->. left. reflexivity.
  - intros H. right. apply IH. exact H.
Qed.

Lemma list_index_spec {A : Type} (xs : list A) i g x g' :
  0 <= i -> list_index xs i g = Some (x, g') ->
  nth_error xs (Z.to_nat i) = Some x /\ g' = g.
Proof.
  unfold list_index. intros Hi.
  destruct ((i <? - Z.of_nat (List.length xs))
            || (Z.of_nat (List.length xs) <=? i)); [discriminate|].
  destruct (Z.ltb_spec i 0) as [Hneg|_]; [lia|].
  destruct (nth_error xs (Z.to_nat i)) as [y|]; [|discriminate].
  intros H. apply ret_Some in H. injection H as -> ->. split; reflexivity.
Qed.

Lemma dict_getitem_spec {V : Type} (d : dict V) k g v g' :
  dict_getitem d k g = Some (v, g') -> dict_lookup d k = Some v /\ g' = g.
Proof.
  unfold dict_getitem. destruct (dict_lookup d k) as [w|]; [|discriminate].
  intros H. apply ret_Some in H. injection H as -> ->. split; reflexivity.
Qed.

(* ================================================================== *)
(** ** What a generated row looks like *)

Section Rows.
Local Open Scope Q_scope.

Lemma ratio_mult (pct : Z) : ratio pct == inject_Z pct * (1 # 100).
Proof. unfold ratio, Qdiv. reflexivity. Qed.

(** Every class entry has its low offset below its high offset. *)
Lemma AACE_band_ordered k class_info :
  dict_lookup AACE_CLASSES k = Some class_info ->
  ratio (confidence_low class_info) <= ratio (confidence_high class_info).
Proof.
  intros H. apply dict_lookup_In in H. simpl in H.
  repeat (destruct H as [H|H];
          [injection H as _ <-; unfold ratio, Qle; simpl; lia|]).
  contradiction.
Qed.

End Rows.

Ltac uniform_bounds H :=
  apply random_uniform_spec in H;
  [|unfold Qle; simpl; lia].

Lemma progressive_estimate_row project estimator num_estimates seq g e g' :
  0 <= seq ->
  progressive_estimate project estimator num_estimates (base_cost_of project)
    (Project.posted_date project) seq g = Some (e, g') ->
  priced_row (base_cost_of project) e /\
  progressive_row project estimator num_estimates seq e.
Proof.
  intros Hseq H. unfold progressive_estimate in H.
  apply bind_Some in H. destruct H as (aace & g1 & Haace & H).
  apply list_index_spec in Haace; [|simpl; lia]. destruct Haace as [Haace ->].
  apply bind_Some in H. destruct H as (ci & g2 & Hci & H).
  apply dict_getitem_spec in Hci. destruct Hci as [Hci ->].
  apply bind_Some in H. destruct H as (variance & g3 & Hvar & H).
  apply random_uniform_spec in Hvar;
    [|exact (AACE_band_ordered _ _ Hci)].
  apply bind_Some in H. destruct H as (step_days & g4 & Hstep & H).
  apply random_randint_spec in Hstep.
  apply bind_Some in H. destruct H as (jitter & g5 & Hjit & H).
  apply bind_Some in H. destruct H as (cj & g6 & Hcj & H).
  uniform_bounds Hcj.
  apply bind_Some in H. destruct H as (lf & g7 & Hlf & H). uniform_bounds Hlf.
  apply bind_Some in H. destruct H as (mf & g8 & Hmf & H). uniform_bounds Hmf.
  apply bind_Some in H. destruct H as (ef & g9 & Hef & H). uniform_bounds Hef.
  apply bind_Some in H. destruct H as (sf & g10 & Hsf & H). uniform_bounds Hsf.
  apply bind_Some in H. destruct H as (ovf & g11 & Hof & H). uniform_bounds Hof.
  apply bind_Some in H. destruct H as (pf & g12 & Hpf & H). uniform_bounds Hpf.
  apply bind_Some in H. destruct H as (eid & g13 & Heid & H).
  apply bind_Some in H. destruct H as (duration & g14 & Hdur & H).
  apply ret_Some in H. injection H as -> _.
  split.
  - eapply (PricedRow _ _ ci variance cj lf mf ef sf ovf pf);
      simpl; try reflexivity; try assumption.
  - eapply (ProgressiveRow _ _ _ _ _ step_days);
      simpl; try reflexivity; try assumption.
Qed.

Lemma single_estimate_row project estimator g e g' :
  single_estimate project estimator g = Some (e, g') ->
  priced_row (base_cost_of project) e /\
  Estimate.project_id e = Project.project_id project /\
  Estimate.estimate_sequence e = 1 /\
  (Estimate.status e = "accepted" \/ Estimate.status e = "pending").
Proof.
  intros H. unfold single_estimate in H.
  apply bind_Some in H. destruct H as (aace & g1 & Haace & H).
  apply bind_Some in H. destruct H as (ci & g2 & Hci & H).
  apply dict_getitem_spec in Hci. destruct Hci as [Hci ->].
  apply bind_Some in H. destruct H as (variance & g3 & Hvar & H).
  apply random_uniform_spec in Hvar;
    [|exact (AACE_band_ordered _ _ Hci)].
  apply bind_Some in H. destruct H as (jitter & g5 & Hjit & H).
  apply bind_Some in H. destruct H as (cj & g6 & Hcj & H).
  uniform_bounds Hcj.
  apply bind_Some in H. destruct H as (lf & g7 & Hlf & H). uniform_bounds Hlf.
  apply bind_Some in H. destruct H as (mf & g8 & Hmf & H). uniform_bounds Hmf.
  apply bind_Some in H. destruct H as (ef & g9 & Hef & H). uniform_bounds Hef.
  apply bind_Some in H. destruct H as (sf & g10 & Hsf & H). uniform_bounds Hsf.
  apply bind_Some in H. destruct H as (ovf & g11 & Hof & H). uniform_bounds Hof.
  apply bind_Some in H. destruct H as (pf & g12 & Hpf & H). uniform_bounds Hpf.
  apply bind_Some in H. destruct H as (submit_days & g13 & Hsub & H).
  apply bind_Some in H. destruct H as (eid & g14 & Heid & H).
  apply bind_Some in H. destruct H as (duration & g15 & Hdur & H).
  apply bind_Some in H. destruct H as (method & g16 & Hmeth & H).
  apply bind_Some in H. destruct H as (accept & g17 & Hacc & H).
  apply ret_Some in H. injection H as -> _.
  split; [|split; [reflexivity|split; [reflexivity|]]].
  - eapply (PricedRow _ _ ci variance cj lf mf ef sf ovf pf);
      simpl; try reflexivity; try assumption.
  - simpl. destruct (Qlt_bool 0.7 accept); [left|right]; reflexivity.
Qed.

(** The rows of one call of [generate_progressive_estimates]: between two
    and five of them, row [i] being step [i] of the loop, all by one
    estimator of the pool. *)
Lemma generate_progressive_estimates_rows project estimators g rows n g' :
  generate_progressive_estimates project estimators g = Some (rows, n, g') ->
  2 <= n <= 5 /\
  List.length rows = Z.to_nat n /\
  exists estimator, In estimator estimators /\
    forall i e, nth_error rows i = Some e ->
      priced_row (base_cost_of project) e /\
      progressive_row project estimator n (Z.of_nat i) e.
Proof.
  intros H. unfold generate_progressive_estimates in H.
  apply bind_Some in H. destruct H as (estimator & g1 & Hest & H).
  apply random_choice_spec in Hest.
  apply bind_Some in H. destruct H as (num & g2 & Hnum & H).
  apply random_randint_spec in Hnum. unfold MAX_PROGRESSIVE_ESTIMATES in Hnum.
  apply bind_Some in H. destruct H as (rows' & g3 & Hrows & H).
  apply ret_Some in H. injection H as -> -> _.
  split; [exact Hnum|]. split.
  - apply for_each_length in Hrows. rewrite range_length in Hrows.
    exact Hrows.
  - exists estimator. split; [exact Hest|].
    intros i e Hi.
    destruct (for_each_nth _ _ _ _ _ Hrows i e Hi)
      as (x & gi & gi' & Hx & Hbody).
    apply range_nth in Hx. destruct Hx as [-> Hlt].
    apply progressive_estimate_row in Hbody; [exact Hbody|lia].
Qed.

(** The class walked at step [seq] exists in the class table. *)
Lemma class_progression_defined (seq : Z) :
  0 <= seq ->
  exists aace class_info,
    (forall g, list_index class_progression (Z.min seq 4) g = Some (aace, g))
    /\ (forall g, dict_getitem AACE_CLASSES aace g = Some (class_info, g)).
Proof.
  intros Hseq.
  assert (Hc : Z.min seq 4 = 0 \/ Z.min seq 4 = 1 \/ Z.min seq 4 = 2
               \/ Z.min seq 4 = 3 \/ Z.min seq 4 = 4) by lia.
  destruct Hc as [-> | [-> | [-> | [-> | ->]]]];
    do 2 eexists; split; intros g; reflexivity.
Qed.

Lemma bind_total {A B : Type} (m : Gen A) (k : A -> Gen B) g :
  (exists r, m g = Some r) ->
  (forall a g1, exists r, k a g1 = Some r) ->
  exists r, bind m k g = Some r.
Proof.
  intros [[a g1] Hm] Hk. unfold bind. rewrite Hm. apply Hk.
Qed.

Lemma ret_total {A : Type} (a : A) g : exists r, ret a g = Some r.
Proof. eexists. reflexivity. Qed.

(** Discharge one bind whose head is a primitive that cannot raise. *)
Ltac total_step :=
  apply bind_total;
  [ first [ apply random_uniform_total
          | apply random_random_total
          | apply uuid4_total
          | apply random_randint_total; lia ]
  | intros ? ? ].

Lemma bind_value {A B : Type} (m : Gen A) (k : A -> Gen B) g a g1 :
  m g = Some (a, g1) ->
  (exists r, k a g1 = Some r) ->
  exists r, bind m k g = Some r.
Proof. intros Hm Hk. unfold bind. rewrite Hm. exact Hk. Qed.

Lemma progressive_estimate_total project estimator n base_cost posted seq g :
  0 <= seq ->
  exists r,
    progressive_estimate project estimator n base_cost posted seq g = Some r.
Proof.
  intros Hseq.
  destruct (class_progression_defined seq Hseq) as (aace & ci & Hidx & Hget).
  unfold progressive_estimate.
  change (Z.of_nat (List.length class_progression) - 1) with 4.
  eapply bind_value; [apply Hidx|].
  eapply bind_value; [apply Hget|].
  do 12 total_step. apply ret_total.
Qed.

(** With a non-empty estimator pool the progressive generator returns. *)
Lemma generate_progressive_estimates_total project estimators g :
  estimators <> [] ->
  exists rows n g',
    generate_progressive_estimates project estimators g = Some (rows, n, g').
Proof.
  intros Hne. unfold generate_progressive_estimates.
  destruct (random_choice_total estimators g Hne) as [[estimator g1] Hest].
  unfold bind at 1. rewrite Hest.
  destruct (random_randint_total 2 MAX_PROGRESSIVE_ESTIMATES g1)
    as [[num g2] Hnum]; [unfold MAX_PROGRESSIVE_ESTIMATES; lia|].
  unfold bind at 1. rewrite Hnum.
  destruct (for_each_total
              (progressive_estimate project estimator num
                 (base_cost_of project) (Project.posted_date project))
              (range num)) with (g := g2) as [[rows g3] Hrows].
  { intros x gx Hx. apply In_nth_error in Hx. destruct Hx as [i Hi].
    apply range_nth in Hi. apply progressive_estimate_total. lia. }
  unfold bind at 1. rewrite Hrows.
  exists rows, num, g3. reflexivity.
Qed.

Lemma project_estimates_rows estimators project g rows g' :
  project_estimates estimators project g = Some (rows, g') ->
  forall e, In e rows ->
    priced_row (base_cost_of project) e /\
    Estimate.project_id e = Project.project_id project.
Proof.
  intros H e He. unfold project_estimates in H.
  apply bind_Some in H. destruct H as (mode & g1 & Hmode & H).
  destruct (Qlt_bool mode PROGRESSIVE_ESTIMATE_RATE).
  - apply bind_Some in H. destruct H as ([rows' n] & g2 & Hgpe & H).
    apply ret_Some in H. injection H as -> _.
    apply generate_progressive_estimates_rows in Hgpe.
    destruct Hgpe as (_ & _ & estimator & _ & Hrows).
    apply In_nth_error in He. destruct He as [i Hi].
    destruct (Hrows i e Hi) as [Hp Hr]. split; [exact Hp|].
    destruct Hr. assumption.
  - apply bind_Some in H. destruct H as (num & g2 & Hnum & H).
    apply bind_Some in H. destruct H as (selected & g3 & Hsel & H).
    destruct (for_each_In _ _ _ _ _ _ H He) as (est & gi & gi' & _ & Hbody).
    apply single_estimate_row in Hbody.
    destruct Hbody as (Hp & Hid & _). split; assumption.
Qed.

(** Every row of the [estimates] table was priced from the base cost of
    the project it refers to. *)
Lemma generate_estimates_rows projects estimators g rows g' :
  generate_estimates projects estimators g = Some (rows, g') ->
  forall e, In e rows ->
    exists project, In project projects /\
      Estimate.project_id e = Project.project_id project /\
      priced_row (base_cost_of project) e.
Proof.
  intros H e He. unfold generate_estimates in H.
  apply bind_Some in H. destruct H as (per_project & g1 & Hper & H).
  apply ret_Some in H. injection H as -> _.
  apply in_concat in He. destruct He as (rows & Hrows & He).
  destruct (for_each_In _ _ _ _ _ _ Hper Hrows)
    as (project & gi & gi' & Hin & Hbody).
  destruct (project_estimates_rows _ _ _ _ _ Hbody e He) as [Hp Hid].
  exists project. split; [exact Hin|]. split; assumption.
Qed.

Lemma np_random_lognormal_spec mean sigma g b g' :
  np_random_lognormal mean sigma g = Some (b, g') -> (0 < b)%Q.
Proof.
  unfold np_random_lognormal. destruct (np_random g 0%nat) as [n d].
  intros H. injection H as <- _. unfold Qlt. simpl. lia.
Qed.

Lemma fake_date_time_between_spec a b g v g' :
  fake_date_time_between a b g = Some (v, g') -> a <= v <= b.
Proof.
  unfold fake_date_time_between.
  destruct (Z.ltb_spec b a) as [|Hle]; [discriminate|].
  unfold bind, fake_word, ret. intros H. injection H as <- _.
  pose proof (Z.mod_pos_bound (Z.of_N (faker g 0%nat)) (b - a + 1)
                ltac:(lia)). lia.
Qed.

(** A generated project carries the budget interval computed from a
    positive log-normal draw and from its own state code, and is posted
    inside the generation window. *)
Lemma generate_project_budget businesses g p g' :
  generate_project businesses g = Some (p, g') ->
  (exists b, (0 < b)%Q /\
     (Project.regional_cost_multiplier p, Project.estimated_budget_min p,
      Project.estimated_budget_max p)
     = project_budget b (Project.project_state p)) /\
  START_DATE <= Project.posted_date p <= END_DATE.
Proof.
  intros H. unfold generate_project in H.
  apply bind_Some in H. destruct H as (business & g1 & Hbus & H).
  apply bind_Some in H. destruct H as ([city state] & g2 & Hcity & H).
  apply bind_Some in H. destruct H as (posted & g3 & Hposted & H).
  apply fake_date_time_between_spec in Hposted.
  apply bind_Some in H. destruct H as (sector & g4 & Hsector & H).
  apply bind_Some in H. destruct H as (subtypes & g5 & Hsubtypes & H).
  apply bind_Some in H. destruct H as (subtype & g6 & Hsubtype & H).
  apply bind_Some in H. destruct H as (b & g7 & Hb & H).
  apply np_random_lognormal_spec in Hb.
  unfold project_budget in H. cbv beta iota zeta in H.
  apply bind_Some in H. destruct H as (status & g8 & Hstatus & H).
  apply bind_Some in H. destruct H as (pid & g9 & Hpid & H).
  apply bind_Some in H. destruct H as (title & g10 & Htitle & H).
  apply bind_Some in H. destruct H as (descr & g11 & Hdescr & H).
  apply bind_Some in H. destruct H as (ptype & g12 & Hptype & H).
  apply bind_Some in H. destruct H as (zip & g13 & Hzip & H).
  apply bind_Some in H. destruct H as (sqft & g14 & Hsqft & H).
  apply bind_Some in H. destruct H as (needed & g15 & Hneeded & H).
  apply bind_Some in H. destruct H as (urgency & g16 & Hurgency & H).
  apply ret_Some in H. injection H as -> _.
  split; [|exact Hposted].
  exists b. split; [exact Hb|reflexivity].
Qed.

Lemma generate_projects_n_budget n businesses g projects g' :
  generate_projects_n n businesses g = Some (projects, g') ->
  forall p, In p projects ->
    (exists b, (0 < b)%Q /\
       (Project.regional_cost_multiplier p, Project.estimated_budget_min p,
        Project.estimated_budget_max p)
       = project_budget b (Project.project_state p)) /\
    START_DATE <= Project.posted_date p <= END_DATE.
Proof.
  intros H p Hp. unfold generate_projects_n in H.
  destruct (for_each_In _ _ _ _ _ _ H Hp) as (x & gi & gi' & _ & Hbody).
  eapply generate_project_budget. exact Hbody.
Qed.

(* ================================================================== *)
(** ** Progressive sequences: class walk, status, dates *)

Lemma class_progression_nth (i : nat) (s : string) :
  nth_error class_progression i = Some s ->
  s = aace_class_name (5 - Z.of_nat i) /\ (i < 5)%nat.
Proof.
  do 5 (destruct i as [|i]; [intros H; injection H as <-; split;
                             [reflexivity|lia]|]).
  destruct i; discriminate.
Qed.

(** The class of row [i] of a progressive sequence. *)
Lemma progressive_row_class project estimator n i e :
  Z.of_nat i < n -> n <= 5 ->
  progressive_row project estimator n (Z.of_nat i) e ->
  Estimate.aace_class e = aace_class_name (5 - Z.of_nat i) /\
  nth_error class_progression i = Some (Estimate.aace_class e).
Proof.
  intros Hi Hn Hrow. destruct Hrow.
  replace (Z.to_nat (Z.min (Z.of_nat i) 4)) with i in Haace by lia.
  split; [|exact Haace].
  apply class_progression_nth in Haace. apply Haace.
Qed.

Lemma nth_error_lt {A : Type} (l : list A) i e :
  nth_error l i = Some e -> (i < List.length l)%nat.
Proof. intros H. apply nth_error_Some. rewrite H. discriminate. Qed.

(** *** C4 *)

(** C4.  A progressive sequence has between 2 and 5 estimates; the
    estimate at 0-indexed step i carries class (5 - i); so a sequence of
    three walks class_5, class_4, class_3 and one of five walks all five
    classes in order, and the class number strictly falls along the
    sequence (maturity never regresses). *)
Theorem C4_class_progression project estimators g :
  estimators <> [] ->
  exists rows n g',
    generate_progressive_estimates project estimators g = Some (rows, n, g')
    /\ 2 <= n <= 5
    /\ Z.of_nat (List.length rows) = n
    /\ (forall i e, nth_error rows i = Some e ->
          Estimate.aace_class e = aace_class_name (5 - Z.of_nat i))
    /\ (n = 3 -> map Estimate.aace_class rows
                 = ["class_5"; "class_4"; "class_3"])
    /\ (n = 5 -> map Estimate.aace_class rows
                 = ["class_5"; "class_4"; "class_3"; "class_2"; "class_1"])
    /\ (forall i j ei ej ki kj,
          (i < j)%nat ->
          nth_error rows i = Some ei -> nth_error rows j = Some ej ->
          Estimate.aace_class ei = aace_class_name ki ->
          Estimate.aace_class ej = aace_class_name kj ->
          1 <= ki <= 5 -> 1 <= kj <= 5 ->
          kj < ki).
Proof.
  intros Hne.
  destruct (generate_progressive_estimates_total project estimators g Hne)
    as (rows & n & g' & Hrun).
  exists rows, n, g'. split; [exact Hrun|].
  apply generate_progressive_estimates_rows in Hrun.
  destruct Hrun as (Hn & Hlen & estimator & _ & Hrows).
  assert (Hclass : forall i e, nth_error rows i = Some e ->
            Estimate.aace_class e = aace_class_name (5 - Z.of_nat i)).
  { intros i e Hi. destruct (Hrows i e Hi) as [_ Hrow].
    apply nth_error_lt in Hi.
    eapply progressive_row_class; [| |exact Hrow]; lia. }
  assert (Hmap : forall k, (k <= 5)%nat -> List.length rows = k ->
            map Estimate.aace_class rows = firstn k class_progression).
  { intros k Hk Hlk. apply nth_error_ext. intros i.
    rewrite nth_error_map.
    destruct (nth_error rows i) as [e|] eqn:Hi; simpl.
    - destruct (Hrows i e Hi) as [_ Hrow].
      pose proof (nth_error_lt _ _ _ Hi) as Hlt.
      destruct (progressive_row_class _ _ n i e ltac:(lia) ltac:(lia) Hrow)
        as [_ Hnth].
      rewrite nth_error_firstn.
      destruct (Nat.ltb_spec i k) as [_|Hge]; [|lia].
      symmetry. exact Hnth.
    - apply nth_error_None in Hi. symmetry. apply nth_error_None.
      rewrite length_firstn. simpl List.length. lia. }
  split; [exact Hn|]. split; [lia|]. split; [exact Hclass|].
  split; [|split].
  - intros ->. apply (Hmap 3%nat); lia.
  - intros ->. apply (Hmap 5%nat); lia.
  - intros i j ei ej ki kj Hij Hi Hj Hci Hcj Hki Hkj.
    pose proof (nth_error_lt _ _ _ Hj) as Hjlt.
    rewrite (Hclass i ei Hi) in Hci. rewrite (Hclass j ej Hj) in Hcj.
    assert (Hki' : ki = 5 - Z.of_nat i).
    { assert (Hc : ki = 1 \/ ki = 2 \/ ki = 3 \/ ki = 4 \/ ki = 5) by lia.
      assert (Hd : (i = 0 \/ i = 1 \/ i = 2 \/ i = 3 \/ i = 4)%nat) by lia.
      destruct Hc as [-> | [-> | [-> | [-> | ->]]]];
        destruct Hd as [-> | [-> | [-> | [-> | ->]]]];
        simpl in Hci; first [discriminate | reflexivity]. }
    assert (Hkj' : kj = 5 - Z.of_nat j).
    { assert (Hc : kj = 1 \/ kj = 2 \/ kj = 3 \/ kj = 4 \/ kj = 5) by lia.
      assert (Hd : (j = 0 \/ j = 1 \/ j = 2 \/ j = 3 \/ j = 4)%nat) by lia.
      destruct Hc as [-> | [-> | [-> | [-> | ->]]]];
        destruct Hd as [-> | [-> | [-> | [-> | ->]]]];
        simpl in Hcj; first [discriminate | reflexivity]. }
    lia.
Qed.

Lemma C4_class_progression_witness :
  exists rows n g',
    generate_progressive_estimates Fixture.project Fixture.estimators
      Fixture.generators = Some (rows, n, g')
    /\ 2 <= n <= 5
    /\ Z.of_nat (List.length rows) = n
    /\ (forall i e, nth_error rows i = Some e ->
          Estimate.aace_class e = aace_class_name (5 - Z.of_nat i))
    /\ (n = 3 -> map Estimate.aace_class rows
                 = ["class_5"; "class_4"; "class_3"])
    /\ (n = 5 -> map Estimate.aace_class rows
                 = ["class_5"; "class_4"; "class_3"; "class_2"; "class_1"])
    /\ (forall i j ei ej ki kj,
          (i < j)%nat ->
          nth_error rows i = Some ei -> nth_error rows j = Some ej ->
          Estimate.aace_class ei = aace_class_name ki ->
          Estimate.aace_class ej = aace_class_name kj ->
          1 <= ki <= 5 -> 1 <= kj <= 5 ->
          kj < ki).
Proof.
  apply (C4_class_progression Fixture.project Fixture.estimators
           Fixture.generators).
  discriminate.
Defined.

(** *** C5 *)

Lemma filter_none {A : Type} (f : A -> bool) (l : list A) :
  (forall e, In e l -> f e = false) -> filter f l = [].
Proof.
  induction l as [|x rest IH]; intros H; simpl; [reflexivity|].
  rewrite (H x (or_introl eq_refl)). apply IH.
  intros e He. apply H. right. exact He.
Qed.

(** A list in which exactly the last position satisfies [f]. *)
Lemma filter_last_only {A : Type} (f : A -> bool) (l : list A) :
  l <> [] ->
  (forall i e, nth_error l i = Some e ->
     f e = Nat.eqb i (List.length l - 1)) ->
  List.length (filter f l) = 1%nat.
Proof.
  intros Hne Hf.
  destruct (exists_last Hne) as (init & x & ->).
  rewrite filter_app, length_app.
  assert (Hinit : filter f init = []).
  { apply filter_none. intros e He.
    apply In_nth_error in He. destruct He as [i Hi].
    pose proof (nth_error_lt _ _ _ Hi) as Hlt.
    rewrite (Hf i e).
    - rewrite length_app. simpl.
      destruct (Nat.eqb_spec i (List.length init + 1 - 1)); [lia|reflexivity].
    - rewrite nth_error_app1; assumption. }
  rewrite Hinit. simpl.
  rewrite (Hf (List.length init) x).
  - rewrite length_app. simpl.
    destruct (Nat.eqb_spec (List.length init) (List.length init + 1 - 1));
      [reflexivity|lia].
  - rewrite nth_error_app2, Nat.sub_diag; [reflexivity|lia].
Qed.

(** C5.  In a progressive sequence exactly one estimate is "accepted"; it
    is the last one generated, which has the greatest estimate_sequence
    number; every other estimate is "superseded". *)
Theorem C5_terminal_acceptance project estimators g :
  estimators <> [] ->
  exists rows n g',
    generate_progressive_estimates project estimators g = Some (rows, n, g')
    /\ List.length (filter is_accepted rows) = 1%nat
    /\ (exists last,
          nth_error rows (List.length rows - 1) = Some last
          /\ Estimate.status last = "accepted"
          /\ forall e, In e rows ->
               Estimate.estimate_sequence e
               <= Estimate.estimate_sequence last)
    /\ (forall i e, nth_error rows i = Some e ->
          Estimate.estimate_sequence e = Z.of_nat i + 1)
    /\ (forall i e, nth_error rows i = Some e ->
          i <> (List.length rows - 1)%nat ->
          Estimate.status e = "superseded").
Proof.
  intros Hne.
  destruct (generate_progressive_estimates_total project estimators g Hne)
    as (rows & n & g' & Hrun).
  exists rows, n, g'. split; [exact Hrun|].
  apply generate_progressive_estimates_rows in Hrun.
  destruct Hrun as (Hn & Hlen & estimator & _ & Hrows).
  assert (Hseq : forall i e, nth_error rows i = Some e ->
            Estimate.estimate_sequence e = Z.of_nat i + 1).
  { intros i e Hi. destruct (Hrows i e Hi) as [_ []]. assumption. }
  assert (Hstat : forall i e, nth_error rows i = Some e ->
            Estimate.status e
            = if Nat.eqb i (List.length rows - 1)
              then "accepted" else "superseded").
  { intros i e Hi. destruct (Hrows i e Hi) as [_ []].
    rewrite Hstatus.
    destruct (Z.eqb_spec (Z.of_nat i) (n - 1));
      destruct (Nat.eqb_spec i (List.length rows - 1));
      first [reflexivity | lia]. }
  split; [|split; [|split; [exact Hseq|]]].
  - apply filter_last_only.
    + intros ->. simpl in Hlen. lia.
    + intros i e Hi. unfold is_accepted. rewrite (Hstat i e Hi).
      destruct (Nat.eqb i (List.length rows - 1)); reflexivity.
  - destruct (nth_error rows (List.length rows - 1)) as [last|] eqn:Hlast.
    + exists last. split; [reflexivity|]. split.
      * rewrite (Hstat _ _ Hlast), Nat.eqb_refl. reflexivity.
      * intros e He. apply In_nth_error in He. destruct He as [i Hi].
        rewrite (Hseq _ _ Hi), (Hseq _ _ Hlast).
        apply nth_error_lt in Hi. lia.
    + apply nth_error_None in Hlast. lia.
  - intros i e Hi Hnot. rewrite (Hstat i e Hi).
    destruct (Nat.eqb_spec i (List.length rows - 1)); [contradiction|].
    reflexivity.
Qed.

Lemma C5_terminal_acceptance_witness :
  exists rows n g',
    generate_progressive_estimates Fixture.project Fixture.estimators
      Fixture.generators = Some (rows, n, g')
    /\ List.length (filter is_accepted rows) = 1%nat
    /\ (exists last,
          nth_error rows (List.length rows - 1) = Some last
          /\ Estimate.status last = "accepted"
          /\ forall e, In e rows ->
               Estimate.estimate_sequence e
               <= Estimate.estimate_sequence last)
    /\ (forall i e, nth_error rows i = Some e ->
          Estimate.estimate_sequence e = Z.of_nat i + 1)
    /\ (forall i e, nth_error rows i = Some e ->
          i <> (List.length rows - 1)%nat ->
          Estimate.status e = "superseded").
Proof.
  apply (C5_terminal_acceptance Fixture.project Fixture.estimators
           Fixture.generators).
  discriminate.
Defined.

(** *** C10 *)

(** C10.  The first estimate of a progressive sequence (sequence number
    1, class 5) is dated exactly at the project's posted_date: the day
    offset is the step index times the draw, which is zero at step 0. *)
Theorem C10_first_estimate_at_posted_date project estimators g :
  estimators <> [] ->
  exists first rest n g',
    generate_progressive_estimates project estimators g
      = Some (first :: rest, n, g')
    /\ Estimate.estimate_sequence first = 1
    /\ Estimate.aace_class first = "class_5"
    /\ Estimate.submitted_date first = Project.posted_date project.
Proof.
  intros Hne.
  destruct (generate_progressive_estimates_total project estimators g Hne)
    as (rows & n & g' & Hrun).
  pose proof (generate_progressive_estimates_rows _ _ _ _ _ _ Hrun)
    as (Hn & Hlen & estimator & _ & Hrows).
  destruct rows as [|first rest]; [simpl in Hlen; lia|].
  exists first, rest, n, g'. split; [exact Hrun|].
  destruct (Hrows 0%nat first eq_refl) as [_ Hrow].
  destruct Hrow. simpl in *.
  injection Haace as <-.
  repeat split; try assumption.
  rewrite Hsubmitted. unfold timedelta_days. lia.
Qed.

Lemma C10_first_estimate_at_posted_date_witness :
  exists first rest n g',
    generate_progressive_estimates Fixture.project Fixture.estimators
      Fixture.generators = Some (first :: rest, n, g')
    /\ Estimate.estimate_sequence first = 1
    /\ Estimate.aace_class first = "class_5"
    /\ Estimate.submitted_date first = Project.posted_date Fixture.project.
Proof.
  apply (C10_first_estimate_at_posted_date Fixture.project
           Fixture.estimators Fixture.generators).
  discriminate.
Defined.

(** *** C2 *)

(** The date of step [seq] is [posted_date + seq * r] days, with a fresh
    draw [r] in [7, 21] at every step. *)
Lemma progressive_dates project estimators g rows n g' :
  generate_progressive_estimates project estimators g = Some (rows, n, g') ->
  forall i e, nth_error rows i = Some e ->
  exists r, 7 <= r <= 21 /\
    Estimate.submitted_date e
    = Project.posted_date project + timedelta_days (Z.of_nat i * r).
Proof.
  intros Hrun i e Hi.
  apply generate_progressive_estimates_rows in Hrun.
  destruct Hrun as (_ & _ & estimator & _ & Hrows).
  destruct (Hrows i e Hi) as [_ []].
  exists step_days. split; assumption.
Qed.

(** C2 fails on the code.  On the tape of [Fixture.generators] the draws
    of [random.randint(7, 21)] are 21 at step 1 and 7 at step 2, so the
    offsets are 0, 21 and 14 days: the third estimate is dated seven days
    before the second, and the first interval is 21 days while the second
    is negative. *)
Theorem C2_dates_not_increasing :
  exists rows g' e0 e1 e2,
    generate_progressive_estimates Fixture.project Fixture.estimators
      Fixture.generators = Some (rows, 3, g')
    /\ rows = [e0; e1; e2]
    /\ days_between (Estimate.submitted_date e0) (Estimate.submitted_date e1)
       = 21
    /\ days_between (Estimate.submitted_date e1) (Estimate.submitted_date e2)
       = -7
    /\ Estimate.submitted_date e2 < Estimate.submitted_date e1.
Proof.
  destruct (generate_progressive_estimates Fixture.project Fixture.estimators
              Fixture.generators) as [[[rows n] g']|] eqn:Hrun;
    [|vm_compute in Hrun; discriminate].
  assert (Hdates : (n, map Estimate.submitted_date rows)
                   = (3, [1710460800; 1712275200; 1711670400])).
  { vm_compute in Hrun. injection Hrun as <- <- _. reflexivity. }
  injection Hdates as -> Hd.
  destruct rows as [|e0 [|e1 [|e2 [|e3 rest]]]]; try discriminate Hd.
  simpl in Hd. injection Hd as H0 H1 H2.
  exists [e0; e1; e2], g', e0, e1, e2.
  split; [reflexivity|]. split; [reflexivity|].
  rewrite H0, H1, H2. repeat split; reflexivity.
Qed.

(* ================================================================== *)
(** ** Confidence intervals *)

Section Intervals.
Local Open Scope Q_scope.

Lemma ratio_mono (a b : Z) : (a <= b)%Z -> ratio a <= ratio b.
Proof.
  intros H. rewrite !ratio_mult. rewrite Zle_Qle in H. lra.
Qed.

Lemma scale_mono (base_cost x y : Q) :
  0 <= base_cost -> x <= y -> base_cost * (1 + x) <= base_cost * (1 + y).
Proof.
  intros Hb Hxy.
  assert (H : (1 + x) * base_cost <= (1 + y) * base_cost)
    by (apply Qmult_le_compat_r; lra).
  lra.
Qed.

Lemma band_at_step (i : nat) s c :
  nth_error class_progression i = Some s ->
  dict_lookup AACE_CLASSES s = Some c ->
  nth_error progression_bands i = Some (confidence_low c, confidence_high c).
Proof.
  intros Hs Hc.
  destruct i as [|[|[|[|[|i]]]]]; simpl in Hs;
    try (injection Hs as <-; simpl in Hc; injection Hc as <-; reflexivity).
  destruct i; discriminate Hs.
Qed.

(** Along the class walk the percentage band only narrows. *)
Lemma progression_bands_nested (i j : nat) si sj ci cj :
  (i <= j)%nat ->
  nth_error class_progression i = Some si ->
  nth_error class_progression j = Some sj ->
  dict_lookup AACE_CLASSES si = Some ci ->
  dict_lookup AACE_CLASSES sj = Some cj ->
  (confidence_low ci <= confidence_low cj)%Z /\
  (confidence_high cj <= confidence_high ci)%Z.
Proof.
  intros Hij Hi Hj Hci Hcj.
  pose proof (band_at_step i si ci Hi Hci) as Bi.
  pose proof (band_at_step j sj cj Hj Hcj) as Bj.
  apply nth_error_lt in Hi. apply nth_error_lt in Hj.
  simpl List.length in Hi, Hj.
  destruct i as [|[|[|[|[|i]]]]]; try (exfalso; lia);
    destruct j as [|[|[|[|[|j]]]]]; try (exfalso; lia);
    simpl in Bi, Bj; injection Bi as <- <-; injection Bj as <- <-; lia.
Qed.

(** The base cost of a project whose budgets are not negative. *)
Lemma base_cost_nonneg project :
  0 <= Project.estimated_budget_min project ->
  0 <= Project.estimated_budget_max project ->
  0 <= base_cost_of project.
Proof.
  intros Hmin Hmax. unfold base_cost_of, Qdiv.
  change (/ 2) with (1 # 2). lra.
Qed.

Lemma project_budget_nonneg b state m bmin bmax :
  0 < b -> project_budget b state = (m, bmin, bmax) ->
  0 < m /\ 0 <= bmin /\ 0 <= bmax.
Proof.
  unfold project_budget. intros Hb H. injection H as <- <- <-.
  assert (Hm : 0 < get_regional_multiplier state).
  { unfold get_regional_multiplier, dict_get.
    destruct (dict_lookup REGIONAL_COST_MULTIPLIERS state) as [m|] eqn:E;
      [|reflexivity].
    apply dict_lookup_In in E. simpl in E.
    repeat (destruct E as [E|E]; [injection E as _ <-; reflexivity|]).
    contradiction. }
  assert (Hbm : 0 < b * get_regional_multiplier state)
    by (apply Qmult_lt_0_compat; assumption).
  split; [exact Hm|].
  split; apply round2_nonneg; lra.
Qed.

End Intervals.

(** Every project that [generate_projects] creates has a base cost that
    is not negative. *)
Lemma generated_base_cost_nonneg n businesses g projects g' :
  generate_projects_n n businesses g = Some (projects, g') ->
  forall p, In p projects -> (0 <= base_cost_of p)%Q.
Proof.
  intros H p Hp.
  destruct (generate_projects_n_budget _ _ _ _ _ H p Hp)
    as [(b & Hb & Hbudget) _].
  symmetry in Hbudget.
  destruct (project_budget_nonneg _ _ _ _ _ Hb Hbudget) as (_ & Hmin & Hmax).
  apply base_cost_nonneg; assumption.
Qed.

(** Along a progressive sequence on a base cost that is not negative the
    interval width never increases. *)
Lemma progressive_width_never_increases project estimators g :
  estimators <> [] ->
  (0 <= base_cost_of project)%Q ->
  exists rows n g',
    generate_progressive_estimates project estimators g = Some (rows, n, g')
    /\ forall i j ei ej,
         (i < j)%nat ->
         nth_error rows i = Some ei -> nth_error rows j = Some ej ->
         (interval_width ej <= interval_width ei)%Q.
Proof.
  intros Hne Hbase.
  destruct (generate_progressive_estimates_total project estimators g Hne)
    as (rows & n & g' & Hrun).
  exists rows, n, g'. split; [exact Hrun|].
  apply generate_progressive_estimates_rows in Hrun.
  destruct Hrun as (Hn & Hlen & estimator & _ & Hrows).
  intros i j ei ej Hij Hi Hj.
  destruct (Hrows i ei Hi) as [Hpi Hri].
  destruct (Hrows j ej Hj) as [Hpj Hrj].
  pose proof (nth_error_lt _ _ _ Hi) as Hilt.
  pose proof (nth_error_lt _ _ _ Hj) as Hjlt.
  destruct (progressive_row_class _ _ n i ei ltac:(lia) ltac:(lia) Hri)
    as [_ Hci].
  destruct (progressive_row_class _ _ n j ej ltac:(lia) ltac:(lia) Hrj)
    as [_ Hcj].
  destruct Hpi as [ci ? ? ? ? ? ? ? ? Hclass_i _ _ Hlow_i Hhigh_i].
  destruct Hpj as [cj ? ? ? ? ? ? ? ? Hclass_j _ _ Hlow_j Hhigh_j].
  destruct (progression_bands_nested i j _ _ ci cj ltac:(lia) Hci Hcj
              Hclass_i Hclass_j) as [Hlo Hhi].
  unfold interval_width.
  rewrite Hlow_i, Hhigh_i, Hlow_j, Hhigh_j.
  assert (H1 : (round2 (base_cost_of project
                        * (1 + ratio (confidence_high cj)))
                <= round2 (base_cost_of project
                           * (1 + ratio (confidence_high ci))))%Q)
    by (apply round2_mono, scale_mono; [exact Hbase|apply ratio_mono, Hhi]).
  assert (H2 : (round2 (base_cost_of project
                        * (1 + ratio (confidence_low ci)))
                <= round2 (base_cost_of project
                           * (1 + ratio (confidence_low cj))))%Q)
    by (apply round2_mono, scale_mono; [exact Hbase|apply ratio_mono, Hlo]).
  lra.
Qed.

(* ================================================================== *)
(** ** The generators return *)

Lemma bisect_le cum x hi : (bisect cum x hi <= hi)%nat.
Proof.
  revert hi. induction cum as [|c rest IH]; intros [|hi]; simpl; try lia.
  destruct (Qle_bool c x); [|lia]. specialize (IH hi). lia.
Qed.

Lemma accumulate_length acc ws :
  List.length (accumulate acc ws) = List.length ws.
Proof.
  revert acc. induction ws as [|w rest IH]; intros acc; simpl;
    [reflexivity|]. rewrite IH. reflexivity.
Qed.

Lemma random_choices_total {A : Type} (population : list A) ws g :
  population <> [] -> ws <> [] ->
  exists r, random_choices population ws g = Some r.
Proof.
  intros Hp Hw. unfold random_choices.
  destruct (rev (accumulate 0%Q ws)) as [|total rest] eqn:E.
  - apply (f_equal (@List.length Q)) in E.
    rewrite length_rev, accumulate_length in E.
    destruct ws; [congruence|discriminate E].
  - apply bind_total; [apply random_random_total|intros u g1].
    destruct (nth_error population
                (bisect (accumulate 0%Q ws) (u * total)%Q
                        (List.length population - 1))) eqn:En.
    + apply ret_total.
    + apply nth_error_None in En.
      pose proof (bisect_le (accumulate 0%Q ws) (u * total)%Q
                    (List.length population - 1)).
      destruct population; [congruence|simpl in *; lia].
Qed.

Lemma project_status_total d g : exists r, project_status d g = Some r.
Proof.
  unfold project_status.
  destruct (300 <? d); [|destruct (150 <? d); [|destruct (60 <? d)]];
    apply random_choices_total; discriminate.
Qed.

Lemma fake_word_total g : exists r, fake_word g = Some r.
Proof. eexists. reflexivity. Qed.

Lemma fake_date_time_between_total a b g :
  a <= b -> exists r, fake_date_time_between a b g = Some r.
Proof.
  intros H. unfold fake_date_time_between.
  destruct (Z.ltb_spec b a); [lia|].
  apply bind_total; [apply fake_word_total|intros; apply ret_total].
Qed.

Lemma np_random_lognormal_total mean sigma g :
  exists r, np_random_lognormal mean sigma g = Some r.
Proof.
  unfold np_random_lognormal. destruct (np_random g 0%nat).
  eexists. reflexivity.
Qed.

(** With at least one business, one iteration of [generate_projects]
    returns a project. *)
Lemma generate_project_total businesses g :
  businesses <> [] -> exists r, generate_project businesses g = Some r.
Proof.
  intros Hne. unfold generate_project.
  apply bind_total; [apply random_choice_total; exact Hne|intros business g1].
  apply bind_total; [apply random_choice_total; discriminate
                    |intros [city state] g2].
  apply bind_total; [apply fake_date_time_between_total; vm_compute;
                     discriminate|intros posted g3].
  destruct (random_choice_total (dict_keys PROJECT_SUBTYPES) g3
              ltac:(discriminate)) as [[sector g4] Hsector].
  eapply bind_value; [exact Hsector|].
  apply random_choice_spec in Hsector. simpl in Hsector.
  assert (Hsub : exists subtypes,
             dict_lookup PROJECT_SUBTYPES sector = Some subtypes
             /\ subtypes <> []).
  { repeat (destruct Hsector as [<-|Hsector];
            [eexists; split; [reflexivity|discriminate]|]).
    contradiction. }
  destruct Hsub as (subtypes & Hlook & Hsubne).
  eapply bind_value; [unfold dict_getitem; rewrite Hlook; reflexivity|].
  apply bind_total; [apply random_choice_total; exact Hsubne
                    |intros subtype g6].
  apply bind_total; [apply np_random_lognormal_total|intros b g7].
  unfold project_budget. cbv beta iota zeta.
  apply bind_total; [apply project_status_total|intros status g8].
  apply bind_total; [apply uuid4_total|intros pid g9].
  apply bind_total; [apply random_choice_total; discriminate
                    |intros title g10].
  apply bind_total; [apply fake_word_total|intros descr g11].
  apply bind_total; [apply random_choice_total; discriminate
                    |intros ptype g12].
  apply bind_total; [apply fake_word_total|intros zip g13].
  apply bind_total; [apply random_randint_total; lia|intros sqft g14].
  apply bind_total; [apply random_randint_total; lia|intros needed g15].
  apply bind_total; [apply random_choices_total; discriminate
                    |intros urgency g16].
  apply ret_total.
Qed.

Lemma generate_projects_n_total n businesses g :
  businesses <> [] ->
  exists projects g',
    generate_projects_n n businesses g = Some (projects, g')
    /\ List.length projects = n.
Proof.
  intros Hne. unfold generate_projects_n.
  destruct (for_each_total (fun _ : nat => generate_project businesses)
              (seq 0 n)) with (g := g) as [[projects g'] H].
  { intros x gx _. apply generate_project_total. exact Hne. }
  exists projects, g'. split; [exact H|].
  apply for_each_length in H. rewrite length_seq in H. exact H.
Qed.

Lemma list_set_length {A : Type} (xs : list A) j v :
  List.length (list_set xs j v) = List.length xs.
Proof.
  revert j. induction xs as [|x rest IH]; intros [|j]; simpl;
    try reflexivity. rewrite IH. reflexivity.
Qed.

Lemma sample_loop_total {A : Type} (k : nat) :
  forall (pool : list A) (n : nat) g,
    (k <= n)%nat -> (n <= List.length pool)%nat ->
    exists r, sample_loop pool n k g = Some r.
Proof.
  induction k as [|k IH]; intros pool n g Hk Hn; simpl.
  - apply ret_total.
  - destruct (randbelow (Z.of_nat n) g) as [[j g1]|] eqn:Hj;
      [|discriminate Hj].
    eapply bind_value; [exact Hj|].
    apply randbelow_spec in Hj; [|lia].
    destruct (nth_error pool (Z.to_nat j)) as [x|] eqn:Ex;
      [|apply nth_error_None in Ex; lia].
    destruct (nth_error pool (n - 1)) as [last|] eqn:El;
      [|apply nth_error_None in El; lia].
    apply bind_total; [|intros; apply ret_total].
    apply IH; [lia|]. rewrite list_set_length. lia.
Qed.

Lemma random_sample_total {A : Type} (population : list A) k g :
  0 <= k <= Z.of_nat (List.length population) ->
  exists r, random_sample population k g = Some r.
Proof.
  intros Hk. unfold random_sample.
  destruct (Z.ltb_spec k 0); [lia|].
  destruct (Z.ltb_spec (Z.of_nat (List.length population)) k); [lia|].
  simpl. apply sample_loop_total; lia.
Qed.

Lemma AACE_keys_defined aace :
  In aace (dict_keys AACE_CLASSES) ->
  exists class_info, dict_lookup AACE_CLASSES aace = Some class_info.
Proof.
  simpl. intros H.
  repeat (destruct H as [<-|H]; [eexists; reflexivity|]).
  contradiction.
Qed.

Lemma single_estimate_total project estimator g :
  exists r, single_estimate project estimator g = Some r.
Proof.
  unfold single_estimate.
  destruct (random_choice_total (dict_keys AACE_CLASSES) g
              ltac:(discriminate)) as [[aace g1] Haace].
  eapply bind_value; [exact Haace|].
  apply random_choice_spec, AACE_keys_defined in Haace.
  destruct Haace as [ci Hci].
  eapply bind_value; [unfold dict_getitem; rewrite Hci; reflexivity|].
  do 9 total_step.
  total_step. total_step. total_step.
  apply bind_total; [apply random_choice_total; discriminate|intros ? ?].
  total_step. apply ret_total.
Qed.

(** With a non-empty estimator pool the rows of one project are
    produced, by whichever mode is drawn. *)
Lemma project_estimates_total estimators project g :
  estimators <> [] ->
  exists r, project_estimates estimators project g = Some r.
Proof.
  intros Hne. unfold project_estimates.
  apply bind_total; [apply random_random_total|intros mode g1].
  destruct (Qlt_bool mode PROGRESSIVE_ESTIMATE_RATE).
  - destruct (generate_progressive_estimates_total project estimators g1 Hne)
      as (rows & n & g2 & Hrun).
    eapply bind_value; [exact Hrun|]. apply ret_total.
  - destruct (random_randint_total 1 3 g1 ltac:(lia)) as [[num g2] Hnum].
    eapply bind_value; [exact Hnum|].
    apply random_randint_spec in Hnum.
    apply bind_total; [apply random_sample_total; lia|intros selected g3].
    apply for_each_total. intros. apply single_estimate_total.
Qed.

Lemma generate_estimates_total projects estimators g :
  estimators <> [] ->
  exists rows g', generate_estimates projects estimators g = Some (rows, g').
Proof.
  intros Hne. unfold generate_estimates.
  destruct (for_each_total (project_estimates estimators) projects)
    with (g := g) as [[per_project g1] H].
  { intros. apply project_estimates_total. exact Hne. }
  unfold bind. rewrite H. do 2 eexists. reflexivity.
Qed.

(* ================================================================== *)
(** ** Project budgets *)

Section Budgets.
Local Open Scope Q_scope.

Lemma multiplier_positive state : 0 < get_regional_multiplier state.
Proof.
  unfold get_regional_multiplier, dict_get.
  destruct (dict_lookup REGIONAL_COST_MULTIPLIERS state) as [m|] eqn:E;
    [|reflexivity].
  apply dict_lookup_In in E. simpl in E.
  repeat (destruct E as [E|E]; [injection E as _ <-; reflexivity|]).
  contradiction.
Qed.

(** The cheapest region is Indiana at 0.88. *)
Lemma multiplier_lower_bound state : 0.88 <= get_regional_multiplier state.
Proof.
  unfold get_regional_multiplier, dict_get.
  destruct (dict_lookup REGIONAL_COST_MULTIPLIERS state) as [m|] eqn:E;
    [|unfold Qle; simpl; lia].
  apply dict_lookup_In in E. simpl in E.
  repeat (destruct E as [E|E];
          [injection E as _ <-; unfold Qle; simpl; lia|]).
  contradiction.
Qed.

Lemma Qabs_bound (x e : Q) : - e <= x -> x <= e -> Qabs x <= e.
Proof. intros H1 H2. apply Qabs_Qle_condition. split; assumption. Qed.

Lemma round2_error (x : Q) : Qabs (round2 x - x) <= 1 # 200.
Proof.
  destruct (round2_near x) as [H1 H2]. apply Qabs_bound; lra.
Qed.

(** Dividing the midpoint of the budget interval by the multiplier gives
    back the draw, up to half a cent over the multiplier. *)
Lemma midpoint_recovers_draw (b m bmin bmax : Q) :
  0 < m ->
  bmin = round2 (b * m * 0.8) -> bmax = round2 (b * m * 1.2) ->
  Qabs ((bmin + bmax) / 2 / m - b) <= (1 # 200) / m.
Proof.
  intros Hm -> ->.
  destruct (round2_near (b * m * 0.8)) as [A1 A2].
  destruct (round2_near (b * m * 1.2)) as [B1 B2].
  set (lo := round2 (b * m * 0.8)) in *.
  set (hi := round2 (b * m * 1.2)) in *.
  assert (Hne : ~ m == 0) by lra.
  assert (Hinv : 0 < / m) by (apply Qinv_lt_0_compat; exact Hm).
  assert (E : (lo + hi) / 2 / m - b == ((lo + hi) * (1 # 2) - b * m) * / m)
    by (field; exact Hne).
  rewrite E. unfold Qdiv.
  assert (D1 : - (1 # 200) <= (lo + hi) * (1 # 2) - b * m) by lra.
  assert (D2 : (lo + hi) * (1 # 2) - b * m <= 1 # 200) by lra.
  apply Qabs_bound.
  - apply (Qmult_le_compat_r _ _ (/ m)) in D1; lra.
  - apply (Qmult_le_compat_r _ _ (/ m)) in D2; lra.
Qed.

End Budgets.

(* ================================================================== *)
(** ** The static tables *)

(** *** C8 *)

(** C8.  In the AACE table the band of a more mature class lies inside
    the band of every less mature class (class 1 [-10,15] in class 2
    [-15,20] in class 3 [-20,30] in class 4 [-30,50] in class 5
    [-50,100]) and the nominal engineering completion strictly increases
    from class 5 to class 1; looking up a region code that is not in the
    regional table gives 1.0, and every multiplier is positive. *)
Theorem C8_static_tables :
  map (fun k =>
         option_map (fun c => (confidence_low c, confidence_high c))
                    (dict_lookup AACE_CLASSES (aace_class_name k)))
      [1; 2; 3; 4; 5]
  = [Some (-10, 15); Some (-15, 20); Some (-20, 30); Some (-30, 50);
     Some (-50, 100)]
  /\ (forall i j ci cj,
        1 <= i -> i <= j -> j <= 5 ->
        dict_lookup AACE_CLASSES (aace_class_name i) = Some ci ->
        dict_lookup AACE_CLASSES (aace_class_name j) = Some cj ->
        confidence_low cj <= confidence_low ci
        /\ confidence_high ci <= confidence_high cj)
  /\ (forall i j ci cj,
        1 <= i -> i < j -> j <= 5 ->
        dict_lookup AACE_CLASSES (aace_class_name i) = Some ci ->
        dict_lookup AACE_CLASSES (aace_class_name j) = Some cj ->
        engineering_completion cj < engineering_completion ci)
  /\ (forall state,
        dict_lookup REGIONAL_COST_MULTIPLIERS state = None ->
        get_regional_multiplier state = 1.0%Q)
  /\ (forall state, (0 < get_regional_multiplier state)%Q)
  /\ Forall (fun entry => (0 < snd entry)%Q) REGIONAL_COST_MULTIPLIERS.
Proof.
  split; [reflexivity|].
  split; [|split; [|split; [|split]]].
  - intros i j ci cj Hi Hij Hj Hci Hcj.
    assert (Ci : i = 1 \/ i = 2 \/ i = 3 \/ i = 4 \/ i = 5) by lia.
    assert (Cj : j = 1 \/ j = 2 \/ j = 3 \/ j = 4 \/ j = 5) by lia.
    destruct Ci as [-> | [-> | [-> | [-> | ->]]]];
      destruct Cj as [-> | [-> | [-> | [-> | ->]]]];
      try (exfalso; lia);
      simpl in Hci, Hcj; injection Hci as <-; injection Hcj as <-;
      simpl; lia.
  - intros i j ci cj Hi Hij Hj Hci Hcj.
    assert (Ci : i = 1 \/ i = 2 \/ i = 3 \/ i = 4 \/ i = 5) by lia.
    assert (Cj : j = 1 \/ j = 2 \/ j = 3 \/ j = 4 \/ j = 5) by lia.
    destruct Ci as [-> | [-> | [-> | [-> | ->]]]];
      destruct Cj as [-> | [-> | [-> | [-> | ->]]]];
      try (exfalso; lia);
      simpl in Hci, Hcj; injection Hci as <-; injection Hcj as <-;
      simpl; lia.
  - intros state H. unfold get_regional_multiplier, dict_get.
    rewrite H. reflexivity.
  - apply multiplier_positive.
  - unfold REGIONAL_COST_MULTIPLIERS.
    repeat (apply Forall_cons; [reflexivity|]). apply Forall_nil.
Qed.

Lemma C8_static_tables_witness :
  (exists c1 c5,
     dict_lookup AACE_CLASSES "class_1" = Some c1
     /\ dict_lookup AACE_CLASSES "class_5" = Some c5
     /\ (confidence_low c5 <= confidence_low c1
         /\ confidence_high c1 <= confidence_high c5)
     /\ engineering_completion c5 < engineering_completion c1)
  /\ get_regional_multiplier "ZZ" = 1.0%Q.
Proof.
  destruct C8_static_tables as (_ & Hnest & Hcompl & Hdefault & _).
  split.
  - do 2 eexists.
    split; [reflexivity|]. split; [reflexivity|]. split.
    + apply (Hnest 1 5); [lia|lia|lia|reflexivity|reflexivity].
    + apply (Hcompl 1 5); [lia|lia|lia|reflexivity|reflexivity].
  - apply Hdefault. reflexivity.
Defined.

(* ================================================================== *)
(** ** Amounts of a priced row *)

Section Amounts.
Local Open Scope Q_scope.

Lemma round2_compat (x y : Q) : x == y -> round2 x == round2 y.
Proof.
  intros H. apply Qle_antisym; apply round2_mono; lra.
Qed.

(** Facts of the class table used below: no low offset is under -50 and
    no nominal contingency is under 5. *)
Lemma AACE_class_bounds k class_info :
  dict_lookup AACE_CLASSES k = Some class_info ->
  - (1 # 2) <= ratio (confidence_low class_info)
  /\ 5 <= typical_contingency class_info.
Proof.
  intros H. apply dict_lookup_In in H. simpl in H.
  repeat (destruct H as [H|H];
          [injection H as _ <-; split; unfold ratio, Qle; simpl; lia|]).
  contradiction.
Qed.

Lemma product_lower_bound (a b x y : Q) :
  0 <= a -> 0 <= b -> a <= x -> b <= y -> a * b <= x * y.
Proof.
  intros Ha Hb Hax Hby.
  assert (H1 : a * b <= x * b) by (apply Qmult_le_compat_r; assumption).
  assert (H2 : b * x <= y * x) by (apply Qmult_le_compat_r; lra).
  lra.
Qed.


(** All stored amounts of a row are at least zero, and the contingency
    percentage is at least 3. *)
Lemma priced_row_nonneg base_cost e :
  0 <= base_cost -> priced_row base_cost e ->
  0 <= Estimate.estimated_total_cost e
  /\ 0 <= Estimate.labor_cost e
  /\ 0 <= Estimate.materials_cost e
  /\ 0 <= Estimate.equipment_cost e
  /\ 0 <= Estimate.subcontractor_cost e
  /\ 0 <= Estimate.overhead_cost e
  /\ 0 <= Estimate.profit_margin e
  /\ 3 <= Estimate.contingency_percent e.
Proof.
  intros Hbase [ci v cj lf mf ef sf ovf pf Hclass [Hv1 Hv2] Htotal _ _
                [Hcj1 Hcj2] Hcont [Hlf _] Hlabor [Hmf _] Hmat [Hef _] Hequip
                [Hsf _] Hsub [Hof _] Hover [Hpf _] Hprofit].
  destruct (AACE_class_bounds _ _ Hclass) as [Hlo Htyp].
  assert (Hcost : 0 <= base_cost * (1 + v))
    by (apply Qmult_le_0_compat; lra).
  rewrite Htotal, Hlabor, Hmat, Hequip, Hsub, Hover, Hprofit, Hcont.
  assert (Hfrac : forall f, 0.05 <= f -> 0 <= round2 (base_cost * (1 + v) * f)).
  { intros f Hf. apply round2_nonneg, Qmult_le_0_compat; lra. }
  split; [apply round2_nonneg; exact Hcost|].
  do 6 (split; [apply Hfrac; lra|]).
  assert (H3 : round2 3 <= round2 (typical_contingency ci + cj))
    by (apply round2_mono; lra).
  assert (E3 : round2 3 == 3) by reflexivity.
  lra.
Qed.

(** With a base cost of at least 0.21 every stored amount is at least
    one cent. *)
Lemma priced_row_positive base_cost e :
  (21 # 100) <= base_cost -> priced_row base_cost e ->
  0 < Estimate.estimated_total_cost e
  /\ 0 < Estimate.labor_cost e
  /\ 0 < Estimate.materials_cost e
  /\ 0 < Estimate.equipment_cost e
  /\ 0 < Estimate.subcontractor_cost e
  /\ 0 < Estimate.overhead_cost e
  /\ 0 < Estimate.profit_margin e.
Proof.
  intros Hbase [ci v cj lf mf ef sf ovf pf Hclass [Hv1 Hv2] Htotal _ _
                _ _ [Hlf _] Hlabor [Hmf _] Hmat [Hef _] Hequip
                [Hsf _] Hsub [Hof _] Hover [Hpf _] Hprofit].
  destruct (AACE_class_bounds _ _ Hclass) as [Hlo _].
  assert (Hcost : (21 # 200) <= base_cost * (1 + v)).
  { assert (H := product_lower_bound (21 # 100) (1 # 2) base_cost (1 + v)).
    assert (E : (21 # 100) * (1 # 2) == 21 # 200) by reflexivity.
    rewrite E in H. apply H; lra. }
  rewrite Htotal, Hlabor, Hmat, Hequip, Hsub, Hover, Hprofit.
  assert (Hfrac : forall f, 0.05 <= f -> 0 < round2 (base_cost * (1 + v) * f)).
  { intros f Hf.
    assert (H := product_lower_bound (21 # 200) 0.05 (base_cost * (1 + v)) f).
    assert (E : (21 # 200) * 0.05 == 21 # 4000) by reflexivity.
    rewrite E in H.
    assert (Hc : (1 # 100) <= round2 (base_cost * (1 + v) * f))
      by (apply round2_pos; assert (21 # 4000 <= base_cost * (1 + v) * f)
            by (apply H; lra); lra).
    lra. }
  split; [|do 5 (split; [apply Hfrac; lra|]); apply Hfrac; lra].
  assert (Hc : (1 # 100) <= round2 (base_cost * (1 + v)))
    by (apply round2_pos; lra).
  lra.
Qed.

(** A draw of at least 0.24 gives budgets of at least one cent and a
    base cost of at least 0.21: the cheapest region multiplies by 0.88,
    so the adjusted budget is at least 0.2112 and the two bounds, 0.8 and
    1.2 times that, are stored as at least 0.17 and 0.25. *)
Lemma drawn_from_floor b p :
  drawn_from b p -> (24 # 100) <= b ->
  0 < Project.estimated_budget_min p
  /\ 0 < Project.estimated_budget_max p
  /\ (21 # 100) <= base_cost_of p.
Proof.
  unfold drawn_from, project_budget. intros H Hb.
  injection H as _ Hmin Hmax.
  pose proof (multiplier_lower_bound (Project.project_state p)) as Hm.
  set (m := get_regional_multiplier (Project.project_state p)) in *.
  assert (Hbm : (2112 # 10000) <= b * m).
  { assert (H := product_lower_bound (24 # 100) 0.88 b m).
    assert (E : (24 # 100) * 0.88 == 2112 # 10000) by reflexivity.
    rewrite E in H. apply H; lra. }
  assert (Pmin : round2 (16896 # 100000) <= round2 (b * m * 0.8))
    by (apply round2_mono; lra).
  assert (Pmax : round2 (25344 # 100000) <= round2 (b * m * 1.2))
    by (apply round2_mono; lra).
  assert (Emin : round2 (16896 # 100000) == 17 # 100) by reflexivity.
  assert (Emax : round2 (25344 # 100000) == 25 # 100) by reflexivity.
  unfold base_cost_of, Qdiv. change (/ 2) with (1 # 2).
  rewrite Hmin, Hmax. split; [|split]; lra.
Qed.

Lemma drawn_from_nonneg b p :
  0 < b -> drawn_from b p ->
  0 <= Project.estimated_budget_min p
  /\ 0 <= Project.estimated_budget_max p
  /\ 0 <= base_cost_of p.
Proof.
  intros Hb H. unfold drawn_from in H. symmetry in H.
  destruct (project_budget_nonneg _ _ _ _ _ Hb H) as (_ & Hmin & Hmax).
  split; [|split]; try assumption. apply base_cost_nonneg; assumption.
Qed.

End Amounts.

(** Projects first, then their estimates: the two steps of [main] that
    fill the [projects] and [estimates] tables. *)
Lemma projects_then_estimates businesses estimators g :
  businesses <> [] -> estimators <> [] ->
  exists projects g1 rows g2,
    generate_projects businesses g = Some (projects, g1)
    /\ generate_estimates projects estimators g1 = Some (rows, g2).
Proof.
  intros Hb He.
  destruct (generate_projects_n_total NUM_PROJECTS businesses g Hb)
    as (projects & g1 & Hp & _).
  destruct (generate_estimates_total projects estimators g1 He)
    as (rows & g2 & Hr).
  exists projects, g1, rows, g2. split; assumption.
Qed.

(* ================================================================== *)
(** ** Reproducibility *)

(** *** C1 *)

(** C1 fails on the code.  Whatever the seed, and whatever streams the
    seeded generators produce from it, two runs that differ only in
    operating-system entropy give different [estimates] tables for the
    same project and estimator pool: here one run inserts two rows and the
    other three, under different estimate ids. *)
Theorem C1_same_seed_different_estimates (streams : SeededStreams)
    (seed : Z) :
  exists rows1 g1 rows2 g2,
    generate_estimates [Fixture.project] Fixture.estimators
      (module_init streams seed Fixture.first_run) = Some (rows1, g1)
    /\ generate_estimates [Fixture.project] Fixture.estimators
         (module_init streams seed Fixture.second_run) = Some (rows2, g2)
    /\ List.length rows1 = 2%nat
    /\ List.length rows2 = 3%nat
    /\ map Estimate.estimate_id rows1 = [11; 12]%N
    /\ map Estimate.estimate_id rows2 = [21; 22; 23]%N
    /\ rows1 <> rows2.
Proof.
  do 4 eexists.
  split; [vm_compute; reflexivity|].
  split; [vm_compute; reflexivity|].
  split; [reflexivity|]. split; [reflexivity|].
  split; [reflexivity|]. split; [reflexivity|].
  intros H. apply (f_equal (@List.length Estimate.t)) in H.
  simpl in H. discriminate H.
Qed.

(* ================================================================== *)
(** ** Width of the confidence interval along a sequence *)

(** *** C3 *)

(** C3.  For every project that [generate_projects] creates and every
    progressive sequence generated for it, the confidence-interval width
    (confidence_interval_high minus confidence_interval_low) at a later
    step is at most the width at an earlier step: the width never
    increases along the sequence. *)
Theorem C3_width_never_increases businesses estimators g :
  businesses <> [] -> estimators <> [] ->
  exists projects g1,
    generate_projects businesses g = Some (projects, g1)
    /\ forall p, In p projects ->
       forall g2,
       exists rows n g3,
         generate_progressive_estimates p estimators g2 = Some (rows, n, g3)
         /\ forall i j ei ej,
              (i < j)%nat ->
              nth_error rows i = Some ei -> nth_error rows j = Some ej ->
              (interval_width ej <= interval_width ei)%Q.
Proof.
  intros Hb He.
  destruct (generate_projects_n_total NUM_PROJECTS businesses g Hb)
    as (projects & g1 & Hp & _).
  exists projects, g1. split; [exact Hp|].
  intros p Hpin g2.
  apply progressive_width_never_increases; [exact He|].
  eapply generated_base_cost_nonneg; eassumption.
Qed.

Lemma C3_width_never_increases_witness :
  exists projects g1,
    generate_projects Fixture.businesses Fixture.generators
      = Some (projects, g1)
    /\ forall p, In p projects ->
       forall g2,
       exists rows n g3,
         generate_progressive_estimates p Fixture.estimators g2
           = Some (rows, n, g3)
         /\ forall i j ei ej,
              (i < j)%nat ->
              nth_error rows i = Some ei -> nth_error rows j = Some ej ->
              (interval_width ej <= interval_width ei)%Q.
Proof.
  apply (C3_width_never_increases Fixture.businesses Fixture.estimators
           Fixture.generators); discriminate.
Defined.

(* ================================================================== *)
(** ** Worked examples *)

(** The sequence generated for [Fixture.project]: sequence number, class,
    status and days since posting of each row. *)
Example fixture_progressive_sequence :
  option_map
    (fun r =>
       map (fun e => (Estimate.estimate_sequence e, Estimate.aace_class e,
                      Estimate.status e,
                      days_between (Project.posted_date Fixture.project)
                                   (Estimate.submitted_date e)))
           (fst (fst r)))
    (generate_progressive_estimates Fixture.project Fixture.estimators
       Fixture.generators)
  = Some [ (1, "class_5", "superseded", 0);
           (2, "class_4", "superseded", 21);
           (3, "class_3", "accepted", 14) ].
Proof. vm_compute. reflexivity. Qed.

(** The five intervals on a base cost of 1,000,000. *)
Example million_base_cost_intervals :
  option_map
    (fun r =>
       map (fun e => (Estimate.aace_class e,
                      Qred (Estimate.confidence_interval_low e),
                      Qred (Estimate.confidence_interval_high e)))
           (fst (fst r)))
    (generate_progressive_estimates Fixture.million_project
       Fixture.estimators Fixture.five_step_generators)
  = Some [ ("class_5", 500000, 2000000);
           ("class_4", 700000, 1500000);
           ("class_3", 800000, 1300000);
           ("class_2", 850000, 1200000);
           ("class_1", 900000, 1150000) ]%Q.
Proof. vm_compute. reflexivity. Qed.

(** Two projects generated on [Fixture.generators]: state, multiplier and
    budget interval. *)
Example fixture_projects :
  option_map
    (fun r =>
       map (fun p => (Project.project_state p,
                      Qred (Project.regional_cost_multiplier p),
                      Qred (Project.estimated_budget_min p),
                      Qred (Project.estimated_budget_max p)))
           (fst r))
    (generate_projects_n 2 Fixture.businesses Fixture.generators)
  = Some [ ("CA", 13 # 10, 1040000, 1560000);
           ("NY", 27 # 20, 1080000, 1620000) ]%Q.
Proof. vm_compute. reflexivity. Qed.

(* ================================================================== *)
(** * Further properties of the generator *)

(* ================================================================== *)
(** ** Projects *)

Lemma random_choices_spec {A : Type} (population : list A) ws g x g' :
  random_choices population ws g = Some (x, g') -> In x population.
Proof.
  unfold random_choices.
  destruct (rev (accumulate 0%Q ws)) as [|total rest]; [discriminate|].
  intros H. apply bind_Some in H. destruct H as (u & g1 & _ & H).
  destruct (nth_error population
              (bisect (accumulate 0%Q ws) (u * total)%Q
                      (List.length population - 1))) as [y|] eqn:E;
    [|discriminate].
  apply ret_Some in H. injection H as -> _.
  eapply nth_error_In. exact E.
Qed.

Lemma project_status_spec d g s g' :
  project_status d g = Some (s, g') ->
  In s (if 300 <? d then ["completed"; "cancelled"; "in_progress"]
        else if 150 <? d then ["in_progress"; "estimate_delivered";
                               "completed"]
        else if 60 <? d then ["matched"; "estimate_in_progress";
                              "in_progress"]
        else ["posted"; "in_bidding"; "matched"]).
Proof.
  unfold project_status.
  destruct (300 <? d); [|destruct (150 <? d); [|destruct (60 <? d)]];
    apply random_choices_spec.
Qed.

(** Everything one iteration of [generate_projects] fixes about the
    project it returns, besides the budget interval. *)
Lemma generate_project_fields businesses g p g' :
  generate_project businesses g = Some (p, g') ->
  (exists business, In business businesses
     /\ Project.business_id p = Business.business_id business)
  /\ In (Project.project_city p, Project.project_state p) MAJOR_CITIES
  /\ Project.regional_cost_multiplier p
     = get_regional_multiplier (Project.project_state p)
  /\ (exists needed_days, 7 <= needed_days <= 30
        /\ Project.estimate_needed_by p
           = date (Project.posted_date p + timedelta_days needed_days))
  /\ In (Project.status p)
        (if 300 <? days (END_DATE - Project.posted_date p)
         then ["completed"; "cancelled"; "in_progress"]
         else if 150 <? days (END_DATE - Project.posted_date p)
         then ["in_progress"; "estimate_delivered"; "completed"]
         else if 60 <? days (END_DATE - Project.posted_date p)
         then ["matched"; "estimate_in_progress"; "in_progress"]
         else ["posted"; "in_bidding"; "matched"])
  /\ 1000 <= Project.square_footage p <= 500000
  /\ In (Project.project_type p) PROJECT_TYPES
  /\ (exists sector subtypes,
        dict_lookup PROJECT_SUBTYPES sector = Some subtypes
        /\ In (Project.project_subtype p) subtypes)
  /\ In (Project.urgency_level p) ["low"; "normal"; "high"; "urgent"].
Proof.
  intros H. unfold generate_project in H.
  apply bind_Some in H. destruct H as (business & g1 & Hbus & H).
  apply random_choice_spec in Hbus.
  apply bind_Some in H. destruct H as ([city state] & g2 & Hcity & H).
  apply random_choice_spec in Hcity.
  apply bind_Some in H. destruct H as (posted & g3 & Hposted & H).
  apply bind_Some in H. destruct H as (sector & g4 & Hsector & H).
  apply bind_Some in H. destruct H as (subtypes & g5 & Hsubtypes & H).
  apply dict_getitem_spec in Hsubtypes. destruct Hsubtypes as [Hsubtypes _].
  apply bind_Some in H. destruct H as (subtype & g6 & Hsubtype & H).
  apply random_choice_spec in Hsubtype.
  apply bind_Some in H. destruct H as (b & g7 & Hb & H).
  unfold project_budget in H. cbv beta iota zeta in H.
  apply bind_Some in H. destruct H as (status & g8 & Hstatus & H).
  apply project_status_spec in Hstatus.
  apply bind_Some in H. destruct H as (pid & g9 & Hpid & H).
  apply bind_Some in H. destruct H as (title & g10 & Htitle & H).
  apply bind_Some in H. destruct H as (descr & g11 & Hdescr & H).
  apply bind_Some in H. destruct H as (ptype & g12 & Hptype & H).
  apply random_choice_spec in Hptype.
  apply bind_Some in H. destruct H as (zip & g13 & Hzip & H).
  apply bind_Some in H. destruct H as (sqft & g14 & Hsqft & H).
  apply random_randint_spec in Hsqft.
  apply bind_Some in H. destruct H as (needed & g15 & Hneeded & H).
  apply random_randint_spec in Hneeded.
  apply bind_Some in H. destruct H as (urgency & g16 & Hurgency & H).
  apply random_choices_spec in Hurgency.
  apply ret_Some in H. injection H as -> _. cbn [Project.business_id
    Project.project_city Project.project_state
    Project.regional_cost_multiplier Project.estimate_needed_by
    Project.posted_date Project.status Project.square_footage
    Project.project_type Project.project_subtype Project.urgency_level].
  split; [exists business; split; [exact Hbus|reflexivity]|].
  split; [exact Hcity|]. split; [reflexivity|].
  split; [exists needed; split; [exact Hneeded|reflexivity]|].
  split; [exact Hstatus|]. split; [exact Hsqft|]. split; [exact Hptype|].
  split; [exists sector, subtypes; split; assumption|exact Hurgency].
Qed.

Lemma generate_projects_n_fields n businesses g projects g' p :
  generate_projects_n n businesses g = Some (projects, g') ->
  In p projects ->
  exists gi gi', generate_project businesses gi = Some (p, gi').
Proof.
  intros H Hp. unfold generate_projects_n in H.
  destruct (for_each_In _ _ _ _ _ _ H Hp) as (x & gi & gi' & _ & Hbody).
  exists gi, gi'. exact Hbody.
Qed.

Lemma date_plus_days (dt n : Z) : date (dt + timedelta_days n) = date dt + n.
Proof.
  unfold date, timedelta_days, SECONDS_PER_DAY.
  rewrite Z.div_add; lia.
Qed.

Lemma days_of_timedelta (n : Z) : days (timedelta_days n) = n.
Proof.
  unfold days, timedelta_days, SECONDS_PER_DAY. apply Z.div_mul. lia.
Qed.

(** X2.  With an empty business pool [generate_projects] raises at its
    first draw ([random.choice] of an empty list), whatever the state of
    the generators. *)
Theorem generate_projects_empty_pool_raises g :
  generate_projects [] g = None.
Proof.
  unfold generate_projects, generate_projects_n.
  change NUM_PROJECTS with (S 799). rewrite <- cons_seq.
  reflexivity.
Qed.

(** X3.  Every generated project has budget_min <= budget_max, stores the
    multiplier of its own state, and has a (city, state) pair of the
    MAJOR_CITIES list. *)
Theorem generated_project_budget_ordered businesses g :
  businesses <> [] ->
  exists projects g',
    generate_projects businesses g = Some (projects, g')
    /\ forall p, In p projects ->
         (Project.estimated_budget_min p
          <= Project.estimated_budget_max p)%Q
         /\ Project.regional_cost_multiplier p
            = get_regional_multiplier (Project.project_state p)
         /\ In (Project.project_city p, Project.project_state p)
               MAJOR_CITIES.
Proof.
  intros Hne.
  destruct (generate_projects_n_total NUM_PROJECTS businesses g Hne)
    as (projects & g' & Hrun & _).
  exists projects, g'. split; [exact Hrun|].
  intros p Hp.
  destruct (generate_projects_n_budget _ _ _ _ _ Hrun p Hp)
    as [(b & Hb & Hbudget) _].
  destruct (generate_projects_n_fields _ _ _ _ _ _ Hrun Hp)
    as (gi & gi' & Hbody).
  apply generate_project_fields in Hbody.
  destruct Hbody as (_ & Hcity & Hm & _).
  split; [|split; assumption].
  unfold project_budget in Hbudget. injection Hbudget as _ -> ->.
  pose proof (multiplier_positive (Project.project_state p)) as Hmpos.
  assert (Hbm : (0 < b * get_regional_multiplier (Project.project_state p))%Q)
    by (apply Qmult_lt_0_compat; assumption).
  apply round2_mono. lra.
Qed.

Lemma generated_project_budget_ordered_witness :
  exists projects g',
    generate_projects Fixture.businesses Fixture.generators
      = Some (projects, g')
    /\ forall p, In p projects ->
         (Project.estimated_budget_min p
          <= Project.estimated_budget_max p)%Q
         /\ Project.regional_cost_multiplier p
            = get_regional_multiplier (Project.project_state p)
         /\ In (Project.project_city p, Project.project_state p)
               MAJOR_CITIES.
Proof.
  apply (generated_project_budget_ordered Fixture.businesses
           Fixture.generators).
  discriminate.
Defined.

(** X4.  Every generated project is posted inside the generation window
    [START_DATE, END_DATE], and its estimate_needed_by date is between 7
    and 30 days after the day it was posted. *)
Theorem generated_project_dates businesses g :
  businesses <> [] ->
  exists projects g',
    generate_projects businesses g = Some (projects, g')
    /\ forall p, In p projects ->
         START_DATE <= Project.posted_date p <= END_DATE
         /\ 7 <= Project.estimate_needed_by p - date (Project.posted_date p)
            <= 30.
Proof.
  intros Hne.
  destruct (generate_projects_n_total NUM_PROJECTS businesses g Hne)
    as (projects & g' & Hrun & _).
  exists projects, g'. split; [exact Hrun|].
  intros p Hp.
  destruct (generate_projects_n_budget _ _ _ _ _ Hrun p Hp) as [_ Hwin].
  destruct (generate_projects_n_fields _ _ _ _ _ _ Hrun Hp)
    as (gi & gi' & Hbody).
  apply generate_project_fields in Hbody.
  destruct Hbody as (_ & _ & _ & (k & Hk & Hneeded) & _).
  split; [exact Hwin|].
  rewrite Hneeded, date_plus_days. lia.
Qed.

Lemma generated_project_dates_witness :
  exists projects g',
    generate_projects Fixture.businesses Fixture.generators
      = Some (projects, g')
    /\ forall p, In p projects ->
         START_DATE <= Project.posted_date p <= END_DATE
         /\ 7 <= Project.estimate_needed_by p - date (Project.posted_date p)
            <= 30.
Proof.
  apply (generated_project_dates Fixture.businesses Fixture.generators).
  discriminate.
Defined.

(** X5.  The status of a generated project follows its age in whole days
    at END_DATE: over 300 days it is completed, cancelled or in_progress;
    over 150, in_progress, estimate_delivered or completed; over 60,
    matched, estimate_in_progress or in_progress; otherwise posted,
    in_bidding or matched.  In particular a project posted in the last
    150 days is never completed and only one older than 300 days can be
    cancelled. *)
Theorem generated_project_status_by_age businesses g :
  businesses <> [] ->
  exists projects g',
    generate_projects businesses g = Some (projects, g')
    /\ forall p, In p projects ->
         let age := days (END_DATE - Project.posted_date p) in
         (300 < age ->
          In (Project.status p) ["completed"; "cancelled"; "in_progress"])
         /\ (150 < age <= 300 ->
             In (Project.status p)
                ["in_progress"; "estimate_delivered"; "completed"])
         /\ (60 < age <= 150 ->
             In (Project.status p)
                ["matched"; "estimate_in_progress"; "in_progress"])
         /\ (age <= 60 ->
             In (Project.status p) ["posted"; "in_bidding"; "matched"])
         /\ (Project.status p = "completed" -> 150 < age)
         /\ (Project.status p = "cancelled" -> 300 < age).
Proof.
  intros Hne.
  destruct (generate_projects_n_total NUM_PROJECTS businesses g Hne)
    as (projects & g' & Hrun & _).
  exists projects, g'. split; [exact Hrun|].
  intros p Hp.
  destruct (generate_projects_n_fields _ _ _ _ _ _ Hrun Hp)
    as (gi & gi' & Hbody).
  apply generate_project_fields in Hbody.
  destruct Hbody as (_ & _ & _ & _ & Hstatus & _).
  cbv zeta.
  set (age := days (END_DATE - Project.posted_date p)) in *.
  destruct (Z.ltb_spec 300 age) as [H300|H300];
    [|destruct (Z.ltb_spec 150 age) as [H150|H150];
      [|destruct (Z.ltb_spec 60 age) as [H60|H60]]].
  - split; [intros _; exact Hstatus|].
    split; [intros; lia|]. split; [intros; lia|]. split; [intros; lia|].
    split; intros _; lia.
  - split; [intros; lia|]. split; [intros _; exact Hstatus|].
    split; [intros; lia|]. split; [intros; lia|].
    split; [intros _; lia|].
    intros Hc. rewrite Hc in Hstatus. simpl in Hstatus.
    repeat (destruct Hstatus as [Hs|Hstatus]; [discriminate Hs|]).
    contradiction.
  - split; [intros; lia|]. split; [intros; lia|].
    split; [intros _; exact Hstatus|]. split; [intros; lia|].
    split; intros Hc; rewrite Hc in Hstatus; simpl in Hstatus;
      repeat (destruct Hstatus as [Hs|Hstatus]; [discriminate Hs|]);
      contradiction.
  - split; [intros; lia|]. split; [intros; lia|]. split; [intros; lia|].
    split; [intros _; exact Hstatus|].
    split; intros Hc; rewrite Hc in Hstatus; simpl in Hstatus;
      repeat (destruct Hstatus as [Hs|Hstatus]; [discriminate Hs|]);
      contradiction.
Qed.

Lemma generated_project_status_by_age_witness :
  exists projects g',
    generate_projects Fixture.businesses Fixture.generators
      = Some (projects, g')
    /\ forall p, In p projects ->
         Project.status p = "cancelled" ->
         300 < days (END_DATE - Project.posted_date p).
Proof.
  destruct (generated_project_status_by_age Fixture.businesses
              Fixture.generators) as (projects & g' & Hrun & H);
    [discriminate|].
  exists projects, g'. split; [exact Hrun|].
  intros p Hp. destruct (H p Hp) as (_ & _ & _ & _ & _ & Hc). exact Hc.
Defined.

(* ================================================================== *)
(** ** Estimates of either mode *)

Lemma for_each_Forall2 {A B : Type} (f : A -> Gen B) xs :
  forall g ys g', for_each f xs g = Some (ys, g') ->
  Forall2 (fun x y => exists gi gi', f x gi = Some (y, gi')) xs ys.
Proof.
  induction xs as [|x rest IH]; intros g ys g' H; simpl in H.
  - apply ret_Some in H. injection H as -> _. constructor.
  - apply bind_Some in H. destruct H as (y & g1 & Hy & H).
    apply bind_Some in H. destruct H as (ys' & g2 & Hys & H).
    apply ret_Some in H. injection H as -> _.
    constructor; [exists g, g1; exact Hy|].
    eapply IH. exact Hys.
Qed.

(** The fields of a progressive row that do not enter its pricing. *)
Lemma progressive_estimate_details project estimator n base_cost posted
    seq g e g' :
  0 <= seq ->
  progressive_estimate project estimator n base_cost posted seq g
    = Some (e, g') ->
  exists class_info jitter,
    dict_lookup AACE_CLASSES (Estimate.aace_class e) = Some class_info
    /\ -5 <= jitter <= 10
    /\ Estimate.engineering_completion_percent e
       = Z.max 0 (Z.min 100 (engineering_completion class_info + jitter))
    /\ 30 <= Estimate.estimated_duration_days e <= 720
    /\ Estimate.estimation_method e
       = nth (Z.to_nat (Z.min seq 4)) ESTIMATION_METHODS "detailed_takeoff".
Proof.
  intros Hseq H. unfold progressive_estimate in H.
  apply bind_Some in H. destruct H as (aace & g1 & Haace & H).
  apply bind_Some in H. destruct H as (ci & g2 & Hci & H).
  apply dict_getitem_spec in Hci. destruct Hci as [Hci ->].
  apply bind_Some in H. destruct H as (variance & g3 & Hvar & H).
  apply bind_Some in H. destruct H as (step_days & g4 & Hstep & H).
  apply bind_Some in H. destruct H as (jitter & g5 & Hjit & H).
  apply random_randint_spec in Hjit.
  apply bind_Some in H. destruct H as (cj & g6 & Hcj & H).
  apply bind_Some in H. destruct H as (lf & g7 & Hlf & H).
  apply bind_Some in H. destruct H as (mf & g8 & Hmf & H).
  apply bind_Some in H. destruct H as (ef & g9 & Hef & H).
  apply bind_Some in H. destruct H as (sf & g10 & Hsf & H).
  apply bind_Some in H. destruct H as (ovf & g11 & Hof & H).
  apply bind_Some in H. destruct H as (pf & g12 & Hpf & H).
  apply bind_Some in H. destruct H as (eid & g13 & Heid & H).
  apply bind_Some in H. destruct H as (duration & g14 & Hdur & H).
  apply random_randint_spec in Hdur.
  apply ret_Some in H. injection H as -> _.
  exists ci, jitter.
  cbn [Estimate.aace_class Estimate.engineering_completion_percent
       Estimate.estimated_duration_days Estimate.estimation_method].
  split; [exact Hci|]. split; [exact Hjit|]. split; [reflexivity|].
  split; [exact Hdur|].
  change (Z.of_nat (List.length class_progression) - 1) with 4.
  change (Z.of_nat (List.length ESTIMATION_METHODS)) with 4.
  destruct (Z.ltb_spec (Z.min seq 4) 4) as [Hlt|Hge]; [reflexivity|].
  replace (Z.min seq 4) with 4 by lia. reflexivity.
Qed.

(** The fields of an independent bid that do not enter its pricing. *)
Lemma single_estimate_details project estimator g e g' :
  single_estimate project estimator g = Some (e, g') ->
  exists class_info jitter submit_days,
    dict_lookup AACE_CLASSES (Estimate.aace_class e) = Some class_info
    /\ -5 <= jitter <= 10
    /\ Estimate.engineering_completion_percent e
       = Z.max 0 (Z.min 100 (engineering_completion class_info + jitter))
    /\ 30 <= Estimate.estimated_duration_days e <= 720
    /\ In (Estimate.estimation_method e) ESTIMATION_METHODS
    /\ Estimate.estimator_id e = Estimator.estimator_id estimator
    /\ 1 <= submit_days <= 14
    /\ Estimate.submitted_date e
       = Project.posted_date project + timedelta_days submit_days.
Proof.
  intros H. unfold single_estimate in H.
  apply bind_Some in H. destruct H as (aace & g1 & Haace & H).
  apply bind_Some in H. destruct H as (ci & g2 & Hci & H).
  apply dict_getitem_spec in Hci. destruct Hci as [Hci ->].
  apply bind_Some in H. destruct H as (variance & g3 & Hvar & H).
  apply bind_Some in H. destruct H as (jitter & g5 & Hjit & H).
  apply random_randint_spec in Hjit.
  apply bind_Some in H. destruct H as (cj & g6 & Hcj & H).
  apply bind_Some in H. destruct H as (lf & g7 & Hlf & H).
  apply bind_Some in H. destruct H as (mf & g8 & Hmf & H).
  apply bind_Some in H. destruct H as (ef & g9 & Hef & H).
  apply bind_Some in H. destruct H as (sf & g10 & Hsf & H).
  apply bind_Some in H. destruct H as (ovf & g11 & Hof & H).
  apply bind_Some in H. destruct H as (pf & g12 & Hpf & H).
  apply bind_Some in H. destruct H as (submit_days & g13 & Hsub & H).
  apply random_randint_spec in Hsub.
  apply bind_Some in H. destruct H as (eid & g14 & Heid & H).
  apply bind_Some in H. destruct H as (duration & g15 & Hdur & H).
  apply random_randint_spec in Hdur.
  apply bind_Some in H. destruct H as (method & g16 & Hmeth & H).
  apply random_choice_spec in Hmeth.
  apply bind_Some in H. destruct H as (accept & g17 & Hacc & H).
  apply ret_Some in H. injection H as -> _.
  exists ci, jitter, submit_days.
  cbn [Estimate.aace_class Estimate.engineering_completion_percent
       Estimate.estimated_duration_days Estimate.estimation_method
       Estimate.estimator_id Estimate.submitted_date].
  split; [exact Hci|]. split; [exact Hjit|]. split; [reflexivity|].
  split; [exact Hdur|]. split; [exact Hmeth|]. split; [reflexivity|].
  split; [exact Hsub|reflexivity].
Qed.

(** A property that both kinds of rows have holds of every row of the
    [estimates] table. *)
Lemma generate_estimates_rows_ind (P : Project.t -> Estimate.t -> Prop) :
  (forall project estimator n seq g e g',
     0 <= seq ->
     progressive_estimate project estimator n (base_cost_of project)
       (Project.posted_date project) seq g = Some (e, g') ->
     P project e) ->
  (forall project estimator g e g',
     single_estimate project estimator g = Some (e, g') -> P project e) ->
  forall projects estimators g rows g',
    generate_estimates projects estimators g = Some (rows, g') ->
    forall e, In e rows -> exists project, In project projects /\ P project e.
Proof.
  intros Hprog Hsingle projects estimators g rows g' H e He.
  unfold generate_estimates in H.
  apply bind_Some in H. destruct H as (per_project & g1 & Hper & H).
  apply ret_Some in H. injection H as -> _.
  apply in_concat in He. destruct He as (rows & Hrows & He).
  destruct (for_each_In _ _ _ _ _ _ Hper Hrows)
    as (project & gi & gi' & Hin & Hbody).
  exists project. split; [exact Hin|].
  unfold project_estimates in Hbody.
  apply bind_Some in Hbody. destruct Hbody as (mode & g2 & Hmode & Hbody).
  destruct (Qlt_bool mode PROGRESSIVE_ESTIMATE_RATE).
  - apply bind_Some in Hbody.
    destruct Hbody as ([rows' n] & g3 & Hgpe & Hbody).
    apply ret_Some in Hbody. injection Hbody as -> _.
    unfold generate_progressive_estimates in Hgpe.
    apply bind_Some in Hgpe. destruct Hgpe as (estimator & g4 & _ & Hgpe).
    apply bind_Some in Hgpe. destruct Hgpe as (num & g5 & _ & Hgpe).
    apply bind_Some in Hgpe. destruct Hgpe as (rows'' & g6 & Hloop & Hgpe).
    apply ret_Some in Hgpe. injection Hgpe as -> -> _.
    destruct (for_each_In _ _ _ _ _ _ Hloop He)
      as (seq & gj & gj' & Hseq & Hstep).
    apply In_nth_error in Hseq. destruct Hseq as [i Hi].
    apply range_nth in Hi.
    eapply Hprog; [|exact Hstep]. lia.
  - apply bind_Some in Hbody. destruct Hbody as (num & g3 & _ & Hbody).
    apply bind_Some in Hbody. destruct Hbody as (selected & g4 & _ & Hbody).
    destruct (for_each_In _ _ _ _ _ _ Hbody He)
      as (estimator & gj & gj' & _ & Hstep).
    eapply Hsingle. exact Hstep.
Qed.

(** X6.  Every estimate, of either mode, has an engineering completion
    percentage inside [0, 100] and at most 5 below and 10 above the
    nominal completion of its class, and a duration of 30 to 720 days. *)
Theorem estimate_engineering_completion_bounds projects estimators g :
  estimators <> [] ->
  exists rows g',
    generate_estimates projects estimators g = Some (rows, g')
    /\ forall e, In e rows ->
         exists class_info,
           dict_lookup AACE_CLASSES (Estimate.aace_class e)
           = Some class_info
           /\ 0 <= Estimate.engineering_completion_percent e <= 100
           /\ engineering_completion class_info - 5
              <= Estimate.engineering_completion_percent e
              <= engineering_completion class_info + 10
           /\ 30 <= Estimate.estimated_duration_days e <= 720.
Proof.
  intros Hne.
  destruct (generate_estimates_total projects estimators g Hne)
    as (rows & g' & Hrun).
  exists rows, g'. split; [exact Hrun|].
  intros e He.
  assert (Htable : forall k ci, dict_lookup AACE_CLASSES k = Some ci ->
            2 <= engineering_completion ci <= 95).
  { intros k ci Hk. apply dict_lookup_In in Hk. simpl in Hk.
    repeat (destruct Hk as [Hk|Hk]; [injection Hk as _ <-; simpl; lia|]).
    contradiction. }
  destruct (generate_estimates_rows_ind
              (fun _ e =>
                 exists class_info,
                   dict_lookup AACE_CLASSES (Estimate.aace_class e)
                   = Some class_info
                   /\ 0 <= Estimate.engineering_completion_percent e <= 100
                   /\ engineering_completion class_info - 5
                      <= Estimate.engineering_completion_percent e
                      <= engineering_completion class_info + 10
                   /\ 30 <= Estimate.estimated_duration_days e <= 720))
    with (projects := projects) (estimators := estimators) (g := g)
         (rows := rows) (g' := g') (e := e) as (p & _ & Hp);
    try assumption.
  - intros project estimator n seq g0 e0 g0' Hseq Hstep.
    destruct (progressive_estimate_details _ _ _ _ _ _ _ _ _ Hseq Hstep)
      as (ci & jitter & Hci & Hjit & Heng & Hdur & _).
    exists ci. pose proof (Htable _ _ Hci). rewrite Heng.
    split; [exact Hci|]. split; [lia|]. split; [lia|exact Hdur].
  - intros project estimator g0 e0 g0' Hstep.
    destruct (single_estimate_details _ _ _ _ _ Hstep)
      as (ci & jitter & sd & Hci & Hjit & Heng & Hdur & _).
    exists ci. pose proof (Htable _ _ Hci). rewrite Heng.
    split; [exact Hci|]. split; [lia|]. split; [lia|exact Hdur].
Qed.

Lemma estimate_engineering_completion_bounds_witness :
  exists rows g',
    generate_estimates [Fixture.project] Fixture.estimators
      Fixture.generators = Some (rows, g')
    /\ forall e, In e rows ->
         0 <= Estimate.engineering_completion_percent e <= 100.
Proof.
  destruct (estimate_engineering_completion_bounds [Fixture.project]
              Fixture.estimators Fixture.generators)
    as (rows & g' & Hrun & H); [discriminate|].
  exists rows, g'. split; [exact Hrun|].
  intros e He. destruct (H e He) as (ci & _ & Hb & _). exact Hb.
Defined.

Section Breakdown.
Local Open Scope Q_scope.

Lemma AACE_contingency_cents k class_info :
  dict_lookup AACE_CLASSES k = Some class_info ->
  round2 (typical_contingency class_info - 2)
  == typical_contingency class_info - 2
  /\ round2 (typical_contingency class_info + 2)
     == typical_contingency class_info + 2.
Proof.
  intros H. apply dict_lookup_In in H. simpl in H.
  repeat (destruct H as [H|H];
          [injection H as _ <-; split; reflexivity|]).
  contradiction.
Qed.

Lemma priced_row_contingency base_cost e :
  priced_row base_cost e ->
  exists class_info,
    dict_lookup AACE_CLASSES (Estimate.aace_class e) = Some class_info
    /\ typical_contingency class_info - 2 <= Estimate.contingency_percent e
    /\ Estimate.contingency_percent e <= typical_contingency class_info + 2.
Proof.
  intros [ci v cj ? ? ? ? ? ? Hclass _ _ _ _ [Hcj1 Hcj2] Hcont].
  exists ci. split; [exact Hclass|].
  destruct (AACE_contingency_cents _ _ Hclass) as [Elo Ehi].
  rewrite Hcont.
  assert (H1 : round2 (typical_contingency ci - 2)
               <= round2 (typical_contingency ci + cj))
    by (apply round2_mono; lra).
  assert (H2 : round2 (typical_contingency ci + cj)
               <= round2 (typical_contingency ci + 2))
    by (apply round2_mono; lra).
  split; lra.
Qed.


Lemma fraction_bounds (cost f lo hi : Q) :
  0 <= cost -> lo <= f -> f <= hi ->
  cost * lo - (1 # 200) <= round2 (cost * f)
  /\ round2 (cost * f) <= cost * hi + (1 # 200).
Proof.
  intros Hc Hlo Hhi.
  destruct (round2_near (cost * f)) as [N1 N2].
  assert (H1 : lo * cost <= f * cost)
    by (apply Qmult_le_compat_r; assumption).
  assert (H2 : f * cost <= hi * cost)
    by (apply Qmult_le_compat_r; assumption).
  split; lra.
Qed.

Lemma priced_row_breakdown base_cost e :
  0 <= base_cost -> priced_row base_cost e ->
  0.83 * Estimate.estimated_total_cost e - 0.04 <= breakdown_sum e
  /\ breakdown_sum e <= 1.52 * Estimate.estimated_total_cost e + 0.04.
Proof.
  intros Hbase [ci v cj lf mf ef sf ovf pf Hclass [Hv1 Hv2] Htotal _ _
                _ _ [Hlf1 Hlf2] Hlabor [Hmf1 Hmf2] Hmat [Hef1 Hef2] Hequip
                [Hsf1 Hsf2] Hsub [Hof1 Hof2] Hover [Hpf1 Hpf2] Hprofit].
  destruct (AACE_class_bounds _ _ Hclass) as [Hlo _].
  assert (Hcost : 0 <= base_cost * (1 + v))
    by (apply Qmult_le_0_compat; lra).
  set (cost := base_cost * (1 + v)) in *.
  destruct (round2_near cost) as [T1 T2].
  destruct (fraction_bounds cost lf 0.3 0.45 Hcost Hlf1 Hlf2) as [A1 A2].
  destruct (fraction_bounds cost mf 0.25 0.40 Hcost Hmf1 Hmf2) as [B1 B2].
  destruct (fraction_bounds cost ef 0.05 0.15 Hcost Hef1 Hef2) as [C1 C2].
  destruct (fraction_bounds cost sf 0.10 0.25 Hcost Hsf1 Hsf2) as [D1 D2].
  destruct (fraction_bounds cost ovf 0.08 0.15 Hcost Hof1 Hof2) as [E1 E2].
  destruct (fraction_bounds cost pf 0.05 0.12 Hcost Hpf1 Hpf2) as [F1 F2].
  unfold breakdown_sum.
  rewrite Htotal, Hlabor, Hmat, Hequip, Hsub, Hover, Hprofit.
  split; lra.
Qed.

End Breakdown.

(** X7.  The contingency percentage of every estimate, of either mode, is
    within 2 points of the nominal contingency of its class (20, 15, 12,
    8 and 5 for classes 5 to 1). *)
Theorem estimate_contingency_near_nominal projects estimators g :
  estimators <> [] ->
  exists rows g',
    generate_estimates projects estimators g = Some (rows, g')
    /\ forall e, In e rows ->
         exists class_info,
           dict_lookup AACE_CLASSES (Estimate.aace_class e)
           = Some class_info
           /\ (typical_contingency class_info - 2
               <= Estimate.contingency_percent e)%Q
           /\ (Estimate.contingency_percent e
               <= typical_contingency class_info + 2)%Q.
Proof.
  intros Hne.
  destruct (generate_estimates_total projects estimators g Hne)
    as (rows & g' & Hrun).
  exists rows, g'. split; [exact Hrun|].
  intros e He.
  destruct (generate_estimates_rows _ _ _ _ _ Hrun e He)
    as (p & _ & _ & Hpriced).
  eapply priced_row_contingency. exact Hpriced.
Qed.

Lemma estimate_contingency_near_nominal_witness :
  exists rows g',
    generate_estimates [Fixture.project] Fixture.estimators
      Fixture.generators = Some (rows, g')
    /\ forall e, In e rows ->
         exists class_info,
           dict_lookup AACE_CLASSES (Estimate.aace_class e)
           = Some class_info
           /\ (typical_contingency class_info - 2
               <= Estimate.contingency_percent e)%Q
           /\ (Estimate.contingency_percent e
               <= typical_contingency class_info + 2)%Q.
Proof.
  apply (estimate_contingency_near_nominal [Fixture.project]
           Fixture.estimators Fixture.generators).
  discriminate.
Defined.

(** X8.  The six cost components of an estimate are not normalised: for
    every estimate of a generated project their sum lies between 83% and
    152% of estimated_total_cost, up to four cents of rounding. *)
Theorem estimate_breakdown_sum_bounds businesses estimators g :
  businesses <> [] -> estimators <> [] ->
  exists projects g1 rows g2,
    generate_projects businesses g = Some (projects, g1)
    /\ generate_estimates projects estimators g1 = Some (rows, g2)
    /\ forall e, In e rows ->
         (0.83 * Estimate.estimated_total_cost e - 0.04 <= breakdown_sum e
          /\ breakdown_sum e
             <= 1.52 * Estimate.estimated_total_cost e + 0.04)%Q.
Proof.
  intros Hb He.
  destruct (projects_then_estimates businesses estimators g Hb He)
    as (projects & g1 & rows & g2 & Hp & Hr).
  exists projects, g1, rows, g2.
  split; [exact Hp|]. split; [exact Hr|].
  intros e Hin.
  destruct (generate_estimates_rows _ _ _ _ _ Hr e Hin)
    as (p & Hpin & _ & Hpriced).
  pose proof (generated_base_cost_nonneg _ _ _ _ _ Hp p Hpin) as Hbase.
  apply (priced_row_breakdown (base_cost_of p)); assumption.
Qed.

Lemma estimate_breakdown_sum_bounds_witness :
  exists projects g1 rows g2,
    generate_projects Fixture.businesses Fixture.generators
      = Some (projects, g1)
    /\ generate_estimates projects Fixture.estimators g1 = Some (rows, g2)
    /\ forall e, In e rows ->
         (0.83 * Estimate.estimated_total_cost e - 0.04 <= breakdown_sum e
          /\ breakdown_sum e
             <= 1.52 * Estimate.estimated_total_cost e + 0.04)%Q.
Proof.
  apply (estimate_breakdown_sum_bounds Fixture.businesses
           Fixture.estimators Fixture.generators); discriminate.
Defined.

(* ================================================================== *)
(** ** Progressive sequences: estimator, method, offsets *)

Lemma generate_progressive_estimates_details project estimators g rows n g' :
  generate_progressive_estimates project estimators g = Some (rows, n, g') ->
  forall i e, nth_error rows i = Some e ->
    Estimate.estimation_method e
    = nth i ESTIMATION_METHODS "detailed_takeoff".
Proof.
  intros H i e Hi.
  pose proof (generate_progressive_estimates_rows _ _ _ _ _ _ H)
    as (Hn & Hlen & _).
  unfold generate_progressive_estimates in H.
  apply bind_Some in H. destruct H as (estimator & g1 & _ & H).
  apply bind_Some in H. destruct H as (num & g2 & _ & H).
  apply bind_Some in H. destruct H as (rows' & g3 & Hloop & H).
  apply ret_Some in H. injection H as -> -> _.
  destruct (for_each_nth _ _ _ _ _ Hloop i e Hi)
    as (x & gi & gi' & Hx & Hstep).
  apply range_nth in Hx. destruct Hx as [-> Hlt].
  apply progressive_estimate_details in Hstep; [|lia].
  destruct Hstep as (ci & jitter & _ & _ & _ & _ & Hmethod).
  rewrite Hmethod. f_equal. lia.
Qed.

(** X9.  All estimates of a progressive sequence are for the same project
    and by the same estimator, who belongs to the pool; the estimation
    method follows the step: parametric, analogical, engineering, then
    detailed_takeoff for the fourth and the fifth estimate. *)
Theorem progressive_sequence_estimator_and_method project estimators g :
  estimators <> [] ->
  exists rows n g',
    generate_progressive_estimates project estimators g = Some (rows, n, g')
    /\ exists estimator,
         In estimator estimators
         /\ forall i e, nth_error rows i = Some e ->
              Estimate.estimator_id e = Estimator.estimator_id estimator
              /\ Estimate.project_id e = Project.project_id project
              /\ Estimate.estimation_method e
                 = nth i ["parametric"; "analogical"; "engineering";
                          "detailed_takeoff"; "detailed_takeoff"] "".
Proof.
  intros Hne.
  destruct (generate_progressive_estimates_total project estimators g Hne)
    as (rows & n & g' & Hrun).
  exists rows, n, g'. split; [exact Hrun|].
  pose proof (generate_progressive_estimates_rows _ _ _ _ _ _ Hrun)
    as (Hn & Hlen & estimator & Hin & Hrows).
  exists estimator. split; [exact Hin|].
  intros i e Hi.
  destruct (Hrows i e Hi) as [_ Hrow]. destruct Hrow.
  split; [assumption|]. split; [assumption|].
  rewrite (generate_progressive_estimates_details _ _ _ _ _ _ Hrun i e Hi).
  apply nth_error_lt in Hi.
  assert (Hi5 : (i < 5)%nat) by lia.
  do 5 (destruct i as [|i]; [reflexivity|]). lia.
Qed.

Lemma progressive_sequence_estimator_and_method_witness :
  exists rows n g',
    generate_progressive_estimates Fixture.project Fixture.estimators
      Fixture.generators = Some (rows, n, g')
    /\ exists estimator,
         In estimator Fixture.estimators
         /\ forall i e, nth_error rows i = Some e ->
              Estimate.estimator_id e = Estimator.estimator_id estimator
              /\ Estimate.project_id e
                 = Project.project_id Fixture.project
              /\ Estimate.estimation_method e
                 = nth i ["parametric"; "analogical"; "engineering";
                          "detailed_takeoff"; "detailed_takeoff"] "".
Proof.
  apply (progressive_sequence_estimator_and_method Fixture.project
           Fixture.estimators Fixture.generators).
  discriminate.
Defined.

(** X10.  In a progressive sequence the estimate at 0-indexed step i is
    dated between 7 i and 21 i days after the project was posted; so no
    estimate is dated before the posting, and none later than 84 days
    after it. *)
Theorem progressive_sequence_date_offsets project estimators g :
  estimators <> [] ->
  exists rows n g',
    generate_progressive_estimates project estimators g = Some (rows, n, g')
    /\ forall i e, nth_error rows i = Some e ->
         let offset := days_between (Project.posted_date project)
                                    (Estimate.submitted_date e) in
         7 * Z.of_nat i <= offset <= 21 * Z.of_nat i
         /\ Project.posted_date project <= Estimate.submitted_date e
         /\ offset <= 84.
Proof.
  intros Hne.
  destruct (generate_progressive_estimates_total project estimators g Hne)
    as (rows & n & g' & Hrun).
  exists rows, n, g'. split; [exact Hrun|].
  pose proof (generate_progressive_estimates_rows _ _ _ _ _ _ Hrun)
    as (Hn & Hlen & _).
  intros i e Hi. cbv zeta.
  destruct (progressive_dates _ _ _ _ _ _ Hrun i e Hi) as (r & Hr & Hdate).
  apply nth_error_lt in Hi.
  unfold days_between. rewrite Hdate.
  replace (Project.posted_date project + timedelta_days (Z.of_nat i * r)
           - Project.posted_date project)
    with (timedelta_days (Z.of_nat i * r)) by lia.
  rewrite days_of_timedelta.
  unfold timedelta_days, SECONDS_PER_DAY. nia.
Qed.

Lemma progressive_sequence_date_offsets_witness :
  exists rows n g',
    generate_progressive_estimates Fixture.project Fixture.estimators
      Fixture.generators = Some (rows, n, g')
    /\ forall i e, nth_error rows i = Some e ->
         let offset := days_between (Project.posted_date Fixture.project)
                                    (Estimate.submitted_date e) in
         7 * Z.of_nat i <= offset <= 21 * Z.of_nat i
         /\ Project.posted_date Fixture.project
            <= Estimate.submitted_date e
         /\ offset <= 84.
Proof.
  apply (progressive_sequence_date_offsets Fixture.project
           Fixture.estimators Fixture.generators).
  discriminate.
Defined.

(* ================================================================== *)
(** ** Independent bids *)


Lemma list_set_In {A : Type} (xs : list A) j v y :
  In y (list_set xs j v) -> y = v \/ In y xs.
Proof.
  revert j. induction xs as [|x rest IH]; intros [|j]; simpl;
    try contradiction.
  - intros [<-|H]; [left; reflexivity|right; right; exact H].
  - intros [<-|H]; [right; left; reflexivity|].
    destruct (IH j H) as [->|H']; [left; reflexivity|right; right; exact H'].
Qed.

Lemma sample_loop_spec {A : Type} (k : nat) :
  forall (pool : list A) n g l g',
    sample_loop pool n k g = Some (l, g') ->
    List.length l = k /\ forall x, In x l -> In x pool.
Proof.
  induction k as [|k IH]; intros pool n g l g' H; simpl in H.
  - apply ret_Some in H. injection H as -> _.
    split; [reflexivity|intros x []].
  - apply bind_Some in H. destruct H as (j & g1 & Hj & H).
    destruct (nth_error pool (Z.to_nat j)) as [x|] eqn:Ex; [|discriminate].
    destruct (nth_error pool (n - 1)) as [last|] eqn:El; [|discriminate].
    apply bind_Some in H. destruct H as (rest & g2 & Hrest & H).
    apply ret_Some in H. injection H as -> _.
    destruct (IH _ _ _ _ _ Hrest) as [Hlen Hin].
    split; [simpl; f_equal; exact Hlen|].
    intros y [<-|Hy]; [eapply nth_error_In; exact Ex|].
    destruct (list_set_In _ _ _ _ (Hin y Hy)) as [->|Hy'];
      [eapply nth_error_In; exact El|exact Hy'].
Qed.

Lemma firstn_snoc {A : Type} (l : list A) m x :
  nth_error l m = Some x -> firstn (S m) l = (firstn m l ++ [x])%list.
Proof.
  revert m. induction l as [|h t IH]; intros [|m] H; simpl in *;
    try discriminate.
  - injection H as ->. reflexivity.
  - f_equal. apply IH. exact H.
Qed.

(** Taking position [j] out of the first [n] entries and moving the last
    of them into the vacancy keeps the other [n - 1] entries. *)
Lemma vacancy_permutation {A : Type} (pool : list A) :
  forall (j n : nat) x last,
    (j < n)%nat ->
    nth_error pool j = Some x ->
    nth_error pool (n - 1) = Some last ->
    Permutation (x :: firstn (n - 1) (list_set pool j last)) (firstn n pool).
Proof.
  induction pool as [|h t IH]; intros j n x last Hjn Hx Hlast.
  - destruct j; discriminate Hx.
  - destruct j as [|j].
    + simpl in Hx. injection Hx as ->.
      destruct n as [|[|m]]; [lia| |].
      * simpl. apply Permutation_refl.
      * replace (S (S m) - 1)%nat with (S m) in * by lia.
        simpl in Hlast. simpl list_set.
        rewrite !firstn_cons. apply perm_skip.
        rewrite (firstn_snoc t m last Hlast).
        apply Permutation_cons_append.
    + simpl in Hx.
      destruct n as [|[|m]]; [lia|lia|].
      replace (S (S m) - 1)%nat with (S m) in * by lia.
      simpl in Hlast. simpl list_set.
      rewrite !firstn_cons.
      eapply perm_trans; [apply perm_swap|]. apply perm_skip.
      specialize (IH j (S m) x last ltac:(lia) Hx).
      replace (S m - 1)%nat with m in IH by lia.
      apply IH. exact Hlast.
Qed.

(** The sample and the entries left in the pool together are the first
    [n] entries of the pool: no position is taken twice. *)
Lemma sample_loop_permutation {A : Type} (k : nat) :
  forall (pool : list A) (n : nat) g l g',
    (k <= n)%nat -> (n <= List.length pool)%nat ->
    sample_loop pool n k g = Some (l, g') ->
    exists rest, Permutation (l ++ rest)%list (firstn n pool).
Proof.
  induction k as [|k IH]; intros pool n g l g' Hk Hn H; simpl in H.
  - apply ret_Some in H. injection H as -> _.
    exists (firstn n pool). apply Permutation_refl.
  - apply bind_Some in H. destruct H as (j & g1 & Hj & H).
    apply randbelow_spec in Hj; [|lia].
    destruct (nth_error pool (Z.to_nat j)) as [x|] eqn:Ex; [|discriminate].
    destruct (nth_error pool (n - 1)) as [last|] eqn:El; [|discriminate].
    apply bind_Some in H. destruct H as (l' & g2 & Hrest & H).
    apply ret_Some in H. injection H as -> _.
    assert (Hk' : (k <= n - 1)%nat) by lia.
    assert (Hn' : (n - 1 <= List.length
                             (list_set pool (Z.to_nat j) last))%nat)
      by (rewrite list_set_length; lia).
    destruct (IH _ _ _ _ _ Hk' Hn' Hrest) as [rest Hperm].
    exists rest. simpl.
    eapply perm_trans; [apply perm_skip; exact Hperm|].
    apply vacancy_permutation; [lia|exact Ex|exact El].
Qed.

Lemma random_sample_spec {A : Type} (population : list A) k g l g' :
  random_sample population k g = Some (l, g') ->
  0 <= k <= Z.of_nat (List.length population)
  /\ List.length l = Z.to_nat k
  /\ (forall x, In x l -> In x population)
  /\ exists rest, Permutation (l ++ rest)%list population.
Proof.
  unfold random_sample.
  destruct (Z.ltb_spec k 0) as [|Hk0]; [discriminate|].
  destruct (Z.ltb_spec (Z.of_nat (List.length population)) k) as [|Hkn];
    [discriminate|].
  simpl. intros H. split; [lia|].
  destruct (sample_loop_spec _ _ _ _ _ _ H) as [Hlen Hin].
  split; [exact Hlen|]. split; [exact Hin|].
  assert (Hk : (Z.to_nat k <= List.length population)%nat) by lia.
  destruct (sample_loop_permutation _ _ _ _ _ _ Hk (Nat.le_refl _) H)
    as [rest Hperm].
  exists rest. rewrite firstn_all in Hperm. exact Hperm.
Qed.

Lemma Forall2_length_eq {A B : Type} (R : A -> B -> Prop) xs ys :
  Forall2 R xs ys -> List.length xs = List.length ys.
Proof. induction 1; simpl; congruence. Qed.

Lemma Forall2_map_eq {A B C : Type} (f : A -> C) (h : B -> C) xs ys :
  Forall2 (fun x y => h y = f x) xs ys -> map h ys = map f xs.
Proof. induction 1; simpl; congruence. Qed.

Lemma Qlt_bool_false (x y : Q) : (y <= x)%Q -> Qlt_bool x y = false.
Proof.
  intros H. unfold Qlt_bool. apply Qle_bool_iff in H. rewrite H.
  reflexivity.
Qed.

Lemma Qlt_bool_true (x y : Q) : (x < y)%Q -> Qlt_bool x y = true.
Proof.
  intros H. unfold Qlt_bool.
  destruct (Qle_bool y x) eqn:E; [|reflexivity].
  apply Qle_bool_iff in E. lra.
Qed.

(** X11.  When the mode draw [random.random()] is at least
    PROGRESSIVE_ESTIMATE_RATE a project gets independent bids: at most
    three, at most one per estimator of the pool, at least one when the
    pool is not empty; each has sequence number 1, status accepted or
    pending, a date 1 to 14 days after posting, and an estimator of the
    pool; and when the estimator ids of the pool are distinct so are
    those of the bids. *)
Theorem independent_bids estimators project g mode g1 :
  random_random g = Some (mode, g1) ->
  (PROGRESSIVE_ESTIMATE_RATE <= mode)%Q ->
  exists rows g',
    project_estimates estimators project g = Some (rows, g')
    /\ (List.length rows <= 3)%nat
    /\ (List.length rows <= List.length estimators)%nat
    /\ (estimators <> [] -> (1 <= List.length rows)%nat)
    /\ (forall e, In e rows ->
          Estimate.project_id e = Project.project_id project
          /\ Estimate.estimate_sequence e = 1
          /\ (Estimate.status e = "accepted"
              \/ Estimate.status e = "pending")
          /\ 1 <= days_between (Project.posted_date project)
                               (Estimate.submitted_date e) <= 14
          /\ exists estimator, In estimator estimators
               /\ Estimate.estimator_id e
                  = Estimator.estimator_id estimator)
    /\ (NoDup (map Estimator.estimator_id estimators) ->
        NoDup (map Estimate.estimator_id rows)).
Proof.
  intros Hmode Hrate.
  unfold project_estimates.
  unfold bind at 1. rewrite Hmode.
  rewrite (Qlt_bool_false _ _ Hrate).
  destruct (random_randint_total 1 3 g1 ltac:(lia)) as [[num g2] Hnum].
  unfold bind at 1. rewrite Hnum.
  apply random_randint_spec in Hnum.
  destruct (random_sample_total estimators
              (Z.min num (Z.of_nat (List.length estimators))) g2
              ltac:(lia)) as [[selected g3] Hsel].
  unfold bind at 1. rewrite Hsel.
  apply random_sample_spec in Hsel.
  destruct Hsel as (_ & Hlen & Hin & rest & Hperm).
  destruct (for_each_total (single_estimate project) selected)
    with (g := g3) as [[rows g4] Hrows].
  { intros. apply single_estimate_total. }
  exists rows, g4. split; [exact Hrows|].
  pose proof (for_each_length _ _ _ _ _ Hrows) as Hrl.
  split; [lia|]. split; [lia|]. split.
  { intros Hne. destruct estimators; [congruence|]. simpl in *. lia. }
  split.
  - intros e He.
    destruct (for_each_In _ _ _ _ _ _ Hrows He)
      as (est & gi & gi' & Hest & Hstep).
    destruct (single_estimate_row _ _ _ _ _ Hstep)
      as (_ & Hid & Hseq & Hstatus).
    destruct (single_estimate_details _ _ _ _ _ Hstep)
      as (ci & jitter & sd & _ & _ & _ & _ & _ & Heid & Hsd & Hdate).
    split; [exact Hid|]. split; [exact Hseq|]. split; [exact Hstatus|].
    split.
    + unfold days_between. rewrite Hdate.
      replace (Project.posted_date project + timedelta_days sd
               - Project.posted_date project)
        with (timedelta_days sd) by lia.
      rewrite days_of_timedelta. exact Hsd.
    + exists est. split; [apply Hin; exact Hest|exact Heid].
  - intros Hnodup.
    assert (Hmap : map Estimate.estimator_id rows
                   = map Estimator.estimator_id selected).
    { apply Forall2_map_eq.
      apply for_each_Forall2 in Hrows.
      eapply Forall2_impl; [|exact Hrows].
      intros est e (gi & gi' & Hstep). cbv beta in Hstep.
      destruct (single_estimate_details _ _ _ _ _ Hstep)
        as (ci & jitter & sd & _ & _ & _ & _ & _ & Heid & _).
      exact Heid. }
    rewrite Hmap.
    apply (Permutation_map Estimator.estimator_id) in Hperm.
    rewrite map_app in Hperm.
    apply Permutation_sym in Hperm.
    apply (Permutation_NoDup Hperm) in Hnodup.
    apply NoDup_app_remove_r in Hnodup. exact Hnodup.
Qed.

Lemma independent_bids_witness :
  exists rows g',
    project_estimates Fixture.estimators Fixture.project
      FixtureBids.generators = Some (rows, g')
    /\ (List.length rows <= 3)%nat
    /\ (1 <= List.length rows)%nat
    /\ NoDup (map Estimate.estimator_id rows).
Proof.
  destruct (independent_bids Fixture.estimators Fixture.project
              FixtureBids.generators
              (Qmake 4503599627370496 9007199254740992)
              (mkGenerators
                 (tl_tape (py_random FixtureBids.generators))
                 (np_random FixtureBids.generators)
                 (faker FixtureBids.generators)
                 (os_urandom FixtureBids.generators)))
    as (rows & g' & Hrun & H3 & _ & H1 & _ & Hnodup).
  - vm_compute. reflexivity.
  - vm_compute. discriminate.
  - exists rows, g'. split; [exact Hrun|]. split; [exact H3|].
    split; [apply H1; discriminate|].
    apply Hnodup. vm_compute.
    repeat constructor; simpl; intuition discriminate.
Defined.

(* ================================================================== *)
(** ** The estimates table *)

(** The two ways [project_estimates] produces its rows. *)
Lemma project_estimates_inv estimators project g rows g' :
  project_estimates estimators project g = Some (rows, g') ->
  (exists n g1 g2,
     generate_progressive_estimates project estimators g1
     = Some (rows, n, g2))
  \/ (exists num selected g1 g2 g3,
        1 <= num <= 3
        /\ random_sample estimators
             (Z.min num (Z.of_nat (List.length estimators))) g1
           = Some (selected, g2)
        /\ for_each (single_estimate project) selected g2
           = Some (rows, g3)).
Proof.
  intros H. unfold project_estimates in H.
  apply bind_Some in H. destruct H as (mode & g1 & Hmode & H).
  destruct (Qlt_bool mode PROGRESSIVE_ESTIMATE_RATE).
  - apply bind_Some in H. destruct H as ([rows' n] & g2 & Hgpe & H).
    apply ret_Some in H. injection H as -> _.
    left. exists n, g1, g2. exact Hgpe.
  - apply bind_Some in H. destruct H as (num & g2 & Hnum & H).
    apply random_randint_spec in Hnum.
    apply bind_Some in H. destruct H as (selected & g3 & Hsel & H).
    right. exists num, selected, g2, g3, g'.
    split; [exact Hnum|]. split; [exact Hsel|exact H].
Qed.

Lemma project_estimates_count estimators project g rows g' :
  estimators <> [] ->
  project_estimates estimators project g = Some (rows, g') ->
  (1 <= List.length rows <= 5)%nat
  /\ forall e, In e rows ->
       exists estimator, In estimator estimators
         /\ Estimate.estimator_id e = Estimator.estimator_id estimator.
Proof.
  intros Hne H.
  destruct (project_estimates_inv _ _ _ _ _ H)
    as [(n & g1 & g2 & Hgpe)
       |(num & selected & g1 & g2 & g3 & Hnum & Hsel & Hrows)].
  - apply generate_progressive_estimates_rows in Hgpe.
    destruct Hgpe as (Hn & Hlen & estimator & Hin & Hr).
    split; [lia|].
    intros e He. apply In_nth_error in He. destruct He as [i Hi].
    destruct (Hr i e Hi) as [_ Hrow]. destruct Hrow.
    exists estimator. split; assumption.
  - apply random_sample_spec in Hsel.
    destruct Hsel as (_ & Hlen & Hin & _).
    pose proof (for_each_length _ _ _ _ _ Hrows) as Hrl.
    split.
    + destruct estimators; [congruence|]. simpl in *. lia.
    + intros e He.
      destruct (for_each_In _ _ _ _ _ _ Hrows He)
        as (est & gi & gi' & Hest & Hstep).
      destruct (single_estimate_details _ _ _ _ _ Hstep)
        as (ci & jitter & sd & _ & _ & _ & _ & _ & Heid & _).
      exists est. split; [apply Hin; exact Hest|exact Heid].
Qed.

Lemma concat_length_bounds {A B : Type} (R : A -> list B -> Prop)
    (xs : list A) (yss : list (list B)) (lo hi : nat) :
  Forall2 R xs yss ->
  (forall x ys, R x ys -> (lo <= List.length ys <= hi)%nat) ->
  (lo * List.length xs <= List.length (List.concat yss)
   <= hi * List.length xs)%nat.
Proof.
  intros HF HR. induction HF as [|x ys xs' yss' Hxy _ IH]; simpl; [lia|].
  rewrite length_app. pose proof (HR x ys Hxy). lia.
Qed.

Lemma project_estimates_empty_pool project g rows g' :
  project_estimates [] project g = Some (rows, g') -> rows = [].
Proof.
  intros H.
  destruct (project_estimates_inv _ _ _ _ _ H)
    as [(n & g1 & g2 & Hgpe)
       |(num & selected & g1 & g2 & g3 & Hnum & Hsel & Hrows)].
  - discriminate Hgpe.
  - apply random_sample_spec in Hsel.
    destruct Hsel as (Hk & Hlen & _).
    apply for_each_length in Hrows. simpl in Hk, Hlen.
    destruct rows; [reflexivity|]. simpl in Hrows. lia.
Qed.

(** X13.  With an empty estimator pool [generate_progressive_estimates]
    raises whatever the generators hold, and [generate_estimates] inserts
    no row: it either raises (some project draws the progressive mode) or
    returns an empty table. *)
Theorem estimates_with_empty_pool :
  (forall project g, generate_progressive_estimates project [] g = None)
  /\ (forall projects g rows g',
        generate_estimates projects [] g = Some (rows, g') -> rows = []).
Proof.
  split; [reflexivity|].
  intros projects g rows g' H. unfold generate_estimates in H.
  apply bind_Some in H. destruct H as (per & g1 & Hper & H).
  apply ret_Some in H. injection H as -> _.
  apply for_each_Forall2 in Hper.
  induction Hper as [|p ys ps yss (gi & gi' & Hbody) _ IH];
    [reflexivity|].
  simpl. rewrite (project_estimates_empty_pool _ _ _ _ Hbody). exact IH.
Qed.

Lemma estimates_with_empty_pool_witness :
  exists g',
    generate_estimates [Fixture.project] [] FixtureBids.generators
    = Some ([], g').
Proof.
  destruct (generate_estimates [Fixture.project] []
              FixtureBids.generators) as [[rows g']|] eqn:E;
    [|vm_compute in E; discriminate E].
  destruct estimates_with_empty_pool as [_ H].
  rewrite (H _ _ _ _ E). exists g'. reflexivity.
Defined.


(* ================================================================== *)
(** ** Reasoning about computations that read the clock *)

Lemma run_bind_Some {A B : Type} (m : Run A) (k : A -> Run B) w r :
  run_bind m k w = Some r ->
  exists a w1, m w = Some (a, w1) /\ k a w1 = Some r.
Proof.
  unfold run_bind. destruct (m w) as [[a w1]|]; [|discriminate].
  intros H. exists a, w1. split; [reflexivity|exact H].
Qed.

Lemma run_ret_Some {A : Type} (a : A) w r :
  run_ret a w = Some r -> r = (a, w).
Proof. unfold run_ret. intros H. injection H as <-. reflexivity. Qed.

Lemma lift_Some {A : Type} (m : Gen A) w a w' :
  lift m w = Some (a, w') ->
  exists g', m (gens w) = Some (a, g') /\ w' = mkWorld g' (clock w).
Proof.
  unfold lift. destruct (m (gens w)) as [[a0 g']|]; [|discriminate].
  intros H. injection H as -> <-. exists g'. split; reflexivity.
Qed.

Lemma run_bind_total {A B : Type} (m : Run A) (k : A -> Run B) w :
  (exists r, m w = Some r) ->
  (forall a w1, exists r, k a w1 = Some r) ->
  exists r, run_bind m k w = Some r.
Proof.
  intros [[a w1] Hm] Hk. unfold run_bind. rewrite Hm. apply Hk.
Qed.

Lemma run_bind_value {A B : Type} (m : Run A) (k : A -> Run B) w a w1 :
  m w = Some (a, w1) ->
  (exists r, k a w1 = Some r) ->
  exists r, run_bind m k w = Some r.
Proof. intros Hm Hk. unfold run_bind. rewrite Hm. exact Hk. Qed.

Lemma run_ret_total {A : Type} (a : A) w : exists r, run_ret a w = Some r.
Proof. eexists. reflexivity. Qed.

Lemma lift_total {A : Type} (m : Gen A) w :
  (exists r, m (gens w) = Some r) -> exists r, lift m w = Some r.
Proof.
  intros [[a g'] H]. unfold lift. rewrite H. eexists. reflexivity.
Qed.

Lemma datetime_now_total w : exists r, datetime_now w = Some r.
Proof. eexists. reflexivity. Qed.

Lemma run_for_each_length {A B : Type} (f : A -> Run B) xs :
  forall w ys w', run_for_each f xs w = Some (ys, w') ->
  List.length ys = List.length xs.
Proof.
  induction xs as [|x rest IH]; intros w ys w' H; simpl in H.
  - apply run_ret_Some in H. injection H as -> _. reflexivity.
  - apply run_bind_Some in H. destruct H as (y & w1 & Hy & H).
    apply run_bind_Some in H. destruct H as (ys' & w2 & Hys & H).
    apply run_ret_Some in H. injection H as -> _.
    simpl. f_equal. eapply IH; eassumption.
Qed.

Lemma run_for_each_nth {A B : Type} (f : A -> Run B) xs :
  forall w ys w', run_for_each f xs w = Some (ys, w') ->
  forall i y, nth_error ys i = Some y ->
  exists x wi wi', nth_error xs i = Some x /\ f x wi = Some (y, wi').
Proof.
  induction xs as [|x rest IH]; intros w ys w' H i y Hy; simpl in H.
  - apply run_ret_Some in H. injection H as -> _. destruct i; discriminate.
  - apply run_bind_Some in H. destruct H as (y0 & w1 & Hy0 & H).
    apply run_bind_Some in H. destruct H as (ys' & w2 & Hys & H).
    apply run_ret_Some in H. injection H as -> _.
    destruct i as [|i]; simpl in Hy.
    + injection Hy as <-. exists x, w, w1. split; [reflexivity|exact Hy0].
    + eapply IH; eassumption.
Qed.

Lemma run_for_each_In {A B : Type} (f : A -> Run B) xs w ys w' y :
  run_for_each f xs w = Some (ys, w') -> In y ys ->
  exists x wi wi', In x xs /\ f x wi = Some (y, wi').
Proof.
  intros H Hy. apply In_nth_error in Hy. destruct Hy as [i Hi].
  destruct (run_for_each_nth f xs w ys w' H i y Hi)
    as (x & wi & wi' & Hx & Hf).
  exists x, wi, wi'. split; [eapply nth_error_In; exact Hx|exact Hf].
Qed.

Lemma run_for_each_Forall2 {A B : Type} (f : A -> Run B) xs :
  forall w ys w', run_for_each f xs w = Some (ys, w') ->
  Forall2 (fun x y => exists wi wi', f x wi = Some (y, wi')) xs ys.
Proof.
  induction xs as [|x rest IH]; intros w ys w' H; simpl in H.
  - apply run_ret_Some in H. injection H as -> _. constructor.
  - apply run_bind_Some in H. destruct H as (y & w1 & Hy & H).
    apply run_bind_Some in H. destruct H as (ys' & w2 & Hys & H).
    apply run_ret_Some in H. injection H as -> _.
    constructor; [exists w, w1; exact Hy|].
    eapply IH. exact Hys.
Qed.

Lemma run_for_each_total {A B : Type} (f : A -> Run B) xs :
  (forall x w, In x xs -> exists r, f x w = Some r) ->
  forall w, exists r, run_for_each f xs w = Some r.
Proof.
  induction xs as [|x rest IH]; intros Hf w; simpl.
  - eexists. reflexivity.
  - destruct (Hf x w (or_introl eq_refl)) as [[y w1] Hy].
    destruct (IH (fun x' w' Hin => Hf x' w' (or_intror Hin)) w1)
      as [[ys w2] Hys].
    unfold run_bind. rewrite Hy, Hys. eexists. reflexivity.
Qed.

(** A loop raises as soon as its body raises on one element, whatever
    the state it is reached in. *)
Lemma run_for_each_raises {A B : Type} (f : A -> Run B) xs x :
  In x xs -> (forall w, f x w = None) ->
  forall w, run_for_each f xs w = None.
Proof.
  induction xs as [|x0 rest IH]; intros Hin Hf w; [contradiction|].
  simpl. unfold run_bind at 1.
  destruct Hin as [->|Hin].
  - rewrite Hf. reflexivity.
  - destruct (f x0 w) as [[y w1]|]; [|reflexivity].
    unfold run_bind. rewrite (IH Hin Hf w1). reflexivity.
Qed.

(* ================================================================== *)
(** ** Rounding to one decimal *)

Section Round1Facts.
Local Open Scope Q_scope.

Lemma round1_unfold (x : Q) :
  round1 x == inject_Z (round_half_even (x * 10)) * (1 # 10).
Proof. unfold round1, Qeq, Qmult, inject_Z; simpl. lia. Qed.

Lemma round1_mono (x y : Q) : x <= y -> round1 x <= round1 y.
Proof.
  intros H. rewrite (round1_unfold x), (round1_unfold y).
  assert (Hm : (round_half_even (x * 10) <= round_half_even (y * 10))%Z)
    by (apply round_half_even_mono; lra).
  rewrite Zle_Qle in Hm. lra.
Qed.

Lemma round1_compat (x y : Q) : x == y -> round1 x == round1 y.
Proof. intros H. apply Qle_antisym; apply round1_mono; lra. Qed.

(** A whole number of tenths is left as it is. *)
Lemma round1_tenths (k : Z) :
  round1 (inject_Z k * (1 # 10)) == inject_Z k * (1 # 10).
Proof.
  rewrite round1_unfold.
  assert (E : round_half_even (inject_Z k * (1 # 10) * 10) = k).
  { pose proof (round_half_even_near (inject_Z k * (1 # 10) * 10))
      as [H1 H2].
    destruct (Z.lt_trichotomy
                (round_half_even (inject_Z k * (1 # 10) * 10)) k)
      as [H|[H|H]]; [exfalso|exact H|exfalso];
      apply inject_Z_succ_le in H; lra. }
  rewrite E. reflexivity.
Qed.

Lemma clamp_rating_bounds (x : Q) :
  1 <= clamp_rating x /\ clamp_rating x <= 5.
Proof.
  unfold clamp_rating, py_min, py_max, Qlt_bool.
  destruct (Qle_bool x 1) eqn:E1; simpl.
  - destruct (Qle_bool 5 1) eqn:E2; simpl.
    + apply Qle_bool_iff in E2. lra.
    + split; lra.
  - assert (H1 : 1 < x).
    { apply Qnot_le_lt. intros H. apply Qle_bool_iff in H.
      rewrite H in E1. discriminate. }
    destruct (Qle_bool 5 x) eqn:E2; simpl.
    + split; lra.
    + assert (H5 : x < 5).
      { apply Qnot_le_lt. intros H. apply Qle_bool_iff in H.
        rewrite H in E2. discriminate. }
      split; lra.
Qed.

(** Clamping moves a value towards [1, 5], never past a point of it. *)
Lemma clamp_rating_between (c x lo hi : Q) :
  1 <= c -> c <= 5 -> lo <= c -> c <= hi -> lo <= x -> x <= hi ->
  lo <= clamp_rating x /\ clamp_rating x <= hi.
Proof.
  intros Hc1 Hc5 Hlo Hhi Hx1 Hx2.
  unfold clamp_rating, py_min, py_max, Qlt_bool.
  destruct (Qle_bool x 1) eqn:E1; simpl.
  - apply Qle_bool_iff in E1.
    destruct (Qle_bool 5 1) eqn:E2; simpl;
      [apply Qle_bool_iff in E2; lra|]. split; lra.
  - assert (H1 : 1 < x).
    { apply Qnot_le_lt. intros H. apply Qle_bool_iff in H.
      rewrite H in E1. discriminate. }
    destruct (Qle_bool 5 x) eqn:E2; simpl.
    + apply Qle_bool_iff in E2. split; lra.
    + split; lra.
Qed.

Lemma np_random_beta_spec a b g v g' :
  np_random_beta a b g = Some (v, g') -> 0 < v /\ v < 1.
Proof.
  unfold np_random_beta. destruct (np_random g 0%nat) as [n d].
  intros H. injection H as <- _. unfold Qlt. simpl. split; lia.
Qed.

Lemma np_random_beta_total a b g :
  exists r, np_random_beta a b g = Some r.
Proof.
  unfold np_random_beta. destruct (np_random g 0%nat).
  eexists. reflexivity.
Qed.

End Round1Facts.

(* ================================================================== *)
(** ** Reviews *)


Lemma next_business_spec businesses business_id g b g' :
  next_business businesses business_id g = Some (b, g') ->
  In b businesses /\ Business.business_id b = business_id /\ g' = g.
Proof.
  unfold next_business.
  destruct (find _ businesses) as [b0|] eqn:E; [|discriminate].
  intros H. apply ret_Some in H. injection H as <- <-.
  apply find_some in E. destruct E as [Hin Heq].
  apply N.eqb_eq in Heq. split; [exact Hin|]. split; [exact Heq|reflexivity].
Qed.

Lemma next_business_total businesses business_id g :
  (exists b, In b businesses /\ Business.business_id b = business_id) ->
  exists r, next_business businesses business_id g = Some r.
Proof.
  intros (b & Hin & Hid). unfold next_business.
  destruct (find _ businesses) as [b0|] eqn:E; [apply ret_total|].
  exfalso. pose proof (find_none _ _ E b Hin) as Hn. simpl in Hn.
  rewrite Hid, N.eqb_refl in Hn. discriminate Hn.
Qed.

Lemma next_business_missing businesses business_id g :
  (forall b, In b businesses -> Business.business_id b <> business_id) ->
  next_business businesses business_id g = None.
Proof.
  intros Hno. unfold next_business.
  destruct (find _ businesses) as [b0|] eqn:E; [|reflexivity].
  apply find_some in E. destruct E as [Hin Heq]. apply N.eqb_eq in Heq.
  exfalso. exact (Hno b0 Hin Heq).
Qed.

Section ReviewFacts.
Local Open Scope Q_scope.

Lemma round1_between (x lo hi : Q) :
  round1 lo == lo -> round1 hi == hi -> lo <= x -> x <= hi ->
  lo <= round1 x /\ round1 x <= hi.
Proof.
  intros Elo Ehi Hlo Hhi.
  pose proof (round1_mono lo x Hlo) as H1.
  pose proof (round1_mono x hi Hhi) as H2.
  split; lra.
Qed.

Lemma overall_rating_spec (beta : Q) :
  0 < beta -> beta < 1 ->
  1 <= round1 (beta * 4 + 1) /\ round1 (beta * 4 + 1) <= 5
  /\ exists k : Z, round1 (beta * 4 + 1) == inject_Z k * (1 # 10).
Proof.
  intros H0 H1.
  assert (E1 : round1 1 == 1) by (vm_compute; reflexivity).
  assert (E5 : round1 5 == 5) by (vm_compute; reflexivity).
  destruct (round1_between (beta * 4 + 1) 1 5 E1 E5) as [Hlo Hhi];
    [lra|lra|].
  split; [exact Hlo|]. split; [exact Hhi|].
  eexists. apply round1_unfold.
Qed.

(** A detail rating: the overall rating moved by at most one half, kept
    on the scale and rounded to one decimal. *)
Lemma sub_rating_spec (overall u : Q) (k : Z) :
  overall == inject_Z k * (1 # 10) -> 1 <= overall -> overall <= 5 ->
  - (1 # 2) <= u -> u <= 1 # 2 ->
  1 <= round1 (clamp_rating (overall + u))
  /\ round1 (clamp_rating (overall + u)) <= 5
  /\ overall - (1 # 2) <= round1 (clamp_rating (overall + u))
  /\ round1 (clamp_rating (overall + u)) <= overall + (1 # 2).
Proof.
  intros Hk H1 H5 Hu1 Hu2.
  assert (E1 : round1 1 == 1) by (vm_compute; reflexivity).
  assert (E5 : round1 5 == 5) by (vm_compute; reflexivity).
  destruct (clamp_rating_bounds (overall + u)) as [Hc1 Hc5].
  destruct (clamp_rating_between overall (overall + u)
              (overall - (1 # 2)) (overall + (1 # 2)))
    as [Hlo Hhi]; try lra.
  assert (Elo : round1 (overall - (1 # 2)) == overall - (1 # 2)).
  { assert (E : overall - (1 # 2) == inject_Z (k - 5) * (1 # 10)).
    { unfold Z.sub. rewrite inject_Z_plus.
      change (inject_Z (- (5))) with (- (5)). lra. }
    rewrite (round1_compat _ _ E), round1_tenths. lra. }
  assert (Ehi : round1 (overall + (1 # 2)) == overall + (1 # 2)).
  { assert (E : overall + (1 # 2) == inject_Z (k + 5) * (1 # 10)).
    { rewrite inject_Z_plus. change (inject_Z 5) with 5. lra. }
    rewrite (round1_compat _ _ E), round1_tenths. lra. }
  destruct (round1_between _ 1 5 E1 E5 Hc1 Hc5) as [Ha Hb].
  destruct (round1_between _ _ _ Elo Ehi Hlo Hhi) as [Hc Hd].
  split; [exact Ha|]. split; [exact Hb|]. split; [exact Hc|exact Hd].
Qed.

Lemma half_uniform_spec g u g' :
  random_uniform (-0.5) 0.5 g = Some (u, g') -> - (1 # 2) <= u /\ u <= 1 # 2.
Proof.
  intros H. apply random_uniform_spec in H; [|vm_compute; discriminate].
  destruct H as [H1 H2]. split; lra.
Qed.

(** What one pass of the review loop leaves: nothing when the draw
    exceeds REVIEW_RATE, one row otherwise. *)
Lemma project_review_row businesses estimators project g rows g' :
  project_review businesses estimators project g = Some (rows, g') ->
  exists skip g1, random_random g = Some (skip, g1) /\
  ((REVIEW_RATE < skip /\ rows = []) \/
   (skip <= REVIEW_RATE /\ exists r, rows = [r]
    /\ Review.project_id r = Project.project_id project
    /\ Review.reviewer_id r = Project.business_id project
    /\ (exists b, In b businesses
                  /\ Business.business_id b = Review.reviewer_id r)
    /\ (exists e, In e estimators
                  /\ Estimator.estimator_id e = Review.reviewee_id r)
    /\ Review.reviewer_type r = "business"%string
    /\ Review.reviewee_type r = "estimator"%string
    /\ Review.verified_review r = 1%Z
    /\ (1 <= Review.overall_rating r /\ Review.overall_rating r <= 5)
    /\ Forall (fun x => 1 <= x /\ x <= 5
                        /\ Review.overall_rating r - (1 # 2) <= x
                        /\ x <= Review.overall_rating r + (1 # 2))
              (sub_ratings r)
    /\ Review.would_recommend r
       = (if Qle_bool 4.0 (Review.overall_rating r) then 1 else 0)%Z
    /\ Review.would_work_again r
       = (if Qle_bool 4.5 (Review.overall_rating r) then 1 else 0)%Z)).
Proof.
  unfold project_review. intros H.
  apply bind_Some in H. destruct H as (skip & g1 & Hskip & H).
  exists skip, g1. split; [exact Hskip|].
  destruct (Qlt_bool REVIEW_RATE skip) eqn:Eskip.
  - left. apply ret_Some in H. injection H as -> _.
    split; [|reflexivity].
    unfold Qlt_bool in Eskip. apply negb_true_iff in Eskip.
    apply Qnot_le_lt. intros Hle. apply Qle_bool_iff in Hle.
    rewrite Hle in Eskip. discriminate Eskip.
  - right.
    assert (Hrate : skip <= REVIEW_RATE).
    { unfold Qlt_bool in Eskip. apply negb_false_iff in Eskip.
      apply Qle_bool_iff. exact Eskip. }
    split; [exact Hrate|].
    apply bind_Some in H. destruct H as (estimator & g2 & Hest & H).
    apply bind_Some in H. destruct H as (business & g3 & Hbus & H).
    apply bind_Some in H. destruct H as (beta & g4 & Hbeta & H).
    apply bind_Some in H. destruct H as (rid & g5 & _ & H).
    apply bind_Some in H. destruct H as (u1 & g6 & Hu1 & H).
    apply bind_Some in H. destruct H as (u2 & g7 & Hu2 & H).
    apply bind_Some in H. destruct H as (u3 & g8 & Hu3 & H).
    apply bind_Some in H. destruct H as (u4 & g9 & Hu4 & H).
    apply bind_Some in H. destruct H as (u5 & g10 & Hu5 & H).
    apply bind_Some in H. destruct H as (title & g11 & _ & H).
    apply bind_Some in H. destruct H as (text & g12 & _ & H).
    apply ret_Some in H. injection H as -> _.
    apply random_choice_spec in Hest.
    apply next_business_spec in Hbus. destruct Hbus as (Hbin & Hbid & _).
    apply np_random_beta_spec in Hbeta. destruct Hbeta as [Hb0 Hb1].
    destruct (overall_rating_spec beta Hb0 Hb1) as (Ho1 & Ho5 & k & Hk).
    apply half_uniform_spec in Hu1, Hu2, Hu3, Hu4, Hu5.
    eexists. split; [reflexivity|]. cbn [Review.project_id
      Review.reviewer_id Review.reviewee_id Review.reviewer_type
      Review.reviewee_type Review.verified_review Review.overall_rating
      Review.would_recommend Review.would_work_again sub_ratings
      Review.communication_rating Review.professionalism_rating
      Review.accuracy_rating Review.timeliness_rating Review.value_rating].
    split; [reflexivity|]. split; [exact Hbid|].
    split; [exists business; split; [exact Hbin|reflexivity]|].
    split; [exists estimator; split; [exact Hest|reflexivity]|].
    split; [reflexivity|]. split; [reflexivity|]. split; [reflexivity|].
    split; [split; [exact Ho1|exact Ho5]|].
    split; [|split; reflexivity].
    constructor; [apply (sub_rating_spec _ u1 k Hk Ho1 Ho5); tauto|].
    constructor; [apply (sub_rating_spec _ u2 k Hk Ho1 Ho5); tauto|].
    constructor; [apply (sub_rating_spec _ u3 k Hk Ho1 Ho5); tauto|].
    constructor; [apply (sub_rating_spec _ u4 k Hk Ho1 Ho5); tauto|].
    constructor; [apply (sub_rating_spec _ u5 k Hk Ho1 Ho5); tauto|].
    constructor.
Qed.

End ReviewFacts.

Lemma project_review_total businesses estimators project g :
  estimators <> [] ->
  (exists b, In b businesses
             /\ Business.business_id b = Project.business_id project) ->
  exists r, project_review businesses estimators project g = Some r.
Proof.
  intros Hne Hb. unfold project_review.
  apply bind_total; [apply random_random_total|intros skip g1].
  destruct (Qlt_bool REVIEW_RATE skip); [apply ret_total|].
  apply bind_total; [apply random_choice_total; exact Hne|intros est g2].
  apply bind_total; [apply next_business_total; exact Hb|intros b g3].
  apply bind_total; [apply np_random_beta_total|intros beta g4].
  do 6 total_step.
  apply bind_total; [apply random_choice_total; discriminate
                    |intros title g11].
  apply bind_total; [apply fake_word_total|intros text g12].
  apply ret_total.
Qed.

Lemma completed_filter_In projects p :
  In p (filter (fun p => String.eqb (Project.status p) "completed") projects)
  <-> In p projects /\ Project.status p = "completed".
Proof.
  rewrite filter_In. split; intros [H1 H2]; (split; [exact H1|]).
  - apply String.eqb_eq. exact H2.
  - apply String.eqb_eq. exact H2.
Qed.

Lemma generate_reviews_total projects businesses estimators g :
  estimators <> [] ->
  (forall p, In p projects -> Project.status p = "completed" ->
     exists b, In b businesses
               /\ Business.business_id b = Project.business_id p) ->
  exists rows g',
    generate_reviews projects businesses estimators g = Some (rows, g').
Proof.
  intros Hne Hown. unfold generate_reviews.
  destruct (for_each_total (project_review businesses estimators)
              (filter (fun p => String.eqb (Project.status p) "completed")
                      projects)) with (g := g) as [[per g1] Hper].
  { intros p gp Hp. apply completed_filter_In in Hp. destruct Hp as [Hp Hs].
    apply project_review_total; [exact Hne|]. apply Hown; assumption. }
  unfold bind. rewrite Hper. eexists. eexists. reflexivity.
Qed.

(** Every review row comes from one pass of the loop over a completed
    project, and no pass leaves more than one row. *)
Lemma generate_reviews_rows projects businesses estimators g rows g' :
  generate_reviews projects businesses estimators g = Some (rows, g') ->
  (List.length rows
   <= List.length
        (filter (fun p => String.eqb (Project.status p) "completed")
                projects))%nat
  /\ forall r, In r rows ->
       exists p gi gi',
         In p projects /\ Project.status p = "completed"
         /\ project_review businesses estimators p gi = Some ([r], gi').
Proof.
  unfold generate_reviews. intros H.
  apply bind_Some in H. destruct H as (per & g1 & Hper & H).
  apply ret_Some in H. injection H as -> _.
  assert (Hone : forall p ys gi gi',
             project_review businesses estimators p gi = Some (ys, gi') ->
             ys = [] \/ exists r, ys = [r]).
  { intros p ys gi gi' Hbody.
    destruct (project_review_row _ _ _ _ _ _ Hbody)
      as (skip & gs & _ & [[_ ->]|[_ (r & -> & _)]]);
      [left; reflexivity|right; exists r; reflexivity]. }
  split.
  - pose proof (for_each_Forall2 _ _ _ _ _ Hper) as HF.
    pose proof (concat_length_bounds _ _ per 0 1 HF) as Hb.
    cbv beta in Hb.
    assert (Hc : (0 * List.length
                        (filter (fun p => String.eqb (Project.status p)
                                                     "completed") projects)
                  <= List.length (List.concat per)
                  <= 1 * List.length
                        (filter (fun p => String.eqb (Project.status p)
                                                     "completed") projects))%nat).
    { apply Hb. intros p ys (gi & gi' & Hbody).
      destruct (Hone p ys gi gi' Hbody) as [->|[r ->]]; simpl; lia. }
    lia.
  - intros r Hr. apply in_concat in Hr. destruct Hr as (ys & Hys & Hr).
    destruct (for_each_In _ _ _ _ _ _ Hper Hys)
      as (p & gi & gi' & Hp & Hbody).
    apply completed_filter_In in Hp. destruct Hp as [Hp Hs].
    exists p, gi, gi'. split; [exact Hp|]. split; [exact Hs|].
    destruct (Hone p ys gi gi' Hbody) as [->|[r0 ->]]; [contradiction|].
    destruct Hr as [->|[]]. exact Hbody.
Qed.

(** The facts of one review row, for a row of the whole table. *)
Lemma generate_reviews_row projects businesses estimators g rows g' r :
  generate_reviews projects businesses estimators g = Some (rows, g') ->
  In r rows ->
  exists p, In p projects /\ Project.status p = "completed"
    /\ Review.project_id r = Project.project_id p
    /\ Review.reviewer_id r = Project.business_id p
    /\ (exists b, In b businesses
                  /\ Business.business_id b = Review.reviewer_id r)
    /\ (exists e, In e estimators
                  /\ Estimator.estimator_id e = Review.reviewee_id r)
    /\ Review.reviewer_type r = "business"
    /\ Review.reviewee_type r = "estimator"
    /\ Review.verified_review r = 1
    /\ (1 <= Review.overall_rating r /\ Review.overall_rating r <= 5)%Q
    /\ Forall (fun x => 1 <= x /\ x <= 5
                        /\ Review.overall_rating r - (1 # 2) <= x
                        /\ x <= Review.overall_rating r + (1 # 2))%Q
              (sub_ratings r)
    /\ Review.would_recommend r
       = (if Qle_bool 4.0 (Review.overall_rating r) then 1 else 0)
    /\ Review.would_work_again r
       = (if Qle_bool 4.5 (Review.overall_rating r) then 1 else 0).
Proof.
  intros Hrun Hr.
  destruct (generate_reviews_rows _ _ _ _ _ _ Hrun) as [_ Hrows].
  destruct (Hrows r Hr) as (p & gi & gi' & Hp & Hs & Hbody).
  exists p. split; [exact Hp|]. split; [exact Hs|].
  destruct (project_review_row _ _ _ _ _ _ Hbody)
    as (skip & gs & _ & [[_ Hnil]|[_ (r0 & Heq & Hfacts)]]);
    [discriminate Hnil|].
  injection Heq as <-. exact Hfacts.
Qed.



(** X16.  The two recommendation flags of a review are decided by its
    overall rating alone: [would_recommend] is 1 exactly from 4.0 up and
    [would_work_again] is 1 exactly from 4.5 up, 0 otherwise; so whoever
    would work again also recommends.  Every review is marked verified. *)
Theorem review_recommendation_flags projects businesses estimators g :
  estimators <> [] ->
  (forall p, In p projects -> Project.status p = "completed" ->
     exists b, In b businesses
               /\ Business.business_id b = Project.business_id p) ->
  exists rows g',
    generate_reviews projects businesses estimators g = Some (rows, g')
    /\ forall r, In r rows ->
         (Review.would_recommend r = 1 \/ Review.would_recommend r = 0)
         /\ (Review.would_work_again r = 1 \/ Review.would_work_again r = 0)
         /\ (Review.would_recommend r = 1
             <-> (4 <= Review.overall_rating r)%Q)
         /\ (Review.would_work_again r = 1
             <-> (9 # 2 <= Review.overall_rating r)%Q)
         /\ (Review.would_work_again r = 1 -> Review.would_recommend r = 1)
         /\ Review.verified_review r = 1.
Proof.
  intros Hne Hown.
  destruct (generate_reviews_total projects businesses estimators g Hne Hown)
    as (rows & g' & Hrun).
  exists rows, g'. split; [exact Hrun|].
  intros r Hr.
  destruct (generate_reviews_row _ _ _ _ _ _ _ Hrun Hr)
    as (p & _ & _ & _ & _ & _ & _ & _ & _ & Hver & _ & _ & Hrec & Hagain).
  assert (Hrec_iff : Review.would_recommend r = 1
                     <-> (4 <= Review.overall_rating r)%Q).
  { rewrite Hrec.
    destruct (Qle_bool 4.0 (Review.overall_rating r)) eqn:E.
    - apply Qle_bool_iff in E. split; [intros _; lra|reflexivity].
    - split; [discriminate|]. intros H. exfalso.
      assert (H' : (4.0 <= Review.overall_rating r)%Q) by lra.
      apply Qle_bool_iff in H'. rewrite H' in E. discriminate E. }
  assert (Hagain_iff : Review.would_work_again r = 1
                       <-> (9 # 2 <= Review.overall_rating r)%Q).
  { rewrite Hagain.
    destruct (Qle_bool 4.5 (Review.overall_rating r)) eqn:E.
    - apply Qle_bool_iff in E. split; [intros _; lra|reflexivity].
    - split; [discriminate|]. intros H. exfalso.
      assert (H' : (4.5 <= Review.overall_rating r)%Q) by lra.
      apply Qle_bool_iff in H'. rewrite H' in E. discriminate E. }
  split; [rewrite Hrec; destruct (Qle_bool 4.0 (Review.overall_rating r));
          [left|right]; reflexivity|].
  split; [rewrite Hagain; destruct (Qle_bool 4.5 (Review.overall_rating r));
          [left|right]; reflexivity|].
  split; [exact Hrec_iff|]. split; [exact Hagain_iff|].
  split; [|exact Hver].
  intros H. apply Hrec_iff. apply Hagain_iff in H. lra.
Qed.

Lemma review_recommendation_flags_witness :
  exists rows g',
    generate_reviews FixtureReviews.projects Fixture.businesses
      Fixture.estimators FixtureReviews.generators = Some (rows, g')
    /\ forall r, In r rows -> Review.verified_review r = 1.
Proof.
  destruct (review_recommendation_flags FixtureReviews.projects
              Fixture.businesses Fixture.estimators
              FixtureReviews.generators) as (rows & g' & Hrun & Hrows).
  - discriminate.
  - intros p [<-|[<-|[]]] _; exists (Business.mk 501%N);
      (split; [left; reflexivity|reflexivity]).
  - exists rows, g'. split; [exact Hrun|].
    intros r Hr. apply (Hrows r Hr).
Defined.

(** X17.  A pass of the review loop that is not skipped (the draw is at
    most REVIEW_RATE) raises when the estimator pool is empty (IndexError
    from [random.choice]) or when no business carries the project's
    [business_id] (StopIteration from [next]); no row is inserted. *)
Theorem review_with_dangling_reference_raises businesses estimators project
    g skip g1 :
  random_random g = Some (skip, g1) ->
  (skip <= REVIEW_RATE)%Q ->
  estimators = [] \/
  (forall b, In b businesses ->
     Business.business_id b <> Project.business_id project) ->
  project_review businesses estimators project g = None.
Proof.
  intros Hskip Hrate Hbad. unfold project_review.
  unfold bind at 1. rewrite Hskip.
  rewrite (Qlt_bool_false _ _ Hrate).
  destruct Hbad as [->|Hno]; [reflexivity|].
  unfold bind at 1.
  destruct (random_choice estimators g1) as [[est g2]|]; [|reflexivity].
  unfold bind at 1. rewrite (next_business_missing _ _ g2 Hno). reflexivity.
Qed.

Lemma review_with_dangling_reference_raises_witness :
  project_review [Business.mk 502%N] Fixture.estimators
    FixtureReviews.completed_project FixtureReviews.generators = None.
Proof.
  apply (review_with_dangling_reference_raises [Business.mk 502%N]
           Fixture.estimators FixtureReviews.completed_project
           FixtureReviews.generators (Qmake 0 9007199254740992)
           (mkGenerators (tl_tape (Fixture.tape_of [0; 1]%N))
              (fun _ => (4%positive, 1%positive))
              (Fixture.tape_of []) (Fixture.tape_of [61; 62]%N))).
  - vm_compute. reflexivity.
  - vm_compute. discriminate.
  - right. intros b [<-|[]]. discriminate.
Defined.

(* ================================================================== *)
(** ** Expertise *)


Ltac run_step H a w Hm :=
  apply run_bind_Some in H; destruct H as (a & w & Hm & H).

Ltac lift_step H a g Hm :=
  let w := fresh "w" in
  apply run_bind_Some in H; destruct H as (a & w & Hm & H);
  apply lift_Some in Hm; destruct Hm as (g & Hm & ->).

Lemma NoDup_INDUSTRY_SECTORS : NoDup INDUSTRY_SECTORS.
Proof.
  unfold INDUSTRY_SECTORS.
  repeat (constructor; [simpl; intuition discriminate|]). constructor.
Qed.

Lemma NoDup_SOFTWARE : NoDup SOFTWARE.
Proof.
  unfold SOFTWARE.
  repeat (constructor; [simpl; intuition discriminate|]). constructor.
Qed.

(** What [random.sample] of between two and four items returns. *)
Lemma sample_of_table {A : Type} (population : list A) n g l g1 g2 :
  NoDup population ->
  random_randint 2 4 g = Some (n, g1) ->
  random_sample population n g1 = Some (l, g2) ->
  (2 <= List.length l <= 4)%nat /\ incl l population /\ NoDup l.
Proof.
  intros Hnd Hn Hl. apply random_randint_spec in Hn.
  destruct (random_sample_spec _ _ _ _ _ Hl)
    as (_ & Hlen & Hin & rest & Hperm).
  split; [lia|]. split; [exact Hin|].
  apply Permutation_sym in Hperm.
  pose proof (Permutation_NoDup Hperm Hnd) as Hnd'.
  apply NoDup_app_remove_r in Hnd'. exact Hnd'.
Qed.

Lemma day_minus_days (now d : Z) :
  (now - d * MICROSECONDS_PER_DAY) / MICROSECONDS_PER_DAY
  = now / MICROSECONDS_PER_DAY - d.
Proof.
  replace (now - d * MICROSECONDS_PER_DAY)
    with (now + (- d) * MICROSECONDS_PER_DAY) by lia.
  rewrite Z.div_add by (vm_compute; discriminate). lia.
Qed.

Lemma day_plus_days (now d : Z) :
  (now + d * MICROSECONDS_PER_DAY) / MICROSECONDS_PER_DAY
  = now / MICROSECONDS_PER_DAY + d.
Proof. apply Z.div_add. vm_compute. discriminate. Qed.

(** One row of the expertise table. *)
Lemma generate_expertise_row_spec estimator w row w' :
  generate_expertise_row estimator w = Some (row, w') ->
  Expertise.estimator_id row = EstimatorRow.estimator_id estimator
  /\ 2 <= Expertise.years_in_specialty row
       <= EstimatorRow.years_experience estimator
  /\ In (Expertise.specialization_type row) SPECIALIZATIONS
  /\ ((2 <= List.length (Expertise.project_types row) <= 4)%nat
      /\ incl (Expertise.project_types row) INDUSTRY_SECTORS
      /\ NoDup (Expertise.project_types row))
  /\ ((2 <= List.length (Expertise.software_proficiency row) <= 4)%nat
      /\ incl (Expertise.software_proficiency row) SOFTWARE
      /\ NoDup (Expertise.software_proficiency row))
  /\ ((Expertise.verified row = 0
       /\ Expertise.certification_name row = None
       /\ Expertise.issuing_organization row = None
       /\ Expertise.issue_date row = None
       /\ Expertise.expiry_date row = None
       /\ clock w' = clock w)
      \/
      (Expertise.verified row = 1
       /\ (exists short_name full_name organization,
             In (short_name, full_name, organization) CERTIFICATIONS
             /\ Expertise.certification_name row = Some short_name
             /\ Expertise.issuing_organization row = Some organization)
       /\ (exists issue_days expiry_days,
             365 <= issue_days <= 3650 /\ 365 <= expiry_days <= 1825
             /\ Expertise.issue_date row
                = Some (clock w 0%nat / MICROSECONDS_PER_DAY - issue_days)
             /\ Expertise.expiry_date row
                = Some (clock w 1%nat / MICROSECONDS_PER_DAY + expiry_days))
       /\ clock w' = tl_tape (tl_tape (clock w)))).
Proof.
  unfold generate_expertise_row. intros H.
  lift_step H coin g1 Hcoin.
  run_step H cert w2 Hcert.
  assert (Hcert' : clock w2 = clock w /\
            (cert = None \/ exists c, cert = Some c /\ In c CERTIFICATIONS)).
  { destruct (Qlt_bool 0.5 coin).
    - lift_step Hcert c g2 Hc. apply run_ret_Some in Hcert.
      injection Hcert as -> ->. split; [reflexivity|].
      right. exists c. split; [reflexivity|].
      eapply random_choice_spec. exact Hc.
    - apply run_ret_Some in Hcert. injection Hcert as -> ->.
      split; [reflexivity|]. left. reflexivity. }
  clear Hcert. destruct Hcert' as [Hclock Hcert].
  lift_step H eid g3 Heid.
  lift_step H spec g4 Hspec.
  lift_step H ntypes g5 Hntypes.
  lift_step H types g6 Htypes.
  run_step H issue w7 Hissue.
  run_step H expiry w8 Hexpiry.
  lift_step H nsoft g9 Hnsoft.
  lift_step H soft g10 Hsoft.
  lift_step H years g11 Hyears.
  apply run_ret_Some in H. injection H as -> ->.
  cbn [Expertise.estimator_id Expertise.years_in_specialty
       Expertise.specialization_type Expertise.project_types
       Expertise.software_proficiency Expertise.verified
       Expertise.certification_name Expertise.issuing_organization
       Expertise.issue_date Expertise.expiry_date clock].
  split; [reflexivity|].
  split; [eapply random_randint_spec; exact Hyears|].
  split; [eapply random_choice_spec; exact Hspec|].
  split; [eapply sample_of_table;
          [apply NoDup_INDUSTRY_SECTORS|exact Hntypes|exact Htypes]|].
  split; [eapply sample_of_table;
          [apply NoDup_SOFTWARE|exact Hnsoft|exact Hsoft]|].
  destruct Hcert as [->|(c & -> & Hc)].
  - left. apply run_ret_Some in Hissue. injection Hissue as -> ->.
    apply run_ret_Some in Hexpiry. injection Hexpiry as -> ->.
    cbn [clock]. repeat (split; [reflexivity|]). exact Hclock.
  - right. destruct c as [[short_name full_name] organization].
    split; [reflexivity|].
    split; [exists short_name, full_name, organization;
            split; [exact Hc|split; reflexivity]|].
    run_step Hissue now1 wa Hnow1.
    lift_step Hissue d1 ga Hd1.
    apply run_ret_Some in Hissue. injection Hissue as -> ->.
    run_step Hexpiry now2 wb Hnow2.
    lift_step Hexpiry d2 gb Hd2.
    apply run_ret_Some in Hexpiry. injection Hexpiry as -> ->.
    unfold datetime_now in Hnow1. injection Hnow1 as <- <-.
    unfold datetime_now in Hnow2. injection Hnow2 as <- <-.
    cbn [clock gens]. rewrite Hclock.
    split; [|reflexivity].
    exists d1, d2.
    split; [eapply random_randint_spec; exact Hd1|].
    split; [eapply random_randint_spec; exact Hd2|].
    rewrite day_minus_days, day_plus_days. split; reflexivity.
Qed.

Lemma run_for_each_inv {A B : Type} (I : World -> Prop) (f : A -> Run B) xs :
  (forall x w y w', In x xs -> I w -> f x w = Some (y, w') -> I w') ->
  forall w ys w', I w -> run_for_each f xs w = Some (ys, w') ->
  I w' /\ forall y, In y ys ->
            exists x wi wi', In x xs /\ I wi /\ f x wi = Some (y, wi').
Proof.
  induction xs as [|x rest IH]; intros Hf w ys w' Hw H; simpl in H.
  - apply run_ret_Some in H. injection H as -> ->.
    split; [exact Hw|]. intros y [].
  - run_step H y0 w1 Hy0. run_step H ys' w2 Hys.
    apply run_ret_Some in H. injection H as -> ->.
    pose proof (Hf x w y0 w1 (or_introl eq_refl) Hw Hy0) as Hw1.
    destruct (IH (fun x' wa ya wb Hin => Hf x' wa ya wb (or_intror Hin))
                 w1 ys' w2 Hw1 Hys) as [Hw2 Hrest].
    split; [exact Hw2|].
    intros y [<-|Hy].
    + exists x, w, w1. split; [left; reflexivity|]. split; assumption.
    + destruct (Hrest y Hy) as (x' & wi & wi' & Hin & Hi & Hfx).
      exists x', wi, wi'. split; [right; exact Hin|]. split; assumption.
Qed.

Lemma run_bind_total_spec {A B : Type} (m : Run A) (k : A -> Run B) w :
  (exists r, m w = Some r) ->
  (forall a w1, m w = Some (a, w1) -> exists r, k a w1 = Some r) ->
  exists r, run_bind m k w = Some r.
Proof.
  intros [[a w1] Hm] Hk. unfold run_bind. rewrite Hm. apply (Hk a w1 Hm).
Qed.

Lemma lift_randint_spec a b w v w' :
  lift (random_randint a b) w = Some (v, w') -> a <= v <= b.
Proof.
  intros H. apply lift_Some in H. destruct H as (g' & H & _).
  eapply random_randint_spec. exact H.
Qed.

(** The two clock-dependent fields of a certified row can always be
    computed. *)
Lemma certificate_date_total {C : Type} (cert : option C) lo hi
    (stamp : Z -> Z -> Z) w :
  lo <= hi ->
  exists r,
    match cert with
    | Some _ =>
        run_bind datetime_now (fun now =>
        run_bind (lift (random_randint lo hi)) (fun d =>
        run_ret (Some (stamp now d))))
    | None => run_ret None
    end w = Some r.
Proof.
  intros Hle. destruct cert; [|apply run_ret_total].
  apply run_bind_total; [apply datetime_now_total|intros now wa].
  apply run_bind_total;
    [apply lift_total, random_randint_total; exact Hle|intros d wb].
  apply run_ret_total.
Qed.

Lemma generate_expertise_row_total estimator w :
  2 <= EstimatorRow.years_experience estimator ->
  exists r, generate_expertise_row estimator w = Some r.
Proof.
  intros Hy. unfold generate_expertise_row.
  apply run_bind_total;
    [apply lift_total, random_random_total|intros coin w1].
  apply run_bind_total.
  { destruct (Qlt_bool 0.5 coin); [|apply run_ret_total].
    apply run_bind_total;
      [apply lift_total, random_choice_total; discriminate|intros c w2].
    apply run_ret_total. }
  intros cert w2.
  apply run_bind_total; [apply lift_total, uuid4_total|intros eid w3].
  apply run_bind_total;
    [apply lift_total, random_choice_total; discriminate|intros spec w4].
  apply run_bind_total_spec;
    [apply lift_total, random_randint_total; lia|intros ntypes w5 Hntypes].
  apply lift_randint_spec in Hntypes.
  apply run_bind_total;
    [apply lift_total, random_sample_total; simpl; lia|intros types w6].
  apply run_bind_total;
    [apply (certificate_date_total cert 365 3650
              (fun now d => (now - d * MICROSECONDS_PER_DAY)
                            / MICROSECONDS_PER_DAY)); lia
    |intros issue w7].
  apply run_bind_total;
    [apply (certificate_date_total cert 365 1825
              (fun now d => (now + d * MICROSECONDS_PER_DAY)
                            / MICROSECONDS_PER_DAY)); lia
    |intros expiry w8].
  apply run_bind_total_spec;
    [apply lift_total, random_randint_total; lia|intros nsoft w9 Hnsoft].
  apply lift_randint_spec in Hnsoft.
  apply run_bind_total;
    [apply lift_total, random_sample_total; simpl; lia|intros soft w10].
  apply run_bind_total;
    [apply lift_total, random_randint_total; exact Hy|intros years w11].
  apply run_ret_total.
Qed.

Ltac raise_step :=
  unfold run_bind at 1;
  match goal with
  | |- match ?m with _ => _ end = None =>
      destruct m as [[? ?]|]; [|reflexivity]
  end.

(** With less than two years of experience the last draw of a row,
    [random.randint(2, years_experience)], has an empty range. *)
Lemma generate_expertise_row_raises estimator w :
  EstimatorRow.years_experience estimator < 2 ->
  generate_expertise_row estimator w = None.
Proof.
  intros Hy. unfold generate_expertise_row.
  do 10 raise_step.
  unfold run_bind, lift, random_randint.
  rewrite (proj2 (Z.ltb_lt _ _) Hy). reflexivity.
Qed.

Lemma estimator_expertise_raises estimator w :
  EstimatorRow.years_experience estimator < 2 ->
  estimator_expertise estimator w = None.
Proof.
  intros Hy. unfold estimator_expertise.
  unfold run_bind at 1.
  destruct (lift (random_randint 1 3) w) as [[n w1]|] eqn:Hn;
    [|reflexivity].
  apply lift_randint_spec in Hn.
  unfold range. destruct (Z.to_nat n) as [|k] eqn:Hk; [lia|].
  simpl. unfold run_bind at 1.
  rewrite (generate_expertise_row_raises estimator w1 Hy). reflexivity.
Qed.

Section ClockInvariant.

(** A property of the remaining clock readings that holds again after
    each reading. *)
Variable P : (nat -> Z) -> Prop.
Hypothesis P_tl : forall c, P c -> P (tl_tape c).

Lemma estimator_expertise_rows estimator w rows w' :
  P (clock w) ->
  estimator_expertise estimator w = Some (rows, w') ->
  P (clock w')
  /\ (1 <= List.length rows <= 3)%nat
  /\ forall row, In row rows ->
       exists wi wi', P (clock wi)
         /\ generate_expertise_row estimator wi = Some (row, wi').
Proof.
  unfold estimator_expertise. intros Hw H.
  run_step H n w1 Hn. pose proof (lift_randint_spec _ _ _ _ _ Hn) as Hn'.
  apply lift_Some in Hn. destruct Hn as (g1 & _ & ->).
  destruct (run_for_each_inv (fun w => P (clock w))
              (fun _ : Z => generate_expertise_row estimator) (range n))
    with (w := mkWorld g1 (clock w)) (ys := rows) (w' := w')
    as [Hw' Hrows].
  - intros _ wa row wb _ Hwa Hrow.
    destruct (generate_expertise_row_spec _ _ _ _ Hrow)
      as (_ & _ & _ & _ & _ & [(_ & _ & _ & _ & _ & ->)|(_ & _ & _ & ->)]);
      [exact Hwa|apply P_tl, P_tl; exact Hwa].
  - exact Hw.
  - exact H.
  - split; [exact Hw'|]. split.
    + apply run_for_each_length in H. rewrite range_length in H. lia.
    + intros row Hrow.
      destruct (Hrows row Hrow) as (_ & wi & wi' & _ & Hi & Hf).
      exists wi, wi'. split; assumption.
Qed.

Lemma generate_expertise_rows estimators w rows w' :
  P (clock w) ->
  generate_expertise estimators w = Some (rows, w') ->
  P (clock w')
  /\ (List.length estimators <= List.length rows
      <= 3 * List.length estimators)%nat
  /\ forall row, In row rows ->
       exists estimator wi wi', In estimator estimators /\ P (clock wi)
         /\ generate_expertise_row estimator wi = Some (row, wi').
Proof.
  unfold generate_expertise. intros Hw H.
  run_step H per w1 Hper. apply run_ret_Some in H. injection H as -> ->.
  destruct (run_for_each_inv (fun w => P (clock w)) estimator_expertise
              estimators) with (w := w) (ys := per) (w' := w1)
    as [Hw' Hrows].
  - intros est wa ys wb _ Hwa Hys.
    apply (estimator_expertise_rows est wa ys wb Hwa Hys).
  - exact Hw.
  - exact Hper.
  - split; [exact Hw'|]. split.
    + pose proof (run_for_each_Forall2 _ _ _ _ _ Hper) as HF.
      assert (Hb : forall ys, In ys per -> (1 <= List.length ys <= 3)%nat).
      { intros ys Hys.
        destruct (Hrows ys Hys) as (e & wi & wi' & _ & Hi & Hf).
        apply (estimator_expertise_rows e wi ys wi' Hi Hf). }
      clear Hrows Hper Hw'. induction HF as [|x ys xs' yss' _ _ IH];
        simpl; [lia|].
      rewrite length_app.
      pose proof (Hb ys (or_introl eq_refl)).
      assert (IH' := IH (fun ys0 Hin => Hb ys0 (or_intror Hin))).
      lia.
    + intros row Hrow. apply in_concat in Hrow.
      destruct Hrow as (ys & Hys & Hrow).
      destruct (Hrows ys Hys) as (est & wi & wi' & Hest & Hi & Hf).
      destruct (estimator_expertise_rows est wi ys wi' Hi Hf)
        as (_ & _ & Hr).
      destruct (Hr row Hrow) as (wj & wj' & Hj & Hrowj).
      exists est, wj, wj'. split; [exact Hest|]. split; assumption.
Qed.

End ClockInvariant.

Lemma generate_expertise_total estimators w :
  (forall estimator, In estimator estimators ->
     2 <= EstimatorRow.years_experience estimator) ->
  exists r, generate_expertise estimators w = Some r.
Proof.
  intros Hy. unfold generate_expertise.
  apply run_bind_total; [|intros per w1; apply run_ret_total].
  apply run_for_each_total. intros est wa Hest.
  unfold estimator_expertise.
  apply run_bind_total;
    [apply lift_total, random_randint_total; lia|intros n w1].
  apply run_for_each_total. intros _ wb _.
  apply generate_expertise_row_total. apply Hy. exact Hest.
Qed.

(** X19.  [generate_expertise] raises (ValueError from
    [random.randint(2, years_experience)]) as soon as one of the
    estimators has less than two years of experience, whatever the
    draws. *)
Theorem expertise_short_experience_raises estimators estimator w :
  In estimator estimators ->
  EstimatorRow.years_experience estimator < 2 ->
  generate_expertise estimators w = None.
Proof.
  intros Hin Hy. unfold generate_expertise, run_bind.
  rewrite (run_for_each_raises estimator_expertise estimators estimator Hin
             (fun w0 => estimator_expertise_raises estimator w0 Hy) w).
  reflexivity.
Qed.

Lemma expertise_short_experience_raises_witness :
  generate_expertise [FixtureExpertise.estimator; FixtureExpertise.novice]
    FixtureExpertise.world = None.
Proof.
  apply (expertise_short_experience_raises
           [FixtureExpertise.estimator; FixtureExpertise.novice]
           FixtureExpertise.novice FixtureExpertise.world).
  - right. left. reflexivity.
  - simpl. lia.
Defined.

(** X20.  In every expertise row, [project_types] holds two to four
    different entries of INDUSTRY_SECTORS and [software_proficiency] two
    to four different entries of the software list. *)
Theorem expertise_sampled_lists estimators w :
  (forall estimator, In estimator estimators ->
     2 <= EstimatorRow.years_experience estimator) ->
  exists rows w',
    generate_expertise estimators w = Some (rows, w')
    /\ forall row, In row rows ->
         ((2 <= List.length (Expertise.project_types row) <= 4)%nat
          /\ incl (Expertise.project_types row) INDUSTRY_SECTORS
          /\ NoDup (Expertise.project_types row))
         /\ ((2 <= List.length (Expertise.software_proficiency row) <= 4)%nat
             /\ incl (Expertise.software_proficiency row) SOFTWARE
             /\ NoDup (Expertise.software_proficiency row)).
Proof.
  intros Hy.
  destruct (generate_expertise_total estimators w Hy) as [[rows w'] Hrun].
  exists rows, w'. split; [exact Hrun|].
  destruct (generate_expertise_rows (fun _ => True) (fun _ _ => I)
              estimators w rows w' I Hrun) as (_ & _ & Hrows).
  intros row Hrow.
  destruct (Hrows row Hrow) as (est & wi & wi' & _ & _ & Hbody).
  destruct (generate_expertise_row_spec _ _ _ _ Hbody)
    as (_ & _ & _ & Htypes & Hsoft & _).
  split; [exact Htypes|exact Hsoft].
Qed.

Lemma expertise_sampled_lists_witness :
  exists rows w',
    generate_expertise [FixtureExpertise.estimator] FixtureExpertise.world
    = Some (rows, w')
    /\ forall row, In row rows ->
         NoDup (Expertise.project_types row).
Proof.
  destruct (expertise_sampled_lists [FixtureExpertise.estimator]
              FixtureExpertise.world) as (rows & w' & Hrun & Hrows).
  - intros est [<-|[]]. simpl. lia.
  - exists rows, w'. split; [exact Hrun|].
    intros row Hrow. apply (Hrows row Hrow).
Defined.

(** X21.  The certification fields of an expertise row go together:
    either the row is unverified and has no certification name, issuing
    organization, issue date or expiry date, or it is verified and carries
    the short name and the organization of one CERTIFICATIONS entry with
    both dates; and, on a clock that never runs backwards, the expiry date
    is then at least 730 days after the issue date. *)
Theorem expertise_certification_fields estimators w :
  (forall estimator, In estimator estimators ->
     2 <= EstimatorRow.years_experience estimator) ->
  clock_monotone w ->
  exists rows w',
    generate_expertise estimators w = Some (rows, w')
    /\ forall row, In row rows ->
         (Expertise.verified row = 0
          /\ Expertise.certification_name row = None
          /\ Expertise.issuing_organization row = None
          /\ Expertise.issue_date row = None
          /\ Expertise.expiry_date row = None)
         \/
         (Expertise.verified row = 1
          /\ (exists short_name full_name organization,
                In (short_name, full_name, organization) CERTIFICATIONS
                /\ Expertise.certification_name row = Some short_name
                /\ Expertise.issuing_organization row = Some organization)
          /\ exists issued expires,
               Expertise.issue_date row = Some issued
               /\ Expertise.expiry_date row = Some expires
               /\ issued + 730 <= expires).
Proof.
  intros Hy Hmono.
  destruct (generate_expertise_total estimators w Hy) as [[rows w'] Hrun].
  exists rows, w'. split; [exact Hrun|].
  destruct (generate_expertise_rows (fun c => forall n, c n <= c (S n))
              (fun c Hc n => Hc (S n))
              estimators w rows w' Hmono Hrun) as (_ & _ & Hrows).
  intros row Hrow.
  destruct (Hrows row Hrow) as (est & wi & wi' & _ & Hwi & Hbody).
  destruct (generate_expertise_row_spec _ _ _ _ Hbody)
    as (_ & _ & _ & _ & _
        & [(Hv & Hn & Ho & Hi & He & _)
          |(Hv & Hcert & (d1 & d2 & Hd1 & Hd2 & Hi & He) & _)]).
  - left. repeat (split; [assumption|]). assumption.
  - right. split; [exact Hv|]. split; [exact Hcert|].
    eexists. eexists. split; [exact Hi|]. split; [exact He|].
    pose proof (Hwi 0%nat) as Hclock.
    assert (Hdiv : clock wi 0%nat / MICROSECONDS_PER_DAY
                   <= clock wi 1%nat / MICROSECONDS_PER_DAY).
    { apply Z.div_le_mono; [vm_compute; reflexivity|exact Hclock]. }
    lia.
Qed.

Lemma expertise_certification_fields_witness :
  exists rows w',
    generate_expertise [FixtureExpertise.estimator] FixtureExpertise.world
    = Some (rows, w')
    /\ forall row, In row rows ->
         Expertise.verified row = 0 \/ Expertise.verified row = 1.
Proof.
  destruct (expertise_certification_fields [FixtureExpertise.estimator]
              FixtureExpertise.world) as (rows & w' & Hrun & Hrows).
  - intros est [<-|[]]. simpl. lia.
  - intros n. simpl. lia.
  - exists rows, w'. split; [exact Hrun|].
    intros row Hrow.
    destruct (Hrows row Hrow) as [(Hv & _)|(Hv & _)];
      [left|right]; exact Hv.
Defined.

(* ================================================================== *)
(** ** Businesses and estimators *)

Lemma fake_date_between_spec a b g v g' :
  fake_date_between a b g = Some (v, g') -> date a <= v <= date b.
Proof.
  unfold fake_date_between.
  destruct (Z.ltb_spec (date b) (date a)) as [|Hle]; [discriminate|].
  intros H. apply bind_Some in H. destruct H as (x & g1 & _ & H).
  apply ret_Some in H. injection H as -> _.
  pose proof (Z.mod_pos_bound (Z.of_N x) (date b - date a + 1)
                ltac:(lia)). lia.
Qed.

Lemma fake_date_between_total a b g :
  date a <= date b -> exists r, fake_date_between a b g = Some r.
Proof.
  intros H. unfold fake_date_between.
  destruct (Z.ltb_spec (date b) (date a)) as [Hlt|_]; [lia|].
  apply bind_total; [apply fake_word_total|intros x g1]. apply ret_total.
Qed.

Section RoundedDraws.
Local Open Scope Q_scope.

Lemma round2_between (x lo hi : Q) :
  round2 lo == lo -> round2 hi == hi -> lo <= x -> x <= hi ->
  lo <= round2 x /\ round2 x <= hi.
Proof.
  intros Elo Ehi Hlo Hhi.
  pose proof (round2_mono lo x Hlo) as H1.
  pose proof (round2_mono x hi Hhi) as H2.
  split; lra.
Qed.

(** [round(random.uniform(lo, hi), 2)] between two amounts in whole
    cents stays between them. *)
Lemma rounded_uniform_spec (lo hi : Q) g v g' :
  round2 lo == lo -> round2 hi == hi -> lo <= hi ->
  random_uniform lo hi g = Some (v, g') ->
  lo <= round2 v /\ round2 v <= hi.
Proof.
  intros Elo Ehi Hle H.
  destruct (random_uniform_spec _ _ _ _ _ Hle H) as [H1 H2].
  apply round2_between; assumption.
Qed.

End RoundedDraws.

Ltac cents := vm_compute; reflexivity.

(** One row of the estimators table, by its index in the loop. *)
Lemma generate_estimator_spec i w e w' :
  generate_estimator i w = Some (e, w') ->
  EstimatorRow.estimator_type e
  = (if (i <? NUM_CONSULTANTS)%nat then "consultant" else "freelance_expert")
  /\ (if (i <? NUM_CONSULTANTS)%nat
      then 8 <= EstimatorRow.years_experience e <= 35
           /\ (125 <= EstimatorRow.hourly_rate e
               /\ EstimatorRow.hourly_rate e <= 350)%Q
           /\ (5000 <= EstimatorRow.minimum_project_fee e
               /\ EstimatorRow.minimum_project_fee e <= 25000)%Q
      else 3 <= EstimatorRow.years_experience e <= 25
           /\ (75 <= EstimatorRow.hourly_rate e
               /\ EstimatorRow.hourly_rate e <= 200)%Q
           /\ (2000 <= EstimatorRow.minimum_project_fee e
               /\ EstimatorRow.minimum_project_fee e <= 10000)%Q)
  /\ In (EstimatorRow.city e, EstimatorRow.state e) MAJOR_CITIES
  /\ date START_DATE <= EstimatorRow.registration_date e
       <= date (END_DATE - timedelta_days 90)
  /\ (24 <= EstimatorRow.average_turnaround_hours e
      /\ EstimatorRow.average_turnaround_hours e <= 120)%Q
  /\ (1 <= EstimatorRow.average_response_hours e
      /\ EstimatorRow.average_response_hours e <= 24)%Q
  /\ (0 <= EstimatorRow.estimate_accuracy_rate e
      /\ EstimatorRow.estimate_accuracy_rate e <= 100)%Q
  /\ (1 <= EstimatorRow.client_satisfaction_score e
      /\ EstimatorRow.client_satisfaction_score e <= 5)%Q
  /\ EstimatorRow.remote_available e = 1
  /\ In (EstimatorRow.willing_to_travel e) [0; 1]
  /\ In (EstimatorRow.background_check e) [0; 1]
  /\ In (EstimatorRow.insurance_verified e) [0; 1]
  /\ In (EstimatorRow.education_level e)
        ["bachelors"; "masters"; "professional"]
  /\ In (EstimatorRow.verification_status e) ["verified"; "pending"]
  /\ In (EstimatorRow.diversity_classification e) DIVERSITY_CLASSIFICATIONS
  /\ (exists login_days active_hours,
        0 <= login_days <= 14 /\ 1 <= active_hours <= 168
        /\ EstimatorRow.last_login e
           = clock w 0%nat - login_days * MICROSECONDS_PER_DAY
        /\ EstimatorRow.last_active e
           = clock w 1%nat - active_hours * MICROSECONDS_PER_HOUR)
  /\ clock w' = tl_tape (tl_tape (clock w)).
Proof.
  unfold generate_estimator. intros H.
  lift_step H cs g1 Hcs. destruct cs as [city state].
  lift_step H reg g2 Hreg.
  lift_step H first_name g3 Hfirst.
  lift_step H last_name g4 Hlast.
  run_step H triple w5 Htriple. destruct triple as [[years hourly] fee].
  assert (Hpay : clock w5 = clock w /\
            if (i <? NUM_CONSULTANTS)%nat
            then 8 <= years <= 35
                 /\ (125 <= hourly /\ hourly <= 350)%Q
                 /\ (5000 <= fee /\ fee <= 25000)%Q
            else 3 <= years <= 25
                 /\ (75 <= hourly /\ hourly <= 200)%Q
                 /\ (2000 <= fee /\ fee <= 10000)%Q).
  { destruct (i <? NUM_CONSULTANTS)%nat; simpl in Htriple;
      lift_step Htriple y ga Hy; lift_step Htriple h gb Hh;
      lift_step Htriple f gc Hf;
      apply run_ret_Some in Htriple; injection Htriple as -> -> -> ->;
      (split; [reflexivity|]);
      (split; [eapply random_randint_spec; exact Hy|]);
      (split; eapply rounded_uniform_spec;
         [| | |eassumption| | | |eassumption]);
      first [cents | vm_compute; discriminate]. }
  destruct Hpay as [Hclock Hpay].
  lift_step H eid g6 Heid.
  lift_step H headline g7 Hheadline.
  lift_step H bio g8 Hbio.
  lift_step H zip g9 Hzip.
  lift_step H willing g10 Hwilling.
  lift_step H education g11 Heducation.
  lift_step H verification g12 Hverification.
  lift_step H background g13 Hbackground.
  lift_step H insurance g14 Hinsurance.
  lift_step H email g15 Hemail.
  lift_step H phone g16 Hphone.
  lift_step H turnaround g17 Hturnaround.
  lift_step H response g18 Hresponse.
  lift_step H accuracy g19 Haccuracy.
  lift_step H satisfaction g20 Hsatisfaction.
  lift_step H diversity g21 Hdiversity.
  run_step H now1 w22 Hnow1.
  lift_step H login g23 Hlogin.
  run_step H now2 w24 Hnow2.
  lift_step H active g25 Hactive.
  apply run_ret_Some in H. injection H as -> ->.
  unfold datetime_now in Hnow1. injection Hnow1 as <- <-.
  unfold datetime_now in Hnow2. injection Hnow2 as <- <-.
  cbn [EstimatorRow.estimator_type EstimatorRow.years_experience
       EstimatorRow.hourly_rate EstimatorRow.minimum_project_fee
       EstimatorRow.city EstimatorRow.state EstimatorRow.registration_date
       EstimatorRow.average_turnaround_hours
       EstimatorRow.average_response_hours
       EstimatorRow.estimate_accuracy_rate
       EstimatorRow.client_satisfaction_score
       EstimatorRow.remote_available EstimatorRow.willing_to_travel
       EstimatorRow.background_check EstimatorRow.insurance_verified
       EstimatorRow.education_level EstimatorRow.verification_status
       EstimatorRow.diversity_classification EstimatorRow.last_login
       EstimatorRow.last_active clock gens].
  rewrite Hclock.
  split; [reflexivity|]. split; [exact Hpay|].
  split; [eapply random_choice_spec; exact Hcs|].
  split; [eapply fake_date_between_spec; exact Hreg|].
  split; [eapply rounded_uniform_spec; [| | |exact Hturnaround];
          first [cents | vm_compute; discriminate]|].
  split; [eapply rounded_uniform_spec; [| | |exact Hresponse];
          first [cents | vm_compute; discriminate]|].
  split; [apply np_random_beta_spec in Haccuracy;
          destruct Haccuracy as [Ha Hb];
          apply round2_between; [cents|cents|lra|lra]|].
  split; [apply np_random_beta_spec in Hsatisfaction;
          destruct Hsatisfaction as [Ha Hb];
          apply round2_between; [cents|cents|lra|lra]|].
  split; [reflexivity|].
  split; [eapply random_choice_spec; exact Hwilling|].
  split; [eapply random_choice_spec; exact Hbackground|].
  split; [eapply random_choice_spec; exact Hinsurance|].
  split; [eapply random_choice_spec; exact Heducation|].
  split; [eapply random_choices_spec; exact Hverification|].
  split; [eapply random_choice_spec; exact Hdiversity|].
  split; [|reflexivity].
  exists login, active.
  split; [eapply random_randint_spec; exact Hlogin|].
  split; [eapply random_randint_spec; exact Hactive|].
  split; reflexivity.
Qed.

(** Discharge one bind of a clock-reading computation whose head cannot
    raise. *)
Ltac run_total_step :=
  apply run_bind_total;
  [ first [ apply datetime_now_total
          | apply lift_total;
            first [ apply random_random_total
                  | apply uuid4_total
                  | apply fake_word_total
                  | apply np_random_beta_total
                  | apply np_random_lognormal_total
                  | apply random_uniform_total
                  | apply random_randint_total; lia
                  | apply random_choice_total; discriminate
                  | apply random_choices_total; discriminate
                  | apply fake_date_between_total; vm_compute;
                    discriminate ] ]
  | intros ? ? ].

Lemma generate_estimator_total i w :
  exists r, generate_estimator i w = Some r.
Proof.
  unfold generate_estimator.
  apply run_bind_total;
    [apply lift_total, random_choice_total; discriminate
    |intros [city state] w1].
  do 3 run_total_step.
  apply run_bind_total.
  { destruct (i <? NUM_CONSULTANTS)%nat; simpl;
      do 3 run_total_step; apply run_ret_total. }
  intros [[years hourly] fee] w5.
  do 20 run_total_step. apply run_ret_total.
Qed.

Lemma nth_error_seq_eq (start len i x : nat) :
  nth_error (seq start len) i = Some x -> x = (start + i)%nat.
Proof.
  intros H. pose proof (nth_error_lt _ _ _ H) as Hlt.
  rewrite length_seq in Hlt.
  apply (nth_error_nth _ _ O) in H. rewrite seq_nth in H by exact Hlt.
  symmetry. exact H.
Qed.

Lemma generate_estimators_total w :
  exists rows w',
    generate_estimators w = Some (rows, w')
    /\ List.length rows = 350%nat.
Proof.
  unfold generate_estimators.
  destruct (run_for_each_total generate_estimator
              (seq 0 (NUM_CONSULTANTS + NUM_FREELANCERS))
              (fun i wi _ => generate_estimator_total i wi) w)
    as [[rows w'] Hrun].
  exists rows, w'. split; [exact Hrun|].
  apply run_for_each_length in Hrun. rewrite length_seq in Hrun. exact Hrun.
Qed.

Lemma generate_estimators_nth w rows w' i e :
  generate_estimators w = Some (rows, w') ->
  nth_error rows i = Some e ->
  exists wi wi', generate_estimator i wi = Some (e, wi').
Proof.
  unfold generate_estimators. intros Hrun He.
  destruct (run_for_each_nth _ _ _ _ _ Hrun i e He)
    as (x & wi & wi' & Hx & Hbody).
  apply nth_error_seq_eq in Hx. simpl in Hx. subst x.
  exists wi, wi'. exact Hbody.
Qed.

(** X23.  Every estimator row has its city and state from MAJOR_CITIES,
    a registration date between START_DATE and 90 days before END_DATE,
    an accuracy rate between 0 and 100, a satisfaction score between 1
    and 5, a turnaround of 24 to 120 hours and a response time of 1 to 24
    hours; [remote_available] is always 1 and the three other flags are 0
    or 1. *)
Theorem generate_estimators_scores w :
  exists rows w',
    generate_estimators w = Some (rows, w')
    /\ forall e, In e rows ->
         In (EstimatorRow.city e, EstimatorRow.state e) MAJOR_CITIES
         /\ date START_DATE <= EstimatorRow.registration_date e
              <= date END_DATE - 90
         /\ (0 <= EstimatorRow.estimate_accuracy_rate e
             /\ EstimatorRow.estimate_accuracy_rate e <= 100)%Q
         /\ (1 <= EstimatorRow.client_satisfaction_score e
             /\ EstimatorRow.client_satisfaction_score e <= 5)%Q
         /\ (24 <= EstimatorRow.average_turnaround_hours e
             /\ EstimatorRow.average_turnaround_hours e <= 120)%Q
         /\ (1 <= EstimatorRow.average_response_hours e
             /\ EstimatorRow.average_response_hours e <= 24)%Q
         /\ EstimatorRow.remote_available e = 1
         /\ In (EstimatorRow.willing_to_travel e) [0; 1]
         /\ In (EstimatorRow.background_check e) [0; 1]
         /\ In (EstimatorRow.insurance_verified e) [0; 1].
Proof.
  destruct (generate_estimators_total w) as (rows & w' & Hrun & _).
  exists rows, w'. split; [exact Hrun|].
  intros e He. apply In_nth_error in He. destruct He as [i He].
  destruct (generate_estimators_nth _ _ _ _ _ Hrun He) as (wi & wi' & Hbody).
  destruct (generate_estimator_spec _ _ _ _ Hbody)
    as (_ & _ & Hcity & Hreg & Hturn & Hresp & Hacc & Hsat & Hremote
        & Hwilling & Hbackground & Hinsurance & _).
  split; [exact Hcity|].
  split; [change (date (END_DATE - timedelta_days 90))
            with (date END_DATE - 90) in Hreg; exact Hreg|].
  split; [exact Hacc|]. split; [exact Hsat|]. split; [exact Hturn|].
  split; [exact Hresp|]. split; [exact Hremote|]. split; [exact Hwilling|].
  split; [exact Hbackground|exact Hinsurance].
Qed.

(** One row of the businesses table. *)
Lemma generate_business_spec w b w' :
  generate_business w = Some (b, w') ->
  In (BusinessRow.city b, BusinessRow.state b) MAJOR_CITIES
  /\ date START_DATE <= BusinessRow.registration_date b
       <= date (END_DATE - timedelta_days 180)
  /\ In (BusinessRow.industry_sector b) INDUSTRY_SECTORS
  /\ In (BusinessRow.business_type b) BUSINESS_TYPES
  /\ In (BusinessRow.company_size b) COMPANY_SIZES
  /\ (0 <= BusinessRow.annual_revenue b)%Q
  /\ 1 <= BusinessRow.years_in_business b <= 50
  /\ In (BusinessRow.verification_status b) ["verified"; "pending"]
  /\ In (BusinessRow.subscription_tier b)
        ["basic"; "professional"; "enterprise"]
  /\ (1 <= BusinessRow.reputation_score b
      /\ BusinessRow.reputation_score b <= 5)%Q
  /\ (exists login_days, 0 <= login_days <= 30
        /\ BusinessRow.last_login b
           = clock w 0%nat - login_days * MICROSECONDS_PER_DAY)
  /\ clock w' = tl_tape (clock w).
Proof.
  unfold generate_business. intros H.
  lift_step H cs g1 Hcs. destruct cs as [city state].
  lift_step H reg g2 Hreg.
  lift_step H bid g3 Hbid.
  lift_step H company g4 Hcompany.
  lift_step H sector g5 Hsector.
  lift_step H btype g6 Hbtype.
  lift_step H street g7 Hstreet.
  lift_step H zip g8 Hzip.
  lift_step H size g9 Hsize.
  lift_step H revenue g10 Hrevenue.
  lift_step H years g11 Hyears.
  lift_step H verification g12 Hverification.
  lift_step H tier g13 Htier.
  lift_step H contact g14 Hcontact.
  lift_step H email g15 Hemail.
  lift_step H phone g16 Hphone.
  lift_step H reputation g17 Hreputation.
  run_step H now w18 Hnow.
  lift_step H login g19 Hlogin.
  apply run_ret_Some in H. injection H as -> ->.
  unfold datetime_now in Hnow. injection Hnow as <- <-.
  cbn [BusinessRow.city BusinessRow.state BusinessRow.registration_date
       BusinessRow.industry_sector BusinessRow.business_type
       BusinessRow.company_size BusinessRow.annual_revenue
       BusinessRow.years_in_business BusinessRow.verification_status
       BusinessRow.subscription_tier BusinessRow.reputation_score
       BusinessRow.last_login clock gens].
  split; [eapply random_choice_spec; exact Hcs|].
  split; [eapply fake_date_between_spec; exact Hreg|].
  split; [eapply random_choice_spec; exact Hsector|].
  split; [eapply random_choice_spec; exact Hbtype|].
  split; [eapply random_choice_spec; exact Hsize|].
  split; [apply round2_nonneg; apply np_random_lognormal_spec in Hrevenue;
          apply Qlt_le_weak; exact Hrevenue|].
  split; [eapply random_randint_spec; exact Hyears|].
  split; [eapply random_choices_spec; exact Hverification|].
  split; [eapply random_choices_spec; exact Htier|].
  split; [apply np_random_beta_spec in Hreputation;
          destruct Hreputation as [Ha Hb];
          apply round2_between; [cents|cents|lra|lra]|].
  split; [|reflexivity].
  exists login. split; [eapply random_randint_spec; exact Hlogin|].
  reflexivity.
Qed.

Lemma generate_business_total w : exists r, generate_business w = Some r.
Proof.
  unfold generate_business.
  apply run_bind_total;
    [apply lift_total, random_choice_total; discriminate
    |intros [city state] w1].
  do 18 run_total_step. apply run_ret_total.
Qed.

Lemma generate_businesses_total w :
  exists rows w',
    generate_businesses w = Some (rows, w')
    /\ List.length rows = 150%nat.
Proof.
  unfold generate_businesses.
  destruct (run_for_each_total (fun _ : nat => generate_business)
              (seq 0 NUM_BUSINESSES)
              (fun _ wi _ => generate_business_total wi) w)
    as [[rows w'] Hrun].
  exists rows, w'. split; [exact Hrun|].
  apply run_for_each_length in Hrun. rewrite length_seq in Hrun. exact Hrun.
Qed.

(* ================================================================== *)
(** ** Links of the estimates table *)

(** The two foreign keys and the row count of the estimates table, for
    any run that returns. *)
Lemma generate_estimates_links projects estimators g rows g' :
  estimators <> [] ->
  generate_estimates projects estimators g = Some (rows, g') ->
  (List.length projects <= List.length rows
   <= 5 * List.length projects)%nat
  /\ forall e, In e rows ->
       (exists project, In project projects
          /\ Estimate.project_id e = Project.project_id project)
       /\ (exists estimator, In estimator estimators
             /\ Estimate.estimator_id e
                = Estimator.estimator_id estimator).
Proof.
  intros Hne Hrun.
  pose proof Hrun as Hrun'.
  unfold generate_estimates in Hrun'.
  apply bind_Some in Hrun'. destruct Hrun' as (per & g1 & Hper & Hret).
  apply ret_Some in Hret. injection Hret as -> _.
  split.
  - pose proof (for_each_Forall2 _ _ _ _ _ Hper) as HF.
    pose proof (concat_length_bounds _ projects per 1 5 HF) as Hb.
    cbv beta in Hb.
    assert (Hc : (1 * List.length projects
                  <= List.length (List.concat per)
                  <= 5 * List.length projects)%nat).
    { apply Hb. intros p ys (gi & gi' & Hbody).
      eapply project_estimates_count; eassumption. }
    lia.
  - intros e He. split.
    + destruct (generate_estimates_rows _ _ _ _ _ Hrun e He)
        as (p & Hp & Hid & _).
      exists p. split; assumption.
    + apply in_concat in He. destruct He as (ys & Hys & He).
      destruct (for_each_In _ _ _ _ _ _ Hper Hys)
        as (p & gi & gi' & _ & Hbody).
      destruct (project_estimates_count _ _ _ _ _ Hne Hbody) as [_ Hest].
      apply Hest. exact He.
Qed.

Lemma map_nonempty {A B : Type} (f : A -> B) (l : list A) (n : nat) :
  List.length l = S n -> map f l <> [].
Proof. destruct l; [discriminate|]. intros _. discriminate. Qed.


Lemma existsb_eqb_In (k : N) (l : list N) :
  existsb (N.eqb k) l = true <-> In k l.
Proof.
  rewrite existsb_exists. split.
  - intros (x & Hx & Heq). apply N.eqb_eq in Heq. subst x. exact Hx.
  - intros H. exists k. split; [exact H|apply N.eqb_refl].
Qed.

Lemma distinct_NoDup (keys : list N) :
  distinct keys = true <-> NoDup keys.
Proof.
  induction keys as [|k rest IH]; simpl.
  - split; [intros _; constructor|reflexivity].
  - rewrite andb_true_iff, negb_true_iff, IH. split.
    + intros [Hk Hrest]. constructor; [|exact Hrest].
      intros Hin. apply existsb_eqb_In in Hin. congruence.
    + intros H. inversion H as [|k' rest' Hk Hrest]; subst.
      split; [|exact Hrest].
      destruct (existsb (N.eqb k) rest) eqn:E; [|reflexivity].
      apply existsb_eqb_In in E. contradiction.
Qed.

(** A value that occurs at two places makes the INSERT fail. *)
Lemma distinct_repeated (keys : list N) (i j : nat) (k : N) :
  i <> j -> nth_error keys i = Some k -> nth_error keys j = Some k ->
  distinct keys = false.
Proof.
  intros Hij Hi Hj.
  destruct (distinct keys) eqn:E; [|reflexivity].
  apply distinct_NoDup in E. exfalso. apply Hij.
  rewrite NoDup_nth_error in E. apply E.
  - apply nth_error_Some. rewrite Hi. discriminate.
  - rewrite Hi, Hj. reflexivity.
Qed.

(* ================================================================== *)
(** ** What each draw does to the uuid source and to Faker *)

Lemma quiet_refl g : quiet g g.
Proof. split; reflexivity. Qed.

Lemma quiet_trans g1 g2 g3 : quiet g1 g2 -> quiet g2 g3 -> quiet g1 g3.
Proof. intros [H1 H2] [H3 H4]. split; congruence. Qed.

Lemma getrandword_quiet g x g' :
  getrandword g = Some (x, g') -> quiet g g'.
Proof.
  unfold getrandword. intros H. injection H as _ <-. split; reflexivity.
Qed.

Lemma random_random_quiet g x g' :
  random_random g = Some (x, g') -> quiet g g'.
Proof.
  unfold random_random. intros H. gen_step H.
  apply ret_Some in H. injection H as _ ->.
  eapply getrandword_quiet. eassumption.
Qed.

Lemma randbelow_quiet n g x g' :
  randbelow n g = Some (x, g') -> quiet g g'.
Proof.
  unfold randbelow. intros H. gen_step H.
  apply ret_Some in H. injection H as _ ->.
  eapply getrandword_quiet. eassumption.
Qed.

Lemma random_randint_quiet a b g x g' :
  random_randint a b g = Some (x, g') -> quiet g g'.
Proof.
  unfold random_randint. destruct (b <? a); [discriminate|].
  intros H. gen_step H. apply ret_Some in H. injection H as _ ->.
  eapply randbelow_quiet. eassumption.
Qed.

Lemma random_uniform_quiet a b g x g' :
  random_uniform a b g = Some (x, g') -> quiet g g'.
Proof.
  unfold random_uniform. intros H. gen_step H.
  apply ret_Some in H. injection H as _ ->.
  eapply random_random_quiet. eassumption.
Qed.

Lemma random_choice_quiet {A : Type} (xs : list A) g x g' :
  random_choice xs g = Some (x, g') -> quiet g g'.
Proof.
  unfold random_choice. destruct xs as [|x0 rest]; [discriminate|].
  intros H. gen_step H.
  destruct (nth_error (x0 :: rest) (Z.to_nat v)); [|discriminate H].
  apply ret_Some in H. injection H as _ ->.
  eapply randbelow_quiet. eassumption.
Qed.

Lemma random_choices_quiet {A : Type} (population : list A) ws g x g' :
  random_choices population ws g = Some (x, g') -> quiet g g'.
Proof.
  unfold random_choices.
  destruct (rev (accumulate 0%Q ws)) as [|total rest]; [discriminate|].
  intros H. gen_step H.
  destruct (nth_error population _); [|discriminate H].
  apply ret_Some in H. injection H as _ ->.
  eapply random_random_quiet. eassumption.
Qed.

Lemma sample_loop_quiet {A : Type} (k : nat) :
  forall (pool : list A) n g l g',
    sample_loop pool n k g = Some (l, g') -> quiet g g'.
Proof.
  induction k as [|k IH]; intros pool n g l g' H; simpl in H.
  - apply ret_Some in H. injection H as _ ->. apply quiet_refl.
  - gen_step H.
    destruct (nth_error pool (Z.to_nat v)); [|discriminate H].
    destruct (nth_error pool (n - 1)); [|discriminate H].
    gen_step H. apply ret_Some in H. injection H as _ ->.
    eapply quiet_trans; [eapply randbelow_quiet; eassumption|].
    eapply IH. eassumption.
Qed.

Lemma random_sample_quiet {A : Type} (population : list A) k g l g' :
  random_sample population k g = Some (l, g') -> quiet g g'.
Proof.
  unfold random_sample.
  destruct ((k <? 0) || (Z.of_nat (List.length population) <? k));
    [discriminate|].
  apply sample_loop_quiet.
Qed.

Lemma np_random_lognormal_quiet mean sigma g x g' :
  np_random_lognormal mean sigma g = Some (x, g') -> quiet g g'.
Proof.
  unfold np_random_lognormal. destruct (np_random g 0%nat).
  intros H. injection H as _ <-. split; reflexivity.
Qed.

Lemma np_random_beta_quiet a b g x g' :
  np_random_beta a b g = Some (x, g') -> quiet g g'.
Proof.
  unfold np_random_beta. destruct (np_random g 0%nat).
  intros H. injection H as _ <-. split; reflexivity.
Qed.

Lemma list_index_quiet {A : Type} (xs : list A) i g x g' :
  list_index xs i g = Some (x, g') -> quiet g g'.
Proof.
  unfold list_index.
  destruct ((i <? - Z.of_nat (List.length xs))
            || (Z.of_nat (List.length xs) <=? i)); [discriminate|].
  destruct (nth_error xs _); [|discriminate].
  intros H. apply ret_Some in H. injection H as _ ->. apply quiet_refl.
Qed.

Lemma dict_getitem_quiet {V : Type} (d : dict V) k g v g' :
  dict_getitem d k g = Some (v, g') -> quiet g g'.
Proof.
  intros H. apply dict_getitem_spec in H. destruct H as [_ ->].
  apply quiet_refl.
Qed.

Lemma next_business_quiet businesses business_id g b g' :
  next_business businesses business_id g = Some (b, g') -> quiet g g'.
Proof.
  intros H. apply next_business_spec in H. destruct H as (_ & _ & ->).
  apply quiet_refl.
Qed.

Lemma project_status_quiet d g s g' :
  project_status d g = Some (s, g') -> quiet g g'.
Proof.
  unfold project_status.
  destruct (300 <? d); [|destruct (150 <? d); [|destruct (60 <? d)]];
    apply random_choices_quiet.
Qed.

Lemma fake_word_frame g x g' :
  fake_word g = Some (x, g') ->
  x = faker g 0%nat /\ faker g' = tl_tape (faker g)
  /\ os_urandom g' = os_urandom g.
Proof.
  unfold fake_word. intros H. injection H as <- <-.
  split; [reflexivity|]. split; reflexivity.
Qed.

Lemma fake_date_between_frame a b g x g' :
  fake_date_between a b g = Some (x, g') ->
  faker g' = tl_tape (faker g) /\ os_urandom g' = os_urandom g.
Proof.
  unfold fake_date_between. destruct (date b <? date a); [discriminate|].
  intros H. gen_step H. apply ret_Some in H. injection H as _ ->.
  apply fake_word_frame in Hdraw. tauto.
Qed.

Lemma fake_date_time_between_frame a b g x g' :
  fake_date_time_between a b g = Some (x, g') ->
  faker g' = tl_tape (faker g) /\ os_urandom g' = os_urandom g.
Proof.
  unfold fake_date_time_between. destruct (b <? a); [discriminate|].
  intros H. gen_step H. apply ret_Some in H. injection H as _ ->.
  apply fake_word_frame in Hdraw. tauto.
Qed.

Lemma uuid4_frame g x g' :
  uuid4 g = Some (x, g') ->
  x = (os_urandom g 0%nat mod 2 ^ 128)%N
  /\ os_urandom g' = tl_tape (os_urandom g)
  /\ faker g' = faker g.
Proof.
  unfold uuid4. intros H. injection H as <- <-.
  split; [reflexivity|]. split; reflexivity.
Qed.

Ltac frame_hyp H :=
  first
    [ apply uuid4_frame in H
    | apply fake_date_between_frame in H
    | apply fake_date_time_between_frame in H
    | apply fake_word_frame in H
    | apply random_random_quiet in H
    | apply random_randint_quiet in H
    | apply random_uniform_quiet in H
    | apply random_choice_quiet in H
    | apply random_choices_quiet in H
    | apply random_sample_quiet in H
    | apply np_random_lognormal_quiet in H
    | apply np_random_beta_quiet in H
    | apply list_index_quiet in H
    | apply dict_getitem_quiet in H
    | apply next_business_quiet in H
    | apply project_status_quiet in H ].

(** Turn every recorded draw into what it did to the two tapes. *)
Ltac frames :=
  repeat match goal with
         | H : _ = Some (_, _) |- _ => frame_hyp H; unfold quiet in H
         end;
  repeat match goal with
         | H : _ /\ _ |- _ => destruct H
         end.

Lemma shifted_of_eq (k : nat) (t t' : Tape) :
  t' = Nat.iter k tl_tape t -> shifted k t t'.
Proof.
  intros -> n. revert t. induction k as [|k IH]; intros t; [reflexivity|].
  rewrite Nat.iter_succ_r, IH. reflexivity.
Qed.

Lemma shifted_trans (a b : nat) (t t1 t2 : Tape) :
  shifted a t t1 -> shifted b t1 t2 -> shifted (a + b) t t2.
Proof.
  intros H1 H2 n. rewrite H2, H1. f_equal. lia.
Qed.

(** The keys of one business row: its uuid is the next word of entropy,
    its e-mail the sixth of the seven Faker draws it takes. *)
Lemma generate_business_keys w b w' :
  generate_business w = Some (b, w') ->
  BusinessRow.business_id b = (os_urandom (gens w) 0%nat mod 2 ^ 128)%N
  /\ os_urandom (gens w') = tl_tape (os_urandom (gens w))
  /\ BusinessRow.email b = faker (gens w) 5%nat
  /\ shifted 7 (faker (gens w)) (faker (gens w')).
Proof.
  unfold generate_business. intros H.
  lift_step H cs g1 Hcs. destruct cs as [city state].
  lift_step H reg g2 Hreg.
  lift_step H bid g3 Hbid.
  lift_step H company g4 Hcompany.
  lift_step H sector g5 Hsector.
  lift_step H btype g6 Hbtype.
  lift_step H street g7 Hstreet.
  lift_step H zip g8 Hzip.
  lift_step H size g9 Hsize.
  lift_step H revenue g10 Hrevenue.
  lift_step H years g11 Hyears.
  lift_step H verification g12 Hverification.
  lift_step H tier g13 Htier.
  lift_step H contact g14 Hcontact.
  lift_step H email g15 Hemail.
  lift_step H phone g16 Hphone.
  lift_step H reputation g17 Hreputation.
  run_step H now w18 Hnow.
  lift_step H login g19 Hlogin.
  apply run_ret_Some in H. injection H as -> ->.
  unfold datetime_now in Hnow. injection Hnow as _ <-.
  cbn [gens clock] in *.
  cbn [BusinessRow.business_id BusinessRow.email gens].
  frames.
  split; [congruence|]. split; [congruence|].
  split.
  - assert (E : faker g14
                = Nat.iter 5 tl_tape (faker (gens w))) by
      (cbn [Nat.iter nat_rect]; congruence).
    subst email. rewrite E. reflexivity.
  - apply shifted_of_eq. cbn [Nat.iter nat_rect]. congruence.
Qed.

(** The keys of one estimator row. *)
Lemma generate_estimator_keys i w e w' :
  generate_estimator i w = Some (e, w') ->
  EstimatorRow.estimator_id e = (os_urandom (gens w) 0%nat mod 2 ^ 128)%N
  /\ os_urandom (gens w') = tl_tape (os_urandom (gens w))
  /\ EstimatorRow.email e = faker (gens w) 5%nat
  /\ shifted 7 (faker (gens w)) (faker (gens w')).
Proof.
  unfold generate_estimator. intros H.
  lift_step H cs g1 Hcs. destruct cs as [city state].
  lift_step H reg g2 Hreg.
  lift_step H first_name g3 Hfirst.
  lift_step H last_name g4 Hlast.
  run_step H triple w5 Htriple. destruct triple as [[years hourly] fee].
  assert (Hpay : quiet g4 (gens w5)).
  { destruct (i <? NUM_CONSULTANTS)%nat; simpl in Htriple;
      lift_step Htriple y ga Hy; lift_step Htriple h gb Hh;
      lift_step Htriple f gc Hf;
      apply run_ret_Some in Htriple; injection Htriple as _ _ _ ->;
      cbn [gens] in *; frames; split; congruence. }
  clear Htriple. destruct Hpay as [Hpay1 Hpay2].
  lift_step H eid g6 Heid.
  lift_step H headline g7 Hheadline.
  lift_step H bio g8 Hbio.
  lift_step H zip g9 Hzip.
  lift_step H willing g10 Hwilling.
  lift_step H education g11 Heducation.
  lift_step H verification g12 Hverification.
  lift_step H background g13 Hbackground.
  lift_step H insurance g14 Hinsurance.
  lift_step H email g15 Hemail.
  lift_step H phone g16 Hphone.
  lift_step H turnaround g17 Hturnaround.
  lift_step H response g18 Hresponse.
  lift_step H accuracy g19 Haccuracy.
  lift_step H satisfaction g20 Hsatisfaction.
  lift_step H diversity g21 Hdiversity.
  run_step H now1 w22 Hnow1.
  lift_step H login g23 Hlogin.
  run_step H now2 w24 Hnow2.
  lift_step H active g25 Hactive.
  apply run_ret_Some in H. injection H as -> ->.
  unfold datetime_now in Hnow1. injection Hnow1 as _ <-.
  unfold datetime_now in Hnow2. injection Hnow2 as _ <-.
  cbn [gens clock] in *.
  cbn [EstimatorRow.estimator_id EstimatorRow.email gens].
  frames.
  split; [congruence|]. split; [congruence|].
  split.
  - assert (E : faker g14
                = Nat.iter 5 tl_tape (faker (gens w))) by
      (cbn [Nat.iter nat_rect]; congruence).
    subst email. rewrite E. reflexivity.
  - apply shifted_of_eq. cbn [Nat.iter nat_rect]. congruence.
Qed.

(** The key of one expertise row. *)
Lemma generate_expertise_row_keys estimator w row w' :
  generate_expertise_row estimator w = Some (row, w') ->
  Expertise.expertise_id row = (os_urandom (gens w) 0%nat mod 2 ^ 128)%N
  /\ os_urandom (gens w') = tl_tape (os_urandom (gens w)).
Proof.
  unfold generate_expertise_row. intros H.
  lift_step H coin g1 Hcoin.
  run_step H cert w2 Hcert.
  assert (Hc : os_urandom (gens w2) = os_urandom g1).
  { destruct (Qlt_bool 0.5 coin).
    - lift_step Hcert c g2 Hc. apply run_ret_Some in Hcert.
      injection Hcert as _ ->. cbn [gens] in *. frames. congruence.
    - apply run_ret_Some in Hcert. injection Hcert as _ ->. reflexivity. }
  clear Hcert.
  lift_step H eid g3 Heid.
  lift_step H spec g4 Hspec.
  lift_step H ntypes g5 Hntypes.
  lift_step H types g6 Htypes.
  run_step H issue w7 Hissue.
  assert (Hi : os_urandom (gens w7) = os_urandom g6).
  { destruct cert.
    - run_step Hissue now wa Hnow. lift_step Hissue d ga Hd.
      apply run_ret_Some in Hissue. injection Hissue as _ ->.
      unfold datetime_now in Hnow. injection Hnow as _ <-.
      cbn [gens] in *. frames. congruence.
    - apply run_ret_Some in Hissue. injection Hissue as _ ->. reflexivity. }
  clear Hissue.
  run_step H expiry w8 Hexpiry.
  assert (He : os_urandom (gens w8) = os_urandom (gens w7)).
  { destruct cert.
    - run_step Hexpiry now wa Hnow. lift_step Hexpiry d ga Hd.
      apply run_ret_Some in Hexpiry. injection Hexpiry as _ ->.
      unfold datetime_now in Hnow. injection Hnow as _ <-.
      cbn [gens] in *. frames. congruence.
    - apply run_ret_Some in Hexpiry. injection Hexpiry as _ ->.
      reflexivity. }
  clear Hexpiry.
  lift_step H nsoft g9 Hnsoft.
  lift_step H soft g10 Hsoft.
  lift_step H years g11 Hyears.
  apply run_ret_Some in H. injection H as -> ->.
  cbn [gens clock] in *. cbn [Expertise.expertise_id gens].
  frames. split; congruence.
Qed.

(** The key of one project row. *)
Lemma generate_project_keys businesses g p g' :
  generate_project businesses g = Some (p, g') ->
  Project.project_id p = (os_urandom g 0%nat mod 2 ^ 128)%N
  /\ os_urandom g' = tl_tape (os_urandom g).
Proof.
  unfold generate_project. intros H.
  apply bind_Some in H. destruct H as (business & g1 & Hbus & H).
  apply bind_Some in H. destruct H as ([city state] & g2 & Hcity & H).
  apply bind_Some in H. destruct H as (posted & g3 & Hposted & H).
  apply bind_Some in H. destruct H as (sector & g4 & Hsector & H).
  apply bind_Some in H. destruct H as (subtypes & g5 & Hsubtypes & H).
  apply bind_Some in H. destruct H as (subtype & g6 & Hsubtype & H).
  apply bind_Some in H. destruct H as (b & g7 & Hb & H).
  unfold project_budget in H. cbv beta iota zeta in H.
  apply bind_Some in H. destruct H as (status & g8 & Hstatus & H).
  apply bind_Some in H. destruct H as (pid & g9 & Hpid & H).
  apply bind_Some in H. destruct H as (title & g10 & Htitle & H).
  apply bind_Some in H. destruct H as (descr & g11 & Hdescr & H).
  apply bind_Some in H. destruct H as (ptype & g12 & Hptype & H).
  apply bind_Some in H. destruct H as (zip & g13 & Hzip & H).
  apply bind_Some in H. destruct H as (sqft & g14 & Hsqft & H).
  apply bind_Some in H. destruct H as (needed & g15 & Hneeded & H).
  apply bind_Some in H. destruct H as (urgency & g16 & Hurgency & H).
  apply ret_Some in H. injection H as -> ->.
  cbn [Project.project_id]. frames. split; congruence.
Qed.

(** The key of one estimate row, in either mode. *)
Lemma progressive_estimate_keys project estimator n base_cost posted seq
    g e g' :
  progressive_estimate project estimator n base_cost posted seq g
  = Some (e, g') ->
  Estimate.estimate_id e = (os_urandom g 0%nat mod 2 ^ 128)%N
  /\ os_urandom g' = tl_tape (os_urandom g).
Proof.
  unfold progressive_estimate. intros H. cbv zeta in H.
  apply bind_Some in H. destruct H as (aace & g1 & Haace & H).
  apply bind_Some in H. destruct H as (ci & g2 & Hci & H).
  apply bind_Some in H. destruct H as (variance & g3 & Hvariance & H).
  apply bind_Some in H. destruct H as (step_days & g4 & Hstep & H).
  apply bind_Some in H. destruct H as (jitter & g5 & Hjitter & H).
  apply bind_Some in H. destruct H as (cj & g6 & Hcj & H).
  apply bind_Some in H. destruct H as (f1 & g7 & Hf1 & H).
  apply bind_Some in H. destruct H as (f2 & g8 & Hf2 & H).
  apply bind_Some in H. destruct H as (f3 & g9 & Hf3 & H).
  apply bind_Some in H. destruct H as (f4 & g10 & Hf4 & H).
  apply bind_Some in H. destruct H as (f5 & g11 & Hf5 & H).
  apply bind_Some in H. destruct H as (f6 & g12 & Hf6 & H).
  apply bind_Some in H. destruct H as (eid & g13 & Heid & H).
  apply bind_Some in H. destruct H as (duration & g14 & Hduration & H).
  apply ret_Some in H. injection H as -> ->.
  cbn [Estimate.estimate_id]. frames. split; congruence.
Qed.

Lemma single_estimate_keys project estimator g e g' :
  single_estimate project estimator g = Some (e, g') ->
  Estimate.estimate_id e = (os_urandom g 0%nat mod 2 ^ 128)%N
  /\ os_urandom g' = tl_tape (os_urandom g).
Proof.
  unfold single_estimate. intros H. cbv zeta in H.
  apply bind_Some in H. destruct H as (aace & g1 & Haace & H).
  apply bind_Some in H. destruct H as (ci & g2 & Hci & H).
  apply bind_Some in H. destruct H as (variance & g3 & Hvariance & H).
  apply bind_Some in H. destruct H as (jitter & g5 & Hjitter & H).
  apply bind_Some in H. destruct H as (cj & g6 & Hcj & H).
  apply bind_Some in H. destruct H as (f1 & g7 & Hf1 & H).
  apply bind_Some in H. destruct H as (f2 & g8 & Hf2 & H).
  apply bind_Some in H. destruct H as (f3 & g9 & Hf3 & H).
  apply bind_Some in H. destruct H as (f4 & g10 & Hf4 & H).
  apply bind_Some in H. destruct H as (f5 & g11 & Hf5 & H).
  apply bind_Some in H. destruct H as (f6 & g12 & Hf6 & H).
  apply bind_Some in H. destruct H as (days & g13 & Hdays & H).
  apply bind_Some in H. destruct H as (eid & g14 & Heid & H).
  apply bind_Some in H. destruct H as (duration & g15 & Hduration & H).
  apply bind_Some in H. destruct H as (method & g16 & Hmethod & H).
  apply bind_Some in H. destruct H as (accept & g17 & Haccept & H).
  apply ret_Some in H. injection H as -> ->.
  cbn [Estimate.estimate_id]. frames. split; congruence.
Qed.

(** A pass of the review loop takes one uuid when it writes a row and
    none when it skips. *)
Lemma project_review_keys businesses estimators project g rows g' :
  project_review businesses estimators project g = Some (rows, g') ->
  (rows = [] /\ os_urandom g' = os_urandom g)
  \/ (exists r, rows = [r]
        /\ Review.review_id r = (os_urandom g 0%nat mod 2 ^ 128)%N
        /\ os_urandom g' = tl_tape (os_urandom g)).
Proof.
  unfold project_review. intros H.
  apply bind_Some in H. destruct H as (skip & g1 & Hskip & H).
  destruct (Qlt_bool REVIEW_RATE skip).
  - left. apply ret_Some in H. injection H as -> ->.
    frames. split; [reflexivity|congruence].
  - right.
    apply bind_Some in H. destruct H as (estimator & g2 & Hest & H).
    apply bind_Some in H. destruct H as (business & g3 & Hbus & H).
    apply bind_Some in H. destruct H as (beta & g4 & Hbeta & H).
    apply bind_Some in H. destruct H as (rid & g5 & Hrid & H).
    apply bind_Some in H. destruct H as (u1 & g6 & Hu1 & H).
    apply bind_Some in H. destruct H as (u2 & g7 & Hu2 & H).
    apply bind_Some in H. destruct H as (u3 & g8 & Hu3 & H).
    apply bind_Some in H. destruct H as (u4 & g9 & Hu4 & H).
    apply bind_Some in H. destruct H as (u5 & g10 & Hu5 & H).
    apply bind_Some in H. destruct H as (title & g11 & Htitle & H).
    apply bind_Some in H. destruct H as (text & g12 & Htext & H).
    apply ret_Some in H. injection H as -> ->.
    eexists. split; [reflexivity|].
    cbn [Review.review_id]. frames. split; congruence.
Qed.

(* ================================================================== *)
(** ** Primary keys and e-mails *)

Lemma never_repeats_le (n m : nat) (t : Tape) :
  (m <= n)%nat -> never_repeats n t -> never_repeats m t.
Proof. intros Hle H i j Hi Hj. apply H; lia. Qed.

Lemma fresh_take n ids (t : Tape) :
  fresh_ids (S n) ids t ->
  fresh_ids n ((t 0%nat mod 2 ^ 128)%N :: ids) (tl_tape t).
Proof.
  intros (Hnd & Hinj & Hfresh). split; [|split].
  - constructor; [|exact Hnd]. intros Hin.
    exact (Hfresh _ 0%nat ltac:(lia) Hin eq_refl).
  - intros i j Hi Hj Hij. unfold tl_tape in Hij.
    apply Hinj in Hij; lia.
  - intros id k Hk [<-|Hin]; unfold tl_tape.
    + intros Heq. apply Hinj in Heq; lia.
    + apply Hfresh; [lia|exact Hin].
Qed.

Lemma minted_nil {B : Type} (key : B -> N) (t : Tape) : minted key t [] t.
Proof. intros n ids H. exact H. Qed.

Lemma minted_one {B : Type} (key : B -> N) (t t' : Tape) (y : B) :
  key y = (t 0%nat mod 2 ^ 128)%N -> t' = tl_tape t ->
  minted key t [y] t'.
Proof.
  intros Hkey -> n ids H. simpl. rewrite Hkey. apply fresh_take. exact H.
Qed.

Lemma minted_app {B : Type} (key : B -> N) (t t1 t2 : Tape) (ys zs : list B) :
  minted key t ys t1 -> minted key t1 zs t2 -> minted key t (ys ++ zs) t2.
Proof.
  intros H1 H2 n ids H.
  rewrite map_app, rev_app_distr, <- app_assoc. apply H2, H1.
  rewrite length_app, <- Nat.add_assoc in H. exact H.
Qed.

(** On a source whose next [b] uuids are distinct, at most [m] rows get
    distinct keys and leave a source whose next [b - m] uuids are
    distinct. *)
Lemma minted_distinct {B : Type} (key : B -> N) (t t' : Tape) (ys : list B)
    (b m : nat) :
  never_repeats b t -> minted key t ys t' ->
  (List.length ys <= m)%nat -> (m <= b)%nat ->
  distinct (map key ys) = true /\ never_repeats (b - m) t'.
Proof.
  intros Hinj Hm Hlen Hmb.
  assert (Hfresh : fresh_ids (List.length ys + (b - m)) [] t).
  { split; [constructor|]. split.
    - apply (never_repeats_le b); [lia|exact Hinj].
    - intros id k _ []. }
  destruct (Hm _ _ Hfresh) as (Hnd & Hinj' & _).
  split; [|exact Hinj'].
  apply distinct_NoDup. rewrite app_nil_r in Hnd.
  apply NoDup_rev in Hnd. rewrite rev_involutive in Hnd. exact Hnd.
Qed.

Lemma for_each_minted {A B : Type} (key : B -> N) (f : A -> Gen B) xs :
  (forall x g y g', f x g = Some (y, g') ->
     key y = (os_urandom g 0%nat mod 2 ^ 128)%N
     /\ os_urandom g' = tl_tape (os_urandom g)) ->
  forall g ys g', for_each f xs g = Some (ys, g') ->
  minted key (os_urandom g) ys (os_urandom g').
Proof.
  intros Hf. induction xs as [|x rest IH]; intros g ys g' H; simpl in H.
  - apply ret_Some in H. injection H as -> ->. apply minted_nil.
  - apply bind_Some in H. destruct H as (y & g1 & Hy & H).
    apply bind_Some in H. destruct H as (ys' & g2 & Hys & H).
    apply ret_Some in H. injection H as -> ->.
    destruct (Hf _ _ _ _ Hy) as [Hkey Hos].
    apply (minted_app key _ (os_urandom g1) _ [y] ys').
    + apply minted_one; assumption.
    + apply IH. exact Hys.
Qed.

Lemma for_each_minted_concat {A B : Type} (key : B -> N)
    (f : A -> Gen (list B)) xs :
  (forall x g ys g', f x g = Some (ys, g') ->
     minted key (os_urandom g) ys (os_urandom g')) ->
  forall g yss g', for_each f xs g = Some (yss, g') ->
  minted key (os_urandom g) (List.concat yss) (os_urandom g').
Proof.
  intros Hf. induction xs as [|x rest IH]; intros g yss g' H; simpl in H.
  - apply ret_Some in H. injection H as -> ->. apply minted_nil.
  - apply bind_Some in H. destruct H as (ys & g1 & Hy & H).
    apply bind_Some in H. destruct H as (yss' & g2 & Hys & H).
    apply ret_Some in H. injection H as -> ->.
    simpl. apply (minted_app key _ (os_urandom g1)).
    + eapply Hf. exact Hy.
    + apply IH. exact Hys.
Qed.

Lemma run_for_each_minted {A B : Type} (key : B -> N) (f : A -> Run B) xs :
  (forall x w y w', f x w = Some (y, w') ->
     key y = (os_urandom (gens w) 0%nat mod 2 ^ 128)%N
     /\ os_urandom (gens w') = tl_tape (os_urandom (gens w))) ->
  forall w ys w', run_for_each f xs w = Some (ys, w') ->
  minted key (os_urandom (gens w)) ys (os_urandom (gens w')).
Proof.
  intros Hf. induction xs as [|x rest IH]; intros w ys w' H; simpl in H.
  - apply run_ret_Some in H. injection H as -> ->. apply minted_nil.
  - run_step H y w1 Hy. run_step H ys' w2 Hys.
    apply run_ret_Some in H. injection H as -> ->.
    destruct (Hf _ _ _ _ Hy) as [Hkey Hos].
    apply (minted_app key _ (os_urandom (gens w1)) _ [y] ys').
    + apply minted_one; assumption.
    + apply IH. exact Hys.
Qed.

Lemma run_for_each_minted_concat {A B : Type} (key : B -> N)
    (f : A -> Run (list B)) xs :
  (forall x w ys w', f x w = Some (ys, w') ->
     minted key (os_urandom (gens w)) ys (os_urandom (gens w'))) ->
  forall w yss w', run_for_each f xs w = Some (yss, w') ->
  minted key (os_urandom (gens w)) (List.concat yss) (os_urandom (gens w')).
Proof.
  intros Hf. induction xs as [|x rest IH]; intros w yss w' H; simpl in H.
  - apply run_ret_Some in H. injection H as -> ->. apply minted_nil.
  - run_step H ys w1 Hy. run_step H yss' w2 Hys.
    apply run_ret_Some in H. injection H as -> ->.
    simpl. apply (minted_app key _ (os_urandom (gens w1))).
    + eapply Hf. exact Hy.
    + apply IH. exact Hys.
Qed.

(** The e-mails of the rows of a loop whose every pass takes [step] Faker
    draws, the e-mail being draw number [pos] of the pass. *)
Lemma run_for_each_emails {A B : Type} (email : B -> N) (f : A -> Run B)
    (step pos : nat) xs :
  (forall x w y w', f x w = Some (y, w') ->
     email y = faker (gens w) pos
     /\ shifted step (faker (gens w)) (faker (gens w'))) ->
  forall w ys w', run_for_each f xs w = Some (ys, w') ->
  shifted (step * List.length xs) (faker (gens w)) (faker (gens w'))
  /\ map email ys
     = map (fun i => faker (gens w) (step * i + pos)%nat)
           (seq 0 (List.length xs)).
Proof.
  intros Hf. induction xs as [|x rest IH]; intros w ys w' H; simpl in H.
  - apply run_ret_Some in H. injection H as -> ->. split; [|reflexivity].
    intros n. simpl. rewrite Nat.mul_0_r. reflexivity.
  - run_step H y w1 Hy. run_step H ys' w2 Hys.
    apply run_ret_Some in H. injection H as -> ->.
    destruct (Hf _ _ _ _ Hy) as [Hemail Hshift].
    destruct (IH _ _ _ Hys) as [Hshift' Hemails].
    split.
    + intros n. rewrite Hshift', Hshift. f_equal. simpl List.length. lia.
    + simpl List.length. rewrite <- cons_seq, <- seq_shift.
      simpl map. f_equal.
      * rewrite Hemail. f_equal. lia.
      * rewrite Hemails, map_map. apply map_ext. intros i.
        rewrite Hshift. f_equal. lia.
Qed.

Lemma distinct_map_seq (f : nat -> N) (n : nat) :
  (forall i j, (i < n)%nat -> (j < n)%nat -> f i = f j -> i = j) ->
  distinct (map f (seq 0 n)) = true.
Proof.
  intros Hinj. apply distinct_NoDup.
  apply NoDup_map_NoDup_ForallPairs; [|apply seq_NoDup].
  intros i j Hi Hj. apply in_seq in Hi. apply in_seq in Hj.
  apply Hinj; lia.
Qed.

Lemma generate_businesses_keys w rows w' :
  generate_businesses w = Some (rows, w') ->
  minted BusinessRow.business_id (os_urandom (gens w)) rows
         (os_urandom (gens w'))
  /\ map BusinessRow.email rows
     = map (fun i => faker (gens w) (business_email_draw i))
           (seq 0 NUM_BUSINESSES)
  /\ shifted (7 * NUM_BUSINESSES) (faker (gens w)) (faker (gens w')).
Proof.
  unfold generate_businesses. intros H. split.
  - apply (run_for_each_minted BusinessRow.business_id
             (fun _ : nat => generate_business) (seq 0 NUM_BUSINESSES));
      [|exact H].
    intros _ wa b wb Hb.
    destruct (generate_business_keys _ _ _ Hb) as (Hid & Hos & _).
    split; assumption.
  - destruct (run_for_each_emails BusinessRow.email
                (fun _ : nat => generate_business) 7 5
                (seq 0 NUM_BUSINESSES)) with (w := w) (ys := rows) (w' := w')
      as [Hshift Hemails].
    + intros _ wa b wb Hb.
      destruct (generate_business_keys _ _ _ Hb) as (_ & _ & He & Hs).
      split; assumption.
    + exact H.
    + rewrite length_seq in Hshift, Hemails. split; assumption.
Qed.

Lemma generate_estimators_keys w rows w' :
  generate_estimators w = Some (rows, w') ->
  minted EstimatorRow.estimator_id (os_urandom (gens w)) rows
         (os_urandom (gens w'))
  /\ map EstimatorRow.email rows
     = map (fun i => faker (gens w) (7 * i + 5)%nat)
           (seq 0 (NUM_CONSULTANTS + NUM_FREELANCERS)).
Proof.
  unfold generate_estimators. intros H. split.
  - apply (run_for_each_minted EstimatorRow.estimator_id generate_estimator
             (seq 0 (NUM_CONSULTANTS + NUM_FREELANCERS))); [|exact H].
    intros i wa e wb He.
    destruct (generate_estimator_keys _ _ _ _ He) as (Hid & Hos & _).
    split; assumption.
  - destruct (run_for_each_emails EstimatorRow.email generate_estimator 7 5
                (seq 0 (NUM_CONSULTANTS + NUM_FREELANCERS)))
      with (w := w) (ys := rows) (w' := w') as [_ Hemails].
    + intros i wa e wb He.
      destruct (generate_estimator_keys _ _ _ _ He) as (_ & _ & Hm & Hs).
      split; assumption.
    + exact H.
    + rewrite length_seq in Hemails. exact Hemails.
Qed.

Lemma generate_expertise_minted estimators w rows w' :
  generate_expertise estimators w = Some (rows, w') ->
  minted Expertise.expertise_id (os_urandom (gens w)) rows
         (os_urandom (gens w')).
Proof.
  unfold generate_expertise. intros H.
  run_step H per w1 Hper. apply run_ret_Some in H. injection H as -> ->.
  apply (run_for_each_minted_concat Expertise.expertise_id
           estimator_expertise estimators); [|exact Hper].
  intros est wa ys wb Hys. unfold estimator_expertise in Hys.
  run_step Hys n w2 Hn. apply lift_Some in Hn.
  destruct Hn as (g2 & Hn & ->). apply random_randint_quiet in Hn.
  destruct Hn as [Hos _].
  change (os_urandom g2) with (os_urandom (gens (mkWorld g2 (clock wa))))
    in Hos.
  rewrite <- Hos.
  apply (run_for_each_minted Expertise.expertise_id
           (fun _ : Z => generate_expertise_row est) (range n));
    [|exact Hys].
  intros _ wc row wd Hrow.
  apply (generate_expertise_row_keys est). exact Hrow.
Qed.

Lemma generate_projects_minted businesses g rows g' :
  generate_projects businesses g = Some (rows, g') ->
  minted Project.project_id (os_urandom g) rows (os_urandom g').
Proof.
  unfold generate_projects, generate_projects_n. intros H.
  apply (for_each_minted Project.project_id
           (fun _ : nat => generate_project businesses)
           (seq 0 NUM_PROJECTS)); [|exact H].
  intros _ ga p gb Hp. apply (generate_project_keys businesses). exact Hp.
Qed.

Lemma project_estimates_minted estimators project g rows g' :
  project_estimates estimators project g = Some (rows, g') ->
  minted Estimate.estimate_id (os_urandom g) rows (os_urandom g').
Proof.
  unfold project_estimates. intros H.
  apply bind_Some in H. destruct H as (mode & g1 & Hmode & H).
  apply random_random_quiet in Hmode. destruct Hmode as [Hos1 _].
  rewrite <- Hos1.
  destruct (Qlt_bool mode PROGRESSIVE_ESTIMATE_RATE).
  - apply bind_Some in H. destruct H as ([rows0 n] & g2 & Hprog & H).
    apply ret_Some in H. injection H as -> ->.
    unfold generate_progressive_estimates in Hprog.
    apply bind_Some in Hprog. destruct Hprog as (est & g3 & Hest & Hprog).
    apply bind_Some in Hprog. destruct Hprog as (num & g4 & Hnum & Hprog).
    apply bind_Some in Hprog. destruct Hprog as (rs & g5 & Hrs & Hprog).
    apply ret_Some in Hprog. injection Hprog as -> -> ->.
    apply random_choice_quiet in Hest. destruct Hest as [Hos3 _].
    apply random_randint_quiet in Hnum. destruct Hnum as [Hos4 _].
    rewrite <- Hos3, <- Hos4.
    eapply for_each_minted; [|exact Hrs].
    intros seq ga e gb He. eapply progressive_estimate_keys. exact He.
  - apply bind_Some in H. destruct H as (num & g2 & Hnum & H).
    apply bind_Some in H. destruct H as (sel & g3 & Hsel & H).
    apply random_randint_quiet in Hnum. destruct Hnum as [Hos2 _].
    apply random_sample_quiet in Hsel. destruct Hsel as [Hos3 _].
    rewrite <- Hos2, <- Hos3.
    eapply for_each_minted; [|exact H].
    intros est ga e gb He. eapply single_estimate_keys. exact He.
Qed.

Lemma generate_estimates_minted projects estimators g rows g' :
  generate_estimates projects estimators g = Some (rows, g') ->
  minted Estimate.estimate_id (os_urandom g) rows (os_urandom g').
Proof.
  unfold generate_estimates. intros H.
  apply bind_Some in H. destruct H as (per & g1 & Hper & H).
  apply ret_Some in H. injection H as -> ->.
  eapply for_each_minted_concat; [|exact Hper].
  intros p ga ys gb Hys. eapply project_estimates_minted. exact Hys.
Qed.

Lemma generate_reviews_minted projects businesses estimators g rows g' :
  generate_reviews projects businesses estimators g = Some (rows, g') ->
  minted Review.review_id (os_urandom g) rows (os_urandom g').
Proof.
  unfold generate_reviews. intros H.
  apply bind_Some in H. destruct H as (per & g1 & Hper & H).
  apply ret_Some in H. injection H as -> ->.
  eapply for_each_minted_concat; [|exact Hper].
  intros p ga ys gb Hys.
  destruct (project_review_keys _ _ _ _ _ _ Hys)
    as [[-> Hos]|(r & -> & Hid & Hos)].
  - rewrite Hos. apply minted_nil.
  - apply minted_one; assumption.
Qed.

(* ================================================================== *)
(** ** The whole run *)

Lemma insert_rows_accepted {A : Type} (accepted : list A -> bool) rows w :
  accepted rows = true -> insert_rows accepted rows w = Some (rows, w).
Proof. intros H. unfold insert_rows. rewrite H. reflexivity. Qed.

Lemma insert_rows_rejected {A : Type} (accepted : list A -> bool) rows w :
  accepted rows = false -> insert_rows accepted rows w = None.
Proof. intros H. unfold insert_rows. rewrite H. reflexivity. Qed.

Lemma nth_error_map_seq {B : Type} (f : nat -> B) (n i : nat) :
  (i < n)%nat -> nth_error (map f (seq 0 n)) i = Some (f i).
Proof.
  intros Hi. rewrite nth_error_map.
  rewrite (nth_error_nth' (seq 0 n) O) by (rewrite length_seq; exact Hi).
  rewrite seq_nth by exact Hi. reflexivity.
Qed.

(** The ratings of the rows [generate_reviews] builds pass the CHECKs of
    the [reviews] table. *)
Lemma generate_reviews_checks projects businesses estimators g rows g' :
  generate_reviews projects businesses estimators g = Some (rows, g') ->
  forallb (fun r => between_1_and_5 (Review.overall_rating r)
                    && forallb between_1_and_5 (sub_ratings r)) rows
  = true.
Proof.
  intros Hrun. apply forallb_forall. intros r Hr.
  destruct (generate_reviews_row _ _ _ _ _ _ _ Hrun Hr)
    as (p & _ & _ & _ & _ & _ & _ & _ & _ & _ & [Ho1 Ho5] & Hsub & _).
  apply andb_true_iff. split.
  - unfold between_1_and_5. apply andb_true_iff.
    split; apply Qle_bool_iff; assumption.
  - apply forallb_forall. intros x Hx. rewrite Forall_forall in Hsub.
    destruct (Hsub x Hx) as (H1 & H5 & _).
    unfold between_1_and_5. apply andb_true_iff.
    split; apply Qle_bool_iff; assumption.
Qed.

(** When no uuid and no e-mail repeats, every generator returns, every
    INSERT is accepted, and [main] returns the six tables. *)
Lemma main_runs w :
  uuids_never_repeat (gens w) -> emails_never_repeat (gens w) ->
  exists businesses w1 estimators w2 expertise w3 projects g4 estimates g5
         reviews g6,
    generate_businesses w = Some (businesses, w1)
    /\ List.length businesses = 150%nat
    /\ generate_estimators w1 = Some (estimators, w2)
    /\ List.length estimators = 350%nat
    /\ generate_expertise estimators w2 = Some (expertise, w3)
    /\ generate_projects (map business_of_row businesses) (gens w3)
       = Some (projects, g4)
    /\ List.length projects = 800%nat
    /\ generate_estimates projects (map estimator_of_row estimators) g4
       = Some (estimates, g5)
    /\ generate_reviews projects (map business_of_row businesses)
         (map estimator_of_row estimators) g5 = Some (reviews, g6)
    /\ main w = Some (mkDatabase businesses estimators expertise projects
                        estimates reviews,
                      mkWorld g6 (clock w3)).
Proof.
  intros Huuid [Hbmail Hemail].
  destruct (generate_businesses_total w) as (businesses & w1 & Hb & Hblen).
  destruct (generate_estimators_total w1) as (estimators & w2 & He & Helen).
  assert (Hyears : forall e, In e estimators ->
                     2 <= EstimatorRow.years_experience e).
  { intros e Hin. apply In_nth_error in Hin. destruct Hin as [i Hi].
    destruct (generate_estimators_nth _ _ _ _ _ He Hi)
      as (wi & wi' & Hbody).
    destruct (generate_estimator_spec _ _ _ _ Hbody) as (_ & Hpay & _).
    destruct (i <? NUM_CONSULTANTS)%nat; lia. }
  destruct (generate_expertise_total estimators w2 Hyears)
    as [[expertise w3] Hx].
  assert (Hbne : map business_of_row businesses <> [])
    by (eapply map_nonempty; exact Hblen).
  assert (Hene : map estimator_of_row estimators <> [])
    by (eapply map_nonempty; exact Helen).
  destruct (generate_projects_n_total NUM_PROJECTS
              (map business_of_row businesses) (gens w3) Hbne)
    as (projects & g4 & Hp & Hplen).
  destruct (generate_estimates_total projects
              (map estimator_of_row estimators) g4 Hene)
    as (estimates & g5 & Hest).
  destruct (generate_reviews_total projects (map business_of_row businesses)
              (map estimator_of_row estimators) g5 Hene)
    as (reviews & g6 & Hr).
  { intros p Hin _.
    destruct (generate_projects_n_fields _ _ _ _ _ _ Hp Hin)
      as (gi & gi' & Hbody).
    apply generate_project_fields in Hbody.
    destruct Hbody as ((b & Hbin & Hbid) & _).
    exists b. split; [exact Hbin|symmetry; exact Hbid]. }
  (* the keys *)
  destruct (generate_businesses_keys _ _ _ Hb) as (Hbm & Hbe & Hbs).
  destruct (minted_distinct _ _ _ _ MAX_UUIDS 150 Huuid Hbm)
    as [Hbids Huuid1]; [lia|unfold MAX_UUIDS; lia|].
  assert (Hbacc : businesses_accepted businesses = true).
  { unfold businesses_accepted. apply andb_true_iff.
    split; [exact Hbids|]. rewrite Hbe.
    apply distinct_map_seq. exact Hbmail. }
  destruct (generate_estimators_keys _ _ _ He) as (Hem & Hee).
  destruct (minted_distinct _ _ _ _ _ 350 Huuid1 Hem)
    as [Heids Huuid2]; [lia|unfold MAX_UUIDS; lia|].
  assert (Heacc : estimators_accepted estimators = true).
  { unfold estimators_accepted. apply andb_true_iff.
    split; [exact Heids|]. rewrite Hee.
    apply distinct_map_seq. intros i j Hi Hj Hij.
    rewrite !Hbs in Hij. apply (Hemail i j Hi Hj). exact Hij. }
  pose proof (generate_expertise_minted _ _ _ _ Hx) as Hxm.
  destruct (generate_expertise_rows (fun _ => True) (fun _ _ => I)
              estimators w2 expertise w3 I Hx) as (_ & Hxlen & _).
  destruct (minted_distinct _ _ _ _ _ 1050 Huuid2 Hxm)
    as [Hxids Huuid3]; [lia|unfold MAX_UUIDS; lia|].
  pose proof (generate_projects_minted _ _ _ _ Hp) as Hpm.
  assert (Hplen' : List.length projects = 800%nat) by exact Hplen.
  destruct (minted_distinct _ _ _ _ _ 800 Huuid3 Hpm)
    as [Hpids Huuid4]; [lia|unfold MAX_UUIDS; lia|].
  pose proof (generate_estimates_minted _ _ _ _ _ Hest) as Hestm.
  destruct (generate_estimates_links _ _ _ _ _ Hene Hest) as [Hestlen _].
  destruct (minted_distinct _ _ _ _ _ 4000 Huuid4 Hestm)
    as [Hestids Huuid5]; [lia|unfold MAX_UUIDS; lia|].
  pose proof (generate_reviews_minted _ _ _ _ _ _ Hr) as Hrm.
  destruct (generate_reviews_rows _ _ _ _ _ _ Hr) as [Hrlen _].
  pose proof (filter_length_le
                (fun p => String.eqb (Project.status p) "completed")
                projects) as Hflen.
  destruct (minted_distinct _ _ _ _ _ 800 Huuid5 Hrm)
    as [Hrids _]; [lia|unfold MAX_UUIDS; lia|].
  assert (Hracc : reviews_accepted reviews = true).
  { unfold reviews_accepted. apply andb_true_iff.
    split; [exact Hrids|].
    eapply generate_reviews_checks. exact Hr. }
  exists businesses, w1, estimators, w2, expertise, w3, projects, g4,
         estimates, g5, reviews, g6.
  split; [exact Hb|]. split; [exact Hblen|]. split; [exact He|].
  split; [exact Helen|]. split; [exact Hx|]. split; [exact Hp|].
  split; [exact Hplen|]. split; [exact Hest|]. split; [exact Hr|].
  unfold main. unfold run_bind at 1. rewrite Hb.
  unfold run_bind at 1. rewrite (insert_rows_accepted _ _ _ Hbacc).
  unfold run_bind at 1. rewrite He.
  unfold run_bind at 1. rewrite (insert_rows_accepted _ _ _ Heacc).
  unfold run_bind at 1. rewrite Hx.
  unfold run_bind at 1.
  rewrite (insert_rows_accepted expertise_accepted _ _ Hxids).
  unfold run_bind at 1, lift at 1.
  change (generate_projects (map business_of_row businesses) (gens w3))
    with (generate_projects_n NUM_PROJECTS (map business_of_row businesses)
            (gens w3)).
  rewrite Hp.
  unfold run_bind at 1.
  rewrite (insert_rows_accepted projects_accepted _ _ Hpids).
  unfold run_bind at 1, lift at 1. cbn [gens clock]. rewrite Hest.
  unfold run_bind at 1.
  rewrite (insert_rows_accepted estimates_accepted _ _ Hestids).
  unfold run_bind at 1, lift at 1. cbn [gens clock]. rewrite Hr.
  unfold run_bind at 1. rewrite (insert_rows_accepted _ _ _ Hracc).
  reflexivity.
Qed.

Lemma fixture_uuids_never_repeat :
  uuids_never_repeat (gens FixtureRun.world).
Proof.
  intros i j Hi Hj H.
  unfold FixtureRun.world in H. cbn [gens os_urandom] in H.
  assert (Hsmall : forall k, (k < MAX_UUIDS)%nat ->
                     (N.of_nat k < 2 ^ 128)%N).
  { intros k Hk. unfold MAX_UUIDS in Hk.
    apply N.lt_trans with 7150%N; [lia|vm_compute; reflexivity]. }
  rewrite !N.mod_small in H by (apply Hsmall; assumption). lia.
Qed.

Lemma fixture_emails_never_repeat :
  emails_never_repeat (gens FixtureRun.world).
Proof.
  split; intros i j _ _ H;
    unfold FixtureRun.world in H; cbn [gens faker] in H;
    unfold business_email_draw, estimator_email_draw, NUM_BUSINESSES in H;
    lia.
Qed.

(** X25.  When [uuid.uuid4] never returns the same uuid twice and Faker
    gives no two businesses and no two estimators the same e-mail,
    [main] returns: every generator runs to its end and every INSERT is
    accepted.  The database then holds 150 businesses, 350 estimators, 800
    projects, between one and three expertise rows per estimator, between
    one and five estimates per project, and at most one review per
    project. *)
Theorem main_fills_the_database w :
  uuids_never_repeat (gens w) -> emails_never_repeat (gens w) ->
  exists db w',
    main w = Some (db, w')
    /\ List.length (businesses_table db) = 150%nat
    /\ List.length (estimators_table db) = 350%nat
    /\ List.length (projects_table db) = 800%nat
    /\ (350 <= List.length (expertise_table db) <= 1050)%nat
    /\ (800 <= List.length (estimates_table db) <= 4000)%nat
    /\ (List.length (reviews_table db) <= 800)%nat.
Proof.
  intros Huuid Hmail.
  destruct (main_runs w Huuid Hmail)
    as (businesses & w1 & estimators & w2 & expertise & w3 & projects & g4
        & estimates & g5 & reviews & g6 & Hb & Hblen & He & Helen & Hx & Hp
        & Hplen & Hest & Hr & Hmain).
  eexists. eexists. split; [exact Hmain|].
  cbn [businesses_table estimators_table projects_table expertise_table
       estimates_table reviews_table].
  split; [exact Hblen|]. split; [exact Helen|]. split; [exact Hplen|].
  split; [|split].
  - destruct (generate_expertise_rows (fun _ => True) (fun _ _ => I)
                estimators w2 expertise w3 I Hx) as (_ & Hlen & _).
    lia.
  - assert (Hene : map estimator_of_row estimators <> [])
      by (eapply map_nonempty; exact Helen).
    destruct (generate_estimates_links _ _ _ _ _ Hene Hest) as [Hlen _].
    lia.
  - destruct (generate_reviews_rows _ _ _ _ _ _ Hr) as [Hlen _].
    pose proof (filter_length_le
                  (fun p => String.eqb (Project.status p) "completed")
                  projects) as Hf.
    lia.
Qed.

Lemma main_fills_the_database_witness :
  exists db w',
    main FixtureRun.world = Some (db, w')
    /\ List.length (businesses_table db) = 150%nat
    /\ List.length (estimators_table db) = 350%nat
    /\ List.length (projects_table db) = 800%nat.
Proof.
  destruct (main_fills_the_database FixtureRun.world
              fixture_uuids_never_repeat fixture_emails_never_repeat)
    as (db & w' & Hmain & Hb & He & Hp & _).
  exists db, w'. split; [exact Hmain|]. split; [exact Hb|].
  split; [exact He|exact Hp].
Defined.

(** X26.  Under the same conditions every foreign key of the database
    [main] fills is satisfied, although the database does not enforce
    them: each project is owned by an inserted business; each expertise
    row belongs to an inserted estimator; each estimate refers to an
    inserted project and an inserted estimator; each review refers to a
    completed inserted project, is written by the business that owns it,
    and is about an inserted estimator. *)
Theorem main_referential_integrity w :
  uuids_never_repeat (gens w) -> emails_never_repeat (gens w) ->
  exists db w',
    main w = Some (db, w')
    /\ (forall p, In p (projects_table db) ->
          exists b, In b (businesses_table db)
            /\ Project.business_id p = BusinessRow.business_id b)
    /\ (forall x, In x (expertise_table db) ->
          exists e, In e (estimators_table db)
            /\ Expertise.estimator_id x = EstimatorRow.estimator_id e)
    /\ (forall e, In e (estimates_table db) ->
          (exists p, In p (projects_table db)
             /\ Estimate.project_id e = Project.project_id p)
          /\ (exists est, In est (estimators_table db)
                /\ Estimate.estimator_id e = EstimatorRow.estimator_id est))
    /\ (forall r, In r (reviews_table db) ->
          (exists p, In p (projects_table db)
             /\ Project.status p = "completed"
             /\ Review.project_id r = Project.project_id p
             /\ Review.reviewer_id r = Project.business_id p)
          /\ (exists b, In b (businesses_table db)
                /\ Review.reviewer_id r = BusinessRow.business_id b)
          /\ (exists est, In est (estimators_table db)
                /\ Review.reviewee_id r = EstimatorRow.estimator_id est)).
Proof.
  intros Huuid Hmail.
  destruct (main_runs w Huuid Hmail)
    as (businesses & w1 & estimators & w2 & expertise & w3 & projects & g4
        & estimates & g5 & reviews & g6 & Hb & Hblen & He & Helen & Hx & Hp
        & Hplen & Hest & Hr & Hmain).
  eexists. eexists. split; [exact Hmain|].
  cbn [businesses_table estimators_table projects_table expertise_table
       estimates_table reviews_table].
  assert (Hbus : forall b0, In b0 (map business_of_row businesses) ->
            exists b, In b businesses
              /\ Business.business_id b0 = BusinessRow.business_id b).
  { intros b0 Hin. apply in_map_iff in Hin. destruct Hin as (b & <- & Hin).
    exists b. split; [exact Hin|reflexivity]. }
  assert (Hpool : forall e0, In e0 (map estimator_of_row estimators) ->
            exists e, In e estimators
              /\ Estimator.estimator_id e0 = EstimatorRow.estimator_id e).
  { intros e0 Hin. apply in_map_iff in Hin. destruct Hin as (e & <- & Hin).
    exists e. split; [exact Hin|reflexivity]. }
  assert (Hene : map estimator_of_row estimators <> [])
    by (eapply map_nonempty; exact Helen).
  split; [|split; [|split]].
  - intros p Hin.
    destruct (generate_projects_n_fields _ _ _ _ _ _ Hp Hin)
      as (gi & gi' & Hbody).
    apply generate_project_fields in Hbody.
    destruct Hbody as ((b0 & Hbin & Hbid) & _).
    destruct (Hbus b0 Hbin) as (b & Hb' & Hid).
    exists b. split; [exact Hb'|]. rewrite Hbid. exact Hid.
  - intros x Hin.
    destruct (generate_expertise_rows (fun _ => True) (fun _ _ => I)
                estimators w2 expertise w3 I Hx) as (_ & _ & Hrows).
    destruct (Hrows x Hin) as (e & wi & wi' & Hein & _ & Hbody).
    destruct (generate_expertise_row_spec _ _ _ _ Hbody) as (Hid & _).
    exists e. split; [exact Hein|exact Hid].
  - intros e Hin.
    destruct (generate_estimates_links _ _ _ _ _ Hene Hest) as [_ Hrows].
    destruct (Hrows e Hin) as ((p & Hpin & Hpid) & (e0 & He0 & Heid)).
    split; [exists p; split; [exact Hpin|exact Hpid]|].
    destruct (Hpool e0 He0) as (est & Hestin & Hid).
    exists est. split; [exact Hestin|]. rewrite Heid. exact Hid.
  - intros r Hin.
    destruct (generate_reviews_row _ _ _ _ _ _ _ Hr Hin)
      as (p & Hpin & Hs & Hpid & Hrid & (b0 & Hb0 & Hbid)
          & (e0 & He0 & Heid) & _).
    split; [exists p; split; [exact Hpin|]; split; [exact Hs|];
            split; [exact Hpid|exact Hrid]|].
    split.
    + destruct (Hbus b0 Hb0) as (b & Hb' & Hid).
      exists b. split; [exact Hb'|]. rewrite <- Hbid. exact Hid.
    + destruct (Hpool e0 He0) as (est & Hestin & Hid).
      exists est. split; [exact Hestin|]. rewrite <- Heid. exact Hid.
Qed.

Lemma main_referential_integrity_witness :
  exists db w',
    main FixtureRun.world = Some (db, w')
    /\ forall p, In p (projects_table db) ->
         exists b, In b (businesses_table db)
           /\ Project.business_id p = BusinessRow.business_id b.
Proof.
  destruct (main_referential_integrity FixtureRun.world
              fixture_uuids_never_repeat fixture_emails_never_repeat)
    as (db & w' & Hmain & Hp & _).
  exists db, w'. split; [exact Hmain|exact Hp].
Defined.

(** X27.  [main] raises (sqlite3.IntegrityError, from the UNIQUE
    constraint on [email]) as soon as Faker renders the same e-mail for
    two businesses, or for two estimators; nothing after the failing
    table is generated. *)
Theorem main_repeated_email_raises w i j :
  i <> j ->
  ((i < NUM_BUSINESSES)%nat /\ (j < NUM_BUSINESSES)%nat
   /\ faker (gens w) (business_email_draw i)
      = faker (gens w) (business_email_draw j))
  \/ ((i < NUM_CONSULTANTS + NUM_FREELANCERS)%nat
      /\ (j < NUM_CONSULTANTS + NUM_FREELANCERS)%nat
      /\ faker (gens w) (estimator_email_draw i)
         = faker (gens w) (estimator_email_draw j)) ->
  main w = None.
Proof.
  intros Hij Hsame.
  destruct (generate_businesses_total w) as (businesses & w1 & Hb & _).
  destruct (generate_businesses_keys _ _ _ Hb) as (_ & Hbe & Hbs).
  unfold main. unfold run_bind at 1. rewrite Hb.
  unfold run_bind at 1.
  destruct Hsame as [(Hi & Hj & Heq)|(Hi & Hj & Heq)].
  - rewrite insert_rows_rejected; [reflexivity|].
    unfold businesses_accepted. apply andb_false_iff. right.
    apply (distinct_repeated _ i j
             (faker (gens w) (business_email_draw i)) Hij).
    + rewrite Hbe. apply (nth_error_map_seq
                            (fun i => faker (gens w) (business_email_draw i))).
      exact Hi.
    + rewrite Hbe, Heq.
      apply (nth_error_map_seq
               (fun i => faker (gens w) (business_email_draw i))).
      exact Hj.
  - unfold insert_rows at 1.
    destruct (businesses_accepted businesses); [|reflexivity].
    destruct (generate_estimators_total w1) as (estimators & w2 & He & _).
    destruct (generate_estimators_keys _ _ _ He) as (_ & Hee).
    unfold run_bind at 1. rewrite He.
    unfold run_bind at 1.
    rewrite insert_rows_rejected; [reflexivity|].
    unfold estimators_accepted. apply andb_false_iff. right.
    assert (Hat : forall k, faker (gens w1) (7 * k + 5)%nat
                            = faker (gens w) (estimator_email_draw k)).
    { intros k. rewrite Hbs. reflexivity. }
    apply (distinct_repeated _ i j
             (faker (gens w) (estimator_email_draw i)) Hij).
    + rewrite Hee. rewrite <- Hat.
      apply (nth_error_map_seq (fun i => faker (gens w1) (7 * i + 5)%nat)).
      exact Hi.
    + rewrite Hee, Heq, <- Hat.
      apply (nth_error_map_seq (fun i => faker (gens w1) (7 * i + 5)%nat)).
      exact Hj.
Qed.

Lemma main_repeated_email_raises_witness :
  main FixtureRun.same_email_world = None.
Proof.
  apply (main_repeated_email_raises FixtureRun.same_email_world 0 1).
  - discriminate.
  - left. split; [unfold NUM_BUSINESSES; lia|].
    split; [unfold NUM_BUSINESSES; lia|]. reflexivity.
Defined.


(* ================================================================== *)
(** ** The clock and reproducibility *)

(** The first pass of a loop starts from the state the loop is entered
    in. *)
Lemma run_for_each_head {A B : Type} (f : A -> Run B) x xs w ys w' :
  run_for_each f (x :: xs) w = Some (ys, w') ->
  exists y ys' w1, ys = y :: ys' /\ f x w = Some (y, w1).
Proof.
  simpl. intros H. run_step H y w1 Hy. run_step H ys' w2 Hys.
  apply run_ret_Some in H. injection H as -> _.
  exists y, ys', w1. split; [reflexivity|exact Hy].
Qed.

(** Two runs of the same draw, on the same generators with different
    clocks, go on from the same value. *)
Lemma lift_bind_parallel {A B : Type} (m : Gen A) (k k' : A -> Run B)
    (g : Generators) (c c' : nat -> Z)
    (R : option (B * World) -> option (B * World) -> Prop) :
  R None None ->
  (forall a g1, R (k a (mkWorld g1 c)) (k' a (mkWorld g1 c'))) ->
  R (run_bind (lift m) k (mkWorld g c))
    (run_bind (lift m) k' (mkWorld g c')).
Proof.
  intros Hnone Hk. unfold run_bind, lift. cbn [gens clock].
  destruct (m g) as [[a g1]|]; [apply Hk|exact Hnone].
Qed.

(** With the same generators, the [last_login] of a business row moves
    with the clock reading. *)
Lemma generate_business_clock g c c' :
  match generate_business (mkWorld g c), generate_business (mkWorld g c')
  with
  | Some (b, _), Some (b', _) =>
      BusinessRow.last_login b - c 0%nat
      = BusinessRow.last_login b' - c' 0%nat
  | _, _ => True
  end.
Proof.
  pose (R := fun r r' : option (BusinessRow.t * World) =>
               match r, r' with
               | Some (b, _), Some (b', _) =>
                   BusinessRow.last_login b - c 0%nat
                   = BusinessRow.last_login b' - c' 0%nat
               | _, _ => True
               end).
  change (R (generate_business (mkWorld g c))
            (generate_business (mkWorld g c'))).
  unfold generate_business.
  apply (lift_bind_parallel _ _ _ _ _ _ R); [exact I|intros [city state] g1].
  do 16 (apply (lift_bind_parallel _ _ _ _ _ _ R); [exact I|intros ? ?]).
  unfold run_bind at 1 3, datetime_now. cbn [gens clock].
  apply (lift_bind_parallel _ _ _ _ _ _ R); [exact I|intros login g19].
  unfold R, run_ret. cbn [BusinessRow.last_login]. lia.
Qed.

(** X28.  The businesses table is not determined by the seeds and the
    entropy: two runs that draw exactly the same values from [random],
    numpy, Faker and [uuid4] but start at different clock readings build
    different rows, the [last_login] of the first business differing by
    exactly the difference of the two readings of [datetime.now()]. *)
Theorem businesses_depend_on_the_clock w w' :
  gens w = gens w' ->
  clock w 0%nat <> clock w' 0%nat ->
  exists b rest w1 b' rest' w1',
    generate_businesses w = Some (b :: rest, w1)
    /\ generate_businesses w' = Some (b' :: rest', w1')
    /\ BusinessRow.last_login b - BusinessRow.last_login b'
       = clock w 0%nat - clock w' 0%nat
    /\ b :: rest <> b' :: rest'.
Proof.
  intros Hgens Hclock.
  destruct (generate_businesses_total w) as (rows & w1 & Hrun & _).
  destruct (generate_businesses_total w') as (rows' & w1' & Hrun' & _).
  pose proof Hrun as Hhead. pose proof Hrun' as Hhead'.
  unfold generate_businesses, NUM_BUSINESSES in Hhead, Hhead'.
  change (seq 0 150) with (0%nat :: seq 1 149) in Hhead, Hhead'.
  apply run_for_each_head in Hhead. apply run_for_each_head in Hhead'.
  destruct Hhead as (b & rest & wa & -> & Hb).
  destruct Hhead' as (b' & rest' & wa' & -> & Hb').
  assert (Hdiff : BusinessRow.last_login b - BusinessRow.last_login b'
                  = clock w 0%nat - clock w' 0%nat).
  { pose proof (generate_business_clock (gens w) (clock w) (clock w'))
      as Hpar.
    destruct w as [g c], w' as [g' c']. cbn [gens clock] in *. subst g'.
    rewrite Hb, Hb' in Hpar. lia. }
  exists b, rest, w1, b', rest', w1'.
  split; [exact Hrun|]. split; [exact Hrun'|]. split; [exact Hdiff|].
  intros Heq. injection Heq as Heq _. subst b'. lia.
Qed.

Lemma businesses_depend_on_the_clock_witness :
  exists b rest w1 b' rest' w1',
    generate_businesses FixtureRun.world = Some (b :: rest, w1)
    /\ generate_businesses FixtureRun.next_day_world
       = Some (b' :: rest', w1')
    /\ b :: rest <> b' :: rest'.
Proof.
  destruct (businesses_depend_on_the_clock FixtureRun.world
              FixtureRun.next_day_world)
    as (b & rest & w1 & b' & rest' & w1' & Hrun & Hrun' & _ & Hdiff).
  - reflexivity.
  - vm_compute. discriminate.
  - exists b, rest, w1, b', rest', w1'.
    split; [exact Hrun|]. split; [exact Hrun'|exact Hdiff].
Defined.

(* ================================================================== *)
(** ** What each draw does to the numpy stream *)

Lemma getrandword_np g x g' :
  getrandword g = Some (x, g') -> np_random g' = np_random g.
Proof. unfold getrandword. intros H. injection H as _ <-. reflexivity. Qed.

Lemma random_random_np g x g' :
  random_random g = Some (x, g') -> np_random g' = np_random g.
Proof.
  unfold random_random. intros H. gen_step H.
  apply ret_Some in H. injection H as _ ->.
  eapply getrandword_np. eassumption.
Qed.

Lemma randbelow_np n g x g' :
  randbelow n g = Some (x, g') -> np_random g' = np_random g.
Proof.
  unfold randbelow. intros H. gen_step H.
  apply ret_Some in H. injection H as _ ->.
  eapply getrandword_np. eassumption.
Qed.

Lemma random_randint_np a b g x g' :
  random_randint a b g = Some (x, g') -> np_random g' = np_random g.
Proof.
  unfold random_randint. destruct (b <? a); [discriminate|].
  intros H. gen_step H. apply ret_Some in H. injection H as _ ->.
  eapply randbelow_np. eassumption.
Qed.

Lemma random_choice_np {A : Type} (xs : list A) g x g' :
  random_choice xs g = Some (x, g') -> np_random g' = np_random g.
Proof.
  unfold random_choice. destruct xs as [|x0 rest]; [discriminate|].
  intros H. gen_step H.
  destruct (nth_error (x0 :: rest) (Z.to_nat v)); [|discriminate H].
  apply ret_Some in H. injection H as _ ->.
  eapply randbelow_np. eassumption.
Qed.

Lemma random_choices_np {A : Type} (population : list A) ws g x g' :
  random_choices population ws g = Some (x, g') ->
  np_random g' = np_random g.
Proof.
  unfold random_choices.
  destruct (rev (accumulate 0%Q ws)) as [|total rest]; [discriminate|].
  intros H. gen_step H.
  destruct (nth_error population _); [|discriminate H].
  apply ret_Some in H. injection H as _ ->.
  eapply random_random_np. eassumption.
Qed.

Lemma project_status_np d g s g' :
  project_status d g = Some (s, g') -> np_random g' = np_random g.
Proof.
  unfold project_status.
  destruct (300 <? d); [|destruct (150 <? d); [|destruct (60 <? d)]];
    apply random_choices_np.
Qed.

Lemma dict_getitem_np {V : Type} (d : dict V) k g v g' :
  dict_getitem d k g = Some (v, g') -> np_random g' = np_random g.
Proof.
  intros H. apply dict_getitem_spec in H. destruct H as [_ ->].
  reflexivity.
Qed.

Lemma fake_word_np g x g' :
  fake_word g = Some (x, g') -> np_random g' = np_random g.
Proof. unfold fake_word. intros H. injection H as _ <-. reflexivity. Qed.

Lemma fake_date_time_between_np a b g x g' :
  fake_date_time_between a b g = Some (x, g') ->
  np_random g' = np_random g.
Proof.
  unfold fake_date_time_between. destruct (b <? a); [discriminate|].
  intros H. gen_step H. apply ret_Some in H. injection H as _ ->.
  eapply fake_word_np. eassumption.
Qed.

Lemma uuid4_np g x g' :
  uuid4 g = Some (x, g') -> np_random g' = np_random g.
Proof. unfold uuid4. intros H. injection H as _ <-. reflexivity. Qed.

(** [np.random.lognormal] returns the next value of the numpy stream and
    moves the stream by one. *)
Lemma np_random_lognormal_draw mean sigma g b g' :
  np_random_lognormal mean sigma g = Some (b, g') ->
  b = lognormal_draw g 0 /\ np_random g' = tl_tape (np_random g).
Proof.
  unfold np_random_lognormal, lognormal_draw.
  destruct (np_random g 0%nat) as [n d].
  intros H. injection H as <- <-. split; reflexivity.
Qed.

Lemma lognormal_draw_positive g i : (0 < lognormal_draw g i)%Q.
Proof.
  unfold lognormal_draw. destruct (np_random g i) as [n d].
  unfold Qlt. simpl. lia.
Qed.

(** One pass of the loop of [generate_projects] computes the budget
    interval from the next log-normal draw, the only one it takes. *)
Lemma generate_project_draw businesses g p g' :
  generate_project businesses g = Some (p, g') ->
  drawn_from (lognormal_draw g 0) p
  /\ np_random g' = tl_tape (np_random g).
Proof.
  unfold generate_project. intros H.
  apply bind_Some in H. destruct H as (business & g1 & Hbus & H).
  apply bind_Some in H. destruct H as ([city state] & g2 & Hcity & H).
  apply bind_Some in H. destruct H as (posted & g3 & Hposted & H).
  apply bind_Some in H. destruct H as (sector & g4 & Hsector & H).
  apply bind_Some in H. destruct H as (subtypes & g5 & Hsubtypes & H).
  apply bind_Some in H. destruct H as (subtype & g6 & Hsubtype & H).
  apply bind_Some in H. destruct H as (b & g7 & Hb & H).
  unfold project_budget in H. cbv beta iota zeta in H.
  apply bind_Some in H. destruct H as (status & g8 & Hstatus & H).
  apply bind_Some in H. destruct H as (pid & g9 & Hpid & H).
  apply bind_Some in H. destruct H as (title & g10 & Htitle & H).
  apply bind_Some in H. destruct H as (descr & g11 & Hdescr & H).
  apply bind_Some in H. destruct H as (ptype & g12 & Hptype & H).
  apply bind_Some in H. destruct H as (zip & g13 & Hzip & H).
  apply bind_Some in H. destruct H as (sqft & g14 & Hsqft & H).
  apply bind_Some in H. destruct H as (needed & g15 & Hneeded & H).
  apply bind_Some in H. destruct H as (urgency & g16 & Hurgency & H).
  apply ret_Some in H. injection H as -> ->.
  apply random_choice_np in Hbus, Hcity, Hsector, Hsubtype, Htitle, Hptype.
  apply fake_date_time_between_np in Hposted.
  apply dict_getitem_np in Hsubtypes.
  apply np_random_lognormal_draw in Hb. destruct Hb as [-> Hnp].
  apply project_status_np in Hstatus.
  apply uuid4_np in Hpid.
  apply fake_word_np in Hdescr, Hzip.
  apply random_randint_np in Hsqft, Hneeded.
  apply random_choices_np in Hurgency.
  assert (E6 : np_random g6 = np_random g) by congruence.
  split.
  - unfold drawn_from, project_budget, lognormal_draw.
    cbn [Project.regional_cost_multiplier Project.estimated_budget_min
         Project.estimated_budget_max Project.project_state].
    rewrite E6. reflexivity.
  - congruence.
Qed.

(** Pass [i] of the loop takes draw number [i]. *)
Lemma generate_projects_n_draws n businesses g projects g' :
  generate_projects_n n businesses g = Some (projects, g') ->
  forall i p, nth_error projects i = Some p ->
    drawn_from (lognormal_draw g i) p.
Proof.
  unfold generate_projects_n. generalize (seq 0 n). intros xs.
  revert g projects g'.
  induction xs as [|x rest IH]; intros g projects g' H i p Hp; simpl in H.
  - apply ret_Some in H. injection H as -> _. destruct i; discriminate.
  - apply bind_Some in H. destruct H as (y & g1 & Hy & H).
    apply bind_Some in H. destruct H as (ys & g2 & Hys & H).
    apply ret_Some in H. injection H as -> _.
    apply generate_project_draw in Hy. destruct Hy as [Hdrawn Hnp].
    destruct i as [|i]; simpl in Hp.
    + injection Hp as <-. exact Hdrawn.
    + specialize (IH _ _ _ Hys i p Hp).
      unfold lognormal_draw in *. rewrite Hnp in IH. exact IH.
Qed.

Lemma generate_projects_n_length n businesses g projects g' :
  generate_projects_n n businesses g = Some (projects, g') ->
  List.length projects = n.
Proof.
  unfold generate_projects_n. intros H.
  apply for_each_length in H. rewrite length_seq in H. exact H.
Qed.

(* ================================================================== *)
(** ** Stored amounts against the quantities they were computed from *)

Section StoredAmounts.
Local Open Scope Q_scope.

Lemma round2_within_a_cent (x y : Q) :
  x == y -> Qabs (round2 x - y) <= 1 # 100.
Proof.
  intros E. destruct (round2_near x) as [H1 H2]. apply Qabs_bound; lra.
Qed.

Lemma midpoint_within_a_cent (b m bmin bmax : Q) :
  0 < m ->
  bmin = round2 (b * m * 0.8) -> bmax = round2 (b * m * 1.2) ->
  Qabs ((bmin + bmax) / 2 / m - b) <= (1 # 100) / m.
Proof.
  intros Hm Hmin Hmax.
  apply (Qle_trans _ ((1 # 200) / m)).
  - apply midpoint_recovers_draw; assumption.
  - unfold Qdiv. apply Qmult_le_compat_r; [lra|].
    apply Qlt_le_weak, Qinv_lt_0_compat. exact Hm.
Qed.

Lemma Forall2_impl_Forall {A B : Type} (P : A -> Prop)
    (R1 R2 : A -> B -> Prop) xs ys :
  Forall P xs -> (forall a b, P a -> R1 a b -> R2 a b) ->
  Forall2 R1 xs ys -> Forall2 R2 xs ys.
Proof.
  intros HP Himp HR. induction HR as [|a b xs ys Hab HR IH].
  - constructor.
  - inversion HP as [|? ? Pa Pxs]; subst.
    constructor; [apply Himp; assumption|apply IH; exact Pxs].
Qed.



End StoredAmounts.

(** *** C7 *)

(** C7.  The project built by pass i of [generate_projects] has the i-th
    log-normal draw b of the run as its unadjusted base cost.  With m the
    multiplier of the project's state, the stored budget_min and
    budget_max are 0.8 (b m) and 1.2 (b m) to within a cent, and
    midpoint(budget_min, budget_max) / m gives back b to within a cent
    over m.  A project in New York drawn at 1,000,000 stores 1,080,000
    and 1,620,000: the multiplier is 1.35 and the adjusted base
    1,350,000. *)
Theorem C7_regional_budget_round_trip businesses g :
  businesses <> [] ->
  exists projects g',
    generate_projects businesses g = Some (projects, g')
    /\ (forall i p, nth_error projects i = Some p ->
          let b := lognormal_draw g i in
          let m := Project.regional_cost_multiplier p in
          let budget_min := Project.estimated_budget_min p in
          let budget_max := Project.estimated_budget_max p in
          (0 < b)%Q
          /\ m = get_regional_multiplier (Project.project_state p)
          /\ (0 < m)%Q
          /\ (Qabs (budget_min - 0.8 * (b * m)) <= 1 # 100)%Q
          /\ (Qabs (budget_max - 1.2 * (b * m)) <= 1 # 100)%Q
          /\ (Qabs ((budget_min + budget_max) / 2 / m - b)
              <= (1 # 100) / m)%Q
          /\ (b == 1000000 -> Project.project_state p = "NY" ->
              m == 1.35 /\ b * m == 1350000
              /\ budget_min == 1080000 /\ budget_max == 1620000)%Q)
    /\ (let '(m, budget_min, budget_max) := project_budget 1000000 "NY" in
        m == 1.35 /\ 1000000 * m == 1350000
        /\ budget_min == 1080000 /\ budget_max == 1620000)%Q.
Proof.
  intros Hne.
  destruct (generate_projects_n_total NUM_PROJECTS businesses g Hne)
    as (projects & g' & Hrun & _).
  exists projects, g'. split; [exact Hrun|]. split.
  - intros i p Hp. cbv zeta.
    pose proof (generate_projects_n_draws _ _ _ _ _ Hrun i p Hp) as Hdrawn.
    pose proof (lognormal_draw_positive g i) as Hb.
    set (b := lognormal_draw g i) in *.
    unfold drawn_from, project_budget in Hdrawn.
    injection Hdrawn as Hm Hmin Hmax.
    rewrite <- Hm in Hmin, Hmax.
    assert (Hmpos : (0 < Project.regional_cost_multiplier p)%Q)
      by (rewrite Hm; apply multiplier_positive).
    split; [exact Hb|]. split; [exact Hm|]. split; [exact Hmpos|].
    split; [rewrite Hmin; apply round2_within_a_cent; ring|].
    split; [rewrite Hmax; apply round2_within_a_cent; ring|].
    split; [apply midpoint_within_a_cent; assumption|].
    intros Hmillion Hny.
    assert (Em : (Project.regional_cost_multiplier p == 1.35)%Q)
      by (rewrite Hm, Hny; reflexivity).
    split; [exact Em|].
    split; [rewrite Hmillion, Em; reflexivity|].
    split.
    + rewrite Hmin.
      rewrite (round2_compat _ (1000000 * 1.35 * 0.8));
        [reflexivity|rewrite Hmillion, Em; reflexivity].
    + rewrite Hmax.
      rewrite (round2_compat _ (1000000 * 1.35 * 1.2));
        [reflexivity|rewrite Hmillion, Em; reflexivity].
  - vm_compute. repeat split.
Qed.

Lemma C7_regional_budget_round_trip_witness :
  exists projects g',
    generate_projects Fixture.businesses Fixture.generators
      = Some (projects, g')
    /\ forall i p, nth_error projects i = Some p ->
         (lognormal_draw Fixture.generators i == 1000000)%Q
         /\ (Qabs (Project.estimated_budget_min p
                   - 0.8 * (lognormal_draw Fixture.generators i
                            * Project.regional_cost_multiplier p))
             <= 1 # 100)%Q
         /\ (Qabs (Project.estimated_budget_max p
                   - 1.2 * (lognormal_draw Fixture.generators i
                            * Project.regional_cost_multiplier p))
             <= 1 # 100)%Q.
Proof.
  destruct (C7_regional_budget_round_trip Fixture.businesses
              Fixture.generators)
    as (projects & g' & Hrun & Hrows & _); [discriminate|].
  exists projects, g'.
  split; [exact Hrun|]. intros i p Hp.
  destruct (Hrows i p Hp) as (_ & _ & _ & Hmin & Hmax & _).
  split; [reflexivity|]. split; assumption.
Defined.

(** *** C6 *)




(** *** C9 *)

(** C9.  On log-normal draws that the sampler can return, every sampled
    financial quantity of a run is strictly positive, and nothing clamps
    it: budget_min and budget_max of every project, and
    estimated_total_cost, the six cost-breakdown components and
    contingency_percent of every estimate; contingency_percent is at
    least 3 (the smallest nominal, 5.0, minus at most 2). *)
Theorem C9_amounts_positive businesses estimators g :
  businesses <> [] -> estimators <> [] -> lognormal_in_range g ->
  exists projects g1 rows g2,
    generate_projects businesses g = Some (projects, g1)
    /\ generate_estimates projects estimators g1 = Some (rows, g2)
    /\ (forall p, In p projects ->
          0 < Project.estimated_budget_min p
          /\ 0 < Project.estimated_budget_max p)%Q
    /\ (forall e, In e rows ->
          0 < Estimate.estimated_total_cost e
          /\ 0 < Estimate.labor_cost e
          /\ 0 < Estimate.materials_cost e
          /\ 0 < Estimate.equipment_cost e
          /\ 0 < Estimate.subcontractor_cost e
          /\ 0 < Estimate.overhead_cost e
          /\ 0 < Estimate.profit_margin e
          /\ 3 <= Estimate.contingency_percent e)%Q.
Proof.
  intros Hb He Hrange.
  destruct (projects_then_estimates businesses estimators g Hb He)
    as (projects & g1 & rows & g2 & Hp & Hr).
  exists projects, g1, rows, g2.
  split; [exact Hp|]. split; [exact Hr|].
  assert (Hfloor : forall p, In p projects ->
            (0 < Project.estimated_budget_min p
             /\ 0 < Project.estimated_budget_max p
             /\ (21 # 100) <= base_cost_of p)%Q).
  { intros p Hpin. apply In_nth_error in Hpin. destruct Hpin as [i Hi].
    assert (Hlt : (i < NUM_PROJECTS)%nat).
    { rewrite <- (generate_projects_n_length _ _ _ _ _ Hp).
      apply nth_error_Some. rewrite Hi. discriminate. }
    apply (drawn_from_floor (lognormal_draw g i)).
    - exact (generate_projects_n_draws _ _ _ _ _ Hp i p Hi).
    - apply (Hrange i Hlt). }
  split.
  - intros p Hpin. destruct (Hfloor p Hpin) as (Hmin & Hmax & _).
    split; assumption.
  - intros e Hin.
    destruct (generate_estimates_rows _ _ _ _ _ Hr e Hin)
      as (p & Hpin & _ & Hpriced).
    destruct (Hfloor p Hpin) as (_ & _ & Hbase).
    destruct (priced_row_positive _ _ Hbase Hpriced)
      as (H1 & H2 & H3 & H4 & H5 & H6 & H7).
    assert (Hnonneg : (0 <= base_cost_of p)%Q)
      by (apply Qle_trans with (21 # 100); [discriminate|exact Hbase]).
    destruct (priced_row_nonneg _ _ Hnonneg Hpriced)
      as (_ & _ & _ & _ & _ & _ & _ & H8).
    repeat (split; [assumption|]). exact H8.
Qed.

Lemma C9_amounts_positive_witness :
  exists projects g1 rows g2,
    generate_projects Fixture.businesses Fixture.generators
      = Some (projects, g1)
    /\ generate_estimates projects Fixture.estimators g1 = Some (rows, g2)
    /\ (forall p, In p projects ->
          0 < Project.estimated_budget_min p
          /\ 0 < Project.estimated_budget_max p)%Q
    /\ (forall e, In e rows ->
          0 < Estimate.estimated_total_cost e
          /\ 3 <= Estimate.contingency_percent e)%Q.
Proof.
  destruct (C9_amounts_positive Fixture.businesses Fixture.estimators
              Fixture.generators)
    as (projects & g1 & rows & g2 & Hp & Hr & Hprojects & Hrows).
  - discriminate.
  - discriminate.
  - intros i _. unfold lognormal_draw, LOGNORMAL_FLOOR. simpl.
    unfold Qle. simpl. lia.
  - exists projects, g1, rows, g2.
    split; [exact Hp|]. split; [exact Hr|]. split; [exact Hprojects|].
    intros e He.
    destruct (Hrows e He) as (H1 & _ & _ & _ & _ & _ & _ & H8).
    split; assumption.
Defined.

(* ================================================================== *)
(** ** Loops that write to a table *)

Lemma distinct_app_l (xs ys : list N) :
  distinct (xs ++ ys)%list = true -> distinct xs = true.
Proof. rewrite !distinct_NoDup. apply NoDup_app_remove_r. Qed.

Lemma distinct_keys_prefix_closed {A : Type} (key : A -> N) :
  prefix_closed (fun rows => distinct (map key rows)).
Proof.
  intros rows more. rewrite map_app. apply distinct_app_l.
Qed.

Lemma projects_accepted_prefix_closed : prefix_closed projects_accepted.
Proof. apply (distinct_keys_prefix_closed Project.project_id). Qed.

Lemma estimates_accepted_prefix_closed : prefix_closed estimates_accepted.
Proof. apply (distinct_keys_prefix_closed Estimate.estimate_id). Qed.

Lemma expertise_accepted_prefix_closed : prefix_closed expertise_accepted.
Proof. apply (distinct_keys_prefix_closed Expertise.expertise_id). Qed.

Lemma businesses_accepted_prefix_closed :
  prefix_closed businesses_accepted.
Proof.
  intros rows more. unfold businesses_accepted.
  rewrite !andb_true_iff, !map_app. intros [H1 H2].
  split; eapply distinct_app_l; eassumption.
Qed.

Lemma estimators_accepted_prefix_closed :
  prefix_closed estimators_accepted.
Proof.
  intros rows more. unfold estimators_accepted.
  rewrite !andb_true_iff, !map_app. intros [H1 H2].
  split; eapply distinct_app_l; eassumption.
Qed.

Lemma inserted_accepted {A S : Type} (accepted : list A -> bool)
    (rows : list A) (s : S) :
  accepted rows = true ->
  inserted accepted [] (Some (rows, s)) = Some (rows, s).
Proof. intros H. simpl. rewrite H. reflexivity. Qed.

Lemma inserted_rejected {A S : Type} (accepted : list A -> bool)
    (rows : list A) (s : S) :
  accepted rows = false ->
  inserted accepted [] (Some (rows, s)) = None.
Proof. intros H. simpl. rewrite H. reflexivity. Qed.

(** A loop that inserts each row as it is built returns exactly when
    the rows are all built and the table accepts them, and then holds
    them in the order they were built. *)
Lemma for_each_insert_rows {A B : Type} (accepted : list B -> bool)
    (f : A -> Gen B) xs :
  prefix_closed accepted ->
  forall table g, accepted table = true ->
    for_each_insert
      (fun x table' => y <- f x ;; execute_insert accepted y table')
      xs table g
    = inserted accepted table (for_each f xs g).
Proof.
  intros Hpre. induction xs as [|x rest IH]; intros table g Hacc.
  - simpl. unfold ret. rewrite app_nil_r, Hacc. reflexivity.
  - simpl. unfold bind.
    destruct (f x g) as [[y g1]|]; [|reflexivity].
    unfold execute_insert at 1.
    destruct (accepted (table ++ [y])%list) eqn:Hy.
    + etransitivity; [apply IH; exact Hy|].
      unfold bind. destruct (for_each f rest g1) as [[ys g2]|];
        [|reflexivity].
      unfold ret. simpl. rewrite <- app_assoc. reflexivity.
    + unfold bind. destruct (for_each f rest g1) as [[ys g2]|];
        [|reflexivity].
      unfold ret. simpl.
      destruct (accepted (table ++ y :: ys)%list) eqn:Hall; [|reflexivity].
      change (y :: ys) with ([y] ++ ys)%list in Hall.
      rewrite app_assoc in Hall. apply Hpre in Hall. congruence.
Qed.

Lemma for_each_insert_concat {A B : Type} (accepted : list B -> bool)
    (body : A -> list B -> Gen (list B)) (f : A -> Gen (list B)) xs :
  prefix_closed accepted ->
  (forall x table g, accepted table = true ->
     body x table g = inserted accepted table (f x g)) ->
  forall table g, accepted table = true ->
    for_each_insert body xs table g
    = inserted accepted table
        ((yss <- for_each f xs ;; ret (List.concat yss)) g).
Proof.
  intros Hpre Hbody. induction xs as [|x rest IH]; intros table g Hacc.
  - simpl. unfold bind, ret. simpl. rewrite app_nil_r, Hacc. reflexivity.
  - simpl. unfold bind at 1. rewrite (Hbody x table g Hacc).
    unfold bind. destruct (f x g) as [[ys g1]|]; [|reflexivity].
    simpl. destruct (accepted (table ++ ys)%list) eqn:Hy.
    + etransitivity; [apply IH; exact Hy|].
      unfold bind. destruct (for_each f rest g1) as [[yss g2]|];
        [|reflexivity].
      unfold ret. simpl. rewrite <- app_assoc. reflexivity.
    + destruct (for_each f rest g1) as [[yss g2]|]; [|reflexivity].
      unfold ret. simpl.
      destruct (accepted (table ++ ys ++ List.concat yss)%list) eqn:Hall;
        [|reflexivity].
      rewrite app_assoc in Hall. apply Hpre in Hall. congruence.
Qed.

Lemma run_for_each_insert_rows {A B : Type} (accepted : list B -> bool)
    (f : A -> Run B) xs :
  prefix_closed accepted ->
  forall table w, accepted table = true ->
    run_for_each_insert
      (fun x table' =>
         run_bind (f x) (fun y => execute_insert accepted y table'))
      xs table w
    = inserted accepted table (run_for_each f xs w).
Proof.
  intros Hpre. induction xs as [|x rest IH]; intros table w Hacc.
  - simpl. unfold run_ret. rewrite app_nil_r, Hacc. reflexivity.
  - simpl. unfold run_bind.
    destruct (f x w) as [[y w1]|]; [|reflexivity].
    unfold execute_insert at 1.
    destruct (accepted (table ++ [y])%list) eqn:Hy.
    + etransitivity; [apply IH; exact Hy|].
      unfold run_bind. destruct (run_for_each f rest w1) as [[ys w2]|];
        [|reflexivity].
      unfold run_ret. simpl. rewrite <- app_assoc. reflexivity.
    + unfold run_bind. destruct (run_for_each f rest w1) as [[ys w2]|];
        [|reflexivity].
      unfold run_ret. simpl.
      destruct (accepted (table ++ y :: ys)%list) eqn:Hall; [|reflexivity].
      change (y :: ys) with ([y] ++ ys)%list in Hall.
      rewrite app_assoc in Hall. apply Hpre in Hall. congruence.
Qed.

Lemma run_for_each_insert_concat {A B : Type} (accepted : list B -> bool)
    (body : A -> list B -> Run (list B)) (f : A -> Run (list B)) xs :
  prefix_closed accepted ->
  (forall x table w, accepted table = true ->
     body x table w = inserted accepted table (f x w)) ->
  forall table w, accepted table = true ->
    run_for_each_insert body xs table w
    = inserted accepted table
        (run_bind (run_for_each f xs)
                  (fun yss => run_ret (List.concat yss)) w).
Proof.
  intros Hpre Hbody. induction xs as [|x rest IH]; intros table w Hacc.
  - simpl. unfold run_bind, run_ret. simpl.
    rewrite app_nil_r, Hacc. reflexivity.
  - simpl. unfold run_bind at 1. rewrite (Hbody x table w Hacc).
    unfold run_bind. destruct (f x w) as [[ys w1]|]; [|reflexivity].
    simpl. destruct (accepted (table ++ ys)%list) eqn:Hy.
    + etransitivity; [apply IH; exact Hy|].
      unfold run_bind. destruct (run_for_each f rest w1) as [[yss w2]|];
        [|reflexivity].
      unfold run_ret. simpl. rewrite <- app_assoc. reflexivity.
    + destruct (run_for_each f rest w1) as [[yss w2]|]; [|reflexivity].
      unfold run_ret. simpl.
      destruct (accepted (table ++ ys ++ List.concat yss)%list) eqn:Hall;
        [|reflexivity].
      rewrite app_assoc in Hall. apply Hpre in Hall. congruence.
Qed.

(* ================================================================== *)
(** ** The generators with their INSERTs against the rows they build *)

Lemma bind_unfold {A B : Type} (m : Gen A) (k : A -> Gen B) g :
  bind m k g = match m g with
               | Some (a, g') => k a g'
               | None => None
               end.
Proof. reflexivity. Qed.

Lemma run_bind_unfold {A B : Type} (m : Run A) (k : A -> Run B) w :
  run_bind m k w = match m w with
                   | Some (a, w') => k a w'
                   | None => None
                   end.
Proof. reflexivity. Qed.

(** [generate_projects] returns exactly when its rows are all built and
    the [projects] table accepts them. *)
Lemma generate_projects_conn_spec businesses g :
  generate_projects_conn businesses g
  = inserted projects_accepted [] (generate_projects businesses g).
Proof.
  unfold generate_projects_conn, generate_projects, generate_projects_n.
  apply (for_each_insert_rows projects_accepted
           (fun _ : nat => generate_project businesses));
    [apply projects_accepted_prefix_closed|reflexivity].
Qed.

Lemma generate_businesses_conn_spec w :
  generate_businesses_conn w
  = inserted businesses_accepted [] (generate_businesses w).
Proof.
  unfold generate_businesses_conn, generate_businesses.
  apply (run_for_each_insert_rows businesses_accepted
           (fun _ : nat => generate_business));
    [apply businesses_accepted_prefix_closed|reflexivity].
Qed.

Lemma generate_estimators_conn_spec w :
  generate_estimators_conn w
  = inserted estimators_accepted [] (generate_estimators w).
Proof.
  unfold generate_estimators_conn, generate_estimators.
  apply (run_for_each_insert_rows estimators_accepted generate_estimator);
    [apply estimators_accepted_prefix_closed|reflexivity].
Qed.

Lemma estimator_expertise_conn_spec estimator table w :
  expertise_accepted table = true ->
  estimator_expertise_conn estimator table w
  = inserted expertise_accepted table (estimator_expertise estimator w).
Proof.
  intros Hacc. unfold estimator_expertise_conn, estimator_expertise.
  rewrite !run_bind_unfold.
  destruct (lift (random_randint 1 3) w) as [[n w1]|]; [|reflexivity].
  apply (run_for_each_insert_rows expertise_accepted
           (fun _ : Z => generate_expertise_row estimator));
    [apply expertise_accepted_prefix_closed|exact Hacc].
Qed.

Lemma generate_expertise_conn_spec estimators w :
  generate_expertise_conn estimators w
  = inserted expertise_accepted [] (generate_expertise estimators w).
Proof.
  unfold generate_expertise_conn, generate_expertise.
  apply (run_for_each_insert_concat expertise_accepted
           estimator_expertise_conn estimator_expertise);
    [apply expertise_accepted_prefix_closed| |reflexivity].
  intros est table wa Hacc. apply estimator_expertise_conn_spec. exact Hacc.
Qed.

Lemma project_estimates_conn_spec estimators project table g :
  estimates_accepted table = true ->
  project_estimates_conn estimators project table g
  = inserted estimates_accepted table
      (project_estimates estimators project g).
Proof.
  intros Hacc. unfold project_estimates_conn, project_estimates.
  rewrite !bind_unfold.
  destruct (random_random g) as [[mode g1]|]; [|reflexivity].
  destruct (Qlt_bool mode PROGRESSIVE_ESTIMATE_RATE).
  - unfold generate_progressive_estimates_conn,
      generate_progressive_estimates.
    rewrite !bind_unfold.
    destruct (random_choice estimators g1) as [[estimator g2]|];
      [|reflexivity].
    rewrite !bind_unfold.
    destruct (random_randint 2 MAX_PROGRESSIVE_ESTIMATES g2)
      as [[num g3]|]; [|reflexivity].
    cbv beta iota zeta. rewrite !bind_unfold.
    rewrite (for_each_insert_rows estimates_accepted
               (progressive_estimate project estimator num
                  (base_cost_of project) (Project.posted_date project))
               (range num) estimates_accepted_prefix_closed table g3 Hacc).
    destruct (for_each _ (range num) g3) as [[rows g4]|]; [|reflexivity].
    simpl. destruct (estimates_accepted (table ++ rows)%list); reflexivity.
  - rewrite !bind_unfold.
    destruct (random_randint 1 3 g1) as [[num g2]|]; [|reflexivity].
    rewrite !bind_unfold.
    destruct (random_sample estimators _ g2) as [[selected g3]|];
      [|reflexivity].
    apply (for_each_insert_rows estimates_accepted
             (single_estimate project));
      [apply estimates_accepted_prefix_closed|exact Hacc].
Qed.

Lemma generate_estimates_conn_spec projects estimators g :
  generate_estimates_conn projects estimators g
  = inserted estimates_accepted []
      (generate_estimates projects estimators g).
Proof.
  unfold generate_estimates_conn, generate_estimates.
  apply (for_each_insert_concat estimates_accepted
           (project_estimates_conn estimators)
           (project_estimates estimators));
    [apply estimates_accepted_prefix_closed| |reflexivity].
  intros p table ga Hacc. apply project_estimates_conn_spec. exact Hacc.
Qed.

Lemma reviews_accepted_prefix_closed : prefix_closed reviews_accepted.
Proof.
  intros rows more. unfold reviews_accepted.
  rewrite !andb_true_iff, map_app, forallb_app, andb_true_iff.
  intros [H1 [H2 _]]. split; [eapply distinct_app_l; exact H1|exact H2].
Qed.

Lemma for_each_ret {A : Type} (xs : list A) g :
  for_each ret xs g = Some (xs, g).
Proof.
  induction xs as [|x rest IH]; [reflexivity|].
  simpl. unfold bind, ret. unfold ret in IH. rewrite IH. reflexivity.
Qed.

Lemma project_review_conn_spec businesses estimators project table g :
  reviews_accepted table = true ->
  project_review_conn businesses estimators project table g
  = inserted reviews_accepted table
      (project_review businesses estimators project g).
Proof.
  intros Hacc. unfold project_review_conn. rewrite bind_unfold.
  destruct (project_review businesses estimators project g)
    as [[rows g1]|]; [|reflexivity].
  etransitivity;
    [apply (for_each_insert_rows reviews_accepted ret rows
              reviews_accepted_prefix_closed table g1 Hacc)|].
  rewrite for_each_ret. reflexivity.
Qed.

Lemma generate_reviews_conn_spec projects businesses estimators g :
  generate_reviews_conn projects businesses estimators g
  = inserted reviews_accepted []
      (generate_reviews projects businesses estimators g).
Proof.
  unfold generate_reviews_conn, generate_reviews. cbv zeta.
  apply (for_each_insert_concat reviews_accepted
           (project_review_conn businesses estimators)
           (project_review businesses estimators));
    [apply reviews_accepted_prefix_closed| |reflexivity].
  intros p table ga Hacc. apply project_review_conn_spec. exact Hacc.
Qed.

Lemma lift_inserted {A : Type} (accepted : list A -> bool)
    (m' m : Gen (list A)) w :
  (forall g, m' g = inserted accepted [] (m g)) ->
  lift m' w = inserted accepted [] (lift m w).
Proof.
  intros E. unfold lift. rewrite E.
  destruct (m (gens w)) as [[rows g1]|]; [|reflexivity].
  simpl. destruct (accepted rows); reflexivity.
Qed.

(** A generator that inserts its rows as it goes, followed by the rest of
    the run, against the same generator building its rows, the INSERTs,
    and the rest of the run. *)
Lemma run_bind_inserted {A B : Type} (accepted : list A -> bool)
    (m' m : Run (list A)) (k k' : list A -> Run B) w :
  m' w = inserted accepted [] (m w) ->
  (forall rows w1, k rows w1 = k' rows w1) ->
  run_bind m' k w
  = run_bind m (fun rows =>
      run_bind (insert_rows accepted rows) (fun _ => k' rows)) w.
Proof.
  intros E Hk. unfold run_bind, insert_rows. rewrite E.
  destruct (m w) as [[rows w1]|]; [|reflexivity].
  simpl. destruct (accepted rows); [apply Hk|reflexivity].
Qed.

(** The run with every INSERT inside its loop is the run of [main], which
    hands the rows of each generator to the database when the generator
    is done: both return the same database or both raise. *)
Lemma main_conn_spec w : main_conn w = main w.
Proof.
  unfold main_conn, main.
  apply (run_bind_inserted businesses_accepted);
    [apply generate_businesses_conn_spec|intros businesses w1].
  apply (run_bind_inserted estimators_accepted);
    [apply generate_estimators_conn_spec|intros estimators w2].
  apply (run_bind_inserted expertise_accepted);
    [apply generate_expertise_conn_spec|intros expertise w3].
  apply (run_bind_inserted projects_accepted);
    [apply lift_inserted; intros g; apply generate_projects_conn_spec
    |intros projects w4].
  apply (run_bind_inserted estimates_accepted);
    [apply lift_inserted; intros g; apply generate_estimates_conn_spec
    |intros estimates w5].
  apply (run_bind_inserted reviews_accepted);
    [apply lift_inserted; intros g; apply generate_reviews_conn_spec
    |intros reviews w6].
  reflexivity.
Qed.

(* ================================================================== *)
(** ** The uuids of the rows, in order *)

Lemma reads_nil {B : Type} (key : B -> N) (t : Tape) :
  reads_uuids key t [] t.
Proof. split; [reflexivity|intros n; reflexivity]. Qed.

Lemma reads_one {B : Type} (key : B -> N) (t t' : Tape) (y : B) :
  key y = (t 0%nat mod 2 ^ 128)%N -> t' = tl_tape t ->
  reads_uuids key t [y] t'.
Proof.
  intros Hkey ->. split; [simpl; rewrite Hkey; reflexivity|].
  intros n. reflexivity.
Qed.

Lemma map_seq_from {B : Type} (f : nat -> B) (a : nat) :
  forall n b, map f (seq (a + b) n) = map (fun i => f (a + i)%nat) (seq b n).
Proof.
  induction n as [|n IH]; intros b; simpl; [reflexivity|].
  f_equal. rewrite <- Nat.add_succ_r. apply IH.
Qed.

Lemma reads_app {B : Type} (key : B -> N) (t t1 t2 : Tape)
    (ys zs : list B) :
  reads_uuids key t ys t1 -> reads_uuids key t1 zs t2 ->
  reads_uuids key t (ys ++ zs) t2.
Proof.
  intros [Hys Hs1] [Hzs Hs2]. split.
  - rewrite map_app, length_app, seq_app, map_app, Hys, Hzs.
    f_equal. rewrite Nat.add_comm, map_seq_from.
    apply map_ext. intros i. rewrite Hs1. reflexivity.
  - rewrite length_app. apply (shifted_trans _ _ _ t1); assumption.
Qed.

(** Two equal uuids among those the rows read give two rows the same
    key. *)
Lemma reads_repeated {B : Type} (key : B -> N) (t t' : Tape) (ys : list B)
    (i j : nat) :
  reads_uuids key t ys t' ->
  (i < j < List.length ys)%nat ->
  (t i mod 2 ^ 128 = t j mod 2 ^ 128)%N ->
  distinct (map key ys) = false.
Proof.
  intros [Hkeys _] [Hij Hj] Hsame. rewrite Hkeys.
  apply (distinct_repeated _ i j (t i mod 2 ^ 128)%N).
  - intros ->. exact (Nat.lt_irrefl _ Hij).
  - apply (nth_error_map_seq (fun k : nat => (t k mod 2 ^ 128)%N)).
    exact (Nat.lt_trans _ _ _ Hij Hj).
  - rewrite Hsame.
    apply (nth_error_map_seq (fun k : nat => (t k mod 2 ^ 128)%N)).
    exact Hj.
Qed.

Lemma for_each_reads {A B : Type} (key : B -> N) (f : A -> Gen B) xs :
  (forall x g y g', f x g = Some (y, g') ->
     key y = (os_urandom g 0%nat mod 2 ^ 128)%N
     /\ os_urandom g' = tl_tape (os_urandom g)) ->
  forall g ys g', for_each f xs g = Some (ys, g') ->
  reads_uuids key (os_urandom g) ys (os_urandom g').
Proof.
  intros Hf. induction xs as [|x rest IH]; intros g ys g' H; simpl in H.
  - apply ret_Some in H. injection H as -> ->. apply reads_nil.
  - apply bind_Some in H. destruct H as (y & g1 & Hy & H).
    apply bind_Some in H. destruct H as (ys' & g2 & Hys & H).
    apply ret_Some in H. injection H as -> ->.
    destruct (Hf _ _ _ _ Hy) as [Hkey Hos].
    apply (reads_app key _ (os_urandom g1) _ [y] ys').
    + apply reads_one; assumption.
    + apply IH. exact Hys.
Qed.

Lemma for_each_reads_concat {A B : Type} (key : B -> N)
    (f : A -> Gen (list B)) xs :
  (forall x g ys g', f x g = Some (ys, g') ->
     reads_uuids key (os_urandom g) ys (os_urandom g')) ->
  forall g yss g', for_each f xs g = Some (yss, g') ->
  reads_uuids key (os_urandom g) (List.concat yss) (os_urandom g').
Proof.
  intros Hf. induction xs as [|x rest IH]; intros g yss g' H; simpl in H.
  - apply ret_Some in H. injection H as -> ->. apply reads_nil.
  - apply bind_Some in H. destruct H as (ys & g1 & Hy & H).
    apply bind_Some in H. destruct H as (yss' & g2 & Hys & H).
    apply ret_Some in H. injection H as -> ->.
    simpl. apply (reads_app key _ (os_urandom g1)).
    + eapply Hf. exact Hy.
    + apply IH. exact Hys.
Qed.

Lemma run_for_each_reads {A B : Type} (key : B -> N) (f : A -> Run B) xs :
  (forall x w y w', f x w = Some (y, w') ->
     key y = (os_urandom (gens w) 0%nat mod 2 ^ 128)%N
     /\ os_urandom (gens w') = tl_tape (os_urandom (gens w))) ->
  forall w ys w', run_for_each f xs w = Some (ys, w') ->
  reads_uuids key (os_urandom (gens w)) ys (os_urandom (gens w')).
Proof.
  intros Hf. induction xs as [|x rest IH]; intros w ys w' H; simpl in H.
  - apply run_ret_Some in H. injection H as -> ->. apply reads_nil.
  - run_step H y w1 Hy. run_step H ys' w2 Hys.
    apply run_ret_Some in H. injection H as -> ->.
    destruct (Hf _ _ _ _ Hy) as [Hkey Hos].
    apply (reads_app key _ (os_urandom (gens w1)) _ [y] ys').
    + apply reads_one; assumption.
    + apply IH. exact Hys.
Qed.

Lemma run_for_each_reads_concat {A B : Type} (key : B -> N)
    (f : A -> Run (list B)) xs :
  (forall x w ys w', f x w = Some (ys, w') ->
     reads_uuids key (os_urandom (gens w)) ys (os_urandom (gens w'))) ->
  forall w yss w', run_for_each f xs w = Some (yss, w') ->
  reads_uuids key (os_urandom (gens w)) (List.concat yss)
              (os_urandom (gens w')).
Proof.
  intros Hf. induction xs as [|x rest IH]; intros w yss w' H; simpl in H.
  - apply run_ret_Some in H. injection H as -> ->. apply reads_nil.
  - run_step H ys w1 Hy. run_step H yss' w2 Hys.
    apply run_ret_Some in H. injection H as -> ->.
    simpl. apply (reads_app key _ (os_urandom (gens w1))).
    + eapply Hf. exact Hy.
    + apply IH. exact Hys.
Qed.

Lemma generate_businesses_reads w rows w' :
  generate_businesses w = Some (rows, w') ->
  reads_uuids BusinessRow.business_id (os_urandom (gens w)) rows
              (os_urandom (gens w')).
Proof.
  unfold generate_businesses.
  apply (run_for_each_reads BusinessRow.business_id
           (fun _ : nat => generate_business) (seq 0 NUM_BUSINESSES)).
  intros _ wa b wb Hb.
  destruct (generate_business_keys _ _ _ Hb) as (Hid & Hos & _).
  split; assumption.
Qed.

Lemma generate_estimators_reads w rows w' :
  generate_estimators w = Some (rows, w') ->
  reads_uuids EstimatorRow.estimator_id (os_urandom (gens w)) rows
              (os_urandom (gens w')).
Proof.
  unfold generate_estimators.
  apply (run_for_each_reads EstimatorRow.estimator_id generate_estimator
           (seq 0 (NUM_CONSULTANTS + NUM_FREELANCERS))).
  intros i wa e wb He.
  destruct (generate_estimator_keys _ _ _ _ He) as (Hid & Hos & _).
  split; assumption.
Qed.

Lemma generate_expertise_reads estimators w rows w' :
  generate_expertise estimators w = Some (rows, w') ->
  reads_uuids Expertise.expertise_id (os_urandom (gens w)) rows
              (os_urandom (gens w')).
Proof.
  unfold generate_expertise. intros H.
  run_step H per w1 Hper. apply run_ret_Some in H. injection H as -> ->.
  apply (run_for_each_reads_concat Expertise.expertise_id
           estimator_expertise estimators); [|exact Hper].
  intros est wa ys wb Hys. unfold estimator_expertise in Hys.
  run_step Hys n w2 Hn. apply lift_Some in Hn.
  destruct Hn as (g2 & Hn & ->). apply random_randint_quiet in Hn.
  destruct Hn as [Hos _].
  change (os_urandom g2) with (os_urandom (gens (mkWorld g2 (clock wa))))
    in Hos.
  rewrite <- Hos.
  apply (run_for_each_reads Expertise.expertise_id
           (fun _ : Z => generate_expertise_row est) (range n));
    [|exact Hys].
  intros _ wc row wd Hrow.
  apply (generate_expertise_row_keys est). exact Hrow.
Qed.

Lemma project_estimates_reads estimators project g rows g' :
  project_estimates estimators project g = Some (rows, g') ->
  reads_uuids Estimate.estimate_id (os_urandom g) rows (os_urandom g').
Proof.
  unfold project_estimates. intros H.
  apply bind_Some in H. destruct H as (mode & g1 & Hmode & H).
  apply random_random_quiet in Hmode. destruct Hmode as [Hos1 _].
  rewrite <- Hos1.
  destruct (Qlt_bool mode PROGRESSIVE_ESTIMATE_RATE).
  - apply bind_Some in H. destruct H as ([rows0 n] & g2 & Hprog & H).
    apply ret_Some in H. injection H as -> ->.
    unfold generate_progressive_estimates in Hprog.
    apply bind_Some in Hprog. destruct Hprog as (est & g3 & Hest & Hprog).
    apply bind_Some in Hprog. destruct Hprog as (num & g4 & Hnum & Hprog).
    apply bind_Some in Hprog. destruct Hprog as (rs & g5 & Hrs & Hprog).
    apply ret_Some in Hprog. injection Hprog as -> -> ->.
    apply random_choice_quiet in Hest. destruct Hest as [Hos3 _].
    apply random_randint_quiet in Hnum. destruct Hnum as [Hos4 _].
    rewrite <- Hos3, <- Hos4.
    eapply for_each_reads; [|exact Hrs].
    intros seq ga e gb He. eapply progressive_estimate_keys. exact He.
  - apply bind_Some in H. destruct H as (num & g2 & Hnum & H).
    apply bind_Some in H. destruct H as (sel & g3 & Hsel & H).
    apply random_randint_quiet in Hnum. destruct Hnum as [Hos2 _].
    apply random_sample_quiet in Hsel. destruct Hsel as [Hos3 _].
    rewrite <- Hos2, <- Hos3.
    eapply for_each_reads; [|exact H].
    intros est ga e gb He. eapply single_estimate_keys. exact He.
Qed.

Lemma generate_estimates_reads projects estimators g rows g' :
  generate_estimates projects estimators g = Some (rows, g') ->
  reads_uuids Estimate.estimate_id (os_urandom g) rows (os_urandom g').
Proof.
  unfold generate_estimates. intros H.
  apply bind_Some in H. destruct H as (per & g1 & Hper & H).
  apply ret_Some in H. injection H as -> ->.
  eapply for_each_reads_concat; [|exact Hper].
  intros p ga ys gb Hys. eapply project_estimates_reads. exact Hys.
Qed.

Lemma generate_projects_reads businesses g rows g' :
  generate_projects businesses g = Some (rows, g') ->
  reads_uuids Project.project_id (os_urandom g) rows (os_urandom g').
Proof.
  unfold generate_projects, generate_projects_n. intros H.
  apply (for_each_reads Project.project_id
           (fun _ : nat => generate_project businesses)
           (seq 0 NUM_PROJECTS)); [|exact H].
  intros _ ga p gb Hp. apply (generate_project_keys businesses). exact Hp.
Qed.

(* ================================================================== *)
(** ** The tables the generators fill *)

(** X1.  With at least one business and 800 different uuids,
    [generate_projects] returns: it inserts exactly NUM_PROJECTS (800)
    projects, each owned by one of the businesses it was given (the
    foreign key of the [projects] table).  When two of the 800 uuids
    coincide it raises instead (the PRIMARY KEY of the table rejects the
    second INSERT). *)
Theorem generate_projects_count_and_owner businesses g :
  businesses <> [] ->
  (never_repeats NUM_PROJECTS (os_urandom g) ->
   exists projects g',
     generate_projects_conn businesses g = Some (projects, g')
     /\ List.length projects = 800%nat
     /\ forall p, In p projects ->
          exists business, In business businesses
            /\ Project.business_id p = Business.business_id business)
  /\ (forall i j : nat, (i < j < NUM_PROJECTS)%nat ->
        (os_urandom g i mod 2 ^ 128 = os_urandom g j mod 2 ^ 128)%N ->
        generate_projects_conn businesses g = None).
Proof.
  intros Hne.
  destruct (generate_projects_n_total NUM_PROJECTS businesses g Hne)
    as (projects & g' & Hrun & Hlen).
  fold (generate_projects businesses) in Hrun.
  split.
  - intros Huuid. exists projects, g'.
    destruct (minted_distinct Project.project_id _ _ projects
                NUM_PROJECTS NUM_PROJECTS Huuid
                (generate_projects_minted _ _ _ _ Hrun))
      as [Hkeys _]; [rewrite Hlen; apply Nat.le_refl|apply Nat.le_refl|].
    split.
    + rewrite generate_projects_conn_spec, Hrun.
      apply inserted_accepted. exact Hkeys.
    + split; [exact Hlen|]. intros p Hp.
      destruct (generate_projects_n_fields _ _ _ _ _ _ Hrun Hp)
        as (gi & gi' & Hbody).
      apply generate_project_fields in Hbody.
      destruct Hbody as (Hown & _). exact Hown.
  - intros i j Hij Hsame.
    rewrite generate_projects_conn_spec, Hrun.
    apply inserted_rejected.
    apply (reads_repeated Project.project_id _ _ projects i j
             (generate_projects_reads _ _ _ _ Hrun));
      [rewrite Hlen; exact Hij|exact Hsame].
Qed.

Lemma generate_projects_count_and_owner_witness :
  (exists projects g',
     generate_projects_conn Fixture.businesses (gens FixtureRun.world)
     = Some (projects, g')
     /\ List.length projects = 800%nat)
  /\ generate_projects_conn Fixture.businesses Fixture.generators = None.
Proof.
  split.
  - destruct (generate_projects_count_and_owner Fixture.businesses
                (gens FixtureRun.world)) as [Hreturns _]; [discriminate|].
    destruct Hreturns as (projects & g' & Hrun & Hlen & _).
    + apply (never_repeats_le MAX_UUIDS);
        [unfold MAX_UUIDS, NUM_PROJECTS; lia
        |exact fixture_uuids_never_repeat].
    + exists projects, g'. split; [exact Hrun|exact Hlen].
  - destruct (generate_projects_count_and_owner Fixture.businesses
                Fixture.generators) as [_ Hraises]; [discriminate|].
    apply (Hraises 8%nat 9%nat);
      [unfold NUM_PROJECTS; lia|reflexivity].
Defined.

(** X12.  With a non-empty estimator pool and uuids that do not repeat,
    [generate_estimates] returns, and the rows it inserted fall into one
    group per project, in the order of the projects: each group has
    between one and five rows, and every row of the group carries the id
    of that project and the id of an estimator of the pool (the two
    foreign keys of the [estimates] table).  Every project takes at least
    one uuid, so when two of the first uuids, as many as there are
    projects, coincide, [generate_estimates] raises instead (the PRIMARY
    KEY of the table rejects the second INSERT). *)
Theorem estimates_table_integrity projects estimators g :
  estimators <> [] ->
  (never_repeats (5 * List.length projects) (os_urandom g) ->
   exists per_project g',
     generate_estimates_conn projects estimators g
     = Some (List.concat per_project, g')
     /\ Forall2
          (fun project rows =>
             (1 <= List.length rows <= 5)%nat
             /\ forall e, In e rows ->
                  Estimate.project_id e = Project.project_id project
                  /\ exists estimator, In estimator estimators
                       /\ Estimate.estimator_id e
                          = Estimator.estimator_id estimator)
          projects per_project)
  /\ (forall i j : nat, (i < j < List.length projects)%nat ->
        (os_urandom g i mod 2 ^ 128 = os_urandom g j mod 2 ^ 128)%N ->
        generate_estimates_conn projects estimators g = None).
Proof.
  intros Hne.
  destruct (generate_estimates_total projects estimators g Hne)
    as (rows & g' & Hrun).
  destruct (generate_estimates_links _ _ _ _ _ Hne Hrun)
    as [[Hlow Hhigh] _].
  split.
  - intros Huuid.
    pose proof Hrun as Hsplit. unfold generate_estimates in Hsplit.
    apply bind_Some in Hsplit. destruct Hsplit as (per & g1 & Hper & Hret).
    apply ret_Some in Hret. injection Hret as -> ->.
    apply for_each_Forall2 in Hper.
    exists per, g1. split.
    + destruct (minted_distinct Estimate.estimate_id _ _ (List.concat per)
                  (5 * List.length projects) (5 * List.length projects)
                  Huuid (generate_estimates_minted _ _ _ _ _ Hrun))
        as [Hkeys _]; [exact Hhigh|apply Nat.le_refl|].
      rewrite generate_estimates_conn_spec, Hrun.
      apply inserted_accepted. exact Hkeys.
    + revert Hper. apply Forall2_impl. intros p ys (gi & gi' & Hys).
      destruct (project_estimates_count _ _ _ _ _ Hne Hys) as [Hlen Hest].
      split; [exact Hlen|]. intros e He.
      destruct (project_estimates_rows _ _ _ _ _ Hys e He) as [_ Hid].
      split; [exact Hid|apply Hest; exact He].
  - intros i j [Hij Hj] Hsame.
    rewrite generate_estimates_conn_spec, Hrun.
    apply inserted_rejected.
    apply (reads_repeated Estimate.estimate_id _ _ rows i j
             (generate_estimates_reads _ _ _ _ _ Hrun));
      [split; [exact Hij|exact (Nat.lt_le_trans _ _ _ Hj Hlow)]
      |exact Hsame].
Qed.

Lemma estimates_table_integrity_witness :
  (exists per_project g',
     generate_estimates_conn [Fixture.project] Fixture.estimators
       Fixture.generators = Some (List.concat per_project, g')
     /\ Forall2
          (fun project rows =>
             (1 <= List.length rows <= 5)%nat
             /\ forall e, In e rows ->
                  Estimate.project_id e = Project.project_id project)
          [Fixture.project] per_project)
  /\ generate_estimates_conn [Fixture.project; Fixture.project]
       Fixture.estimators (gens FixtureRun.same_uuid_world) = None.
Proof.
  split.
  - destruct (estimates_table_integrity [Fixture.project]
                Fixture.estimators Fixture.generators)
      as [Hreturns _]; [discriminate|].
    destruct Hreturns as (per & g' & Hrun & Hgroups).
    + intros i j Hi Hj H. simpl in Hi, Hj.
      destruct i as [|[|[|[|[|i]]]]]; try lia;
        destruct j as [|[|[|[|[|j]]]]]; try lia;
        try reflexivity; vm_compute in H; discriminate H.
    + exists per, g'. split; [exact Hrun|].
      revert Hgroups. apply Forall2_impl.
      intros p rows [Hlen Hrows]. split; [exact Hlen|].
      intros e He. apply (Hrows e He).
  - destruct (estimates_table_integrity
                [Fixture.project; Fixture.project] Fixture.estimators
                (gens FixtureRun.same_uuid_world))
      as [_ Hraises]; [discriminate|].
    apply (Hraises 0%nat 1%nat); [simpl; lia|reflexivity].
Defined.

(** X15.  When uuids do not repeat, [generate_reviews] returns, and the
    reviews it inserted fall into one group per completed project, in
    the order of the projects, no group having more than one row:
    reviews are written for completed projects only, at most one per
    completed project.  The review of a project carries that project's
    id; its reviewer is the business that owns the project and is one of
    the given businesses, its reviewee is an estimator of the pool. *)
Theorem reviews_reference_completed_projects projects businesses
    estimators g :
  estimators <> [] ->
  (forall p, In p projects -> Project.status p = "completed" ->
     exists b, In b businesses
               /\ Business.business_id b = Project.business_id p) ->
  never_repeats
    (List.length
       (filter (fun p => String.eqb (Project.status p) "completed")
               projects))
    (os_urandom g) ->
  exists per_project g',
    generate_reviews_conn projects businesses estimators g
    = Some (List.concat per_project, g')
    /\ Forall2
         (fun p rows =>
            In p projects /\ Project.status p = "completed"
            /\ (List.length rows <= 1)%nat
            /\ forall r, In r rows ->
                 Review.project_id r = Project.project_id p
                 /\ Review.reviewer_id r = Project.business_id p
                 /\ (exists b, In b businesses
                       /\ Review.reviewer_id r = Business.business_id b)
                 /\ (exists e, In e estimators
                       /\ Review.reviewee_id r = Estimator.estimator_id e)
                 /\ Review.reviewer_type r = "business"
                 /\ Review.reviewee_type r = "estimator")
         (filter (fun p => String.eqb (Project.status p) "completed")
                 projects)
         per_project.
Proof.
  intros Hne Hown Huuid.
  destruct (generate_reviews_total projects businesses estimators g Hne Hown)
    as (rows & g' & Hrun).
  destruct (generate_reviews_rows _ _ _ _ _ _ Hrun) as [Hcount _].
  pose proof (generate_reviews_checks _ _ _ _ _ _ Hrun) as Hchecks.
  destruct (minted_distinct Review.review_id _ _ rows _ _ Huuid
              (generate_reviews_minted _ _ _ _ _ _ Hrun) Hcount
              (Nat.le_refl _)) as [Hkeys _].
  assert (Hconn : generate_reviews_conn projects businesses estimators g
                  = Some (rows, g')).
  { rewrite generate_reviews_conn_spec, Hrun.
    apply inserted_accepted. unfold reviews_accepted.
    apply andb_true_iff. split; [exact Hkeys|exact Hchecks]. }
  clear Hcount Hchecks Hkeys Huuid.
  unfold generate_reviews in Hrun.
  apply bind_Some in Hrun. destruct Hrun as (per & g1 & Hper & Hret).
  apply ret_Some in Hret. injection Hret as -> ->.
  exists per, g1. split; [exact Hconn|]. clear Hconn.
  apply for_each_Forall2 in Hper.
  apply (Forall2_impl_Forall
           (fun p => In p projects /\ Project.status p = "completed")
           (fun p rows => exists gi gi',
              project_review businesses estimators p gi
              = Some (rows, gi')));
    [| |exact Hper].
  - apply Forall_forall. intros p Hp. apply completed_filter_In. exact Hp.
  - intros p ys [Hp Hs] (gi & gi' & Hbody).
    split; [exact Hp|]. split; [exact Hs|].
    destruct (project_review_row _ _ _ _ _ _ Hbody)
      as (skip & gs & _ & [[_ ->]|[_ (r0 & -> & Hpid & Hrid
            & (b & Hb & Hbid) & (e & He & Heid) & Ht1 & Ht2 & _)]]).
    + split; [simpl; lia|]. intros r [].
    + split; [simpl; lia|]. intros r [<-|[]].
      split; [exact Hpid|]. split; [exact Hrid|].
      split; [exists b; split; [exact Hb|symmetry; exact Hbid]|].
      split; [exists e; split; [exact He|symmetry; exact Heid]|].
      split; [exact Ht1|exact Ht2].
Qed.

Lemma reviews_reference_completed_projects_witness :
  exists per_project g',
    generate_reviews_conn FixtureReviews.projects Fixture.businesses
      Fixture.estimators FixtureReviews.generators
    = Some (List.concat per_project, g')
    /\ Forall2
         (fun p rows =>
            Project.status p = "completed"
            /\ (List.length rows <= 1)%nat
            /\ forall r, In r rows ->
                 Review.project_id r = Project.project_id p)
         (filter (fun p => String.eqb (Project.status p) "completed")
                 FixtureReviews.projects)
         per_project.
Proof.
  destruct (reviews_reference_completed_projects FixtureReviews.projects
              Fixture.businesses Fixture.estimators
              FixtureReviews.generators) as (per & g' & Hrun & Hrows).
  - discriminate.
  - intros p [<-|[<-|[]]] _; exists (Business.mk 501%N);
      (split; [left; reflexivity|reflexivity]).
  - intros i j Hi Hj _. simpl in Hi, Hj. lia.
  - exists per, g'. split; [exact Hrun|].
    revert Hrows. apply Forall2_impl.
    intros p rows (_ & Hs & Hlen & Hr).
    split; [exact Hs|]. split; [exact Hlen|].
    intros r Hin. apply (Hr r Hin).
Defined.

(** X18.  When every estimator has at least two years of experience and
    uuids do not repeat, [generate_expertise] returns, and the rows it
    inserted fall into one group per estimator, in the order of the
    estimators: each group has between one and three rows, and every row
    of the group carries the id of that estimator, names one of the
    SPECIALIZATIONS, and has [years_in_specialty] between 2 and that
    estimator's [years_experience].  Every estimator takes at least one
    uuid, so when two of the first uuids, as many as there are
    estimators, coincide, [generate_expertise] raises instead. *)
Theorem expertise_rows_per_estimator estimators w :
  (forall estimator, In estimator estimators ->
     2 <= EstimatorRow.years_experience estimator) ->
  (never_repeats (3 * List.length estimators) (os_urandom (gens w)) ->
   exists per_estimator w',
     generate_expertise_conn estimators w
     = Some (List.concat per_estimator, w')
     /\ Forall2
          (fun estimator rows =>
             (1 <= List.length rows <= 3)%nat
             /\ forall row, In row rows ->
                  Expertise.estimator_id row
                  = EstimatorRow.estimator_id estimator
                  /\ In (Expertise.specialization_type row)
                        SPECIALIZATIONS
                  /\ 2 <= Expertise.years_in_specialty row
                       <= EstimatorRow.years_experience estimator)
          estimators per_estimator)
  /\ (forall i j : nat, (i < j < List.length estimators)%nat ->
        (os_urandom (gens w) i mod 2 ^ 128
         = os_urandom (gens w) j mod 2 ^ 128)%N ->
        generate_expertise_conn estimators w = None).
Proof.
  intros Hy.
  destruct (generate_expertise_total estimators w Hy) as [[rows w'] Hrun].
  destruct (generate_expertise_rows (fun _ => True) (fun _ _ => I)
              estimators w rows w' I Hrun) as (_ & [Hlow Hhigh] & _).
  split.
  - intros Huuid.
    pose proof Hrun as Hsplit. unfold generate_expertise in Hsplit.
    run_step Hsplit per w1 Hper.
    apply run_ret_Some in Hsplit. injection Hsplit as -> ->.
    apply run_for_each_Forall2 in Hper.
    exists per, w1. split.
    + destruct (minted_distinct Expertise.expertise_id _ _
                  (List.concat per) (3 * List.length estimators)
                  (3 * List.length estimators) Huuid
                  (generate_expertise_minted _ _ _ _ Hrun))
        as [Hkeys _]; [exact Hhigh|apply Nat.le_refl|].
      rewrite generate_expertise_conn_spec, Hrun.
      apply inserted_accepted. exact Hkeys.
    + revert Hper. apply Forall2_impl. intros est ys (wi & wi' & Hys).
      destruct (estimator_expertise_rows (fun _ => True) (fun _ _ => I)
                  est wi ys wi' I Hys) as (_ & Hlen & Hrows).
      split; [exact Hlen|]. intros row Hrow.
      destruct (Hrows row Hrow) as (wj & wj' & _ & Hbody).
      destruct (generate_expertise_row_spec _ _ _ _ Hbody)
        as (Hid & Hyears & Hspec & _).
      split; [exact Hid|]. split; [exact Hspec|exact Hyears].
  - intros i j [Hij Hj] Hsame.
    rewrite generate_expertise_conn_spec, Hrun.
    apply inserted_rejected.
    apply (reads_repeated Expertise.expertise_id _ _ rows i j
             (generate_expertise_reads _ _ _ _ Hrun));
      [split; [exact Hij|exact (Nat.lt_le_trans _ _ _ Hj Hlow)]
      |exact Hsame].
Qed.

Lemma expertise_rows_per_estimator_witness :
  (exists per_estimator w',
     generate_expertise_conn [FixtureExpertise.estimator]
       FixtureExpertise.world = Some (List.concat per_estimator, w')
     /\ Forall2
          (fun estimator rows =>
             (1 <= List.length rows <= 3)%nat
             /\ forall row, In row rows ->
                  Expertise.estimator_id row
                  = EstimatorRow.estimator_id estimator)
          [FixtureExpertise.estimator] per_estimator)
  /\ generate_expertise_conn
       [FixtureExpertise.estimator; FixtureExpertise.estimator]
       FixtureRun.same_uuid_world = None.
Proof.
  split.
  - destruct (expertise_rows_per_estimator [FixtureExpertise.estimator]
                FixtureExpertise.world) as [Hreturns _].
    { intros est [<-|[]]. simpl. lia. }
    destruct Hreturns as (per & w' & Hrun & Hgroups).
    + intros i j Hi Hj H. simpl in Hi, Hj.
      destruct i as [|[|[|i]]]; try lia;
        destruct j as [|[|[|j]]]; try lia;
        try reflexivity; vm_compute in H; discriminate H.
    + exists per, w'. split; [exact Hrun|].
      revert Hgroups. apply Forall2_impl.
      intros est rows [Hlen Hrows]. split; [exact Hlen|].
      intros row Hrow. apply (Hrows row Hrow).
  - destruct (expertise_rows_per_estimator
                [FixtureExpertise.estimator; FixtureExpertise.estimator]
                FixtureRun.same_uuid_world) as [_ Hraises].
    { intros est [<-|[<-|[]]]; simpl; lia. }
    apply (Hraises 0%nat 1%nat); [simpl; lia|reflexivity].
Defined.

(** X22.  With 350 different uuids and 350 different e-mails,
    [generate_estimators] returns and inserts 350 rows.  The first 100
    are consultants, with 8 to 35 years of experience, an hourly rate of
    125 to 350 and a minimum project fee of 5,000 to 25,000; the other 250
    are freelance experts, with 3 to 25 years, 75 to 200 and 2,000 to
    10,000.  When two of the 350 uuids or two of the 350 e-mails coincide
    it raises instead (PRIMARY KEY, UNIQUE). *)
Theorem generate_estimators_by_type w :
  (never_repeats (NUM_CONSULTANTS + NUM_FREELANCERS)
                 (os_urandom (gens w)) ->
   emails_differ (NUM_CONSULTANTS + NUM_FREELANCERS) (faker (gens w)) ->
   exists rows w',
     generate_estimators_conn w = Some (rows, w')
     /\ List.length rows = 350%nat
     /\ forall i e, nth_error rows i = Some e ->
          ((i < 100)%nat ->
             EstimatorRow.estimator_type e = "consultant"
             /\ 8 <= EstimatorRow.years_experience e <= 35
             /\ (125 <= EstimatorRow.hourly_rate e
                 /\ EstimatorRow.hourly_rate e <= 350)%Q
             /\ (5000 <= EstimatorRow.minimum_project_fee e
                 /\ EstimatorRow.minimum_project_fee e <= 25000)%Q)
          /\ ((100 <= i)%nat ->
                EstimatorRow.estimator_type e = "freelance_expert"
                /\ 3 <= EstimatorRow.years_experience e <= 25
                /\ (75 <= EstimatorRow.hourly_rate e
                    /\ EstimatorRow.hourly_rate e <= 200)%Q
                /\ (2000 <= EstimatorRow.minimum_project_fee e
                    /\ EstimatorRow.minimum_project_fee e <= 10000)%Q))
  /\ (forall i j : nat,
        (i < j < NUM_CONSULTANTS + NUM_FREELANCERS)%nat ->
        (os_urandom (gens w) i mod 2 ^ 128
         = os_urandom (gens w) j mod 2 ^ 128)%N
        \/ faker (gens w) (7 * i + 5)%nat = faker (gens w) (7 * j + 5)%nat ->
        generate_estimators_conn w = None).
Proof.
  destruct (generate_estimators_total w) as (rows & w' & Hrun & Hlen).
  destruct (generate_estimators_keys _ _ _ Hrun) as [Hminted Hemails].
  split.
  - intros Huuid Hmail. exists rows, w'.
    destruct (minted_distinct EstimatorRow.estimator_id _ _ rows
                (NUM_CONSULTANTS + NUM_FREELANCERS)
                (NUM_CONSULTANTS + NUM_FREELANCERS) Huuid Hminted)
      as [Hkeys _]; [rewrite Hlen; apply Nat.le_refl|apply Nat.le_refl|].
    split.
    { rewrite generate_estimators_conn_spec, Hrun.
      apply inserted_accepted. unfold estimators_accepted.
      apply andb_true_iff. split; [exact Hkeys|].
      rewrite Hemails. apply distinct_map_seq. exact Hmail. }
    split; [exact Hlen|].
    intros i e He.
    destruct (generate_estimators_nth _ _ _ _ _ Hrun He)
      as (wi & wi' & Hbody).
    destruct (generate_estimator_spec _ _ _ _ Hbody) as (Htype & Hpay & _).
    unfold NUM_CONSULTANTS in Htype, Hpay.
    destruct (Nat.ltb_spec i 100) as [Hlt|Hge].
    + split; [intros _; split; [exact Htype|exact Hpay]|intros Hge; lia].
    + split; [intros Hlt; lia|intros _; split; [exact Htype|exact Hpay]].
  - intros i j [Hij Hj] Hsame.
    rewrite generate_estimators_conn_spec, Hrun.
    apply inserted_rejected. unfold estimators_accepted.
    apply andb_false_iff. destruct Hsame as [Hsame|Hsame]; [left|right].
    + apply (reads_repeated EstimatorRow.estimator_id _ _ rows i j
               (generate_estimators_reads _ _ _ Hrun));
        [rewrite Hlen; split; [exact Hij|exact Hj]|exact Hsame].
    + rewrite Hemails.
      apply (distinct_repeated _ i j (faker (gens w) (7 * i + 5)%nat)).
      * intros ->. exact (Nat.lt_irrefl _ Hij).
      * apply (nth_error_map_seq
                 (fun k : nat => faker (gens w) (7 * k + 5)%nat)).
        exact (Nat.lt_trans _ _ _ Hij Hj).
      * rewrite Hsame.
        apply (nth_error_map_seq
                 (fun k : nat => faker (gens w) (7 * k + 5)%nat)).
        exact Hj.
Qed.

Lemma fixture_emails_differ (n : nat) :
  emails_differ n (faker (gens FixtureRun.world)).
Proof.
  intros i j _ _ H.
  unfold FixtureRun.world in H. cbn [gens faker] in H. lia.
Qed.

Lemma fixture_uuids_differ (n : nat) :
  (n <= MAX_UUIDS)%nat ->
  never_repeats n (os_urandom (gens FixtureRun.world)).
Proof.
  intros Hn. apply (never_repeats_le MAX_UUIDS); [exact Hn|].
  exact fixture_uuids_never_repeat.
Qed.

Lemma generate_estimators_by_type_witness :
  (exists rows w',
     generate_estimators_conn FixtureRun.world = Some (rows, w')
     /\ List.length rows = 350%nat)
  /\ generate_estimators_conn FixtureRun.same_email_world = None.
Proof.
  split.
  - destruct (generate_estimators_by_type FixtureRun.world)
      as [Hreturns _].
    destruct Hreturns as (rows & w' & Hrun & Hlen & _).
    + apply fixture_uuids_differ.
      unfold MAX_UUIDS, NUM_CONSULTANTS, NUM_FREELANCERS. lia.
    + apply fixture_emails_differ.
    + exists rows, w'. split; [exact Hrun|exact Hlen].
  - destruct (generate_estimators_by_type FixtureRun.same_email_world)
      as [_ Hraises].
    apply (Hraises 0%nat 1%nat);
      [unfold NUM_CONSULTANTS, NUM_FREELANCERS; lia|right; reflexivity].
Defined.

(** X24.  With 150 different uuids and 150 different e-mails,
    [generate_businesses] returns and inserts 150 rows; each has its
    city and state from MAJOR_CITIES, a sector, a type and a size from
    the three tables, 1 to 50 years in business, a reputation score
    between 1 and 5, a revenue that is not negative and a registration
    date between START_DATE and 180 days before END_DATE.  When two of
    the 150 uuids or two of the 150 e-mails coincide it raises instead
    (PRIMARY KEY, UNIQUE). *)
Theorem generate_businesses_profile w :
  (never_repeats NUM_BUSINESSES (os_urandom (gens w)) ->
   emails_differ NUM_BUSINESSES (faker (gens w)) ->
   exists rows w',
     generate_businesses_conn w = Some (rows, w')
     /\ List.length rows = 150%nat
     /\ forall b, In b rows ->
          In (BusinessRow.city b, BusinessRow.state b) MAJOR_CITIES
          /\ In (BusinessRow.industry_sector b) INDUSTRY_SECTORS
          /\ In (BusinessRow.business_type b) BUSINESS_TYPES
          /\ In (BusinessRow.company_size b) COMPANY_SIZES
          /\ 1 <= BusinessRow.years_in_business b <= 50
          /\ (1 <= BusinessRow.reputation_score b
              /\ BusinessRow.reputation_score b <= 5)%Q
          /\ (0 <= BusinessRow.annual_revenue b)%Q
          /\ date START_DATE <= BusinessRow.registration_date b
               <= date END_DATE - 180)
  /\ (forall i j : nat, (i < j < NUM_BUSINESSES)%nat ->
        (os_urandom (gens w) i mod 2 ^ 128
         = os_urandom (gens w) j mod 2 ^ 128)%N
        \/ faker (gens w) (7 * i + 5)%nat = faker (gens w) (7 * j + 5)%nat ->
        generate_businesses_conn w = None).
Proof.
  destruct (generate_businesses_total w) as (rows & w' & Hrun & Hlen).
  destruct (generate_businesses_keys _ _ _ Hrun)
    as (Hminted & Hemails & _).
  split.
  - intros Huuid Hmail. exists rows, w'.
    destruct (minted_distinct BusinessRow.business_id _ _ rows
                NUM_BUSINESSES NUM_BUSINESSES Huuid Hminted)
      as [Hkeys _]; [rewrite Hlen; apply Nat.le_refl|apply Nat.le_refl|].
    split.
    { rewrite generate_businesses_conn_spec, Hrun.
      apply inserted_accepted. unfold businesses_accepted.
      apply andb_true_iff. split; [exact Hkeys|].
      rewrite Hemails. apply distinct_map_seq. exact Hmail. }
    split; [exact Hlen|].
    intros b Hb. unfold generate_businesses in Hrun.
    destruct (run_for_each_In _ _ _ _ _ _ Hrun Hb)
      as (x & wi & wi' & _ & Hbody).
    destruct (generate_business_spec _ _ _ Hbody)
      as (Hcity & Hreg & Hsector & Htype & Hsize & Hrev & Hyears & _ & _
          & Hrep & _).
    split; [exact Hcity|]. split; [exact Hsector|]. split; [exact Htype|].
    split; [exact Hsize|]. split; [exact Hyears|]. split; [exact Hrep|].
    split; [exact Hrev|].
    change (date (END_DATE - timedelta_days 180))
      with (date END_DATE - 180) in Hreg. exact Hreg.
  - intros i j [Hij Hj] Hsame.
    rewrite generate_businesses_conn_spec, Hrun.
    apply inserted_rejected. unfold businesses_accepted.
    apply andb_false_iff. destruct Hsame as [Hsame|Hsame]; [left|right].
    + apply (reads_repeated BusinessRow.business_id _ _ rows i j
               (generate_businesses_reads _ _ _ Hrun));
        [rewrite Hlen; split; [exact Hij|exact Hj]|exact Hsame].
    + rewrite Hemails.
      apply (distinct_repeated _ i j (faker (gens w) (7 * i + 5)%nat)).
      * intros ->. exact (Nat.lt_irrefl _ Hij).
      * apply (nth_error_map_seq
                 (fun k : nat => faker (gens w) (business_email_draw k))).
        exact (Nat.lt_trans _ _ _ Hij Hj).
      * rewrite Hsame.
        apply (nth_error_map_seq
                 (fun k : nat => faker (gens w) (business_email_draw k))).
        exact Hj.
Qed.

Lemma generate_businesses_profile_witness :
  (exists rows w',
     generate_businesses_conn FixtureRun.world = Some (rows, w')
     /\ List.length rows = 150%nat)
  /\ generate_businesses_conn FixtureRun.same_email_world = None.
Proof.
  split.
  - destruct (generate_businesses_profile FixtureRun.world)
      as [Hreturns _].
    destruct Hreturns as (rows & w' & Hrun & Hlen & _).
    + apply fixture_uuids_differ. unfold MAX_UUIDS, NUM_BUSINESSES. lia.
    + apply fixture_emails_differ.
    + exists rows, w'. split; [exact Hrun|exact Hlen].
  - destruct (generate_businesses_profile FixtureRun.same_email_world)
      as [_ Hraises].
    apply (Hraises 0%nat 1%nat);
      [unfold NUM_BUSINESSES; lia|right; reflexivity].
Defined.

